(** * xtb-api-client: the protocol engine of [src/client.ts]

    A shallow embedding of [BaseClient], [XTBClient] and
    [StreamingXTBClient].  One value of type [Client] is one client object
    together with the part of the Node runtime it talks to: its WebSocket,
    the state of the [p-throttle] limiter built in the constructor, the
    timers it armed and the promises it handed out.  One [event] is one
    macrotask of the event loop (a transport event, a millisecond of the
    clock, or a call of a public method); promise reactions are run to
    completion inside the macrotask that settles the promise.

    The client is built on [ws], [p-throttle] and Node's timers.  What it
    relies on of them is written out where it is used: [sendMessage] and
    [ping] for the socket, [window] and [sendThrottled] for the limiter,
    [timer_delay] and [tick] for the timers, which fire in the millisecond
    they are due.

    The embedding comes first, then the views, relations and invariants
    the statements are written with, then the lemmas, and last the
    behaviour of a session, C1 to C10. *)

From Stdlib Require Import ZArith List String Bool Lia Permutation.
Import ListNotations.
Local Open Scope string_scope.
Local Open Scope list_scope.
Local Open Scope Z_scope.

(** ** JavaScript values

    The values the client handles are JSON documents and [undefined].
    Numbers are restricted to integers. *)

#[local] Set Warnings "-register-all".

Inductive json : Type :=
| JUndefined
| JNull
| JBool (b : bool)
| JNum (n : Z)
| JStr (s : string)
| JArr (items : list json)
| JObj (fields : list (string * json)).

(** The own properties of an object, in insertion order. *)
Definition object := list (string * json).

(** [new Error(x)], [TypeError] and [SyntaxError] as thrown by the runtime;
    [Error] keeps the value that was handed to the constructor. *)
Inductive error : Type :=
| Error (message : json)
| TypeError (message : string)
| SyntaxError (message : string).

Fixpoint obj_get (o : object) (k : string) : json :=
  match o with
  | [] => JUndefined
  | (k', v) :: rest => if String.eqb k' k then v else obj_get rest k
  end.

(** [o[k] = v]: an existing key keeps its place. *)
Fixpoint obj_set (o : object) (k : string) (v : json) : object :=
  match o with
  | [] => [(k, v)]
  | (k', v') :: rest =>
      if String.eqb k' k then (k', v) :: rest else (k', v') :: obj_set rest k v
  end.

(** [{ ...a, ...b }] *)
Definition spread (a b : object) : object :=
  fold_left (fun acc kv => obj_set acc (fst kv) (snd kv)) b a.

(** [x.k] for a value that came out of [JSON.parse]. *)
Definition prop (x : json) (k : string) : error + json :=
  match x with
  | JObj o => inr (obj_get o k)
  | JNull => inl (TypeError "Cannot read properties of null")
  | JUndefined => inl (TypeError "Cannot read properties of undefined")
  | _ => inr JUndefined
  end.

Definition truthy (x : json) : bool :=
  match x with
  | JUndefined | JNull => false
  | JBool b => b
  | JNum n => negb (n =? 0)
  | JStr s => negb (String.eqb s "")
  | JArr _ | JObj _ => true
  end.

(** [x === s] for a string [s]. *)
Definition strict_eq_str (x : json) (s : string) : bool :=
  match x with
  | JStr s' => String.eqb s' s
  | _ => false
  end.

(** What [JSON.parse (JSON.stringify x)] gives back: properties holding
    [undefined] are dropped, [undefined] array items become [null]. *)
Fixpoint JSON_roundtrip (x : json) : json :=
  match x with
  | JArr items =>
      JArr (map (fun i => match i with
                          | JUndefined => JNull
                          | _ => JSON_roundtrip i
                          end) items)
  | JObj o =>
      JObj ((fix fields (o : object) : object :=
               match o with
               | [] => []
               | (k, v) :: rest =>
                   match v with
                   | JUndefined => fields rest
                   | _ => (k, JSON_roundtrip v) :: fields rest
                   end
               end) o)
  | _ => x
  end.

(** The text of a WebSocket frame, represented by the document it parses
    to, or [Malformed] when it is not JSON. *)
Inductive Data : Type :=
| Text (doc : json)
| Malformed (raw : string).

Definition JSON_stringify (o : object) : Data := Text (JSON_roundtrip (JObj o)).

Definition JSON_parse (d : Data) : error + json :=
  match d with
  | Text doc => inr doc
  | Malformed _ => inl (SyntaxError "Unexpected token in JSON")
  end.

(** ** Configuration *)

Inductive XTBMode : Type := demo | real.

Record ClientConfig : Type := {
  pingInterval : option Z;
  commandThrottleInterval : option Z
}.

(** [x ?? d] *)
Definition nullish (x : option Z) (d : Z) : Z :=
  match x with Some v => v | None => d end.

Definition url (mode : XTBMode) (streaming : bool) : string :=
  String.append "wss://ws.xtb.com/"
    (String.append (match mode with demo => "demo" | real => "real" end)
       (if streaming then "Stream" else "")).

(** ** Promises, listeners and timers

    Closures are represented by the data they captured. *)

Inductive pstate : Type :=
| Pending
| Fulfilled (v : json)
| Rejected (e : error).

(** What an API method does once the promise of its
    [sendCommandAndAwaitResponse] settles; [outer] is the promise the method
    returned to its caller. *)
Inductive cont : Type :=
| KNone
| KLogin (outer : nat)
| KReturnData (outer : nat)
| KLogoutClose (outer : nat).

(** Who waits for the promise of a [_sendThrottled] call. *)
Inductive waiter : Type :=
| AwaitOpenPing
| AwaitIntervalPing
| AwaitCall (p : nat) (timeout : option Z)
| AwaitCaller (q : nat)
| AwaitDiscarded.

(** The listeners of the socket's [message] event: the [onData] closure of
    one correlated call (identified by the promise it resolves), and the
    handler the streaming constructor installs. *)
Inductive listener : Type :=
| OnData (requestId : string) (p : nat)
| ProcessMessage.

Inductive callback : Type :=
| CbTimeout (p : nat)
| CbPing
| CbThrottle (data : Data) (w : waiter).

Record timer : Type := {
  tid : nat;
  due : Z;
  period : option Z;
  action : callback
}.

Inductive ReadyState : Type := CONNECTING | OPEN | CLOSING | CLOSED.

(** ** The client and its runtime *)

(** The [ws] socket.  [wire] holds the frames written with [send] while
    the socket was open (newest first) with the time of the write; [callbacks] the
    completion callbacks of [send] that the socket has not called yet, keyed
    by the position of the frame on the wire; [pings] the times of the
    protocol-level pings. *)
Record Socket : Type := {
  readyState : ReadyState;
  on_message : list listener;
  wire : list (Z * Data);
  callbacks : list (nat * waiter);
  pings : list Z
}.

(** The closure state of [pThrottle({limit: 1, interval})] (windowed mode),
    with two ghost logs, both newest first: the messages handed to
    [_sendThrottled], and the calls of the wrapped [sendMessage] with their
    time. *)
Record Throttle : Type := {
  currentTick : Z;
  activeCount : Z;
  submitted : list Data;
  dispatched : list (Z * Data)
}.

(** The clock (milliseconds) and the timer list, in creation order.
    [overlong] records that some timer was asked for a delay above
    [TIMEOUT_MAX]. *)
Record Loop : Type := {
  now : Z;
  timers : list timer;
  next_timer : nat;
  overlong : bool
}.

(** The argument of an [emit] on the client. *)
Inductive arg : Type :=
| NoArg
| Arg (v : json)
| ErrArg (e : error).

Inductive log : Type :=
| ConsoleError (e : error)
| ConsoleWarn (text : string) (x : json).

(** What the client shows to the outside, newest first: events emitted on
    the client, console output, rejections nobody handles, exceptions that
    escape a listener. *)
Record Trace : Type := {
  emitted : list (string * arg);
  console : list log;
  unhandled : list error;
  uncaught : list error
}.

Record Client : Type := {
  _mode : XTBMode;
  _streaming : bool;
  config : ClientConfig;
  _isLoggedIn : bool;
  _streamSessionId : json;
  _pingInterval : option nat;
  _ws : Socket;
  throttle : Throttle;
  loop : Loop;
  promises : list (pstate * cont);
  returned : list pstate;
  trace : Trace
}.

(** *** Field updates *)

Definition with_ws (f : Socket -> Socket) (s : Client) : Client :=
  {| _mode := _mode s; _streaming := _streaming s; config := config s;
     _isLoggedIn := _isLoggedIn s; _streamSessionId := _streamSessionId s;
     _pingInterval := _pingInterval s; _ws := f (_ws s);
     throttle := throttle s; loop := loop s; promises := promises s;
     returned := returned s; trace := trace s |}.

Definition with_throttle (f : Throttle -> Throttle) (s : Client) : Client :=
  {| _mode := _mode s; _streaming := _streaming s; config := config s;
     _isLoggedIn := _isLoggedIn s; _streamSessionId := _streamSessionId s;
     _pingInterval := _pingInterval s; _ws := _ws s;
     throttle := f (throttle s); loop := loop s; promises := promises s;
     returned := returned s; trace := trace s |}.

Definition with_loop (f : Loop -> Loop) (s : Client) : Client :=
  {| _mode := _mode s; _streaming := _streaming s; config := config s;
     _isLoggedIn := _isLoggedIn s; _streamSessionId := _streamSessionId s;
     _pingInterval := _pingInterval s; _ws := _ws s;
     throttle := throttle s; loop := f (loop s); promises := promises s;
     returned := returned s; trace := trace s |}.

Definition with_promises (f : list (pstate * cont) -> list (pstate * cont))
  (s : Client) : Client :=
  {| _mode := _mode s; _streaming := _streaming s; config := config s;
     _isLoggedIn := _isLoggedIn s; _streamSessionId := _streamSessionId s;
     _pingInterval := _pingInterval s; _ws := _ws s;
     throttle := throttle s; loop := loop s; promises := f (promises s);
     returned := returned s; trace := trace s |}.

Definition with_returned (f : list pstate -> list pstate) (s : Client) : Client :=
  {| _mode := _mode s; _streaming := _streaming s; config := config s;
     _isLoggedIn := _isLoggedIn s; _streamSessionId := _streamSessionId s;
     _pingInterval := _pingInterval s; _ws := _ws s;
     throttle := throttle s; loop := loop s; promises := promises s;
     returned := f (returned s); trace := trace s |}.

Definition with_trace (f : Trace -> Trace) (s : Client) : Client :=
  {| _mode := _mode s; _streaming := _streaming s; config := config s;
     _isLoggedIn := _isLoggedIn s; _streamSessionId := _streamSessionId s;
     _pingInterval := _pingInterval s; _ws := _ws s;
     throttle := throttle s; loop := loop s; promises := promises s;
     returned := returned s; trace := f (trace s) |}.

Definition set_isLoggedIn (b : bool) (s : Client) : Client :=
  {| _mode := _mode s; _streaming := _streaming s; config := config s;
     _isLoggedIn := b; _streamSessionId := _streamSessionId s;
     _pingInterval := _pingInterval s; _ws := _ws s;
     throttle := throttle s; loop := loop s; promises := promises s;
     returned := returned s; trace := trace s |}.

Definition set_streamSessionId (v : json) (s : Client) : Client :=
  {| _mode := _mode s; _streaming := _streaming s; config := config s;
     _isLoggedIn := _isLoggedIn s; _streamSessionId := v;
     _pingInterval := _pingInterval s; _ws := _ws s;
     throttle := throttle s; loop := loop s; promises := promises s;
     returned := returned s; trace := trace s |}.

Definition set_pingInterval (h : option nat) (s : Client) : Client :=
  {| _mode := _mode s; _streaming := _streaming s; config := config s;
     _isLoggedIn := _isLoggedIn s; _streamSessionId := _streamSessionId s;
     _pingInterval := h; _ws := _ws s;
     throttle := throttle s; loop := loop s; promises := promises s;
     returned := returned s; trace := trace s |}.

(** *** The event emitter of the client and the console *)

Definition emit (name : string) (payload : arg) : Client -> Client :=
  with_trace (fun t =>
    {| emitted := (name, payload) :: emitted t; console := console t;
       unhandled := unhandled t; uncaught := uncaught t |}).

Definition console_log (l : log) : Client -> Client :=
  with_trace (fun t =>
    {| emitted := emitted t; console := l :: console t;
       unhandled := unhandled t; uncaught := uncaught t |}).

Definition unhandled_rejection (e : error) : Client -> Client :=
  with_trace (fun t =>
    {| emitted := emitted t; console := console t;
       unhandled := e :: unhandled t; uncaught := uncaught t |}).

Definition uncaught_exception (e : error) : Client -> Client :=
  with_trace (fun t =>
    {| emitted := emitted t; console := console t;
       unhandled := unhandled t; uncaught := e :: uncaught t |}).

(** *** Timers (Node's [setTimeout], [setInterval], [clearInterval]) *)

Definition TIMEOUT_MAX : Z := 2147483647.

(** Node replaces a delay outside [1 .. TIMEOUT_MAX] by 1. *)
Definition timer_delay (after : Z) : Z :=
  if (1 <=? after) && (after <=? TIMEOUT_MAX) then after else 1.

(** A new timer goes to the end of the list. *)
Definition arm (cb : callback) (after : Z) (rep : bool) (l : Loop) : Loop :=
  let d := timer_delay after in
  {| now := now l;
     timers := timers l ++
       [{| tid := next_timer l; due := now l + d;
           period := if rep then Some d else None; action := cb |}];
     next_timer := S (next_timer l);
     overlong := overlong l || (TIMEOUT_MAX <? after) |}.

Definition disarm (h : nat) (l : Loop) : Loop :=
  {| now := now l;
     timers := filter (fun t => negb (Nat.eqb (tid t) h)) (timers l);
     next_timer := next_timer l; overlong := overlong l |}.

(** An interval that expired is due again one period later. *)
Definition rearm (h : nat) (d : Z) (l : Loop) : Loop :=
  {| now := now l;
     timers := map (fun t =>
                 if Nat.eqb (tid t) h
                 then {| tid := h; due := now l + d;
                         period := Some d; action := action t |}
                 else t) (timers l);
     next_timer := next_timer l; overlong := overlong l |}.

Definition advance (l : Loop) : Loop :=
  {| now := now l + 1; timers := timers l;
     next_timer := next_timer l; overlong := overlong l |}.

Definition add_timer (cb : callback) (after : Z) (rep : bool) (s : Client)
  : nat * Client :=
  (next_timer (loop s), with_loop (arm cb after rep) s).

Definition setTimeout (cb : callback) (after : Z) (s : Client) : Client :=
  snd (add_timer cb after false s).

Definition setInterval (cb : callback) (after : Z) (s : Client) : nat * Client :=
  add_timer cb after true s.

Definition remove_timer (h : nat) : Client -> Client := with_loop (disarm h).

Definition clearInterval : nat -> Client -> Client := remove_timer.

(** *** The socket ([ws]) *)

Definition ws_on (f : listener) : Client -> Client :=
  with_ws (fun w =>
    {| readyState := readyState w; on_message := on_message w ++ [f];
       wire := wire w; callbacks := callbacks w; pings := pings w |}).

Definition is_onData (p : nat) (f : listener) : bool :=
  match f with
  | OnData _ q => Nat.eqb q p
  | ProcessMessage => false
  end.

(** [this._ws.off('message', onData)] for the [onData] of call [p]. *)
Definition ws_off (p : nat) : Client -> Client :=
  with_ws (fun w =>
    {| readyState := readyState w;
       on_message := filter (fun f => negb (is_onData p f)) (on_message w);
       wire := wire w; callbacks := callbacks w; pings := pings w |}).

Definition not_open (st : ReadyState) : error :=
  Error (JStr (match st with
               | CONNECTING => "WebSocket is not open: readyState 0 (CONNECTING)"
               | OPEN => "WebSocket is not open: readyState 1 (OPEN)"
               | CLOSING => "WebSocket is not open: readyState 2 (CLOSING)"
               | CLOSED => "WebSocket is not open: readyState 3 (CLOSED)"
               end)).

(** [ws.close()] *)
Definition ws_close : Client -> Client :=
  with_ws (fun w =>
    {| readyState := match readyState w with CLOSED => CLOSED | _ => CLOSING end;
       on_message := on_message w; wire := wire w;
       callbacks := callbacks w; pings := pings w |}).

Definition ws_set_state (st : ReadyState) : Client -> Client :=
  with_ws (fun w =>
    {| readyState := st; on_message := on_message w; wire := wire w;
       callbacks := callbacks w; pings := pings w |}).

(** *** Promises

    Two tables keep the promises apart by who settles them: [promises]
    holds the promise of each [sendCommandAndAwaitResponse] (settled by its
    [onData] or its timeout) with the code that awaits it, [returned] the
    promises the other methods gave to their callers. *)

Definition new_promise (k : cont) (s : Client) : nat * Client :=
  (List.length (promises s), with_promises (fun ps => ps ++ [(Pending, k)]) s).

Definition new_returned (s : Client) : nat * Client :=
  (List.length (returned s), with_returned (fun rs => rs ++ [Pending]) s).

Definition promise_state (s : Client) (p : nat) : option pstate :=
  option_map fst (nth_error (promises s) p).

Definition returned_state (s : Client) (q : nat) : option pstate :=
  nth_error (returned s) q.

(** A promise settles once: only a pending entry changes. *)
Fixpoint settle_at (p : nat) (o : pstate) (ps : list (pstate * cont))
  : list (pstate * cont) :=
  match ps, p with
  | [], _ => []
  | (Pending, k) :: rest, O => (o, k) :: rest
  | x :: rest, O => x :: rest
  | x :: rest, S p' => x :: settle_at p' o rest
  end.

Fixpoint settle_returned_at (q : nat) (o : pstate) (rs : list pstate)
  : list pstate :=
  match rs, q with
  | [], _ => []
  | Pending :: rest, O => o :: rest
  | x :: rest, O => x :: rest
  | x :: rest, S q' => x :: settle_returned_at q' o rest
  end.

(** [resolve]/[reject] of a promise a method returned. *)
Definition settle_returned (q : nat) (o : pstate) : Client -> Client :=
  with_returned (settle_returned_at q o).

(** *** The governor's logs *)

Definition log_submit (message : Data) (t : Throttle) : Throttle :=
  {| currentTick := currentTick t; activeCount := activeCount t;
     submitted := message :: submitted t; dispatched := dispatched t |}.

Definition log_dispatch (n : Z) (data : Data) (t : Throttle) : Throttle :=
  {| currentTick := currentTick t; activeCount := activeCount t;
     submitted := submitted t; dispatched := (n, data) :: dispatched t |}.

(** ** [BaseClient] *)

Definition DEFAULT_THROTTLE : Z := 250.
Definition DEFAULT_PING : Z := 10000.
Definition DEFAULT_TIMEOUT : Z := 5000.

(** [config?.commandThrottleInterval ?? 250] *)
Definition interval (s : Client) : Z :=
  nullish (commandThrottleInterval (config s)) DEFAULT_THROTTLE.

(** [BaseClient.close] *)
Definition BaseClient_close (s : Client) : Client :=
  let s1 := match _pingInterval s with
            | Some h => clearInterval h s
            | None => s
            end in
  emit "close" NoArg (ws_close s1).

(** The code after [await this.sendCommandAndAwaitResponse(...)] in the
    methods of [XTBClient], run when that promise settles with [o]. *)
Definition run_cont (k : cont) (o : pstate) (s : Client) : Client :=
  match k, o with
  | KNone, _ => s
  | _, Pending => s
  | KLogin q, Fulfilled response =>
      match prop response "status" with
      | inl e => settle_returned q (Rejected e) s
      | inr status =>
          let s1 :=
            if truthy status then
              match prop response "streamSessionId" with
              | inr sid => set_streamSessionId sid (set_isLoggedIn true s)
              | inl _ => set_isLoggedIn true s
              end
            else s in
          settle_returned q (Fulfilled response) s1
      end
  | KReturnData q, Fulfilled res =>
      match prop res "status" with
      | inl e => settle_returned q (Rejected e) s
      | inr status =>
          match prop res (if truthy status then "returnData" else "errorDescr") with
          | inl e => settle_returned q (Rejected e) s
          | inr v =>
              if truthy status then settle_returned q (Fulfilled v) s
              else settle_returned q (Rejected (Error v)) s
          end
      end
  | KLogoutClose q, Fulfilled _ =>
      settle_returned q (Fulfilled JUndefined) (BaseClient_close s)
  | KLogin q, Rejected e | KReturnData q, Rejected e
  | KLogoutClose q, Rejected e => settle_returned q (Rejected e) s
  end.

(** [resolve(v)] / [reject(e)] of the promise of a correlated call. *)
Definition settle (p : nat) (o : pstate) (s : Client) : Client :=
  match nth_error (promises s) p with
  | Some (Pending, k) => run_cont k o (with_promises (settle_at p o) s)
  | _ => s
  end.

(** The code that waits for a [_sendThrottled] promise, run when the send
    completed ([None]) or failed ([Some err]). *)
Definition complete (w : waiter) (err : option error) (s : Client) : Client :=
  match w, err with
  | AwaitOpenPing, None =>
      let (h, s1) := setInterval CbPing
                       (nullish (pingInterval (config s)) DEFAULT_PING) s in
      set_pingInterval (Some h) s1
  | AwaitOpenPing, Some e => unhandled_rejection e s
  | AwaitIntervalPing, None => s
  | AwaitIntervalPing, Some e => console_log (ConsoleError e) s
  | AwaitCall p timeout, None =>
      setTimeout (CbTimeout p) (nullish timeout DEFAULT_TIMEOUT) s
  | AwaitCall _ _, Some e => unhandled_rejection e s
  | AwaitCaller q, None => settle_returned q (Fulfilled JUndefined) s
  | AwaitCaller q, Some e => settle_returned q (Rejected e) s
  | AwaitDiscarded, None => s
  | AwaitDiscarded, Some e => unhandled_rejection e s
  end.

(** [BaseClient.sendMessage]: [ws.send data cb].  An open socket takes the
    frame and calls [cb] later (event [WsSent]); otherwise the send fails at
    once. *)
Definition sendMessage (data : Data) (w : waiter) (s : Client) : Client :=
  let s1 := with_throttle (log_dispatch (now (loop s)) data) s in
  match readyState (_ws s1) with
  | OPEN =>
      with_ws (fun x =>
        {| readyState := readyState x; on_message := on_message x;
           wire := (now (loop s1), data) :: wire x;
           callbacks := callbacks x ++ [(List.length (wire x), w)];
           pings := pings x |}) s1
  | st => complete w (Some (not_open st)) s1
  end.

(** [windowedDelay] of [p-throttle] with [limit = 1], at clock [n] and
    with interval [i]: the delay and the new window. *)
Definition window (i n : Z) (t : Throttle) : Z * Throttle :=
  let set tick count :=
    {| currentTick := tick; activeCount := count;
       submitted := submitted t; dispatched := dispatched t |} in
  if i <? n - currentTick t then (0, set n 1)
  else if activeCount t <? 1
       then (currentTick t - n, set (currentTick t) (activeCount t + 1))
       else (currentTick t + i - n, set (currentTick t + i) 1).

Definition windowedDelay (s : Client) : Z * Client :=
  let (delay, t) := window (interval s) (now (loop s)) (throttle s) in
  (delay, with_throttle (fun _ => t) s).

(** [this._sendThrottled(message)], the function [p-throttle] wraps around
    [sendMessage]: the wrapped function runs at once when the window gives
    no delay, and from a timer otherwise.  Nothing here waits for an
    earlier send to complete. *)
Definition sendThrottled (message : Data) (w : waiter) (s : Client) : Client :=
  let (delay, s1) := windowedDelay s in
  let s2 := with_throttle (log_submit message) s1 in
  if 0 <? delay then setTimeout (CbThrottle message w) delay s2
  else sendMessage message w s2.

(** [BaseClient.sendCommand] *)
Definition sendCommand (data : object) (w : waiter) : Client -> Client :=
  sendThrottled (JSON_stringify data) w.

Definition ping_frame (s : Client) : object :=
  spread [("command", JStr "ping")]
    (if truthy (_streamSessionId s)
     then [("streamSessionId", _streamSessionId s)] else []).

(** [BaseClient.ping]; [this._ws.ping()] throws while connecting. *)
Definition ping (w : waiter) (s : Client) : Client :=
  match readyState (_ws s) with
  | CONNECTING => complete w (Some (not_open CONNECTING)) s
  | st =>
      let s1 := match st with
                | OPEN => with_ws (fun x =>
                    {| readyState := readyState x; on_message := on_message x;
                       wire := wire x; callbacks := callbacks x;
                       pings := now (loop s) :: pings x |}) s
                | _ => s
                end in
      sendCommand (ping_frame s1) w s1
  end.

(** [BaseClient.sendCommandAndAwaitResponse]; [rnd] is the string
    [Math.random().toString(36)] returned, [k] what the caller does with the
    promise.  Returns the promise. *)
Definition sendCommandAndAwaitResponse (data : object) (timeout : option Z)
  (rnd : string) (k : cont) (s : Client) : nat * Client :=
  let requestId := rnd in
  let message := JSON_stringify (spread data [("customTag", JStr requestId)]) in
  let (p, s1) := new_promise k s in
  let s2 := ws_on (OnData requestId p) s1 in
  (p, sendThrottled message (AwaitCall p timeout) s2).

(** ** [XTBClient] *)

Definition not_logged_in : error := Error (JStr "Not logged in").

Definition DEFAULT_APP_NAME : string := "xtb-node-ws-api".

(** [XTBClient.login]; [appName] is [None] when the caller leaves it out. *)
Definition login (userId password : string) (appName : option string)
  (rnd : string) (s : Client) : nat * Client :=
  let (q, s1) := new_returned s in
  let (_, s2) :=
    sendCommandAndAwaitResponse
      [("command", JStr "login");
       ("arguments", JObj [("userId", JStr userId);
                           ("password", JStr password);
                           ("appName",
                            JStr (match appName with
                                  | Some name => name
                                  | None => DEFAULT_APP_NAME
                                  end))])]
      None rnd (KLogin q) s1 in
  (q, s2).

(** [XTBClient.logout]: the command is submitted, the flag cleared, and the
    promise of the call returned without waiting for it; [k] is what the
    caller chained on it. *)
Definition logout_then (k : cont) (rnd : string) (s : Client) : nat * Client :=
  let (res, s1) :=
    sendCommandAndAwaitResponse [("command", JStr "logout")] None rnd k s in
  (res, set_isLoggedIn false s1).

Definition logout : string -> Client -> nat * Client := logout_then KNone.

(** [XTBClient.close]: [await this.logout(); super.close()] *)
Definition XTBClient_close (rnd : string) (s : Client) : nat * Client :=
  let (q, s1) := new_returned s in
  let (_, s2) := logout_then (KLogoutClose q) rnd s1 in
  (q, s2).

(** The shape shared by [getAllSymbols], [getSymbol],
    [startTradeTransaction] and [getTradeTransactionStatus]. *)
Definition guarded_command (data : object) (rnd : string) (s : Client)
  : nat * Client :=
  let (q, s1) := new_returned s in
  if negb (_isLoggedIn s1) then (q, settle_returned q (Rejected not_logged_in) s1)
  else
    let (_, s2) := sendCommandAndAwaitResponse data None rnd (KReturnData q) s1 in
    (q, s2).

Definition getAllSymbols : string -> Client -> nat * Client :=
  guarded_command [("command", JStr "getAllSymbols")].

Definition getSymbol (symbol : string) : string -> Client -> nat * Client :=
  guarded_command [("command", JStr "getSymbol");
                   ("arguments", JObj [("symbol", JStr symbol)])].

Definition startTradeTransaction (transaction : json)
  : string -> Client -> nat * Client :=
  guarded_command [("command", JStr "tradeTransaction");
                   ("arguments", JObj [("transaction", transaction)])].

Definition getTradeTransactionStatus (order : Z)
  : string -> Client -> nat * Client :=
  guarded_command [("command", JStr "getTradeTransactionStatus");
                   ("arguments", JObj [("order", JNum order)])].

(** ** [StreamingXTBClient] *)

Definition no_stream_session : error := Error (JStr "No stream session ID").

(** The [case] labels of the [switch] in [processMessage] and the event
    each one emits. *)
Definition channel (command : json) : option string :=
  let case c := strict_eq_str command c in
  if case "keepAlive" then Some "keepAliveFromServer"
  else if case "balance" then Some "balance"
  else if case "candle" then Some "candle"
  else if case "news" then Some "news"
  else if case "profits" then Some "profits"
  else if case "tickPrices" then Some "tickPrices"
  else if case "trade" then Some "trade"
  else if case "tradeStatus" then Some "tradeStatus"
  else None.

(** [StreamingXTBClient.processMessage] *)
Definition processMessage (data : Data) (s : Client) : option error * Client :=
  match JSON_parse data with
  | inl e => (Some e, s)
  | inr message =>
      match prop message "command" with
      | inl e => (Some e, s)
      | inr command =>
          match channel command with
          | Some name =>
              match prop message "data" with
              | inl e => (Some e, s)
              | inr payload => (None, emit name (Arg payload) s)
              end
          | None =>
              (None, console_log
                       (ConsoleWarn "Unknown message type received" message) s)
          end
      end
  end.

(** [StreamingXTBClient.subscribeToStream] *)
Definition subscribeToStream (commandName : string) (additionalArguments : object)
  (w : waiter) (s : Client) : Client :=
  if negb (truthy (_streamSessionId s)) then complete w (Some no_stream_session) s
  else
    sendCommand
      (spread [("command", JStr commandName);
               ("streamSessionId", _streamSessionId s)]
              additionalArguments) w s.

(** [StreamingXTBClient.unsubscribeFromStream] *)
Definition unsubscribeFromStream (commandName : string)
  (additionalArguments : object) (w : waiter) (s : Client) : Client :=
  sendCommand (spread [("command", JStr commandName)] additionalArguments) w s.

(** The options of [subscribeTickPrices]. *)
Record TickOptions : Type := {
  minArrivalTime : option Z;
  maxLevel : option Z
}.

Definition tick_options (o : option TickOptions) : object :=
  match o with
  | None => []
  | Some o =>
      (match minArrivalTime o with
       | Some n => [("minArrivalTime", JNum n)] | None => [] end)
      ++ (match maxLevel o with
          | Some n => [("maxLevel", JNum n)] | None => [] end)
  end.

Definition subscribeKeepAlive := subscribeToStream "getKeepAlive" [].
Definition unsubscribeKeepAlive := unsubscribeFromStream "stopKeepAlive" [].
Definition subscribeBalance := subscribeToStream "getBalance" [].
Definition unsubscribeBalance := unsubscribeFromStream "stopBalance" [].
Definition subscribeCandles (symbol : string) :=
  subscribeToStream "getCandles" [("symbol", JStr symbol)].
Definition unsubscribeCandles (symbol : string) :=
  unsubscribeFromStream "stopCandles" [("symbol", JStr symbol)].
Definition subscribeNews := subscribeToStream "getNews" [].
Definition unsubscribeNews := unsubscribeFromStream "stopNews" [].
Definition subscribeProfits := subscribeToStream "getProfits" [].
Definition unsubscribeProfits := unsubscribeFromStream "stopProfits" [].
Definition subscribeTickPrices (symbol : string) (options : option TickOptions) :=
  subscribeToStream "getTickPrices"
    (spread [("symbol", JStr symbol)] (tick_options options)).
Definition unsubscribeTickPrices (symbol : string) :=
  unsubscribeFromStream "stopTickPrices" [("symbol", JStr symbol)].
Definition subscribeTrades := subscribeToStream "getTrades" [].
Definition unsubscribeTrades := unsubscribeFromStream "stopTrades" [].
Definition subscribeTradeStatus := subscribeToStream "getTradeStatus" [].
Definition unsubscribeTradeStatus := unsubscribeFromStream "stopTradeStatus" [].

(** ** The event loop *)

(** The [onData] closure of [sendCommandAndAwaitResponse]. *)
Definition onData (requestId : string) (p : nat) (data : Data) (s : Client)
  : option error * Client :=
  match JSON_parse data with
  | inl e => (Some e, s)
  | inr response =>
      match prop response "customTag" with
      | inl e => (Some e, s)
      | inr tag =>
          if strict_eq_str tag requestId
          then (None, settle p (Fulfilled response) (ws_off p s))
          else (None, s)
      end
  end.

Definition call_listener (f : listener) (data : Data) (s : Client)
  : option error * Client :=
  match f with
  | OnData requestId p => onData requestId p data s
  | ProcessMessage => processMessage data s
  end.

(** [EventEmitter.emit] on a copy [fs] of the listener array: listeners run
    in registration order, an exception ends the emit. *)
Fixpoint deliver (fs : list listener) (data : Data) (s : Client) : Client :=
  match fs with
  | [] => s
  | f :: rest =>
      match call_listener f data s with
      | (None, s1) => deliver rest data s1
      | (Some e, s1) => uncaught_exception e s1
      end
  end.

Definition run_callback (cb : callback) (s : Client) : Client :=
  match cb with
  | CbTimeout p => settle p (Rejected (Error (JStr "Timeout"))) (ws_off p s)
  | CbPing => ping AwaitIntervalPing s
  | CbThrottle data w => sendMessage data w s
  end.

Definition find_timer (h : nat) (s : Client) : option timer :=
  find (fun t => Nat.eqb (tid t) h) (timers (loop s)).

(** A timer of the list expires: a timeout leaves the list, an interval is
    armed again. *)
Definition fire (h : nat) (s : Client) : Client :=
  match find_timer h s with
  | None => s
  | Some t =>
      let s1 :=
        match period t with
        | None => remove_timer h s
        | Some d => with_loop (rearm h d) s
        end in
      run_callback (action t) s1
  end.

Definition due_timers (s : Client) : list nat :=
  map tid (filter (fun t => due t <=? now (loop s)) (timers (loop s))).

(** One millisecond passes; the timers that are due run in creation
    order. *)
Definition tick (s : Client) : Client :=
  let s1 := with_loop advance s in
  fold_left (fun s h => fire h s) (due_timers s1) s1.

(** The [open] listeners of the socket: the one of the [BaseClient]
    constructor, then the one of the [StreamingXTBClient] constructor. *)
Definition on_open (s : Client) : Client :=
  let s1 := ping AwaitOpenPing (emit "open" NoArg s) in
  if _streaming s1 then subscribeKeepAlive AwaitDiscarded s1 else s1.

(** The completion callback of the [n]-th frame on the wire is called. *)
Definition on_sent (n : nat) (err : option error) (s : Client) : Client :=
  match find (fun c => Nat.eqb (fst c) n) (callbacks (_ws s)) with
  | None => s
  | Some (_, w) =>
      complete w err
        (with_ws (fun x =>
           {| readyState := readyState x; on_message := on_message x;
              wire := wire x;
              callbacks := filter (fun c => negb (Nat.eqb (fst c) n)) (callbacks x);
              pings := pings x |}) s)
  end.

(** The public methods. *)
Inductive method : Type :=
| sendCommandAndAwaitResponse_ (data : object) (timeout : option Z)
| sendCommand_ (data : object)
| ping_
| close_
| login_ (userId password : string) (appName : option string)
| logout_
| getAllSymbols_
| getSymbol_ (symbol : string)
| startTradeTransaction_ (transaction : json)
| getTradeTransactionStatus_ (order : Z)
| subscribeKeepAlive_ | unsubscribeKeepAlive_
| subscribeBalance_ | unsubscribeBalance_
| subscribeCandles_ (symbol : string) | unsubscribeCandles_ (symbol : string)
| subscribeNews_ | unsubscribeNews_
| subscribeProfits_ | unsubscribeProfits_
| subscribeTickPrices_ (symbol : string) (options : option TickOptions)
| unsubscribeTickPrices_ (symbol : string)
| subscribeTrades_ | unsubscribeTrades_
| subscribeTradeStatus_ | unsubscribeTradeStatus_.

(** A method whose promise is the one of a throttled send. *)
Definition returning (f : waiter -> Client -> Client) (s : Client) : nat * Client :=
  let (q, s1) := new_returned s in
  (q, f (AwaitCaller q) s1).

(** [client.m(...)]: the promise the method returns and the client after
    the synchronous part of the call.  The promise of
    [sendCommandAndAwaitResponse] and of [logout] is an index of [promises],
    that of the other methods an index of [returned].  [rnd] is the next
    value of [Math.random().toString(36)]; methods of the other subclass do
    not exist on the object. *)
Definition invoke (m : method) (rnd : string) (s : Client) : nat * Client :=
  let only (streaming : bool) (r : nat * Client) :=
    if Bool.eqb (_streaming s) streaming then r else (0%nat, s) in
  match m with
  | sendCommandAndAwaitResponse_ data timeout =>
      sendCommandAndAwaitResponse data timeout rnd KNone s
  | sendCommand_ data => returning (sendCommand data) s
  | ping_ => returning ping s
  | close_ =>
      if _streaming s
      then let (q, s1) := new_returned s in
           (q, settle_returned q (Fulfilled JUndefined) (BaseClient_close s1))
      else XTBClient_close rnd s
  | login_ userId password appName =>
      only false (login userId password appName rnd s)
  | logout_ => only false (logout rnd s)
  | getAllSymbols_ => only false (getAllSymbols rnd s)
  | getSymbol_ symbol => only false (getSymbol symbol rnd s)
  | startTradeTransaction_ t => only false (startTradeTransaction t rnd s)
  | getTradeTransactionStatus_ o => only false (getTradeTransactionStatus o rnd s)
  | subscribeKeepAlive_ => only true (returning subscribeKeepAlive s)
  | unsubscribeKeepAlive_ => only true (returning unsubscribeKeepAlive s)
  | subscribeBalance_ => only true (returning subscribeBalance s)
  | unsubscribeBalance_ => only true (returning unsubscribeBalance s)
  | subscribeCandles_ sym => only true (returning (subscribeCandles sym) s)
  | unsubscribeCandles_ sym => only true (returning (unsubscribeCandles sym) s)
  | subscribeNews_ => only true (returning subscribeNews s)
  | unsubscribeNews_ => only true (returning unsubscribeNews s)
  | subscribeProfits_ => only true (returning subscribeProfits s)
  | unsubscribeProfits_ => only true (returning unsubscribeProfits s)
  | subscribeTickPrices_ sym o => only true (returning (subscribeTickPrices sym o) s)
  | unsubscribeTickPrices_ sym => only true (returning (unsubscribeTickPrices sym) s)
  | subscribeTrades_ => only true (returning subscribeTrades s)
  | unsubscribeTrades_ => only true (returning unsubscribeTrades s)
  | subscribeTradeStatus_ => only true (returning subscribeTradeStatus s)
  | unsubscribeTradeStatus_ => only true (returning unsubscribeTradeStatus s)
  end.

(** One macrotask.  [WsOpen], [WsMessage], [WsClose] and [WsError] are the
    events of the socket; [WsSent n err] is the socket calling the
    completion callback of the [n]-th frame written; [Tick] is one
    millisecond; [Call m rnd] is the program calling a method. *)
Inductive event : Type :=
| WsOpen
| WsMessage (data : Data)
| WsSent (n : nat) (err : option error)
| WsClose
| WsError (e : error)
| Tick
| Call (m : method) (rnd : string).

(** The handlers the constructors install, and [invoke].  On [WsError]
    the program is taken to listen for ['error'] on the client, as an
    emitter with no such listener throws. *)
Definition step (s : Client) (e : event) : Client :=
  match e with
  | WsOpen => on_open (ws_set_state OPEN s)
  | WsMessage data => deliver (on_message (_ws s)) data s
  | WsSent n err => on_sent n err s
  | WsClose => emit "close" NoArg (ws_set_state CLOSED s)
  | WsError e => console_log (ConsoleError e) (emit "error" (ErrArg e) s)
  | Tick => tick s
  | Call m rnd => snd (invoke m rnd s)
  end.

Definition run (s : Client) (es : list event) : Client := fold_left step es s.

(** *** Constructors; [t0] is the clock when the object is built. *)

Definition new_BaseClient (mode : XTBMode) (streaming : bool)
  (cfg : ClientConfig) (t0 : Z) : Client :=
  {| _mode := mode; _streaming := streaming; config := cfg;
     _isLoggedIn := false; _streamSessionId := JNull; _pingInterval := None;
     _ws := {| readyState := CONNECTING; on_message := []; wire := [];
               callbacks := []; pings := [] |};
     throttle := {| currentTick := 0; activeCount := 0;
                    submitted := []; dispatched := [] |};
     loop := {| now := t0; timers := []; next_timer := 0; overlong := false |};
     promises := []; returned := [];
     trace := {| emitted := []; console := []; unhandled := []; uncaught := [] |}
  |}.

Definition no_config : ClientConfig :=
  {| pingInterval := None; commandThrottleInterval := None |}.

Definition new_XTBClient (mode : XTBMode) (cfg : ClientConfig) (t0 : Z) : Client :=
  new_BaseClient mode false cfg t0.

Definition new_StreamingXTBClient (mode : XTBMode) (streamSessionId : string)
  (cfg : ClientConfig) (t0 : Z) : Client :=
  ws_on ProcessMessage
    (set_streamSessionId (JStr streamSessionId) (new_BaseClient mode true cfg t0)).

(** ** The rest of the public interface *)

(** The getters of [BaseClient]. *)
Definition streamSessionId (s : Client) : json := _streamSessionId s.
Definition isLoggedIn (s : Client) : bool := _isLoggedIn s.
Definition isStreaming (s : Client) : bool := _streaming s.

(** [BaseClient.isHealthy] *)
Definition isHealthy (s : Client) : bool :=
  match readyState (_ws s) with OPEN => true | _ => false end.

(** An [async] method that awaits a promise and then only computes: the
    outcome of the promise it returns, from the outcome [o] of the promise
    it awaits and the code [f] that follows the [await]. *)
Definition await (o : pstate) (f : json -> error + json) : pstate :=
  match o with
  | Pending => Pending
  | Rejected e => Rejected e
  | Fulfilled v =>
      match f v with
      | inl e => Rejected e
      | inr x => Fulfilled x
      end
  end.

(** The code of [getAPIVersion] after its [await]: [res.returnData.version]
    when [res.status] is truthy, [throw new Error(res.errorDescr)]
    otherwise. *)
Definition version_of (res : json) : error + json :=
  match prop res "status" with
  | inl e => inl e
  | inr status =>
      if truthy status then
        match prop res "returnData" with
        | inl e => inl e
        | inr returnData => prop returnData "version"
        end
      else
        match prop res "errorDescr" with
        | inl e => inl e
        | inr errorDescr => inl (Error errorDescr)
        end
  end.

(** [BaseClient.getAPIVersion]: the correlated call it makes; the promise
    the method returns is read off the promise of the call with
    [getAPIVersion_result]. *)
Definition getAPIVersion (rnd : string) (s : Client) : nat * Client :=
  sendCommandAndAwaitResponse [("command", JStr "getAPIVersion")] None rnd KNone s.

Definition getAPIVersion_result (p : nat) (s : Client) : option pstate :=
  option_map (fun o => await o version_of) (promise_state s p).





(** * Views, relations and invariants

    What the statements below are written with: projections of the client
    that a group of operations leaves alone, the relations between a state
    and a later one, and the invariants of the states a session reaches. *)

(** ** The login guard of the business commands *)

(** What a call leaves untouched when it sends nothing: the socket (no
    frame, no listener), the governor (nothing submitted) and the timers. *)
Definition nothing_sent (s s' : Client) : Prop :=
  _ws s' = _ws s /\ throttle s' = throttle s /\ loop s' = loop s
  /\ promises s' = promises s.

(** ** What the send path leaves alone *)

(** The part of the client that sending a frame never touches: the login
    state, the promises of the correlated calls, the listeners and the
    state of the socket. *)
Definition core (s : Client) :=
  (_isLoggedIn s, _streamSessionId s, promises s, config s, _streaming s,
   on_message (_ws s), readyState (_ws s)).

(** ** Frames that parse to an object *)

(** What the listener [f] does with the frame of the object [o]. *)
Definition react (o : object) (s : Client) (f : listener) : Client :=
  snd (call_listener f (Text (JObj o)) s).

(** ** The login flag *)

Definition pending_login (e : pstate * cont) : bool :=
  match e with
  | (Pending, KLogin _) => true
  | _ => false
  end.

(** Logged out, with no [login] waiting for its reply. *)
Definition logged_out (s : Client) : Prop :=
  _isLoggedIn s = false /\ existsb pending_login (promises s) = false.

Definition is_login (e : event) : bool :=
  match e with Call (login_ _ _ _) _ => true | _ => false end.

(** ** Correlated calls and the frames that answer them *)

(** The login state and the promises, which a frame changes only through
    the listeners whose tag it bears. *)
Definition session (s : Client) := (_isLoggedIn s, _streamSessionId s, promises s).

Definition bears (o : object) (t : string) : Prop := obj_get o "customTag" = JStr t.

(** ** Frames of a streaming session *)

(** The frame is an object whose [streamSessionId] is [sid]. *)
Definition carries (sid : string) (d : Data) : bool :=
  match d with
  | Text (JObj o) => strict_eq_str (obj_get o "streamSessionId") sid
  | _ => false
  end.

(** The frame is an object without a [streamSessionId]. *)
Definition anonymous (d : Data) : bool :=
  match d with
  | Text (JObj o) =>
      match obj_get o "streamSessionId" with JUndefined => true | _ => false end
  | _ => false
  end.

Definition subscribe_methods (symbol : string) (options : option TickOptions)
  : list (waiter -> Client -> Client) :=
  [subscribeKeepAlive; subscribeBalance; subscribeCandles symbol; subscribeNews;
   subscribeProfits; subscribeTickPrices symbol options; subscribeTrades;
   subscribeTradeStatus].

Definition unsubscribe_methods (symbol : string)
  : list (waiter -> Client -> Client) :=
  [unsubscribeKeepAlive; unsubscribeBalance; unsubscribeCandles symbol;
   unsubscribeNews; unsubscribeProfits; unsubscribeTickPrices symbol;
   unsubscribeTrades; unsubscribeTradeStatus].

(** What a method hands to the governor. *)
Definition submits (f : Client -> Client) (s : Client) (d : Data) : Prop :=
  submitted (throttle (f s)) = d :: submitted (throttle s).

(** ** How a frame acts on the promises and the listeners *)

(** The promise table after the listener [f] has seen the object [o]. *)
Definition resolve_one (o : object) (ps : list (pstate * cont)) (f : listener)
  : list (pstate * cont) :=
  match f with
  | OnData t p =>
      if strict_eq_str (obj_get o "customTag") t
      then settle_at p (Fulfilled (JObj o)) ps else ps
  | ProcessMessage => ps
  end.

(** The listener list after [f] has seen [o]. *)
Definition unlisten_one (o : object) (fs : list listener) (f : listener)
  : list listener :=
  match f with
  | OnData t p =>
      if strict_eq_str (obj_get o "customTag") t
      then filter (fun g => negb (is_onData p g)) fs else fs
  | ProcessMessage => fs
  end.

(** ** What reaches the push dispatcher *)

(** The channel events emitted so far (the events with a payload) and the
    console output, newest first. *)
Definition channel_events (s : Client) : list (string * arg) :=
  filter (fun e => match snd e with Arg _ => true | _ => false end)
         (emitted (trace s)).

Definition dispatch_log (s : Client) := (channel_events s, console (trace s)).

Definition is_processMessage (f : listener) : bool :=
  match f with ProcessMessage => true | OnData _ _ => false end.

Definition calls_only (fs : list listener) : bool :=
  forallb (fun f => negb (is_processMessage f)) fs.

(** The listener list of a session: the streaming constructor installs
    [processMessage] first, and only [onData] closures come and go. *)
Definition dispatcher_installed (s : Client) : bool :=
  match _streaming s, on_message (_ws s) with
  | true, ProcessMessage :: fs => calls_only fs
  | true, _ => false
  | false, fs => calls_only fs
  end.

(** What [processMessage] adds for the object [o]. *)
Definition dispatched_as (o : object) (l : list (string * arg) * list log)
  : list (string * arg) * list log :=
  match channel (obj_get o "command") with
  | Some name => ((name, Arg (obj_get o "data")) :: fst l, snd l)
  | None =>
      (fst l, ConsoleWarn "Unknown message type received" (JObj o) :: snd l)
  end.

(** ** Concurrent correlated calls *)

Definition frame (o : object) : event := WsMessage (Text (JObj o)).

(** One call of [sendCommandAndAwaitResponse]: payload, timeout, and the
    string [Math.random().toString(36)] gave. *)
Record call : Type := {
  payload : object;
  patience : option Z;
  tag : string
}.

Definition issue (c : call) : event :=
  Call (sendCommandAndAwaitResponse_ (payload c) (patience c)) (tag c).

(** The call with tag [t] and promise [p] is waiting, and [p] belongs to no
    listener with another tag. *)
Definition waiting (t : string) (p : nat) (s : Client) : Prop :=
  promise_state s p = Some Pending
  /\ In (OnData t p) (on_message (_ws s))
  /\ (forall t', In (OnData t' p) (on_message (_ws s)) -> t' = t).

Definition customTag (o : object) : json := obj_get o "customTag".

(** The listeners of the calls numbered from [n]. *)
Fixpoint numbered (n : nat) (cs : list call) : list listener :=
  match cs with
  | [] => []
  | c :: rest => OnData (tag c) n :: numbered (S n) rest
  end.

(** ** A send that fails *)

Definition pending_callback (s : Client) (n : nat) : option waiter :=
  option_map snd (find (fun c => Nat.eqb (fst c) n) (callbacks (_ws s))).

(** ** The governor and the timers, apart from the rest of the client *)

(** The window and logs of the governor, the clock with its timers, and
    the stored interval handle. *)
Definition gov (s : Client) : Throttle * Loop * option nat :=
  (throttle s, loop s, _pingInterval s).

(** [clearInterval] of the stored handle, if any. *)
Definition unping (h : option nat) (l : Loop) : Loop :=
  match h with Some h0 => disarm h0 l | None => l end.

Definition close_gov (g : Throttle * Loop * option nat) :=
  let '(t, l, h) := g in (t, unping h l, h).

(** [_sendThrottled] on the governor: the frame is dispatched at once or
    a timer is armed for it. *)
Definition submit_gov (i : Z) (m : Data) (w : waiter)
  (g : Throttle * Loop * option nat) : Throttle * Loop * option nat :=
  let '(t, l, h) := g in
  let (delay, t1) := window i (now l) t in
  if 0 <? delay
  then (log_submit m t1, arm (CbThrottle m w) delay false l, h)
  else (log_dispatch (now l) m (log_submit m t1), l, h).

(** Settling a promise leaves the governor alone, or closes the session
    (the continuation of [XTBClient.close]). *)
Definition closes (g g' : Throttle * Loop * option nat) : Prop :=
  g' = g \/ g' = close_gov g.

(** What one macrotask other than a clock tick can do to the governor and
    the timers: submit frames, close, arm a timeout, arm the keepalive
    interval and store its handle. *)
Inductive act (i : Z) : Throttle * Loop * option nat ->
                        Throttle * Loop * option nat -> Prop :=
| act_refl : forall g, act i g g
| act_trans : forall g1 g2 g3, act i g1 g2 -> act i g2 g3 -> act i g1 g3
| act_submit : forall m w g, act i g (submit_gov i m w g)
| act_close : forall g, act i g (close_gov g)
| act_timeout : forall p after t l h,
    act i (t, l, h) (t, arm (CbTimeout p) after false l, h)
| act_interval : forall after t l h,
    act i (t, l, h) (t, arm CbPing after true l, Some (next_timer l)).

(** [s'] comes from [s] by such moves, under the same configuration. *)
Definition runs (s s' : Client) : Prop :=
  config s' = config s /\ act (interval s) (gov s) (gov s').

(** ** Invariants of the timer list *)

(** The frames waiting in timers of the governor, oldest first, each with
    the time it is due. *)
Definition jobs (ts : list timer) : list (Z * Data) :=
  flat_map (fun x => match action x with
                     | CbThrottle d _ => [(due x, d)]
                     | _ => []
                     end) ts.

Definition is_job (x : timer) : bool :=
  match action x with CbThrottle _ _ => true | _ => false end.

(** Times newest first, each at least [i] after the one before it. *)
Fixpoint spaced (i : Z) (xs : list Z) : Prop :=
  match xs with
  | [] => True
  | b :: rest =>
      match rest with [] => True | a :: _ => a + i <= b end /\ spaced i rest
  end.

(** ** The timer list is tidy

    [ids] are the timers of the current tick that have not run yet. *)
Record tidy (ids : list nat) (l : Loop) (h : option nat) : Prop := {
  t_fresh : forall x, In x (timers l) -> (tid x < next_timer l)%nat;
  t_nodup : NoDup (map tid (timers l));
  t_shape : forall x, In x (timers l) ->
              forall d, period x = Some d -> 1 <= d /\ action x = CbPing;
  t_future : forall x, In x (timers l) ->
               now l <= due x /\ (due x = now l <-> In (tid x) ids);
  t_ids : NoDup ids /\ forall id, In id ids -> (id < next_timer l)%nat;
  t_handle : forall h0, h = Some h0 ->
               (h0 < next_timer l)%nat
               /\ forall x, In x (timers l) -> tid x = h0 -> action x = CbPing
}.

(** ** The invariant of the governor *)

(** Every frame handed to the governor, newest first: the ones waiting in
    timers with their due time, then the dispatched ones with the time
    [sendMessage] ran. *)
Definition schedule (t : Throttle) (l : Loop) : list (Z * Data) :=
  rev (jobs (timers l)) ++ dispatched t.

Record governed (i : Z) (t : Throttle) (l : Loop) : Prop := {
  g_past : forall x, In x (dispatched t) -> fst x <= now l;
  g_spaced : spaced i (map fst (schedule t l));
  g_window : match schedule t l with
             | [] => i < now l - currentTick t
             | x :: _ => fst x = currentTick t /\ activeCount t = 1
             end;
  g_fifo : map snd (schedule t l) = submitted t
}.

Definition Tidy (ids : list nat) (g : Throttle * Loop * option nat) : Prop :=
  let '(t, l, h) := g in tidy ids l h.

(** The invariant holds unless a delay above [TIMEOUT_MAX] was asked for. *)
Definition Governed (i : Z) (g : Throttle * Loop * option nat) : Prop :=
  let '(t, l, h) := g in overlong l = true \/ governed i t l.

(** *** A timer expires *)

Definition due_ids (l : Loop) : list nat :=
  map tid (filter (fun t => due t <=? now l) (timers l)).

(** *** The invariants along a run *)

(** [ids] are the timers of the current tick still to run. *)
Definition tidy_at (ids : list nat) (s : Client) : Prop := Tidy ids (gov s).

Definition governed_at (s : Client) : Prop :=
  0 < interval s /\ Governed (interval s) (gov s).

(** The client just after timer [x] left the list or was armed again. *)
Definition expired (x : timer) (s : Client) : Client :=
  match period x with
  | Some d => with_loop (rearm (tid x) d) s
  | None => remove_timer (tid x) s
  end.

(** A session as one of the two constructors builds it: a command session,
    or a streaming session bound to an identifier. *)
Definition construct (kind : option string) (mode : XTBMode)
  (cfg : ClientConfig) (t0 : Z) : Client :=
  match kind with
  | None => new_XTBClient mode cfg t0
  | Some streamSessionId => new_StreamingXTBClient mode streamSessionId cfg t0
  end.

(** ** A settled promise stays settled *)

(** The listeners are in order: [processMessage] first on a streaming
    session and nowhere else, and every [onData] closure belongs to a
    promise of the table. *)
Definition listening (s : Client) : Prop :=
  dispatcher_installed s = true
  /\ forall t p, In (OnData t p) (on_message (_ws s)) ->
       (p < List.length (promises s))%nat.

(** From [s] to [s']: settled promises keep their outcome, promises are
    only added, a listener that is new belongs to a new promise, the kind
    of the session is the same, and the listeners stay in order. *)
Definition keeps (s s' : Client) : Prop :=
  (forall p st, promise_state s p = Some st -> st <> Pending ->
     promise_state s' p = Some st)
  /\ (List.length (promises s) <= List.length (promises s'))%nat
  /\ (forall t q, In (OnData t q) (on_message (_ws s')) ->
        In (OnData t q) (on_message (_ws s))
        \/ (List.length (promises s) <= q)%nat)
  /\ _streaming s' = _streaming s
  /\ (listening s -> listening s').

(** ** The timeout of a correlated call *)

(** What a timer callback can do to the timer list: nothing, clear the
    keepalive interval, or arm a timer of the governor. *)
Definition quiet (l : Loop) (h : option nat) (l' : Loop) : Prop :=
  l' = l \/ l' = unping h l
  \/ exists m w d, l' = arm (CbThrottle m w) d false l.

(** Timer [x] is armed and is the only timeout of the call with promise
    [p]. *)
Definition sole (p : nat) (x : timer) (l : Loop) : Prop :=
  In x (timers l)
  /\ forall y, In y (timers l) -> action y = CbTimeout p -> y = x.

Definition armed (p : nat) (x : timer) (s : Client) : Prop :=
  sole p x (loop s) /\ promise_state s p = Some Pending.

(** Rejections nobody handles and exceptions that escape a listener. *)
Definition errors (s : Client) : list error * list error :=
  (unhandled (trace s), uncaught (trace s)).

(** ** A socket that is not open *)

Definition shut (s : Client) : Prop := readyState (_ws s) <> OPEN.

(** From [s] to [s']: a socket that is not open stays so, and nothing is
    written to it. *)
Definition mute (s s' : Client) : Prop :=
  shut s -> shut s' /\ wire (_ws s') = wire (_ws s).

Definition is_open (e : event) : bool :=
  match e with WsOpen => true | _ => false end.

(** ** How the promise of a call changes *)

(** From [s] to [s'] the promise table is only extended. *)
Definition appends (s s' : Client) : Prop :=
  exists extra, promises s' = promises s ++ extra.

(** The outcome of a call whose timeout fired. *)
Definition timed_out : pstate := Rejected (Error (JStr "Timeout")).

(** ** Who is to arm the timeout of a call

    The timeout of the call with promise [p] is armed by the code that
    awaits its send.  That code is held by the governor's timer of the
    frame, then by the socket until it calls back; after that the timeout
    timer itself stands for it. *)

Definition claims (w : waiter) (p : nat) : nat :=
  match w with
  | AwaitCall q _ => if Nat.eqb q p then 1%nat else 0%nat
  | _ => 0%nat
  end.

Definition callback_claims (cb : callback) (p : nat) : nat :=
  match cb with
  | CbTimeout q => if Nat.eqb q p then 1%nat else 0%nat
  | CbThrottle _ w => claims w p
  | CbPing => 0%nat
  end.

Fixpoint total {A : Type} (f : A -> nat) (l : list A) : nat :=
  match l with
  | [] => 0%nat
  | x :: rest => (f x + total f rest)%nat
  end.

(** How many timers and pending completion callbacks stand for the
    timeout of [p]. *)
Definition owed (s : Client) (p : nat) : nat :=
  (total (fun x => callback_claims (action x) p) (timers (loop s))
   + total (fun c => claims (snd c) p) (callbacks (_ws s)))%nat.

(** At most one does, and none for a call that was not made. *)
Definition punctual (s : Client) : Prop :=
  forall p, (owed s p <= 1)%nat
            /\ ((List.length (promises s) <= p)%nat -> owed s p = 0%nat).

(** From [s] to [s'] nothing new stands for a timeout. *)
Definition debts (s s' : Client) : Prop := forall p, (owed s' p <= owed s p)%nat.

(** The same, but for the waiter [w] that was handed over. *)
Definition lends (w : waiter) (s s' : Client) : Prop :=
  forall p, (owed s' p <= owed s p + claims w p)%nat.

(** ** The reply of a login *)

(** What a login reply can change. *)
Definition credentials (s : Client) : bool * json :=
  (_isLoggedIn s, _streamSessionId s).

(** ** Views of the rest of the client *)

(** The push commands and the event each one is emitted as. *)
Definition push_channels : list (string * string) :=
  [("keepAlive", "keepAliveFromServer"); ("balance", "balance");
   ("candle", "candle"); ("news", "news"); ("profits", "profits");
   ("tickPrices", "tickPrices"); ("trade", "trade");
   ("tradeStatus", "tradeStatus")].

(** No registered call listens for the tag of the object [o]. *)
Definition unclaimed (o : object) (s : Client) : Prop :=
  forall t p, In (OnData t p) (on_message (_ws s)) -> obj_get o "customTag" <> JStr t.

(** A frame no listener can read: text that is not JSON, or the document
    [null]; and the exception the first listener throws on it. *)
Definition unreadable (d : Data) : option error :=
  match d with
  | Malformed _ => Some (SyntaxError "Unexpected token in JSON")
  | Text JNull => Some (TypeError "Cannot read properties of null")
  | Text _ => None
  end.

(** No registered call listens for the tag [rnd]. *)
Definition fresh_tag (rnd : string) (s : Client) : Prop :=
  forall t p, In (OnData t p) (on_message (_ws s)) -> t <> rnd.


(** The properties [JSON.stringify] writes for an object: those that are
    not [undefined], each as it reads back. *)
Fixpoint written (o : object) : object :=
  match o with
  | [] => []
  | (k, v) :: rest =>
      match v with
      | JUndefined => written rest
      | _ => (k, JSON_roundtrip v) :: written rest
      end
  end.


(** The indices, from [n] on, of the promises that are pending. *)
Fixpoint pending_from (n : nat) (ps : list (pstate * cont)) : list nat :=
  match ps with
  | [] => []
  | (Pending, _) :: rest => n :: pending_from (S n) rest
  | _ :: rest => pending_from (S n) rest
  end.

(** The calls the listeners wait for, in the order of registration. *)
Definition listened (fs : list listener) : list nat :=
  flat_map (fun f => match f with OnData _ p => [p] | ProcessMessage => [] end) fs.

(** Every pending call has its listener and every [onData] listener its
    pending call, in the order the calls were made. *)
Definition accounted (s : Client) : Prop :=
  listened (on_message (_ws s)) = pending_from 0 (promises s).

(** [xs] is [ys] with some elements left out. *)
Fixpoint subsequence {A : Type} (xs ys : list A) {struct ys} : Prop :=
  match ys with
  | [] => xs = []
  | y :: ys' =>
      match xs with
      | [] => True
      | x :: xs' => (x = y /\ subsequence xs' ys') \/ subsequence xs ys'
      end
  end.

(** Every frame on the wire was handed to the socket by the governor, at
    the time the wire shows. *)
Definition through_governor (s : Client) : Prop :=
  subsequence (wire (_ws s)) (dispatched (throttle s)).

(** Every completion callback the socket still holds belongs to a frame
    on the wire. *)
Definition posted (s : Client) : Prop :=
  forall n w, In (n, w) (callbacks (_ws s)) ->
    (n < List.length (wire (_ws s)))%nat.

Definition books (s : Client) :=
  (promises s, on_message (_ws s), wire (_ws s), dispatched (throttle s),
   callbacks (_ws s)).

Definition sound (s : Client) : Prop :=
  accounted s /\ through_governor s /\ posted s.

(** From [s] to [s'] the books stay in order. *)
Definition safe (s s' : Client) : Prop := sound s -> sound s'.

(** What a timer callback does to the timer list while only the clock
    runs: nothing, or it arms a timer of the governor. *)
Definition calm (l l' : Loop) : Prop :=
  l' = l \/ exists m w d, l' = arm (CbThrottle m w) d false l.

(** Interval [x] is armed and is the only keepalive. *)
Definition keepalive (x : timer) (l : Loop) : Prop :=
  In x (timers l)
  /\ forall y, In y (timers l) -> action y = CbPing -> y = x.

(** What [ping] reads of the client. *)
Definition station (s : Client) : ReadyState * json :=
  (readyState (_ws s), _streamSessionId s).

(** Timer [x] after it expired [c] times with period [d]. *)
Definition later (x : timer) (c : nat) (d : Z) : timer :=
  {| tid := tid x; due := due x + Z.of_nat c * d;
     period := period x; action := action x |}.

(** How often an interval that is due in [r] milliseconds and has period
    [d] expires within [n] milliseconds. *)
Definition beats (r d n : Z) : nat :=
  if n <? r then 0%nat else S (Z.to_nat ((n - r) / d)).

(** ** Sessions and frames the statements are tried on *)

Definition EPIPE : error := Error (JStr "write EPIPE").

(** [ms] milliseconds pass with nothing else happening. *)
Definition wait (ms : Z) : list event := repeat Tick (Z.to_nat ms).

Definition ask (command t : string) : call :=
  {| payload := [("command", JStr command)]; patience := None; tag := t |}.

Definition answer (t : string) (n : Z) : object :=
  [("status", JBool true); ("returnData", JNum n); ("customTag", JStr t)].

(** A command session and a streaming session of the demo server, built
    with no configuration, after the events [es]. *)
Definition command_session (es : list event) : Client :=
  run (construct None demo no_config 1700000000000) es.

Definition streaming_session (es : list event) : Client :=
  run (construct (Some "8469308861804289383") demo no_config 1700000000000) es.

(** Open, the first ping written. *)
Definition client0 : Client := command_session [WsOpen; WsSent 0 None].

Definition stream0 : Client := streaming_session [WsOpen; WsSent 0 None].

Definition reply_getServerTime : object :=
  [("status", JBool true);
   ("returnData", JObj [("time", JNum 1700000000000)]);
   ("customTag", JStr "0.5xk2")].

(** One call made on the streaming session. *)
Definition one_call_streaming : list event :=
  [WsOpen; WsSent 0 None;
   Call (sendCommandAndAwaitResponse_ [("command", JStr "getServerTime")] None)
        "0.5xk2"].

Definition stream1 : Client := streaming_session one_call_streaming.

(** A streaming session with two calls in flight, both written to the
    socket, their timeouts armed. *)
Definition two_calls_streaming : list event :=
  [WsOpen; WsSent 0 None;
   issue (ask "getServerTime" "0.a1"); issue (ask "getVersion" "0.b2")]
  ++ wait 1000 ++ [WsSent 1 None; WsSent 2 None; WsSent 3 None].

Definition stream2 : Client := streaming_session two_calls_streaming.

Definition burst : list event :=
  [WsOpen; issue (ask "getAllSymbols" "0.a1"); issue (ask "getServerTime" "0.b2")]
  ++ wait 600.

(** An open command session on which one call was made, written a
    throttle interval later and confirmed by the socket. *)
Definition one_call : list event :=
  [WsOpen; WsSent 0 None; issue (ask "getAllSymbols" "0.5xk2")]
  ++ wait 250 ++ [WsSent 1 None].

Definition its_timeout : timer :=
  {| tid := 2; due := 1700000005250; period := None; action := CbTimeout 0 |}.

Definition tick_EURUSD : object :=
  [("command", JStr "tickPrices");
   ("data", JObj [("symbol", JStr "EURUSD"); ("ask", JNum 108); ("bid", JNum 107)])].

(** A streaming session built on an empty identifier. *)
Definition unbound_stream : Client :=
  run (construct (Some "") demo no_config 1700000000000) [WsOpen; WsSent 0 None].

(** A command session after a successful login. *)
Definition logged_in : Client :=
  run (construct None demo no_config 1700000000000)
      [WsOpen; WsSent 0 None; Call (login_ "11223344" "secret" None) "0.9f3a";
       frame [("status", JBool true);
              ("streamSessionId", JStr "8469308861804289383");
              ("customTag", JStr "0.9f3a")]].

(** Calls and time on a socket that has not opened. *)
Definition before_open : list event :=
  [Call (sendCommand_ [("command", JStr "getServerTime")]) "";
   Call ping_ ""; Tick; Tick; WsError (Error (JStr "connect ECONNREFUSED"));
   WsClose; Tick].

(** An open command session that has been idle for longer than the
    throttle interval. *)
Definition idle_open : list event := [WsOpen; WsSent 0 None] ++ wait 300.

(** * Properties *)

(** ** Promise tables *)

Lemma settle_at_length : forall ps p o,
  List.length (settle_at p o ps) = List.length ps.
Proof.
  induction ps as [|[st k] ps IH]; intros [|p] o; simpl; auto.
  - destruct st; reflexivity.
  - destruct st; simpl; rewrite IH; reflexivity.
Qed.

Lemma settle_at_pending : forall ps p o k,
  nth_error ps p = Some (Pending, k) ->
  nth_error (settle_at p o ps) p = Some (o, k).
Proof.
  induction ps as [|[st k'] ps IH]; intros [|p] o k H; simpl in *;
    try discriminate.
  - inversion H; subst. reflexivity.
  - destruct st; apply IH; exact H.
Qed.

Lemma settle_at_settled : forall ps p o st k,
  nth_error ps p = Some (st, k) -> st <> Pending -> settle_at p o ps = ps.
Proof.
  induction ps as [|[st' k'] ps IH]; intros [|p] o st k H Hst; simpl in *;
    try discriminate; auto.
  - inversion H; subst. destruct st; congruence.
  - destruct st'; f_equal; eapply IH; eauto.
Qed.

Lemma settle_at_other : forall ps p q o,
  p <> q -> nth_error (settle_at p o ps) q = nth_error ps q.
Proof.
  induction ps as [|[st k] ps IH]; intros [|p] [|q] o Hpq; simpl; auto;
    try congruence.
  - destruct st; reflexivity.
  - destruct st; reflexivity.
  - destruct st; apply IH; congruence.
Qed.

Lemma settle_at_cont : forall ps p q o st k,
  nth_error ps q = Some (st, k) ->
  exists st', nth_error (settle_at p o ps) q = Some (st', k)
              /\ (st <> Pending -> st' = st).
Proof.
  intros ps p q o st k H. destruct (Nat.eq_dec p q) as [->|Hpq].
  - destruct st.
    + exists o. split; [apply settle_at_pending; exact H | congruence].
    + exists (Fulfilled v). erewrite settle_at_settled; eauto. discriminate.
    + exists (Rejected e). erewrite settle_at_settled; eauto. discriminate.
  - exists st. rewrite settle_at_other by exact Hpq. auto.
Qed.

Lemma settle_returned_at_length : forall rs q o,
  List.length (settle_returned_at q o rs) = List.length rs.
Proof.
  induction rs as [|st rs IH]; intros [|q] o; simpl; auto.
  - destruct st; reflexivity.
  - destruct st; simpl; rewrite IH; reflexivity.
Qed.

Lemma settle_returned_at_pending : forall rs q o,
  nth_error rs q = Some Pending ->
  nth_error (settle_returned_at q o rs) q = Some o.
Proof.
  induction rs as [|st rs IH]; intros [|q] o H; simpl in *; try discriminate.
  - inversion H; subst. reflexivity.
  - destruct st; apply IH; exact H.
Qed.

Lemma settle_returned_at_other : forall rs p q o,
  p <> q -> nth_error (settle_returned_at p o rs) q = nth_error rs q.
Proof.
  induction rs as [|st rs IH]; intros [|p] [|q] o Hpq; simpl; auto;
    try congruence.
  - destruct st; reflexivity.
  - destruct st; reflexivity.
  - destruct st; apply IH; congruence.
Qed.

Lemma nth_error_snoc : forall (A : Type) (l : list A) (x : A),
  nth_error (l ++ [x]) (List.length l) = Some x.
Proof.
  intros A l x. rewrite nth_error_app2 by lia. rewrite Nat.sub_diag. reflexivity.
Qed.

(** A method that rejects at once: the promise it returns is new and
    rejected. *)
Lemma new_returned_rejected : forall s e,
  let (q, s1) := new_returned s in
  returned_state (settle_returned q (Rejected e) s1) q = Some (Rejected e).
Proof.
  intros s e. cbn. unfold returned_state. cbn.
  apply settle_returned_at_pending, nth_error_snoc.
Qed.

(** ** The login guard of the business commands *)

Lemma guarded_command_not_logged_in : forall data rnd s,
  _isLoggedIn s = false ->
  let r := guarded_command data rnd s in
  returned_state (snd r) (fst r) = Some (Rejected not_logged_in)
  /\ nothing_sent s (snd r).
Proof.
  intros data rnd s H. unfold guarded_command.
  pose proof (new_returned_rejected s not_logged_in) as R.
  cbn in *. rewrite H. cbn. split; [exact R|].
  repeat split.
Qed.

(** ** What the send path leaves alone *)

Lemma core_with_throttle : forall f s, core (with_throttle f s) = core s.
Proof. reflexivity. Qed.

Lemma core_with_loop : forall f s, core (with_loop f s) = core s.
Proof. reflexivity. Qed.

Lemma core_with_trace : forall f s, core (with_trace f s) = core s.
Proof. reflexivity. Qed.

Lemma core_with_returned : forall f s, core (with_returned f s) = core s.
Proof. reflexivity. Qed.

Lemma core_set_pingInterval : forall h s, core (set_pingInterval h s) = core s.
Proof. reflexivity. Qed.

Lemma core_complete : forall w err s, core (complete w err s) = core s.
Proof. intros [ | |p t|q| ] [e|] s; reflexivity. Qed.

Lemma core_sendMessage : forall data w s, core (sendMessage data w s) = core s.
Proof.
  intros data w s. unfold sendMessage.
  destruct (readyState _); try rewrite core_complete; reflexivity.
Qed.

Lemma core_sendThrottled : forall m w s, core (sendThrottled m w s) = core s.
Proof.
  intros m w s. unfold sendThrottled, windowedDelay.
  destruct (window _ _ _) as [delay t].
  destruct (0 <? delay); [|rewrite core_sendMessage]; reflexivity.
Qed.

Lemma core_sendCommand : forall data w s, core (sendCommand data w s) = core s.
Proof. intros. apply core_sendThrottled. Qed.

Lemma core_ping : forall w s, core (ping w s) = core s.
Proof.
  intros w s. unfold ping.
  destruct (readyState (_ws s));
    try rewrite core_complete; try rewrite core_sendCommand; reflexivity.
Qed.

Lemma core_subscribeToStream : forall c a w s,
  core (subscribeToStream c a w s) = core s.
Proof.
  intros c a w s. unfold subscribeToStream.
  destruct (negb _); [apply core_complete | apply core_sendCommand].
Qed.

Lemma core_unsubscribeFromStream : forall c a w s,
  core (unsubscribeFromStream c a w s) = core s.
Proof. intros. apply core_sendCommand. Qed.

Lemma core_eq : forall s s', core s' = core s ->
  _isLoggedIn s' = _isLoggedIn s /\ _streamSessionId s' = _streamSessionId s
  /\ promises s' = promises s /\ config s' = config s
  /\ _streaming s' = _streaming s
  /\ on_message (_ws s') = on_message (_ws s)
  /\ readyState (_ws s') = readyState (_ws s).
Proof. unfold core. intros s s' H. inversion H. repeat split; assumption. Qed.

(** ** Frames that parse to an object

    No listener throws on such a frame, so an emit is a fold over the
    listeners. *)

Lemma call_listener_object : forall f o s,
  call_listener f (Text (JObj o)) s = (None, react o s f).
Proof.
  intros [t p|] o s; unfold react; cbn.
  - unfold onData; cbn. destruct (strict_eq_str _ _); reflexivity.
  - unfold processMessage; cbn. destruct (channel _); reflexivity.
Qed.

Lemma deliver_object : forall fs o s,
  deliver fs (Text (JObj o)) s = fold_left (react o) fs s.
Proof.
  induction fs as [|f fs IH]; intros o s; simpl; [reflexivity|].
  rewrite call_listener_object. apply IH.
Qed.

Lemma react_onData : forall o s t p,
  react o s (OnData t p) =
  if strict_eq_str (obj_get o "customTag") t
  then settle p (Fulfilled (JObj o)) (ws_off p s) else s.
Proof.
  intros. unfold react; cbn. unfold onData; cbn.
  destruct (strict_eq_str _ _); reflexivity.
Qed.

Lemma strict_eq_str_true : forall x t, strict_eq_str x t = true <-> x = JStr t.
Proof.
  intros x t; destruct x; simpl; split; intro H; try discriminate.
  - apply String.eqb_eq in H. congruence.
  - inversion H. apply String.eqb_refl.
Qed.

(** What a correlated call changes at once: one promise and one listener
    more. *)
Lemma sendCommandAndAwaitResponse_effect : forall data timeout rnd k s,
  let r := sendCommandAndAwaitResponse data timeout rnd k s in
  fst r = List.length (promises s)
  /\ promises (snd r) = promises s ++ [(Pending, k)]
  /\ on_message (_ws (snd r)) = on_message (_ws s) ++ [OnData rnd (fst r)]
  /\ _isLoggedIn (snd r) = _isLoggedIn s
  /\ _streamSessionId (snd r) = _streamSessionId s
  /\ _streaming (snd r) = _streaming s.
Proof.
  intros data timeout rnd k s. unfold sendCommandAndAwaitResponse. cbn.
  match goal with |- context [sendThrottled ?m ?w ?x] =>
    pose proof (core_eq _ _ (core_sendThrottled m w x)) as H end.
  destruct H as (H1 & H2 & H3 & _ & H5 & H4 & _).
  rewrite H1, H2, H3, H4, H5. repeat split.
Qed.

(** ** The login flag *)

Lemma logged_out_same : forall s s',
  _isLoggedIn s' = _isLoggedIn s -> promises s' = promises s ->
  logged_out s -> logged_out s'.
Proof. unfold logged_out. intros s s' -> ->. auto. Qed.

Lemma logged_out_core : forall s s',
  core s' = core s -> logged_out s -> logged_out s'.
Proof.
  intros s s' H. apply core_eq in H. destruct H as (H1 & _ & H2 & _).
  apply logged_out_same; assumption.
Qed.

Lemma pending_login_settle_at : forall ps p o,
  existsb pending_login ps = false ->
  existsb pending_login (settle_at p o ps) = false.
Proof.
  induction ps as [|[st k] ps IH]; intros [|p] o H; simpl in *; auto.
  - destruct st; auto. destruct k; simpl in *; try discriminate;
      destruct o; simpl; auto.
  - apply orb_false_iff in H. destruct H as [H1 H2].
    destruct st; simpl; rewrite IH by assumption;
      rewrite ?orb_false_r; auto.
Qed.

Lemma pending_login_nth : forall ps p k,
  existsb pending_login ps = false ->
  nth_error ps p = Some (Pending, k) ->
  forall q, k <> KLogin q.
Proof.
  induction ps as [|e ps IH]; intros [|p] k H Hn q; simpl in *;
    try discriminate; apply orb_false_iff in H; destruct H as [H1 H2].
  - inversion Hn; subst. intros ->. discriminate.
  - eapply IH; eauto.
Qed.

Lemma logged_out_close : forall s, logged_out s -> logged_out (BaseClient_close s).
Proof.
  intros s. apply logged_out_same; unfold BaseClient_close;
    destruct (_pingInterval s); reflexivity.
Qed.

Lemma logged_out_settle : forall p o s, logged_out s -> logged_out (settle p o s).
Proof.
  intros p o s [H1 H2]. unfold settle.
  destruct (nth_error (promises s) p) as [[[| |] k]|] eqn:E; try (split; assumption).
  pose proof (pending_login_nth _ _ _ H2 E) as Hk.
  assert (L : logged_out (with_promises (settle_at p o) s)).
  { split; [exact H1 | apply pending_login_settle_at; exact H2]. }
  destruct k as [|q|q|q]; [exact L | exfalso; eapply Hk; reflexivity | | ].
  - destruct o as [|res|e]; cbn; [exact L| |revert L; apply logged_out_same; reflexivity].
    destruct (prop res "status") as [e|status];
      [revert L; apply logged_out_same; reflexivity|].
    destruct (prop res _) as [e|v];
      [revert L; apply logged_out_same; reflexivity|].
    destruct (truthy status); revert L; apply logged_out_same; reflexivity.
  - destruct o as [|res|e]; cbn; [exact L| |revert L; apply logged_out_same; reflexivity].
    apply logged_out_close in L. revert L. apply logged_out_same; reflexivity.
Qed.

Lemma logged_out_listener : forall f d s,
  logged_out s -> logged_out (snd (call_listener f d s)).
Proof.
  intros [t p|] d s L; cbn.
  - unfold onData. destruct (JSON_parse d) as [e|r]; [exact L|].
    destruct (prop r "customTag") as [e|tag]; [exact L|].
    destruct (strict_eq_str tag t); [|exact L]. cbn.
    apply logged_out_settle. revert L. apply logged_out_same; reflexivity.
  - unfold processMessage. destruct (JSON_parse d) as [e|m]; [exact L|].
    destruct (prop m "command") as [e|c]; [exact L|].
    destruct (channel c); [destruct (prop m "data") as [e|x]; [exact L|]|];
      revert L; apply logged_out_same; reflexivity.
Qed.

Lemma logged_out_deliver : forall fs d s,
  logged_out s -> logged_out (deliver fs d s).
Proof.
  induction fs as [|f fs IH]; intros d s L; simpl; [exact L|].
  pose proof (logged_out_listener f d s L) as L'.
  destruct (call_listener f d s) as [[e|] s1]; cbn in L'.
  - revert L'. apply logged_out_same; reflexivity.
  - apply IH. exact L'.
Qed.

Lemma logged_out_callback : forall cb s,
  logged_out s -> logged_out (run_callback cb s).
Proof.
  intros [p| |data w] s L; cbn.
  - apply logged_out_settle. revert L. apply logged_out_same; reflexivity.
  - revert L. apply logged_out_core, core_ping.
  - revert L. apply logged_out_core, core_sendMessage.
Qed.

Lemma logged_out_fire : forall h s, logged_out s -> logged_out (fire h s).
Proof.
  intros h s L. unfold fire. destruct (find_timer h s) as [t|]; [|exact L].
  apply logged_out_callback.
  destruct (period t); revert L; apply logged_out_same; reflexivity.
Qed.

Lemma logged_out_fold_fire : forall hs s,
  logged_out s -> logged_out (fold_left (fun s h => fire h s) hs s).
Proof.
  induction hs as [|h hs IH]; intros s L; simpl; [exact L|].
  apply IH, logged_out_fire, L.
Qed.

Lemma logged_out_call : forall data timeout rnd k s,
  (forall q, k <> KLogin q) -> logged_out s ->
  logged_out (snd (sendCommandAndAwaitResponse data timeout rnd k s)).
Proof.
  intros data timeout rnd k s Hk [H1 H2].
  pose proof (sendCommandAndAwaitResponse_effect data timeout rnd k s) as E.
  cbv zeta in E. destruct E as (_ & E2 & _ & E4 & _).
  split; [rewrite E4; exact H1|].
  rewrite E2, existsb_app, H2. simpl.
  destruct k; try reflexivity. exfalso. eapply Hk. reflexivity.
Qed.

Lemma logged_out_returning : forall f s,
  (forall w x, core (f w x) = core x) ->
  logged_out s -> logged_out (snd (returning f s)).
Proof.
  intros f s H. unfold returning, new_returned. cbv beta iota zeta. cbn [snd].
  apply logged_out_core. rewrite H. reflexivity.
Qed.

Lemma logged_out_logout_then : forall k rnd s,
  (forall q, k <> KLogin q) -> logged_out s ->
  logged_out (snd (logout_then k rnd s)).
Proof.
  intros k rnd s Hk L. unfold logout_then.
  pose proof (logged_out_call [("command", JStr "logout")] None rnd k s Hk L) as R.
  destruct (sendCommandAndAwaitResponse _ _ _ _ s) as [p s1].
  cbn in *. destruct R as [_ R]. split; [reflexivity | exact R].
Qed.

Lemma logged_out_guarded_command : forall data rnd s,
  logged_out s -> logged_out (snd (guarded_command data rnd s)).
Proof.
  intros data rnd s L. unfold guarded_command, new_returned. cbv beta iota zeta.
  destruct (negb _); [revert L; apply logged_out_same; reflexivity|].
  match goal with |- context [sendCommandAndAwaitResponse ?d ?t ?r ?k ?x] =>
    assert (R : logged_out (snd (sendCommandAndAwaitResponse d t r k x)));
    [|destruct (sendCommandAndAwaitResponse d t r k x) as [p s2]; exact R] end.
  apply logged_out_call; [discriminate|].
  revert L. apply logged_out_same; reflexivity.
Qed.

Lemma logged_out_invoke : forall m rnd s,
  is_login (Call m rnd) = false ->
  logged_out s -> logged_out (snd (invoke m rnd s)).
Proof.
  intros m rnd s Hm L.
  destruct m; try discriminate Hm; cbn [invoke];
    try match goal with |- context [Bool.eqb ?a ?b] =>
      destruct (Bool.eqb a b); [|exact L] end;
    try (apply logged_out_returning; [intros|exact L];
         first [apply core_sendCommand | apply core_ping
               | apply core_subscribeToStream | apply core_unsubscribeFromStream]).
  - apply logged_out_call; [discriminate | exact L].
  - destruct (_streaming s).
    + unfold new_returned. cbv beta iota zeta. cbn [snd].
      revert L. apply logged_out_same; unfold BaseClient_close; cbn;
        destruct (_pingInterval s); reflexivity.
    + unfold XTBClient_close, new_returned. cbv beta iota zeta.
      match goal with |- context [logout_then ?k ?r ?x] =>
        assert (R : logged_out (snd (logout_then k r x)));
        [|destruct (logout_then k r x) as [p s2]; exact R] end.
      apply logged_out_logout_then; [discriminate|].
      revert L. apply logged_out_same; reflexivity.
  - apply logged_out_logout_then; [discriminate | exact L].
  - apply logged_out_guarded_command, L.
  - apply logged_out_guarded_command, L.
  - apply logged_out_guarded_command, L.
  - apply logged_out_guarded_command, L.
Qed.

Lemma logged_out_step : forall e s,
  is_login e = false -> logged_out s -> logged_out (step s e).
Proof.
  intros [ |d|n err| |e| |m rnd] s Hc L; cbn [step];
    [| | | | | |apply logged_out_invoke; assumption].
  - unfold on_open.
    match goal with |- logged_out (if _ ?x then _ else _) =>
      assert (L1 : logged_out x) end.
    { apply (logged_out_core (emit "open" NoArg (ws_set_state OPEN s)));
        [apply core_ping|].
      revert L. apply logged_out_same; reflexivity. }
    destruct (_streaming _); [|exact L1].
    revert L1. apply logged_out_core, core_subscribeToStream.
  - apply logged_out_deliver, L.
  - unfold on_sent. destruct (find _ _) as [[n' w]|]; [|exact L].
    revert L. apply logged_out_core. rewrite core_complete. reflexivity.
  - revert L. apply logged_out_same; reflexivity.
  - revert L. apply logged_out_same; reflexivity.
  - unfold tick. apply logged_out_fold_fire.
    revert L. apply logged_out_same; reflexivity.
Qed.

Lemma logged_out_run : forall es s,
  forallb (fun e => negb (is_login e)) es = true ->
  logged_out s -> logged_out (run s es).
Proof.
  induction es as [|e es IH]; intros s H L; simpl in *; [exact L|].
  apply andb_true_iff in H. destruct H as [H1 H2].
  apply IH; [exact H2|]. apply logged_out_step; [|exact L].
  destruct (is_login e); [discriminate | reflexivity].
Qed.

(** ** Correlated calls and the frames that answer them *)

(** [processMessage] only emits or warns. *)
Lemma with_trace_id : forall s, with_trace (fun t => t) s = s.
Proof. intros [? ? ? ? ? ? ? ? ? ? ? []]. reflexivity. Qed.

Lemma processMessage_trace : forall d s,
  exists f, snd (processMessage d s) = with_trace f s.
Proof.
  intros d s. unfold processMessage.
  destruct (JSON_parse d) as [e|m];
    [exists (fun t => t); symmetry; apply with_trace_id|].
  destruct (prop m "command") as [e|c];
    [exists (fun t => t); symmetry; apply with_trace_id|].
  destruct (channel c).
  - destruct (prop m "data") as [e|x];
      [exists (fun t => t); symmetry; apply with_trace_id|].
    eexists; reflexivity.
  - eexists; reflexivity.
Qed.

Lemma react_processMessage : forall o s,
  react o s ProcessMessage = snd (processMessage (Text (JObj o)) s).
Proof. reflexivity. Qed.

Lemma react_other_tag : forall o t t' p s,
  bears o t -> t' <> t -> react o s (OnData t' p) = s.
Proof.
  intros o t t' p s Hb Ht. rewrite react_onData. rewrite Hb. simpl.
  destruct (String.eqb t t') eqn:E; [|reflexivity].
  apply String.eqb_eq in E. congruence.
Qed.

Lemma session_fold_other : forall o t fs s,
  bears o t ->
  (forall t' p, In (OnData t' p) fs -> t' <> t) ->
  session (fold_left (react o) fs s) = session s
  /\ on_message (_ws (fold_left (react o) fs s)) = on_message (_ws s).
Proof.
  intros o t fs. induction fs as [|f fs IH]; intros s Hb Hfs; simpl; [auto|].
  destruct (IH (react o s f) Hb) as [I1 I2].
  { intros t' p Hin. apply (Hfs t' p). right. exact Hin. }
  rewrite I1, I2. destruct f as [t' p|].
  - rewrite (react_other_tag o t t' p s Hb); [auto|].
    apply (Hfs t' p). left. reflexivity.
  - rewrite react_processMessage.
    destruct (processMessage_trace (Text (JObj o)) s) as [g ->].
    split; reflexivity.
Qed.

(** ** Frames of a streaming session *)

Lemma submitted_complete : forall w err s,
  submitted (throttle (complete w err s)) = submitted (throttle s).
Proof. intros [ | |p t|q| ] [e|] s; reflexivity. Qed.

Lemma submitted_sendMessage : forall data w s,
  submitted (throttle (sendMessage data w s)) = submitted (throttle s).
Proof.
  intros data w s. unfold sendMessage.
  destruct (readyState _); try rewrite submitted_complete; reflexivity.
Qed.

Lemma submitted_sendThrottled : forall m w s,
  submitted (throttle (sendThrottled m w s)) = m :: submitted (throttle s).
Proof.
  intros m w s. unfold sendThrottled, windowedDelay, window.
  repeat match goal with |- context [if ?c then _ else _] => destruct c end;
  cbn; try rewrite submitted_sendMessage; reflexivity.
Qed.

Lemma truthy_JStr : forall sid, sid <> "" -> truthy (JStr sid) = true.
Proof.
  intros sid H. simpl. destruct (String.eqb sid "") eqn:E; [|reflexivity].
  apply String.eqb_eq in E. contradiction.
Qed.

Lemma subscribe_carries : forall s sid symbol options w f,
  _streamSessionId s = JStr sid -> sid <> "" ->
  In f (subscribe_methods symbol options) ->
  exists d, submits (f w) s d /\ carries sid d = true.
Proof.
  intros s sid symbol options w f Hs Hne Hf.
  pose proof (truthy_JStr sid Hne) as Ht.
  assert (G : forall c a, exists d,
             submits (subscribeToStream c a w) s d
             /\ d = JSON_stringify
                      (spread [("command", JStr c); ("streamSessionId", JStr sid)] a)).
  { intros c a. eexists. split; [|reflexivity].
    unfold submits, subscribeToStream, sendCommand. rewrite Hs, Ht. cbn [negb].
    apply submitted_sendThrottled. }
  simpl in Hf.
  destruct Hf as [<-|[<-|[<-|[<-|[<-|[<-|[<-|[<-|[]]]]]]]]];
    match goal with |- context [submits (?m w)] =>
      let m' := eval unfold subscribeKeepAlive, subscribeBalance, subscribeCandles,
                  subscribeNews, subscribeProfits, subscribeTickPrices,
                  subscribeTrades, subscribeTradeStatus in m in
      match m' with subscribeToStream ?c ?a =>
        destruct (G c a) as [d [G1 ->]]; eexists; split; [exact G1|]
      end
    end;
    try (cbn; apply String.eqb_refl).
  destruct options as [[[mi|] [ma|]]|]; cbn; apply String.eqb_refl.
Qed.

Lemma unsubscribe_anonymous : forall s symbol w f,
  In f (unsubscribe_methods symbol) ->
  exists d, submits (f w) s d /\ anonymous d = true.
Proof.
  intros s symbol w f Hf.
  simpl in Hf.
  destruct Hf as [<-|[<-|[<-|[<-|[<-|[<-|[<-|[<-|[]]]]]]]]];
    (eexists; split;
     [unfold submits; apply submitted_sendThrottled | reflexivity]).
Qed.

Lemma ping_carries : forall s sid w,
  _streamSessionId s = JStr sid -> sid <> "" ->
  match readyState (_ws s) with
  | CONNECTING => submitted (throttle (ping w s)) = submitted (throttle s)
  | _ => exists d, submits (ping w) s d /\ carries sid d = true
  end.
Proof.
  intros s sid w Hs Hne. pose proof (truthy_JStr sid Hne) as Ht.
  unfold ping, submits.
  destruct (readyState (_ws s)) eqn:E.
  - apply submitted_complete.
  - eexists. split;
      [unfold sendCommand; rewrite submitted_sendThrottled; reflexivity|].
    unfold ping_frame. cbn [_streamSessionId with_ws]. rewrite Hs, Ht. cbn.
    apply String.eqb_refl.
  - eexists. split; [apply submitted_sendThrottled|].
    unfold ping_frame. rewrite Hs, Ht. cbn. apply String.eqb_refl.
  - eexists. split; [apply submitted_sendThrottled|].
    unfold ping_frame. rewrite Hs, Ht. cbn. apply String.eqb_refl.
Qed.

(** ** How a frame acts on the promises and the listeners *)

Lemma settle_at_id : forall ps p o,
  (forall k, nth_error ps p <> Some (Pending, k)) -> settle_at p o ps = ps.
Proof.
  induction ps as [|[st k] ps IH]; intros [|p] o H; simpl in *; auto.
  - destruct st; auto. exfalso. apply (H k). reflexivity.
  - destruct st; f_equal; apply IH; exact H.
Qed.

Lemma promises_run_cont : forall k o s, promises (run_cont k o s) = promises s.
Proof.
  intros [|q|q|q] [|v|e] s; cbn; try reflexivity.
  - destruct (prop v "status") as [e|status]; [reflexivity|].
    destruct (truthy status); [destruct (prop v "streamSessionId")|]; reflexivity.
  - destruct (prop v "status") as [e|status]; [reflexivity|].
    destruct (prop v _) as [e|x]; [reflexivity|].
    destruct (truthy status); reflexivity.
  - unfold BaseClient_close. destruct (_pingInterval s); reflexivity.
Qed.

Lemma on_message_run_cont : forall k o s,
  on_message (_ws (run_cont k o s)) = on_message (_ws s).
Proof.
  intros [|q|q|q] [|v|e] s; cbn; try reflexivity.
  - destruct (prop v "status") as [e|status]; [reflexivity|].
    destruct (truthy status); [destruct (prop v "streamSessionId")|]; reflexivity.
  - destruct (prop v "status") as [e|status]; [reflexivity|].
    destruct (prop v _) as [e|x]; [reflexivity|].
    destruct (truthy status); reflexivity.
  - unfold BaseClient_close. destruct (_pingInterval s); reflexivity.
Qed.

Lemma promises_settle : forall p o s,
  promises (settle p o s) = settle_at p o (promises s).
Proof.
  intros p o s. unfold settle.
  destruct (nth_error (promises s) p) as [[[| |] k]|] eqn:E.
  - rewrite promises_run_cont. reflexivity.
  - symmetry. eapply settle_at_settled; [exact E | discriminate].
  - symmetry. eapply settle_at_settled; [exact E | discriminate].
  - symmetry. apply settle_at_id. intros k. congruence.
Qed.

Lemma on_message_settle : forall p o s,
  on_message (_ws (settle p o s)) = on_message (_ws s).
Proof.
  intros p o s. unfold settle.
  destruct (nth_error (promises s) p) as [[[| |] k]|]; try reflexivity.
  rewrite on_message_run_cont. reflexivity.
Qed.

Lemma promises_react : forall o s f,
  promises (react o s f) = resolve_one o (promises s) f.
Proof.
  intros o s [t p|]; simpl.
  - rewrite react_onData. destruct (strict_eq_str _ _); [|reflexivity].
    rewrite promises_settle. reflexivity.
  - rewrite react_processMessage.
    destruct (processMessage_trace (Text (JObj o)) s) as [g ->]. reflexivity.
Qed.

Lemma on_message_react : forall o s f,
  on_message (_ws (react o s f)) = unlisten_one o (on_message (_ws s)) f.
Proof.
  intros o s [t p|]; simpl.
  - rewrite react_onData. destruct (strict_eq_str _ _); [|reflexivity].
    rewrite on_message_settle. reflexivity.
  - rewrite react_processMessage.
    destruct (processMessage_trace (Text (JObj o)) s) as [g ->]. reflexivity.
Qed.

Lemma promises_fold_react : forall o fs s,
  promises (fold_left (react o) fs s) = fold_left (resolve_one o) fs (promises s).
Proof.
  intros o fs. induction fs as [|f fs IH]; intros s; simpl; [reflexivity|].
  rewrite IH, promises_react. reflexivity.
Qed.

Lemma on_message_fold_react : forall o fs s,
  on_message (_ws (fold_left (react o) fs s))
  = fold_left (unlisten_one o) fs (on_message (_ws s)).
Proof.
  intros o fs. induction fs as [|f fs IH]; intros s; simpl; [reflexivity|].
  rewrite IH, on_message_react. reflexivity.
Qed.

(** Settled entries stay, and an entry keeps its continuation. *)
Lemma resolve_fold_settled : forall o fs ps p st k,
  nth_error ps p = Some (st, k) -> st <> Pending ->
  nth_error (fold_left (resolve_one o) fs ps) p = Some (st, k).
Proof.
  intros o fs. induction fs as [|f fs IH]; intros ps p st k H Hst; simpl;
    [exact H|].
  apply IH; [|exact Hst].
  destruct f as [t q|]; simpl; [|exact H].
  destruct (strict_eq_str _ _); [|exact H].
  destruct (settle_at_cont ps q p (Fulfilled (JObj o)) st k H) as [st' [H1 H2]].
  rewrite H1, (H2 Hst). reflexivity.
Qed.

(** A frame bearing [t] settles the promise of every listener with tag [t]
    that sees it. *)
Lemma resolve_fold_hit : forall o t fs ps p k,
  bears o t -> In (OnData t p) fs ->
  nth_error ps p = Some (Pending, k) ->
  nth_error (fold_left (resolve_one o) fs ps) p = Some (Fulfilled (JObj o), k).
Proof.
  intros o t fs. induction fs as [|f fs IH]; intros ps p k Hb Hin H; simpl;
    [contradiction|].
  destruct Hin as [->|Hin].
  - simpl. rewrite Hb. simpl. rewrite String.eqb_refl.
    apply resolve_fold_settled; [|discriminate].
    apply settle_at_pending. exact H.
  - destruct f as [t' q|]; simpl; [|apply IH; assumption].
    destruct (strict_eq_str _ _); [|apply IH; assumption].
    destruct (Nat.eq_dec q p) as [->|Hqp].
    + apply resolve_fold_settled; [|discriminate].
      apply settle_at_pending. exact H.
    + apply IH; try assumption. rewrite settle_at_other by exact Hqp. exact H.
Qed.

(** A promise no matching listener points to is left as it is. *)
Lemma resolve_fold_miss : forall o fs ps p,
  (forall t q, In (OnData t q) fs ->
     strict_eq_str (obj_get o "customTag") t = true -> q <> p) ->
  nth_error (fold_left (resolve_one o) fs ps) p = nth_error ps p.
Proof.
  intros o fs. induction fs as [|f fs IH]; intros ps p H; simpl; [reflexivity|].
  rewrite IH by (intros t q Hin; apply H; right; exact Hin).
  destruct f as [t q|]; simpl; [|reflexivity].
  destruct (strict_eq_str _ _) eqn:E; [|reflexivity].
  apply settle_at_other. apply (H t q); [left; reflexivity | exact E].
Qed.

(** Listeners only leave during an emit, and the ones whose promise no
    matching listener points to stay. *)
Lemma unlisten_fold_incl : forall o fs gs g,
  In g (fold_left (unlisten_one o) fs gs) -> In g gs.
Proof.
  intros o fs. induction fs as [|f fs IH]; intros gs g H; simpl in *; [exact H|].
  apply IH in H. destruct f as [t q|]; simpl in H; [|exact H].
  destruct (strict_eq_str _ _); [|exact H].
  apply filter_In in H. tauto.
Qed.

Lemma unlisten_fold_gone : forall o t fs gs p t',
  bears o t -> In (OnData t p) fs ->
  ~ In (OnData t' p) (fold_left (unlisten_one o) fs gs).
Proof.
  intros o t fs. induction fs as [|f fs IH]; intros gs p t' Hb Hin; simpl;
    [contradiction|].
  destruct Hin as [->|Hin]; [|apply IH; assumption].
  simpl. rewrite Hb. simpl. rewrite String.eqb_refl.
  intros H. apply unlisten_fold_incl in H. apply filter_In in H.
  destruct H as [_ H]. simpl in H. rewrite Nat.eqb_refl in H. discriminate.
Qed.

Lemma unlisten_fold_keep : forall o fs gs t p,
  (forall t' q, In (OnData t' q) fs ->
     strict_eq_str (obj_get o "customTag") t' = true -> q <> p) ->
  In (OnData t p) gs -> In (OnData t p) (fold_left (unlisten_one o) fs gs).
Proof.
  intros o fs. induction fs as [|f fs IH]; intros gs t p H Hin; simpl;
    [exact Hin|].
  apply IH; [intros t' q Hq; apply H; right; exact Hq|].
  destruct f as [t' q|]; simpl; [|exact Hin].
  destruct (strict_eq_str _ _) eqn:E; [|exact Hin].
  apply filter_In. split; [exact Hin|]. simpl.
  destruct (Nat.eqb p q) eqn:Epq; [|reflexivity].
  apply Nat.eqb_eq in Epq. exfalso.
  apply (H t' q); [left; reflexivity | exact E | congruence].
Qed.

(** ** What reaches the push dispatcher *)

Lemma dispatch_log_run_cont : forall k o s,
  dispatch_log (run_cont k o s) = dispatch_log s.
Proof.
  intros [|q|q|q] [|v|e] s; cbn; try reflexivity.
  - destruct (prop v "status") as [e|status]; [reflexivity|].
    destruct (truthy status); [destruct (prop v "streamSessionId")|]; reflexivity.
  - destruct (prop v "status") as [e|status]; [reflexivity|].
    destruct (prop v _) as [e|x]; [reflexivity|].
    destruct (truthy status); reflexivity.
  - unfold BaseClient_close. destruct (_pingInterval s); reflexivity.
Qed.

Lemma dispatch_log_settle : forall p o s,
  dispatch_log (settle p o s) = dispatch_log s.
Proof.
  intros p o s. unfold settle.
  destruct (nth_error (promises s) p) as [[[| |] k]|]; try reflexivity.
  rewrite dispatch_log_run_cont. reflexivity.
Qed.

Lemma dispatch_log_react_onData : forall o s t p,
  dispatch_log (react o s (OnData t p)) = dispatch_log s.
Proof.
  intros. rewrite react_onData. destruct (strict_eq_str _ _); [|reflexivity].
  rewrite dispatch_log_settle. reflexivity.
Qed.

Lemma dispatch_log_react_processMessage : forall o s,
  dispatch_log (react o s ProcessMessage) = dispatched_as o (dispatch_log s).
Proof.
  intros o s. unfold react, dispatched_as. cbn. unfold processMessage. cbn.
  destruct (channel _); reflexivity.
Qed.

Lemma dispatch_log_calls_only : forall o fs s,
  calls_only fs = true ->
  dispatch_log (fold_left (react o) fs s) = dispatch_log s.
Proof.
  intros o fs. induction fs as [|f fs IH]; intros s H; simpl in *; [reflexivity|].
  apply andb_true_iff in H. destruct H as [Hf Hfs].
  rewrite IH by exact Hfs. destruct f; [|discriminate].
  apply dispatch_log_react_onData.
Qed.

(** ** Concurrent correlated calls *)

Lemma waiting_other_frame : forall t p s o t',
  waiting t p s -> bears o t' -> t' <> t -> waiting t p (step s (frame o)).
Proof.
  intros t p s o t' (Hp & Hin & Huniq) Hb Hne. cbn [frame step].
  rewrite deliver_object.
  assert (M : forall t'' q, In (OnData t'' q) (on_message (_ws s)) ->
              strict_eq_str (obj_get o "customTag") t'' = true -> q <> p).
  { intros t'' q Hq E ->. apply strict_eq_str_true in E.
    rewrite Hb in E. inversion E; subst. apply Hne.
    apply Huniq. exact Hq. }
  repeat split.
  - unfold promise_state in *. rewrite promises_fold_react.
    rewrite resolve_fold_miss by exact M. exact Hp.
  - rewrite on_message_fold_react. apply unlisten_fold_keep; assumption.
  - intros t''. rewrite on_message_fold_react. intros H.
    apply unlisten_fold_incl in H. apply Huniq. exact H.
Qed.

Lemma waiting_hit : forall t p s o,
  waiting t p s -> bears o t ->
  promise_state (step s (frame o)) p = Some (Fulfilled (JObj o)).
Proof.
  intros t p s o (Hp & Hin & _) Hb. cbn [frame step]. rewrite deliver_object.
  unfold promise_state in *. rewrite promises_fold_react.
  destruct (nth_error (promises s) p) as [[st k]|] eqn:E; [|discriminate].
  simpl in Hp. inversion Hp; subst.
  rewrite (resolve_fold_hit o t _ _ p k Hb Hin E). reflexivity.
Qed.

Lemma settled_frames : forall os s p st,
  promise_state s p = Some st -> st <> Pending ->
  promise_state (run s (map frame os)) p = Some st.
Proof.
  induction os as [|o os IH]; intros s p st H Hst; simpl; [exact H|].
  apply IH; [|exact Hst]. rewrite deliver_object.
  unfold promise_state in *. rewrite promises_fold_react.
  destruct (nth_error (promises s) p) as [[st' k]|] eqn:E; [|discriminate].
  simpl in H. inversion H; subst.
  rewrite (resolve_fold_settled o _ _ p st k E Hst). reflexivity.
Qed.

Lemma waiting_frames : forall os t p s o,
  waiting t p s ->
  (forall o', In o' os -> exists t', bears o' t') ->
  NoDup (map customTag os) ->
  In o os -> bears o t ->
  promise_state (run s (map frame os)) p = Some (Fulfilled (JObj o)).
Proof.
  induction os as [|o1 os IH]; intros t p s o W Hall Hnd Hin Hb;
    [contradiction|].
  simpl map. cbn [run fold_left]. fold (run (step s (frame o1)) (map frame os)).
  inversion Hnd as [|x l Hx Hnd']; subst.
  destruct (Hall o1 (or_introl eq_refl)) as [t1 Hb1].
  destruct (string_dec t1 t) as [->|Hne].
  - assert (o = o1).
    { destruct Hin as [->|Hin]; [reflexivity|]. exfalso. apply Hx.
      unfold customTag at 1. rewrite Hb1. unfold bears in Hb. rewrite <- Hb.
      apply (in_map customTag). exact Hin. }
    subst o1. apply settled_frames; [|discriminate].
    eapply waiting_hit; eauto.
  - destruct Hin as [->|Hin].
    { exfalso. unfold bears in *. congruence. }
    apply (IH t p); auto.
    + eapply waiting_other_frame; eauto.
    + intros o' Ho'. apply Hall. right. exact Ho'.
Qed.

Lemma issue_all : forall cs s,
  promises (run s (map issue cs))
  = promises s ++ map (fun _ => (Pending, KNone)) cs
  /\ on_message (_ws (run s (map issue cs)))
     = on_message (_ws s) ++ numbered (List.length (promises s)) cs.
Proof.
  induction cs as [|c cs IH]; intros s.
  - simpl. rewrite !app_nil_r. auto.
  - cbn [map numbered]. unfold run. cbn [fold_left].
    change (step s (issue c))
      with (snd (sendCommandAndAwaitResponse (payload c) (patience c)
                   (tag c) KNone s)).
    pose proof (sendCommandAndAwaitResponse_effect
                  (payload c) (patience c) (tag c) KNone s) as E.
    cbn zeta in E. destruct E as (E1 & E2 & E3 & _).
    destruct (IH (snd (sendCommandAndAwaitResponse (payload c) (patience c)
                         (tag c) KNone s))) as [I1 I2].
    unfold run in I1, I2. rewrite I1, I2, E2, E3, E1, <- !app_assoc.
    rewrite length_app, Nat.add_1_r. auto.
Qed.

Lemma numbered_nth : forall cs n i c,
  nth_error cs i = Some c -> In (OnData (tag c) (n + i)) (numbered n cs).
Proof.
  induction cs as [|c' cs IH]; intros n [|i] c H; simpl in *; try discriminate.
  - inversion H; subst. rewrite Nat.add_0_r. left. reflexivity.
  - right. rewrite <- Nat.add_succ_comm. apply IH. exact H.
Qed.

Lemma numbered_in : forall cs n t p,
  In (OnData t p) (numbered n cs) ->
  exists i c, p = (n + i)%nat /\ nth_error cs i = Some c /\ t = tag c.
Proof.
  induction cs as [|c' cs IH]; intros n t p H; simpl in *; [contradiction|].
  destruct H as [H|H].
  - inversion H; subst. exists 0%nat, c'. rewrite Nat.add_0_r. auto.
  - apply IH in H. destruct H as (i & c & -> & H1 & H2).
    exists (S i), c. rewrite <- Nat.add_succ_comm. auto.
Qed.

(** ** A send that fails *)

Lemma on_sent_waiter : forall n err s w,
  pending_callback s n = Some w ->
  exists s0, on_sent n err s = complete w err s0
             /\ core s0 = core s /\ loop s0 = loop s /\ trace s0 = trace s
             /\ returned s0 = returned s /\ _pingInterval s0 = _pingInterval s
             /\ throttle s0 = throttle s.
Proof.
  intros n err s w H. unfold pending_callback, on_sent in *.
  destruct (find _ _) as [[n' w']|]; [|discriminate].
  simpl in H. inversion H; subst.
  eexists. split; [reflexivity|]. repeat split.
Qed.

(** When the socket reports that the frame of a correlated call could not
    be written, the error goes to nobody: the promise stays pending, the
    listener stays registered and no timeout is armed. *)
Lemma failed_send_of_call : forall s n p timeout e,
  pending_callback s n = Some (AwaitCall p timeout) ->
  let s' := step s (WsSent n (Some e)) in
  promises s' = promises s
  /\ on_message (_ws s') = on_message (_ws s)
  /\ timers (loop s') = timers (loop s)
  /\ unhandled (trace s') = e :: unhandled (trace s).
Proof.
  intros s n p timeout e H. cbn [step].
  destruct (on_sent_waiter n (Some e) s _ H)
    as (s0 & -> & Hc & Hl & Ht & _).
  apply core_eq in Hc. destruct Hc as (_ & _ & Hp & _ & _ & Hm & _).
  cbn. rewrite Hp, Hm, Hl, Ht. repeat split.
Qed.

(** The same failure on a [sendCommand]: the promise the method returned
    is rejected with the error. *)
Lemma failed_send_of_command : forall s n q e,
  pending_callback s n = Some (AwaitCaller q) ->
  returned_state s q = Some Pending ->
  returned_state (step s (WsSent n (Some e))) q = Some (Rejected e).
Proof.
  intros s n q e H Hq. cbn [step].
  destruct (on_sent_waiter n (Some e) s _ H)
    as (s0 & -> & _ & _ & _ & Hr & _).
  unfold returned_state in *. cbn. rewrite Hr.
  apply settle_returned_at_pending. exact Hq.
Qed.

(** ** The keepalive loop *)

Lemma tick_idle : forall s,
  timers (loop s) = [] ->
  tick s = with_loop advance s.
Proof. intros s H. unfold tick, due_timers. cbn. rewrite H. reflexivity. Qed.

(** With no timer armed, time passes and nothing else changes. *)
Lemma idle_forever : forall n s,
  timers (loop s) = [] ->
  let s' := run s (repeat Tick n) in
  timers (loop s') = [] /\ throttle s' = throttle s /\ trace s' = trace s
  /\ _ws s' = _ws s /\ _pingInterval s' = _pingInterval s.
Proof.
  induction n as [|n IH]; intros s H; simpl; [auto|].
  rewrite (tick_idle s H).
  destruct (IH (with_loop advance s)) as (I1 & I2 & I3 & I4 & I5); [exact H|].
  unfold run in *. rewrite I1, I2, I3, I4, I5. repeat split.
Qed.

(** A periodic ping whose send fails is reported on the console, and the
    interval keeps running. *)
Lemma failed_interval_ping_is_logged : forall s n e,
  pending_callback s n = Some AwaitIntervalPing ->
  let s' := step s (WsSent n (Some e)) in
  console (trace s') = ConsoleError e :: console (trace s)
  /\ timers (loop s') = timers (loop s)
  /\ _pingInterval s' = _pingInterval s
  /\ readyState (_ws s') = readyState (_ws s).
Proof.
  intros s n e H. cbn [step].
  destruct (on_sent_waiter n (Some e) s _ H)
    as (s0 & -> & Hc & Hl & Ht & _ & Hp & _).
  apply core_eq in Hc. destruct Hc as (_ & _ & _ & _ & _ & _ & Hr).
  cbn. rewrite Hl, Ht, Hp, Hr. repeat split.
Qed.

(** When the first ping completes, the interval is armed with the
    configured period. *)
Lemma first_ping_arms_interval : forall s n,
  pending_callback s n = Some AwaitOpenPing ->
  let s' := step s (WsSent n None) in
  _pingInterval s' = Some (next_timer (loop s))
  /\ timers (loop s')
     = timers (loop s)
       ++ [{| tid := next_timer (loop s);
              due := now (loop s)
                     + timer_delay (nullish (pingInterval (config s)) DEFAULT_PING);
              period := Some (timer_delay
                                (nullish (pingInterval (config s)) DEFAULT_PING));
              action := CbPing |}].
Proof.
  intros s n H. cbn [step].
  destruct (on_sent_waiter n None s _ H)
    as (s0 & -> & Hc & Hl & _).
  apply core_eq in Hc. destruct Hc as (_ & _ & _ & Hcfg & _).
  cbn. rewrite Hl, Hcfg. split; reflexivity.
Qed.

(** ** Closing a session *)

Lemma find_timer_removed : forall h s, find_timer h (remove_timer h s) = None.
Proof.
  intros h s. unfold find_timer, remove_timer. cbn.
  induction (timers (loop s)) as [|t ts IH]; simpl; [reflexivity|].
  destruct (Nat.eqb (tid t) h) eqn:E; simpl; [exact IH|].
  rewrite E. exact IH.
Qed.

(** ** The governor and the timers, apart from the rest of the client *)

Lemma with_returned_id : forall s, with_returned (fun r => r) s = s.
Proof. intros []. reflexivity. Qed.

Lemma gov_complete_failed : forall w e s, gov (complete w (Some e) s) = gov s.
Proof. intros [ | |p t|q| ] e s; reflexivity. Qed.

Lemma gov_complete_done : forall w s,
  gov (complete w None s) =
  match w with
  | AwaitOpenPing =>
      (throttle s,
       arm CbPing (nullish (pingInterval (config s)) DEFAULT_PING) true (loop s),
       Some (next_timer (loop s)))
  | AwaitCall p timeout =>
      (throttle s,
       arm (CbTimeout p) (nullish timeout DEFAULT_TIMEOUT) false (loop s),
       _pingInterval s)
  | _ => gov s
  end.
Proof. intros [ | |p t|q| ] s; reflexivity. Qed.

Lemma config_complete : forall w err s, config (complete w err s) = config s.
Proof. intros [ | |p t|q| ] [e|] s; reflexivity. Qed.

Lemma gov_sendMessage : forall d w s,
  gov (sendMessage d w s)
  = (log_dispatch (now (loop s)) d (throttle s), loop s, _pingInterval s).
Proof.
  intros d w s. unfold sendMessage.
  destruct (readyState _); try rewrite gov_complete_failed; reflexivity.
Qed.

Lemma gov_sendThrottled : forall m w s,
  gov (sendThrottled m w s) = submit_gov (interval s) m w (gov s).
Proof.
  intros m w s.
  transitivity
    (let (delay, t1) := window (interval s) (now (loop s)) (throttle s) in
     if 0 <? delay
     then (log_submit m t1, arm (CbThrottle m w) delay false (loop s),
           _pingInterval s)
     else (log_dispatch (now (loop s)) m (log_submit m t1), loop s,
           _pingInterval s)); [|reflexivity].
  unfold sendThrottled, windowedDelay.
  destruct (window _ _ _) as [delay t].
  destruct (0 <? delay); [reflexivity|].
  rewrite gov_sendMessage. reflexivity.
Qed.

Lemma gov_close : forall s, gov (BaseClient_close s) = close_gov (gov s).
Proof.
  intros s. unfold BaseClient_close, gov, close_gov, unping.
  destruct (_pingInterval s) eqn:E; cbn; rewrite E; reflexivity.
Qed.

Lemma close_gov_idem : forall g, close_gov (close_gov g) = close_gov g.
Proof.
  intros [[t l] [h|]]; simpl; [|reflexivity].
  unfold disarm. simpl. f_equal. f_equal. f_equal.
  induction (timers l) as [|x xs IH]; simpl; [reflexivity|].
  destruct (negb (Nat.eqb (tid x) h)) eqn:E; simpl; [rewrite E|]; congruence.
Qed.

Lemma closes_refl : forall g, closes g g.
Proof. left. reflexivity. Qed.

Lemma closes_trans : forall g1 g2 g3, closes g1 g2 -> closes g2 g3 -> closes g1 g3.
Proof.
  intros g1 g2 g3 [->| ->] [->| ->]; unfold closes; auto.
  rewrite close_gov_idem. auto.
Qed.

Lemma gov_run_cont : forall k o s, closes (gov s) (gov (run_cont k o s)).
Proof.
  intros [|q|q|q] [|v|e] s; cbn; try (left; reflexivity).
  - destruct (prop v "status") as [e|status]; [left; reflexivity|].
    destruct (truthy status); [destruct (prop v "streamSessionId")|];
      left; reflexivity.
  - destruct (prop v "status") as [e|status]; [left; reflexivity|].
    destruct (prop v _) as [e|x]; [left; reflexivity|].
    destruct (truthy status); left; reflexivity.
  - right. change (gov (BaseClient_close s) = close_gov (gov s)). apply gov_close.
Qed.

Lemma gov_settle : forall p o s, closes (gov s) (gov (settle p o s)).
Proof.
  intros p o s. unfold settle.
  destruct (nth_error (promises s) p) as [[[| |] k]|]; try apply closes_refl.
  apply (gov_run_cont k o (with_promises (settle_at p o) s)).
Qed.

Lemma gov_call_listener : forall f d s,
  closes (gov s) (gov (snd (call_listener f d s))).
Proof.
  intros [t p|] d s; cbn.
  - unfold onData. destruct (JSON_parse d) as [e|r]; [apply closes_refl|].
    destruct (prop r "customTag") as [e|x]; [apply closes_refl|].
    destruct (strict_eq_str x t); [|apply closes_refl].
    apply (gov_settle p (Fulfilled r) (ws_off p s)).
  - destruct (processMessage_trace d s) as [g ->]. apply closes_refl.
Qed.

Lemma gov_deliver : forall fs d s, closes (gov s) (gov (deliver fs d s)).
Proof.
  induction fs as [|f fs IH]; intros d s; simpl; [apply closes_refl|].
  pose proof (gov_call_listener f d s) as H.
  destruct (call_listener f d s) as [[e|] s1]; cbn in H; [exact H|].
  eapply closes_trans; [exact H | apply IH].
Qed.

Lemma config_run_cont : forall k o s, config (run_cont k o s) = config s.
Proof.
  intros [|q|q|q] [|v|e] s; cbn; try reflexivity.
  - destruct (prop v "status") as [e|status]; [reflexivity|].
    destruct (truthy status); [destruct (prop v "streamSessionId")|]; reflexivity.
  - destruct (prop v "status") as [e|status]; [reflexivity|].
    destruct (prop v _) as [e|x]; [reflexivity|].
    destruct (truthy status); reflexivity.
  - unfold BaseClient_close. destruct (_pingInterval s); reflexivity.
Qed.

Lemma config_settle : forall p o s, config (settle p o s) = config s.
Proof.
  intros p o s. unfold settle.
  destruct (nth_error (promises s) p) as [[[| |] k]|]; try reflexivity.
  rewrite config_run_cont. reflexivity.
Qed.

Lemma config_deliver : forall fs d s, config (deliver fs d s) = config s.
Proof.
  induction fs as [|f fs IH]; intros d s; simpl; [reflexivity|].
  assert (H : config (snd (call_listener f d s)) = config s).
  { destruct f as [t p|]; cbn.
    - unfold onData. destruct (JSON_parse d) as [e|r]; [reflexivity|].
      destruct (prop r "customTag") as [e|x]; [reflexivity|].
      destruct (strict_eq_str x t); [|reflexivity].
      cbn. rewrite config_settle. reflexivity.
    - destruct (processMessage_trace d s) as [g ->]. reflexivity. }
  destruct (call_listener f d s) as [[e|] s1]; cbn in H; [exact H|].
  rewrite IH. exact H.
Qed.

Lemma runs_refl : forall s, runs s s.
Proof. intros s. split; [reflexivity | apply act_refl]. Qed.

Lemma runs_trans : forall s1 s2 s3, runs s1 s2 -> runs s2 s3 -> runs s1 s3.
Proof.
  intros s1 s2 s3 [C1 A1] [C2 A2]. split; [congruence|].
  eapply act_trans; [exact A1|].
  unfold interval in *. rewrite C1 in A2. exact A2.
Qed.

(** Changes outside the governor, the timers and the configuration. *)
Lemma runs_same : forall s s',
  config s' = config s -> gov s' = gov s -> runs s s'.
Proof. intros s s' C G. split; [exact C|]. rewrite G. apply act_refl. Qed.

Lemma runs_closes : forall s s',
  config s' = config s -> closes (gov s) (gov s') -> runs s s'.
Proof.
  intros s s' C [G|G]; split; try exact C; rewrite G;
    [apply act_refl | apply act_close].
Qed.

Lemma runs_complete : forall w err s, runs s (complete w err s).
Proof.
  intros w [e|] s.
  - apply runs_same; [apply config_complete | apply gov_complete_failed].
  - split; [apply config_complete|]. rewrite gov_complete_done.
    destruct w; try apply act_refl; [apply act_interval | apply act_timeout].
Qed.

Lemma config_sendThrottled : forall m w s, config (sendThrottled m w s) = config s.
Proof.
  intros m w s. pose proof (core_eq _ _ (core_sendThrottled m w s)); tauto.
Qed.

Lemma runs_sendThrottled : forall m w s, runs s (sendThrottled m w s).
Proof.
  intros m w s. split; [apply config_sendThrottled|].
  rewrite gov_sendThrottled. apply act_submit.
Qed.

Lemma runs_sendCommand : forall data w s, runs s (sendCommand data w s).
Proof. intros. apply runs_sendThrottled. Qed.

Lemma runs_ping : forall w s, runs s (ping w s).
Proof.
  intros w s. unfold ping. destruct (readyState (_ws s)).
  - apply runs_complete.
  - eapply runs_trans; [|apply runs_sendCommand]. apply runs_same; reflexivity.
  - apply runs_sendCommand.
  - apply runs_sendCommand.
Qed.

Lemma runs_subscribeToStream : forall c a w s, runs s (subscribeToStream c a w s).
Proof.
  intros c a w s. unfold subscribeToStream.
  destruct (negb _); [apply runs_complete | apply runs_sendCommand].
Qed.

Lemma runs_unsubscribeFromStream : forall c a w s,
  runs s (unsubscribeFromStream c a w s).
Proof. intros. apply runs_sendCommand. Qed.

Lemma runs_settle : forall p o s, runs s (settle p o s).
Proof. intros. apply runs_closes; [apply config_settle | apply gov_settle]. Qed.

Lemma runs_deliver : forall fs d s, runs s (deliver fs d s).
Proof. intros. apply runs_closes; [apply config_deliver | apply gov_deliver]. Qed.

Lemma runs_on_open : forall s, runs s (on_open s).
Proof.
  intros s. unfold on_open.
  match goal with |- runs s (if _ ?x then _ else _) =>
    assert (R : runs s x) end.
  { eapply runs_trans; [|apply runs_ping]. apply runs_same; reflexivity. }
  destruct (_streaming _); [|exact R].
  eapply runs_trans; [exact R | apply runs_subscribeToStream].
Qed.

Lemma runs_on_sent : forall n err s, runs s (on_sent n err s).
Proof.
  intros n err s. unfold on_sent.
  destruct (find _ _) as [[n' w]|]; [|apply runs_refl].
  eapply runs_trans; [|apply runs_complete]. apply runs_same; reflexivity.
Qed.

Lemma runs_sendCommandAndAwaitResponse : forall data timeout rnd k s,
  runs s (snd (sendCommandAndAwaitResponse data timeout rnd k s)).
Proof.
  intros. unfold sendCommandAndAwaitResponse. cbn.
  eapply runs_trans; [|apply runs_sendThrottled]. apply runs_same; reflexivity.
Qed.

Lemma runs_returning : forall f s,
  (forall w x, runs x (f w x)) -> runs s (snd (returning f s)).
Proof.
  intros f s H. unfold returning. cbn.
  eapply runs_trans; [|apply H]. apply runs_same; reflexivity.
Qed.

Lemma runs_guarded_command : forall data rnd s,
  runs s (snd (guarded_command data rnd s)).
Proof.
  intros data rnd s. unfold guarded_command, new_returned. cbv beta iota zeta.
  destruct (negb _); [apply runs_same; reflexivity|].
  match goal with |- context [sendCommandAndAwaitResponse ?d ?t ?r ?k ?x] =>
    pose proof (runs_sendCommandAndAwaitResponse d t r k x) as R;
    destruct (sendCommandAndAwaitResponse d t r k x) as [p s2] end.
  cbn in *. eapply runs_trans; [|exact R]. apply runs_same; reflexivity.
Qed.

Lemma runs_logout_then : forall k rnd s, runs s (snd (logout_then k rnd s)).
Proof.
  intros k rnd s. unfold logout_then.
  match goal with |- context [sendCommandAndAwaitResponse ?d ?t ?r ?k ?x] =>
    pose proof (runs_sendCommandAndAwaitResponse d t r k x) as R;
    destruct (sendCommandAndAwaitResponse d t r k x) as [p s2] end.
  cbn in *. eapply runs_trans; [exact R|]. apply runs_same; reflexivity.
Qed.

Lemma runs_login : forall u pw app rnd s, runs s (snd (login u pw app rnd s)).
Proof.
  intros. unfold login, new_returned. cbv beta iota zeta.
  match goal with |- context [sendCommandAndAwaitResponse ?d ?t ?r ?k ?x] =>
    pose proof (runs_sendCommandAndAwaitResponse d t r k x) as R;
    destruct (sendCommandAndAwaitResponse d t r k x) as [p s2] end.
  cbn in *. eapply runs_trans; [|exact R]. apply runs_same; reflexivity.
Qed.

Lemma runs_XTBClient_close : forall rnd s, runs s (snd (XTBClient_close rnd s)).
Proof.
  intros. unfold XTBClient_close, new_returned. cbv beta iota zeta.
  match goal with |- context [logout_then ?k ?r ?x] =>
    pose proof (runs_logout_then k r x) as R;
    destruct (logout_then k r x) as [p s2] end.
  cbn in *. eapply runs_trans; [|exact R]. apply runs_same; reflexivity.
Qed.

Lemma runs_BaseClient_close : forall s, runs s (BaseClient_close s).
Proof.
  intros s. apply runs_closes; [|right; apply gov_close].
  unfold BaseClient_close. destruct (_pingInterval _); reflexivity.
Qed.

Lemma runs_invoke : forall m rnd s, runs s (snd (invoke m rnd s)).
Proof.
  intros m rnd s.
  destruct m; cbn [invoke];
    try match goal with |- context [Bool.eqb ?a ?b] =>
      destruct (Bool.eqb a b); [|apply runs_refl] end;
    try (apply runs_returning; intros;
         first [apply runs_sendCommand | apply runs_ping
               | apply runs_subscribeToStream | apply runs_unsubscribeFromStream]).
  - apply runs_sendCommandAndAwaitResponse.
  - destruct (_streaming s); [|apply runs_XTBClient_close].
    unfold new_returned. cbv beta iota zeta. cbn [snd].
    set (s1 := with_returned (fun rs => rs ++ [Pending]) s).
    apply (runs_trans s s1); [apply runs_same; reflexivity|].
    apply (runs_trans s1 (BaseClient_close s1)); [|apply runs_same; reflexivity].
    apply runs_BaseClient_close.
  - apply runs_login.
  - apply runs_logout_then.
  - apply runs_guarded_command.
  - apply runs_guarded_command.
  - apply runs_guarded_command.
  - apply runs_guarded_command.
Qed.

(** ** Invariants of the timer list *)

Lemma timer_delay_pos : forall after, 1 <= timer_delay after.
Proof.
  intros after. unfold timer_delay.
  destruct (1 <=? after) eqn:E; simpl; [|lia].
  destruct (after <=? TIMEOUT_MAX); lia.
Qed.

Lemma timer_delay_exact : forall after,
  0 < after -> (TIMEOUT_MAX <? after) = false -> timer_delay after = after.
Proof.
  intros after H1 H2. unfold timer_delay.
  apply Z.ltb_ge in H2.
  replace (1 <=? after) with true by (symmetry; apply Z.leb_le; lia).
  replace (after <=? TIMEOUT_MAX) with true by (symmetry; apply Z.leb_le; lia).
  reflexivity.
Qed.

Lemma jobs_app : forall a b, jobs (a ++ b) = jobs a ++ jobs b.
Proof. intros. apply flat_map_app. Qed.

Lemma jobs_filter : forall f ts,
  (forall x, In x ts -> f x = false -> is_job x = false) ->
  jobs (filter f ts) = jobs ts.
Proof.
  intros f ts. induction ts as [|x ts IH]; intros H; simpl; [reflexivity|].
  destruct (f x) eqn:E; simpl.
  - f_equal. apply IH. intros y Hy. apply H. right. exact Hy.
  - rewrite IH by (intros y Hy; apply H; right; exact Hy).
    specialize (H x (or_introl eq_refl) E). unfold is_job in H.
    destruct (action x); try reflexivity. discriminate.
Qed.

Lemma jobs_map : forall g ts,
  (forall x, In x ts -> g x = x \/ (is_job x = false /\ is_job (g x) = false)) ->
  jobs (map g ts) = jobs ts.
Proof.
  intros g ts. induction ts as [|x ts IH]; intros H; simpl; [reflexivity|].
  rewrite IH by (intros y Hy; apply H; right; exact Hy). f_equal.
  destruct (H x (or_introl eq_refl)) as [->|[H1 H2]]; [reflexivity|].
  unfold is_job in *. destruct (action x); destruct (action (g x));
    try reflexivity; discriminate.
Qed.

Lemma in_jobs : forall ts j,
  In j (jobs ts) -> exists x, In x ts /\ is_job x = true /\ due x = fst j.
Proof.
  intros ts j H. unfold jobs in H. apply in_flat_map in H.
  destruct H as (x & Hx & Hj). exists x. split; [exact Hx|].
  unfold is_job. destruct (action x); simpl in Hj; try contradiction.
  destruct Hj as [<-|[]]. auto.
Qed.

Lemma spaced_app_r : forall i xs ys, spaced i (xs ++ ys) -> spaced i ys.
Proof.
  intros i xs. induction xs as [|x xs IH]; intros ys H; simpl in *; [exact H|].
  apply IH. tauto.
Qed.

Lemma spaced_later : forall i xs b ys a,
  0 <= i -> spaced i (xs ++ b :: ys) -> In a ys -> a + i <= b.
Proof.
  intros i xs b ys a Hi H. apply spaced_app_r in H. revert b a H.
  induction ys as [|y ys IH]; intros b a H Ha; [contradiction|].
  simpl in H. destruct H as [H1 H2]. destruct Ha as [->|Ha]; [exact H1|].
  specialize (IH y a H2 Ha). lia.
Qed.

Lemma tidy_arm : forall ids l h cb after rep,
  tidy ids l h ->
  (rep = true -> cb = CbPing) ->
  tidy ids (arm cb after rep l) h.
Proof.
  intros ids l h cb after rep T Hrep.
  pose proof (timer_delay_pos after) as Hd.
  constructor; simpl.
  - intros x Hx. apply in_app_or in Hx. destruct Hx as [Hx|[<-|[]]].
    + apply (t_fresh _ _ _ T) in Hx. lia.
    + simpl. lia.
  - rewrite map_app. simpl. apply NoDup_app.
    + apply (t_nodup _ _ _ T).
    + repeat constructor. intros [].
    + intros a Ha [<-|[]]. apply in_map_iff in Ha.
      destruct Ha as (x & Hx1 & Hx2). apply (t_fresh _ _ _ T) in Hx2. lia.
  - intros x Hx. apply in_app_or in Hx. destruct Hx as [Hx|[<-|[]]].
    + apply (t_shape _ _ _ T). exact Hx.
    + simpl. intros d. destruct rep; intros E; inversion E; subst.
      split; [exact Hd | apply Hrep; reflexivity].
  - intros x Hx. apply in_app_or in Hx. destruct Hx as [Hx|[<-|[]]].
    + apply (t_future _ _ _ T). exact Hx.
    + simpl. split; [lia|]. split; [lia|].
      intros Hin. apply (proj2 (t_ids _ _ _ T)) in Hin. lia.
  - destruct (t_ids _ _ _ T) as [N B]. split; [exact N|].
    intros id Hid. apply B in Hid. lia.
  - intros h0 Hh. destruct (t_handle _ _ _ T h0 Hh) as [B C]. split; [lia|].
    intros x Hx Ht. apply in_app_or in Hx. destruct Hx as [Hx|[<-|[]]].
    + apply C; assumption.
    + simpl in Ht. lia.
Qed.

Lemma tidy_arm_interval : forall ids l h after,
  tidy ids l h -> tidy ids (arm CbPing after true l) (Some (next_timer l)).
Proof.
  intros ids l h after T.
  assert (T' : tidy ids (arm CbPing after true l) h).
  { apply tidy_arm; [exact T|]. reflexivity. }
  destruct T' as [F N S U I H']. constructor; try assumption.
  intros h0 E. inversion E; subst h0. simpl. split; [lia|].
  intros x Hx Ht. apply in_app_or in Hx. destruct Hx as [Hx|[<-|[]]].
  - apply (t_fresh _ _ _ T) in Hx. lia.
  - reflexivity.
Qed.

Lemma NoDup_map_filter : forall (A B : Type) (f : A -> B) (p : A -> bool) l,
  NoDup (map f l) -> NoDup (map f (filter p l)).
Proof.
  intros A B f p l. induction l as [|x l IH]; intros H; simpl; [constructor|].
  inversion H as [|y ys Hy Hys]; subst.
  destruct (p x); simpl; [|apply IH; exact Hys].
  constructor; [|apply IH; exact Hys].
  intros Hin. apply Hy. apply in_map_iff in Hin.
  destruct Hin as (z & Hz1 & Hz2). apply filter_In in Hz2.
  apply in_map_iff. exists z. tauto.
Qed.

Lemma tidy_disarm : forall ids l h h',
  tidy ids l h -> tidy ids (disarm h' l) h.
Proof.
  intros ids l h h' T. constructor; simpl.
  - intros x Hx. apply filter_In in Hx. apply (t_fresh _ _ _ T). tauto.
  - apply NoDup_map_filter. apply (t_nodup _ _ _ T).
  - intros x Hx. apply filter_In in Hx. apply (t_shape _ _ _ T). tauto.
  - intros x Hx. apply filter_In in Hx. apply (t_future _ _ _ T). tauto.
  - apply (t_ids _ _ _ T).
  - intros h0 Hh. destruct (t_handle _ _ _ T h0 Hh) as [B C]. split; [exact B|].
    intros x Hx. apply filter_In in Hx. apply C. tauto.
Qed.

Lemma tidy_unping : forall ids l h, tidy ids l h -> tidy ids (unping h l) h.
Proof. intros ids l [h0|] T; simpl; [apply tidy_disarm|]; exact T. Qed.

(** ** The invariant of the governor *)

#[local] Arguments timer_delay : simpl never.

Lemma governed_loop : forall i t l l',
  now l' = now l -> jobs (timers l') = jobs (timers l) ->
  governed i t l -> governed i t l'.
Proof.
  intros i t l l' Hn Hj [P S W F].
  constructor; unfold schedule in *; rewrite ?Hn, ?Hj; assumption.
Qed.

Lemma jobs_arm_other : forall cb after rep l,
  (forall m w, cb <> CbThrottle m w) ->
  jobs (timers (arm cb after rep l)) = jobs (timers l).
Proof.
  intros cb after rep l H. simpl. rewrite jobs_app. simpl.
  destruct cb; try (rewrite app_nil_r; reflexivity).
  exfalso. eapply H. reflexivity.
Qed.

Lemma jobs_unping : forall ids l h,
  tidy ids l h -> jobs (timers (unping h l)) = jobs (timers l).
Proof.
  intros ids l [h0|] T; simpl; [|reflexivity].
  apply jobs_filter. intros x Hx E.
  apply negb_false_iff, Nat.eqb_eq in E.
  destruct (t_handle _ _ _ T h0 eq_refl) as [_ C].
  unfold is_job. rewrite (C x Hx E). reflexivity.
Qed.

(** The newest frame of the schedule waits in a timer when any does. *)
Lemma schedule_head_job : forall t l x rest,
  schedule t l = x :: rest -> jobs (timers l) <> [] ->
  exists y, In y (timers l) /\ due y = fst x.
Proof.
  intros t l x rest H Hne. unfold schedule in H.
  destruct (rev (jobs (timers l))) as [|j js] eqn:E.
  - exfalso. apply Hne. apply (f_equal (@rev _)) in E.
    rewrite rev_involutive in E. exact E.
  - simpl in H. inversion H; subst.
    assert (Hin : In x (jobs (timers l))).
    { apply in_rev. rewrite E. left. reflexivity. }
    apply in_jobs in Hin. destruct Hin as (y & Hy & _ & Hd). eauto.
Qed.

Lemma governed_dispatch_now : forall i t l m,
  governed i t l ->
  jobs (timers l) = [] ->
  currentTick t + i <= now l \/ schedule t l = [] ->
  governed i
    (log_dispatch (now l) m
       (log_submit m {| currentTick := now l; activeCount := 1;
                        submitted := submitted t; dispatched := dispatched t |}))
    l.
Proof.
  intros i t l m [P S W F] Hj Hgap.
  unfold schedule in *. rewrite Hj in *. simpl in *.
  constructor; unfold schedule; rewrite ?Hj; simpl.
  - intros x [<-|Hx]; [simpl; lia | apply P; exact Hx].
  - split; [|exact S]. destruct (dispatched t) as [|x xs]; [exact I|].
    simpl. destruct W as [W _]. destruct Hgap as [G|G]; [lia | discriminate].
  - auto.
  - rewrite F. reflexivity.
Qed.

Lemma governed_submit : forall i ids t l h m w,
  0 < i -> tidy ids l h -> governed i t l ->
  Governed i (submit_gov i m w (t, l, h)).
Proof.
  intros i ids t l h m w Hi T G. unfold submit_gov, window.
  destruct (i <? now l - currentTick t) eqn:E1.
  - (* the window is over: dispatch now *)
    apply Z.ltb_lt in E1. unfold Governed. cbv beta iota zeta.
    change (0 <? 0) with false. cbv beta iota. right.
    assert (Hj : jobs (timers l) = []).
    { destruct (jobs (timers l)) as [|j js] eqn:Ej; [reflexivity|]. exfalso.
      destruct (schedule t l) as [|x rest] eqn:Es.
      - unfold schedule in Es. rewrite Ej in Es. simpl in Es.
        destruct (rev js); discriminate.
      - destruct (schedule_head_job t l x rest Es) as (y & Hy & Hd).
        { rewrite Ej. discriminate. }
        pose proof (g_window _ _ _ G) as W. rewrite Es in W.
        destruct (t_future _ _ _ T y Hy) as [Hf _]. lia. }
    apply governed_dispatch_now; auto. left. lia.
  - apply Z.ltb_ge in E1.
    pose proof (g_window _ _ _ G) as W.
    destruct (schedule t l) as [|x rest] eqn:Es; [lia|].
    destruct W as [W1 W2]. rewrite W2. change (1 <? 1) with false.
    cbv beta iota.
    destruct (0 <? currentTick t + i - now l) eqn:E2.
    + (* wait for the window: arm a timer *)
      apply Z.ltb_lt in E2. unfold Governed. cbv beta iota zeta.
      destruct (TIMEOUT_MAX <? currentTick t + i - now l) eqn:E3;
        [left; simpl; rewrite E3; apply orb_true_r|].
      right. destruct G as [P S W F].
      constructor; unfold schedule in *; simpl;
        rewrite ?jobs_app, ?rev_app_distr; simpl;
        rewrite ?timer_delay_exact by (lia || exact E3).
      * exact P.
      * rewrite Es in *. simpl in *. split; [lia | exact S].
      * split; [lia | reflexivity].
      * rewrite Es in *. simpl in *. rewrite F. reflexivity.
    + (* the window opens now *)
      apply Z.ltb_ge in E2. unfold Governed. cbv beta iota zeta. right.
      assert (Hn : currentTick t + i = now l) by lia.
      assert (Hj : jobs (timers l) = []).
      { destruct (jobs (timers l)) as [|j js] eqn:Ej; [reflexivity|]. exfalso.
        destruct (schedule_head_job t l x rest Es) as (y & Hy & Hd).
        { rewrite Ej. discriminate. }
        destruct (t_future _ _ _ T y Hy) as [Hf _]. lia. }
      rewrite Hn. apply governed_dispatch_now; auto. left. lia.
Qed.

Lemma tidy_submit : forall i ids t l h m w,
  tidy ids l h -> Tidy ids (submit_gov i m w (t, l, h)).
Proof.
  intros i ids t l h m w T. unfold submit_gov.
  destruct (window i (now l) t) as [delay t1].
  destruct (0 <? delay); simpl; [|exact T].
  apply tidy_arm; [exact T | discriminate].
Qed.

Lemma act_tidy : forall i ids g g', act i g g' -> Tidy ids g -> Tidy ids g'.
Proof.
  intros i ids g g' A. induction A as
    [g|g1 g2 g3 A1 IH1 A2 IH2|m w [[t l] h]|[[t l] h]|p after t l h|after t l h];
    intros T; auto.
  - apply tidy_submit. exact T.
  - simpl in *. apply tidy_unping. exact T.
  - simpl in *. apply tidy_arm; [exact T | discriminate].
  - simpl in *. eapply tidy_arm_interval. exact T.
Qed.

Lemma overlong_submit : forall i t l h m w,
  overlong l = true ->
  let '(_, l', _) := submit_gov i m w (t, l, h) in overlong l' = true.
Proof.
  intros i t l h m w H. unfold submit_gov.
  destruct (window i (now l) t) as [delay t1].
  destruct (0 <? delay); simpl; [rewrite H; reflexivity | exact H].
Qed.

(** The moves of a macrotask keep the invariant of the governor. *)
Lemma act_governed : forall i ids g g',
  act i g g' -> 0 < i -> Tidy ids g -> Governed i g -> Governed i g'.
Proof.
  intros i ids g g' A Hi. induction A as
    [g|g1 g2 g3 A1 IH1 A2 IH2|m w [[t l] h]|[[t l] h]|p after t l h|after t l h];
    intros T G.
  - auto.
  - apply IH2; [eapply act_tidy; eauto | apply IH1; assumption].
  - destruct G as [G|G].
    + pose proof (overlong_submit i t l h m w G) as O.
      destruct (submit_gov i m w (t, l, h)) as [[t' l'] h']. left. exact O.
    + eapply governed_submit; eauto.
  - simpl in *.
    destruct G as [G|G]; [left; destruct h; exact G|]. right.
    eapply governed_loop; [| |exact G].
    + destruct h; reflexivity.
    + eapply jobs_unping; eauto.
  - simpl in *.
    destruct G as [G|G]; [left; rewrite G; reflexivity|]. right.
    eapply governed_loop; [| |exact G]; [reflexivity|].
    apply jobs_arm_other. discriminate.
  - simpl in *.
    destruct G as [G|G]; [left; rewrite G; reflexivity|]. right.
    eapply governed_loop; [| |exact G]; [reflexivity|].
    apply jobs_arm_other. discriminate.
Qed.

(** *** A timer expires *)

Lemma NoDup_tid_eq : forall ts x y,
  NoDup (map tid ts) -> In x ts -> In y ts -> tid x = tid y -> x = y.
Proof.
  induction ts as [|z ts IH]; intros x y N Hx Hy E; [contradiction|].
  simpl in N. inversion N as [|a b Ha Hb]; subst.
  destruct Hx as [->|Hx]; destruct Hy as [->|Hy]; auto.
  - exfalso. apply Ha. rewrite E. apply in_map. exact Hy.
  - exfalso. apply Ha. rewrite <- E. apply in_map. exact Hx.
Qed.

Lemma find_timer_in : forall h s x,
  find_timer h s = Some x -> In x (timers (loop s)) /\ tid x = h.
Proof.
  intros h s x H. unfold find_timer in H. apply find_some in H.
  destruct H as [H1 H2]. apply Nat.eqb_eq in H2. auto.
Qed.

Lemma find_timer_none : forall h s x,
  find_timer h s = None -> In x (timers (loop s)) -> tid x <> h.
Proof.
  intros h s x H Hx E. unfold find_timer in H.
  apply (find_none _ _ H) in Hx. apply Nat.eqb_neq in Hx. contradiction.
Qed.

Lemma tidy_skip : forall h ids l hd,
  tidy (h :: ids) l hd -> (forall x, In x (timers l) -> tid x <> h) ->
  tidy ids l hd.
Proof.
  intros h ids l hd [F N S U [I1 I2] H] Hno. constructor; try assumption.
  - intros x Hx. destruct (U x Hx) as [U1 U2]. split; [exact U1|].
    rewrite U2. simpl. split; [|tauto].
    intros [E|E]; [|exact E]. exfalso. apply (Hno x Hx). auto.
  - inversion I1; subst. split; [assumption|]. intros id Hid. apply I2. right. exact Hid.
Qed.

Lemma tidy_fired_once : forall h ids l hd,
  tidy (h :: ids) l hd -> tidy ids (disarm h l) hd.
Proof.
  intros h ids l hd T. apply (tidy_skip h).
  - apply tidy_disarm. exact T.
  - simpl. intros x Hx. apply filter_In in Hx. destruct Hx as [_ Hx].
    apply negb_true_iff, Nat.eqb_neq in Hx. exact Hx.
Qed.

Lemma tidy_fired_again : forall h ids l hd x d,
  tidy (h :: ids) l hd -> In x (timers l) -> tid x = h -> period x = Some d ->
  tidy ids (rearm h d l) hd.
Proof.
  intros h ids l hd x d T Hx Hh Hp.
  destruct T as [F N S U [I1 I2] H].
  destruct (S x Hx d Hp) as [Hd Hping].
  assert (Hsame : forall y, In y (timers l) -> tid y = h -> y = x).
  { intros y Hy E. apply (NoDup_tid_eq (timers l)); auto. congruence. }
  inversion I1 as [|a b Hnotin Hids]; subst a b.
  constructor; simpl.
  - intros y Hy. apply in_map_iff in Hy. destruct Hy as (z & <- & Hz).
    destruct (Nat.eqb (tid z) h) eqn:E; simpl.
    + apply Nat.eqb_eq in E. rewrite <- E. apply F. exact Hz.
    + apply F. exact Hz.
  - rewrite map_map.
    erewrite map_ext_in; [exact N|].
    intros z Hz. simpl. destruct (Nat.eqb (tid z) h) eqn:E; [|reflexivity].
    apply Nat.eqb_eq in E. simpl. congruence.
  - intros y Hy. apply in_map_iff in Hy. destruct Hy as (z & <- & Hz).
    destruct (Nat.eqb (tid z) h) eqn:E; [|apply S; exact Hz].
    apply Nat.eqb_eq in E. rewrite (Hsame z Hz E).
    simpl. intros d' Hd'. inversion Hd'; subst. auto.
  - intros y Hy. apply in_map_iff in Hy. destruct Hy as (z & <- & Hz).
    destruct (Nat.eqb (tid z) h) eqn:E.
    + simpl. split; [lia|]. split; [lia|]. intros Hin. contradiction.
    + apply Nat.eqb_neq in E. destruct (U z Hz) as [U1 U2].
      split; [exact U1|]. rewrite U2. simpl. split; [|tauto].
      intros [E'|E']; [congruence | exact E'].
  - split; [exact Hids|]. intros id Hid. apply I2. right. exact Hid.
  - intros h0 Hh0. destruct (H h0 Hh0) as [B C]. split; [exact B|].
    intros y Hy Ey. apply in_map_iff in Hy. destruct Hy as (z & <- & Hz).
    destruct (Nat.eqb (tid z) h) eqn:E.
    + apply Nat.eqb_eq in E. simpl in *. apply C; [exact Hz | congruence].
    + apply C; assumption.
Qed.

Lemma jobs_disarm_other : forall h ids l hd x,
  tidy ids l hd -> In x (timers l) -> tid x = h -> is_job x = false ->
  jobs (timers (disarm h l)) = jobs (timers l).
Proof.
  intros h ids l hd x T Hx Hh Hj. simpl. apply jobs_filter.
  intros y Hy E. apply negb_false_iff, Nat.eqb_eq in E.
  assert (y = x).
  { apply (NoDup_tid_eq (timers l)); auto; [apply (t_nodup _ _ _ T) | congruence]. }
  subst y. exact Hj.
Qed.

Lemma jobs_rearm : forall h d ids l hd x,
  tidy ids l hd -> In x (timers l) -> tid x = h -> is_job x = false ->
  jobs (timers (rearm h d l)) = jobs (timers l).
Proof.
  intros h d ids l hd x T Hx Hh Hj. simpl. apply jobs_map.
  intros y Hy. destruct (Nat.eqb (tid y) h) eqn:E; [|left; reflexivity].
  apply Nat.eqb_eq in E. right.
  assert (y = x).
  { apply (NoDup_tid_eq (timers l)); auto; [apply (t_nodup _ _ _ T) | congruence]. }
  subst y. split; [exact Hj|]. unfold is_job in *. simpl. exact Hj.
Qed.

Lemma filter_tid_split : forall h ts1 x ts2,
  NoDup (map tid (ts1 ++ x :: ts2)) -> tid x = h ->
  filter (fun t => negb (Nat.eqb (tid t) h)) (ts1 ++ x :: ts2) = ts1 ++ ts2.
Proof.
  intros h ts1 x ts2 N Hx.
  assert (K : forall y, In y (ts1 ++ ts2) -> negb (Nat.eqb (tid y) h) = true).
  { intros y Hy. apply negb_true_iff, Nat.eqb_neq. intros E.
    rewrite map_app in N. simpl in N. apply NoDup_remove_2 in N.
    apply N. rewrite <- map_app. rewrite Hx, <- E. apply in_map. exact Hy. }
  rewrite filter_app. simpl. rewrite Hx, Nat.eqb_refl. simpl.
  rewrite <- filter_app. apply forallb_filter_id. apply forallb_forall. exact K.
Qed.

(** The timer of the governor that expires holds the oldest waiting frame,
    so dispatching it leaves the schedule as it is. *)
Lemma governed_fire_job : forall i h ids t l hd x m w,
  0 < i -> tidy (h :: ids) l hd -> governed i t l ->
  In x (timers l) -> tid x = h -> action x = CbThrottle m w ->
  governed i (log_dispatch (now l) m t) (disarm h l).
Proof.
  intros i h ids t l hd x m w Hi T G Hx Hh Ha.
  assert (Hdue : due x = now l).
  { apply (t_future _ _ _ T x Hx). rewrite Hh. left. reflexivity. }
  destruct (in_split _ _ Hx) as (ts1 & ts2 & Hts).
  assert (Hjx : jobs [x] = [(now l, m)]).
  { simpl. rewrite Ha, Hdue. reflexivity. }
  assert (Hj1 : jobs ts1 = []).
  { destruct (jobs ts1) as [|j js] eqn:Ej; [reflexivity|]. exfalso.
    assert (Hin : In j (jobs ts1)) by (rewrite Ej; left; reflexivity).
    apply in_jobs in Hin. destruct Hin as (y & Hy & _ & Hd).
    pose proof (g_spaced _ _ _ G) as S. unfold schedule in S.
    rewrite Hts in S.
    change (x :: ts2) with ([x] ++ ts2) in S.
    rewrite !jobs_app, Hjx, !rev_app_distr, <- !app_assoc, !map_app in S.
    simpl in S.
    assert (L : fst j + i <= now l).
    { eapply (spaced_later i _ (now l) _ (fst j)); [lia | exact S|].
      apply in_or_app. left. apply in_map. apply -> in_rev.
      rewrite Ej. left. reflexivity. }
    assert (F : now l <= due y).
    { apply (t_future _ _ _ T). rewrite Hts. apply in_or_app. left. exact Hy. }
    lia. }
  assert (Hjobs : jobs (timers l) = (now l, m) :: jobs ts2).
  { rewrite Hts. change (x :: ts2) with ([x] ++ ts2).
    rewrite !jobs_app, Hj1, Hjx. reflexivity. }
  assert (Hjobs' : jobs (timers (disarm h l)) = jobs ts2).
  { simpl. rewrite Hts, filter_tid_split.
    - rewrite jobs_app, Hj1. reflexivity.
    - rewrite <- Hts. apply (t_nodup _ _ _ T).
    - exact Hh. }
  assert (Hs : schedule (log_dispatch (now l) m t) (disarm h l) = schedule t l).
  { unfold schedule. rewrite Hjobs, Hjobs'. simpl.
    rewrite <- app_assoc. reflexivity. }
  destruct G as [P S W F].
  constructor; rewrite ?Hs; try assumption.
  intros y [<-|Hy]; [simpl; lia | apply P; exact Hy].
Qed.

Lemma governed_advance : forall i t l,
  governed i t l -> governed i t (advance l).
Proof.
  intros i t l [P S W F]. constructor; unfold schedule in *; simpl; auto.
  - intros x Hx. apply P in Hx. lia.
  - destruct (rev (jobs (timers l)) ++ dispatched t); [lia | exact W].
Qed.

Lemma tidy_advance : forall l hd,
  tidy [] l hd -> tidy (due_ids (advance l)) (advance l) hd.
Proof.
  intros l hd [F N S U I H]. constructor; simpl; try assumption.
  - intros x Hx. destruct (U x Hx) as [U1 U2]. simpl in U2.
    assert (now l < due x).
    { destruct (Z.eq_dec (due x) (now l)) as [E|E]; [|lia].
      apply U2 in E. contradiction. }
    split; [lia|]. unfold due_ids. simpl. split.
    + intros E. apply in_map. apply filter_In. split; [exact Hx|].
      apply Z.leb_le. lia.
    + intros Hin. apply in_map_iff in Hin. destruct Hin as (y & Hy1 & Hy2).
      apply filter_In in Hy2. destruct Hy2 as [Hy2 Hy3].
      rewrite (NoDup_tid_eq (timers l) x y) by auto.
      apply Z.leb_le in Hy3. destruct (U y Hy2) as [V1 V2]. simpl in V2.
      destruct (Z.eq_dec (due y) (now l)) as [E|E]; [apply V2 in E; contradiction|].
      lia.
  - unfold due_ids. simpl. split.
    + apply NoDup_map_filter. exact N.
    + intros id Hid. apply in_map_iff in Hid. destruct Hid as (y & <- & Hy).
      apply filter_In in Hy. apply F. tauto.
Qed.

(** *** The invariants along a run *)

Lemma runs_tidy : forall ids s s', runs s s' -> tidy_at ids s -> tidy_at ids s'.
Proof. intros ids s s' [_ A] T. eapply act_tidy; eauto. Qed.

Lemma runs_governed : forall ids s s',
  runs s s' -> tidy_at ids s -> governed_at s -> governed_at s'.
Proof.
  intros ids s s' [C A] T [Hi G]. unfold governed_at, interval in *.
  rewrite C. split; [exact Hi|]. eapply act_governed; eauto.
Qed.

Lemma is_job_action : forall x,
  is_job x = false -> forall m w, action x <> CbThrottle m w.
Proof. intros x H m w E. unfold is_job in H. rewrite E in H. discriminate. Qed.

Lemma runs_run_callback : forall cb s,
  (forall m w, cb <> CbThrottle m w) -> runs s (run_callback cb s).
Proof.
  intros [p| |m w] s H; simpl.
  - eapply runs_trans; [|apply runs_settle]. apply runs_same; reflexivity.
  - apply runs_ping.
  - exfalso. eapply H. reflexivity.
Qed.

Lemma fire_found : forall h s x,
  find_timer h s = Some x -> fire h s = run_callback (action x) (expired x s).
Proof.
  intros h s x E. unfold fire, expired. rewrite E.
  apply find_timer_in in E. destruct E as [_ ->]. reflexivity.
Qed.

Lemma tidy_expired : forall ids s x,
  tidy_at (tid x :: ids) s -> In x (timers (loop s)) ->
  tidy_at ids (expired x s).
Proof.
  intros ids s x T Hx. unfold expired, tidy_at in *. simpl in *.
  destruct (period x) as [d|] eqn:Ep; simpl.
  - eapply tidy_fired_again; eauto.
  - apply tidy_fired_once. exact T.
Qed.

Lemma job_once : forall ids l hd x,
  tidy ids l hd -> In x (timers l) -> is_job x = true -> period x = None.
Proof.
  intros ids l hd x T Hx Hj. destruct (period x) as [d|] eqn:Ep; [|reflexivity].
  destruct (t_shape _ _ _ T x Hx d Ep) as [_ Ha].
  unfold is_job in Hj. rewrite Ha in Hj. discriminate.
Qed.

Lemma fire_tidy : forall h ids s, tidy_at (h :: ids) s -> tidy_at ids (fire h s).
Proof.
  intros h ids s T. destruct (find_timer h s) as [x|] eqn:E.
  2:{ unfold fire. rewrite E. unfold tidy_at in *. simpl in *.
      apply (tidy_skip h); [exact T|].
      intros y Hy. eapply find_timer_none; eauto. }
  rewrite (fire_found h s x E).
  apply find_timer_in in E. destruct E as [Hx Hh]. subst h.
  pose proof (tidy_expired ids s x T Hx) as T1.
  destruct (action x) as [p| |m w] eqn:Ea.
  - eapply runs_tidy; [apply runs_run_callback; discriminate | exact T1].
  - eapply runs_tidy; [apply runs_run_callback; discriminate | exact T1].
  - simpl. unfold tidy_at. rewrite gov_sendMessage. exact T1.
Qed.

Lemma fire_governed : forall h ids s,
  tidy_at (h :: ids) s -> governed_at s -> governed_at (fire h s).
Proof.
  intros h ids s T [Hi G]. destruct (find_timer h s) as [x|] eqn:E.
  2:{ unfold fire. rewrite E. split; assumption. }
  rewrite (fire_found h s x E).
  apply find_timer_in in E. destruct E as [Hx Hh]. subst h.
  pose proof (tidy_expired ids s x T Hx) as T1.
  unfold tidy_at in T. simpl in T, G.
  destruct (is_job x) eqn:Ej.
  - (* a frame of the governor *)
    pose proof (job_once _ _ _ x T Hx Ej) as Ep.
    unfold is_job in Ej. destruct (action x) as [p| |m w] eqn:Ea; try discriminate.
    simpl run_callback. unfold expired. rewrite Ep.
    pose proof (core_eq _ _ (core_sendMessage m w (remove_timer (tid x) s))) as C.
    unfold governed_at, interval. destruct C as (_ & _ & _ & -> & _).
    split; [exact Hi|]. rewrite gov_sendMessage. simpl.
    destruct G as [G|G]; [left; exact G|]. right.
    eapply governed_fire_job; eauto.
  - (* a timeout or the keepalive *)
    apply (runs_governed ids (expired x s)).
    { apply runs_run_callback. apply is_job_action. exact Ej. }
    { exact T1. }
    split; [unfold expired; destruct (period x); exact Hi|].
    unfold expired. destruct (period x) as [d|] eqn:Ep; simpl.
    + destruct G as [G|G]; [left; exact G|]. right.
      eapply governed_loop; [| |exact G]; [reflexivity|].
      eapply jobs_rearm; eauto.
    + destruct G as [G|G]; [left; exact G|]. right.
      eapply governed_loop; [| |exact G]; [reflexivity|].
      eapply jobs_disarm_other; eauto.
Qed.

Lemma fold_fire_sound : forall ids s,
  tidy_at ids s ->
  tidy_at [] (fold_left (fun s h => fire h s) ids s)
  /\ (governed_at s -> governed_at (fold_left (fun s h => fire h s) ids s)).
Proof.
  induction ids as [|h ids IH]; intros s T; simpl; [auto|].
  destruct (IH (fire h s) (fire_tidy h ids s T)) as [T' G'].
  split; [exact T'|]. intros G. apply G'. eapply fire_governed; eauto.
Qed.

Lemma advance_tidy : forall s,
  tidy_at [] s -> tidy_at (due_timers (with_loop advance s)) (with_loop advance s).
Proof. intros s T. apply (tidy_advance (loop s)). exact T. Qed.

Lemma tick_sound : forall s,
  tidy_at [] s -> tidy_at [] (tick s) /\ (governed_at s -> governed_at (tick s)).
Proof.
  intros s T. unfold tick.
  destruct (fold_fire_sound _ _ (advance_tidy s T)) as [T' G'].
  split; [exact T'|]. intros [Hi G]. apply G'. split; [exact Hi|].
  simpl in *. destruct G as [G|G]; [left; exact G|]. right.
  apply governed_advance. exact G.
Qed.

Lemma runs_step : forall e s, e <> Tick -> runs s (step s e).
Proof.
  intros [ |d|n err| |e| |m rnd] s H; cbn [step].
  - eapply runs_trans; [|apply runs_on_open]. apply runs_same; reflexivity.
  - apply runs_deliver.
  - apply runs_on_sent.
  - apply runs_same; reflexivity.
  - apply runs_same; reflexivity.
  - contradiction.
  - apply runs_invoke.
Qed.

Lemma step_sound : forall e s,
  tidy_at [] s ->
  tidy_at [] (step s e) /\ (governed_at s -> governed_at (step s e)).
Proof.
  intros e s T. destruct e;
    try (split; [eapply runs_tidy | intros G; eapply runs_governed];
         eauto; apply runs_step; discriminate).
  apply tick_sound. exact T.
Qed.

Lemma run_sound : forall es s,
  tidy_at [] s ->
  tidy_at [] (run s es) /\ (governed_at s -> governed_at (run s es)).
Proof.
  induction es as [|e es IH]; intros s T; [simpl; auto|].
  unfold run in *. cbn [fold_left].
  destruct (step_sound e s T) as [T1 G1].
  destruct (IH _ T1) as [T2 G2]. auto.
Qed.

Lemma construct_tidy : forall kind mode cfg t0,
  tidy_at [] (construct kind mode cfg t0).
Proof.
  intros kind mode cfg t0.
  assert (S : forall b, tidy_at [] (new_BaseClient mode b cfg t0)).
  { intros b. constructor; simpl.
    - intros x [].
    - constructor.
    - intros x [].
    - intros x [].
    - split; [constructor | intros id []].
    - intros h0 E. discriminate E. }
  destruct kind; [|apply S]. exact (S true).
Qed.

Lemma construct_governed : forall kind mode cfg t0,
  0 < nullish (commandThrottleInterval cfg) DEFAULT_THROTTLE ->
  nullish (commandThrottleInterval cfg) DEFAULT_THROTTLE < t0 ->
  governed_at (construct kind mode cfg t0).
Proof.
  intros kind mode cfg t0 H1 H2.
  assert (S : forall b, governed_at (new_BaseClient mode b cfg t0)).
  { intros b. split; [exact H1|]. right. constructor; simpl; auto.
    - intros x [].
    - unfold interval. simpl. lia. }
  destruct kind; [|apply S]. exact (S true).
Qed.

(** Every state a session reaches is tidy. *)
Lemma reachable_tidy : forall kind mode cfg t0 es,
  tidy [] (loop (run (construct kind mode cfg t0) es))
          (_pingInterval (run (construct kind mode cfg t0) es)).
Proof.
  intros. apply (proj1 (run_sound es _ (construct_tidy kind mode cfg t0))).
Qed.

Lemma config_run_callback : forall cb s, config (run_callback cb s) = config s.
Proof.
  intros [p| |m w] s; simpl.
  - rewrite config_settle. reflexivity.
  - apply runs_ping.
  - pose proof (core_eq _ _ (core_sendMessage m w s)); tauto.
Qed.

Lemma config_fire : forall h s, config (fire h s) = config s.
Proof.
  intros h s. unfold fire. destruct (find_timer h s) as [x|]; [|reflexivity].
  rewrite config_run_callback. destruct (period x); reflexivity.
Qed.

Lemma config_tick : forall s, config (tick s) = config s.
Proof.
  intros s. unfold tick.
  assert (F : forall ids y, config (fold_left (fun s h => fire h s) ids y)
                            = config y).
  { induction ids as [|h ids IH]; intros y; simpl; [reflexivity|].
    rewrite IH. apply config_fire. }
  rewrite F. reflexivity.
Qed.

Lemma config_step : forall e s, config (step s e) = config s.
Proof.
  intros [ |d|n err| |e| |m rnd] s; cbn [step]; try reflexivity.
  - apply (runs_on_open (ws_set_state OPEN s)).
  - apply config_deliver.
  - apply runs_on_sent.
  - apply config_tick.
  - apply runs_invoke.
Qed.

Lemma config_run : forall es s, config (run s es) = config s.
Proof.
  induction es as [|e es IH]; intros s; [reflexivity|].
  unfold run in *. cbn [fold_left]. rewrite IH. apply config_step.
Qed.

(** ** A settled promise stays settled *)

Lemma keeps_refl : forall s, keeps s s.
Proof. intros s. unfold keeps. auto. Qed.

Lemma keeps_trans : forall s1 s2 s3, keeps s1 s2 -> keeps s2 s3 -> keeps s1 s3.
Proof.
  intros s1 s2 s3 (A1 & B1 & C1 & S1 & D1) (A2 & B2 & C2 & S2 & D2).
  split; [|split; [|split; [|split]]].
  - intros p st H Hst. apply A2; auto.
  - lia.
  - intros t q H. apply C2 in H. destruct H as [H|H]; [|right; lia].
    apply C1 in H. exact H.
  - congruence.
  - auto.
Qed.

Lemma keeps_same : forall s s',
  promises s' = promises s -> on_message (_ws s') = on_message (_ws s) ->
  _streaming s' = _streaming s ->
  keeps s s'.
Proof.
  intros s s' Hp Hm Hs.
  unfold keeps, listening, dispatcher_installed, promise_state.
  rewrite Hp, Hm, Hs. auto.
Qed.

Lemma keeps_core : forall s s', core s' = core s -> keeps s s'.
Proof.
  intros s s' H. apply core_eq in H. apply keeps_same; tauto.
Qed.

Lemma calls_only_filter : forall f fs,
  calls_only fs = true -> calls_only (filter f fs) = true.
Proof.
  intros f fs H. unfold calls_only in *. rewrite forallb_forall in *.
  intros x Hx. apply filter_In in Hx. apply H. tauto.
Qed.

Lemma keeps_ws_off : forall p s, keeps s (ws_off p s).
Proof.
  intros p s. split; [|split; [|split; [|split]]]; auto.
  - intros t q H. left. simpl in H. apply filter_In in H. tauto.
  - intros [D L]. split.
    + unfold dispatcher_installed in *. cbn.
      destruct (_streaming s).
      * destruct (on_message (_ws s)) as [|[t q|] fs]; try discriminate.
        cbn. apply calls_only_filter. exact D.
      * apply calls_only_filter. exact D.
    + intros t q H. cbn in H. apply filter_In in H. apply (L t). tauto.
Qed.

Lemma streaming_run_cont : forall k o s,
  _streaming (run_cont k o s) = _streaming s.
Proof.
  intros [|q|q|q] [|v|e] s; cbn; try reflexivity.
  - destruct (prop v "status") as [e|status]; [reflexivity|].
    destruct (truthy status); [destruct (prop v "streamSessionId")|]; reflexivity.
  - destruct (prop v "status") as [e|status]; [reflexivity|].
    destruct (prop v _) as [e|x]; [reflexivity|].
    destruct (truthy status); reflexivity.
  - unfold BaseClient_close. destruct (_pingInterval s); reflexivity.
Qed.

Lemma streaming_settle : forall p o s, _streaming (settle p o s) = _streaming s.
Proof.
  intros p o s. unfold settle.
  destruct (nth_error (promises s) p) as [[[| |] k]|]; try reflexivity.
  rewrite streaming_run_cont. reflexivity.
Qed.

Lemma keeps_settle : forall p o s, keeps s (settle p o s).
Proof.
  intros p o s. unfold keeps, listening, dispatcher_installed, promise_state.
  rewrite promises_settle, on_message_settle, settle_at_length, streaming_settle.
  split; [|split; [|split; [|split]]]; auto.
  intros q st H Hst.
  destruct (nth_error (promises s) q) as [[st' k]|] eqn:E; [|discriminate].
  simpl in H. inversion H; subst.
  destruct (settle_at_cont (promises s) p q o st k E) as (st2 & E2 & K).
  rewrite E2. simpl. rewrite (K Hst). reflexivity.
Qed.

Lemma keeps_call_listener : forall f d s, keeps s (snd (call_listener f d s)).
Proof.
  intros [t p|] d s; cbn.
  - unfold onData. destruct (JSON_parse d) as [e|r]; [apply keeps_refl|].
    destruct (prop r "customTag") as [e|x]; [apply keeps_refl|].
    destruct (strict_eq_str x t); [|apply keeps_refl].
    eapply keeps_trans; [apply keeps_ws_off | apply keeps_settle].
  - destruct (processMessage_trace d s) as [g ->]. apply keeps_same; reflexivity.
Qed.

Lemma keeps_deliver : forall fs d s, keeps s (deliver fs d s).
Proof.
  induction fs as [|f fs IH]; intros d s; simpl; [apply keeps_refl|].
  pose proof (keeps_call_listener f d s) as H.
  destruct (call_listener f d s) as [[e|] s1]; cbn in H.
  - eapply keeps_trans; [exact H|]. apply keeps_same; reflexivity.
  - eapply keeps_trans; [exact H | apply IH].
Qed.

Lemma keeps_run_callback : forall cb s, keeps s (run_callback cb s).
Proof.
  intros [p| |m w] s; simpl.
  - eapply keeps_trans; [apply keeps_ws_off | apply keeps_settle].
  - apply keeps_core, core_ping.
  - apply keeps_core, core_sendMessage.
Qed.

Lemma keeps_fire : forall h s, keeps s (fire h s).
Proof.
  intros h s. unfold fire. destruct (find_timer h s) as [x|]; [|apply keeps_refl].
  eapply keeps_trans; [|apply keeps_run_callback].
  destruct (period x); apply keeps_same; reflexivity.
Qed.

Lemma keeps_fold_fire : forall ids s,
  keeps s (fold_left (fun s h => fire h s) ids s).
Proof.
  induction ids as [|h ids IH]; intros s; simpl; [apply keeps_refl|].
  eapply keeps_trans; [apply keeps_fire | apply IH].
Qed.

Lemma keeps_tick : forall s, keeps s (tick s).
Proof.
  intros s. unfold tick.
  eapply keeps_trans; [|apply keeps_fold_fire]. apply keeps_same; reflexivity.
Qed.

Lemma keeps_sendCommandAndAwaitResponse : forall data timeout rnd k s,
  keeps s (snd (sendCommandAndAwaitResponse data timeout rnd k s)).
Proof.
  intros data timeout rnd k s.
  pose proof (sendCommandAndAwaitResponse_effect data timeout rnd k s) as E.
  cbv zeta in E. destruct E as (E1 & E2 & E3 & _ & _ & E4).
  unfold keeps, listening, dispatcher_installed, promise_state.
  rewrite E2, E3, E4, length_app. simpl.
  split; [|split; [|split; [|split]]].
  - intros p st H Hst.
    destruct (nth_error (promises s) p) as [e|] eqn:En; [|discriminate].
    rewrite nth_error_app1 by (apply nth_error_Some; congruence).
    rewrite En. exact H.
  - lia.
  - intros t q H. apply in_app_or in H. destruct H as [H|[H|[]]]; [left; exact H|].
    right. injection H as _ Hq. rewrite <- Hq. rewrite ?E1. lia.
  - reflexivity.
  - intros [D L]. split.
    + destruct (_streaming s).
      * destruct (on_message (_ws s)) as [|[t q|] fs]; try discriminate.
        cbn. unfold calls_only in *. rewrite forallb_app, D. reflexivity.
      * unfold calls_only in *. rewrite forallb_app, D. reflexivity.
    + intros t q H. apply in_app_or in H. destruct H as [H|[H|[]]].
      * apply L in H. lia.
      * injection H as _ Hq. rewrite <- Hq. rewrite ?E1. lia.
Qed.

Lemma keeps_returning : forall f s,
  (forall w x, core (f w x) = core x) -> keeps s (snd (returning f s)).
Proof.
  intros f s H. unfold returning, new_returned. cbv beta iota zeta. cbn [snd].
  apply keeps_core. rewrite H. reflexivity.
Qed.

Lemma keeps_guarded_command : forall data rnd s,
  keeps s (snd (guarded_command data rnd s)).
Proof.
  intros data rnd s. unfold guarded_command, new_returned. cbv beta iota zeta.
  destruct (negb _); [apply keeps_same; reflexivity|].
  match goal with |- context [sendCommandAndAwaitResponse ?d ?t ?r ?k ?x] =>
    pose proof (keeps_sendCommandAndAwaitResponse d t r k x) as R;
    destruct (sendCommandAndAwaitResponse d t r k x) as [p s2] end.
  cbn in *. eapply keeps_trans; [|exact R]. apply keeps_same; reflexivity.
Qed.

Lemma keeps_logout_then : forall k rnd s, keeps s (snd (logout_then k rnd s)).
Proof.
  intros k rnd s. unfold logout_then.
  match goal with |- context [sendCommandAndAwaitResponse ?d ?t ?r ?k ?x] =>
    pose proof (keeps_sendCommandAndAwaitResponse d t r k x) as R;
    destruct (sendCommandAndAwaitResponse d t r k x) as [p s2] end.
  cbn in *. eapply keeps_trans; [exact R|]. apply keeps_same; reflexivity.
Qed.

Lemma keeps_login : forall u pw app rnd s, keeps s (snd (login u pw app rnd s)).
Proof.
  intros. unfold login, new_returned. cbv beta iota zeta.
  match goal with |- context [sendCommandAndAwaitResponse ?d ?t ?r ?k ?x] =>
    pose proof (keeps_sendCommandAndAwaitResponse d t r k x) as R;
    destruct (sendCommandAndAwaitResponse d t r k x) as [p s2] end.
  cbn in *. eapply keeps_trans; [|exact R]. apply keeps_same; reflexivity.
Qed.

Lemma keeps_XTBClient_close : forall rnd s, keeps s (snd (XTBClient_close rnd s)).
Proof.
  intros. unfold XTBClient_close, new_returned. cbv beta iota zeta.
  match goal with |- context [logout_then ?k ?r ?x] =>
    pose proof (keeps_logout_then k r x) as R;
    destruct (logout_then k r x) as [p s2] end.
  cbn in *. eapply keeps_trans; [|exact R]. apply keeps_same; reflexivity.
Qed.

Lemma keeps_invoke : forall m rnd s, keeps s (snd (invoke m rnd s)).
Proof.
  intros m rnd s.
  destruct m; cbn [invoke];
    try match goal with |- context [Bool.eqb ?a ?b] =>
      destruct (Bool.eqb a b); [|apply keeps_refl] end;
    try (apply keeps_returning; intros;
         first [apply core_sendCommand | apply core_ping
               | apply core_subscribeToStream | apply core_unsubscribeFromStream]).
  - apply keeps_sendCommandAndAwaitResponse.
  - destruct (_streaming s); [|apply keeps_XTBClient_close].
    unfold new_returned. cbv beta iota zeta. cbn [snd].
    apply keeps_same; unfold BaseClient_close; cbn;
      destruct (_pingInterval s); reflexivity.
  - apply keeps_login.
  - apply keeps_logout_then.
  - apply keeps_guarded_command.
  - apply keeps_guarded_command.
  - apply keeps_guarded_command.
  - apply keeps_guarded_command.
Qed.

Lemma keeps_step : forall e s, keeps s (step s e).
Proof.
  intros [ |d|n err| |e| |m rnd] s; cbn [step].
  - unfold on_open.
    match goal with |- keeps s (if _ ?x then _ else _) =>
      assert (R : keeps s x) end.
    { eapply keeps_trans; [|apply keeps_core, core_ping].
      apply keeps_same; reflexivity. }
    destruct (_streaming _); [|exact R].
    eapply keeps_trans; [exact R|]. apply keeps_core, core_subscribeToStream.
  - apply keeps_deliver.
  - unfold on_sent. destruct (find _ _) as [[n' w]|]; [|apply keeps_refl].
    apply keeps_core. rewrite core_complete. reflexivity.
  - apply keeps_same; reflexivity.
  - apply keeps_same; reflexivity.
  - apply keeps_tick.
  - apply keeps_invoke.
Qed.

Lemma keeps_run : forall es s, keeps s (run s es).
Proof.
  induction es as [|e es IH]; intros s; [apply keeps_refl|].
  unfold run in *. cbn [fold_left].
  eapply keeps_trans; [apply keeps_step | apply IH].
Qed.

(** In every state a session reaches the listeners are in order, and the
    session is of the kind it was built as. *)
Lemma reachable_listening : forall kind mode cfg t0 es,
  listening (run (construct kind mode cfg t0) es)
  /\ _streaming (run (construct kind mode cfg t0) es)
     = match kind with Some _ => true | None => false end.
Proof.
  intros kind mode cfg t0 es.
  destruct (keeps_run es (construct kind mode cfg t0)) as (_ & _ & _ & S & D).
  split.
  - apply D. destruct kind; (split; [reflexivity|]); cbn; intros t p H;
      [destruct H as [H|[]]; discriminate H | destruct H].
  - rewrite S. destruct kind; reflexivity.
Qed.

(** Once a call is settled and its listener gone, neither comes back. *)
Lemma settled_for_good : forall s s' p st,
  keeps s s' -> promise_state s p = Some st -> st <> Pending ->
  (forall t, ~ In (OnData t p) (on_message (_ws s))) ->
  promise_state s' p = Some st
  /\ forall t, ~ In (OnData t p) (on_message (_ws s')).
Proof.
  intros s s' p st (A & B & C & _) Hp Hst Hno. split; [apply A; assumption|].
  intros t Hin. apply C in Hin. destruct Hin as [Hin|Hin].
  - apply (Hno t). exact Hin.
  - unfold promise_state in Hp.
    destruct (nth_error (promises s) p) eqn:E; [|discriminate].
    assert (p < List.length (promises s))%nat by (apply nth_error_Some; congruence).
    lia.
Qed.

(** ** The timeout of a correlated call *)

Lemma quiet_closes : forall s s',
  closes (gov s) (gov s') ->
  quiet (loop s) (_pingInterval s) (loop s')
  /\ _pingInterval s' = _pingInterval s.
Proof.
  intros s s' [H|H]; unfold gov, close_gov in H.
  - split; [left|]; congruence.
  - split; [right; left|]; congruence.
Qed.

Lemma quiet_submit : forall i m w s s',
  gov s' = submit_gov i m w (gov s) ->
  quiet (loop s) (_pingInterval s) (loop s')
  /\ _pingInterval s' = _pingInterval s.
Proof.
  intros i m w s s' H. unfold gov, submit_gov in H.
  destruct (window i (now (loop s)) (throttle s)) as [d t1].
  destruct (0 <? d).
  - split; [right; right; exists m, w, d|]; congruence.
  - split; [left|]; congruence.
Qed.

Lemma quiet_run_callback : forall cb s,
  quiet (loop s) (_pingInterval s) (loop (run_callback cb s))
  /\ _pingInterval (run_callback cb s) = _pingInterval s.
Proof.
  intros [p| |m w] s; simpl.
  - apply (quiet_closes (ws_off p s)). apply gov_settle.
  - unfold ping. destruct (readyState (_ws s)).
    + rewrite (f_equal (fun g => snd (fst g)) (gov_complete_failed _ _ s) : loop _ = _).
      rewrite (f_equal snd (gov_complete_failed _ _ s) : _pingInterval _ = _).
      unfold quiet. auto.
    + match goal with |- context [sendCommand ?d ?w ?x] =>
        apply (quiet_submit (interval x) (JSON_stringify d) w x) end.
      apply gov_sendThrottled.
    + eapply quiet_submit. apply gov_sendThrottled.
    + eapply quiet_submit. apply gov_sendThrottled.
  - rewrite (f_equal (fun g => snd (fst g)) (gov_sendMessage m w s) : loop _ = _).
    rewrite (f_equal snd (gov_sendMessage m w s) : _pingInterval _ = _).
    unfold quiet. auto.
Qed.

Lemma promises_run_callback : forall cb s,
  promises (run_callback cb s)
  = match cb with
    | CbTimeout p => settle_at p (Rejected (Error (JStr "Timeout"))) (promises s)
    | _ => promises s
    end.
Proof.
  intros [p| |m w] s; simpl.
  - rewrite promises_settle. reflexivity.
  - pose proof (core_eq _ _ (core_ping AwaitIntervalPing s)); tauto.
  - pose proof (core_eq _ _ (core_sendMessage m w s)); tauto.
Qed.

Lemma now_quiet : forall l h l', quiet l h l' -> now l' = now l.
Proof.
  intros l h l' [->|[->|(m & w & d & ->)]]; try reflexivity.
  destruct h; reflexivity.
Qed.

Lemma now_fire : forall h s, now (loop (fire h s)) = now (loop s).
Proof.
  intros h s. unfold fire. destruct (find_timer h s) as [y|]; [|reflexivity].
  rewrite (now_quiet _ _ _ (proj1 (quiet_run_callback (action y) _))).
  destruct (period y); reflexivity.
Qed.

Lemma now_fold_fire : forall ids s,
  now (loop (fold_left (fun s h => fire h s) ids s)) = now (loop s).
Proof.
  induction ids as [|h ids IH]; intros s; simpl; [reflexivity|].
  rewrite IH. apply now_fire.
Qed.

Lemma now_tick : forall s, now (loop (tick s)) = now (loop s) + 1.
Proof. intros s. unfold tick. rewrite now_fold_fire. reflexivity. Qed.

Lemma find_timer_unique : forall ids s x,
  tidy_at ids s -> In x (timers (loop s)) -> find_timer (tid x) s = Some x.
Proof.
  intros ids s x T Hx. unfold find_timer.
  destruct (find (fun t => Nat.eqb (tid t) (tid x)) (timers (loop s))) as [y|] eqn:E.
  - apply find_some in E. destruct E as [Hy E]. apply Nat.eqb_eq in E.
    f_equal. apply (NoDup_tid_eq (timers (loop s))); auto.
    apply (t_nodup _ _ _ T).
  - apply (find_none _ _ E) in Hx. rewrite Nat.eqb_refl in Hx. discriminate.
Qed.

Lemma fold_fire_tidy : forall ids rest s,
  tidy_at (ids ++ rest) s ->
  tidy_at rest (fold_left (fun s h => fire h s) ids s).
Proof.
  induction ids as [|h ids IH]; intros rest s T; simpl; [exact T|].
  apply IH. apply fire_tidy. exact T.
Qed.

Section Timeout.

(** The call with promise [p] and its timeout timer [x]. *)
Variables (p : nat) (x : timer).
Hypothesis timeout_of_p : action x = CbTimeout p.

Lemma sole_quiet : forall ids l h l',
  tidy ids l h -> sole p x l -> quiet l h l' -> sole p x l'.
Proof.
  intros ids l h l' T [Hx Hu] [->|[->|(m & w & d & ->)]]; [split; assumption| |].
  - destruct h as [h0|]; simpl; [|split; assumption]. split.
    + apply filter_In. split; [exact Hx|].
      apply negb_true_iff, Nat.eqb_neq. intros E.
      destruct (t_handle _ _ _ T h0 eq_refl) as [_ C].
      rewrite (C x Hx E) in timeout_of_p. discriminate.
    + intros y Hy. apply filter_In in Hy. apply Hu. tauto.
  - simpl. split; [apply in_or_app; left; exact Hx|].
    intros y Hy Ha. apply in_app_or in Hy. destruct Hy as [Hy|[<-|[]]].
    + apply Hu; assumption.
    + simpl in Ha. discriminate.
Qed.

Lemma sole_expired : forall s y,
  sole p x (loop s) -> In y (timers (loop s)) -> tid y <> tid x ->
  sole p x (loop (expired y s)).
Proof.
  intros s y [Hx Hu] Hy Hne. unfold expired.
  destruct (period y) as [d|]; simpl; split.
  - apply in_map_iff. exists x. split; [|exact Hx].
    destruct (Nat.eqb (tid x) (tid y)) eqn:E; [|reflexivity].
    apply Nat.eqb_eq in E. congruence.
  - intros z Hz Ha. apply in_map_iff in Hz. destruct Hz as (z0 & <- & Hz0).
    destruct (Nat.eqb (tid z0) (tid y)) eqn:E.
    + simpl in Ha. apply Nat.eqb_eq in E.
      rewrite (Hu z0 Hz0 Ha) in E. congruence.
    + apply Hu; assumption.
  - apply filter_In. split; [exact Hx|].
    apply negb_true_iff, Nat.eqb_neq. congruence.
  - intros z Hz. apply filter_In in Hz. apply Hu. tauto.
Qed.

(** Another timer expires: [x] stays armed and [p] pending. *)
Lemma armed_fire_other : forall h ids s,
  tidy_at (h :: ids) s -> armed p x s -> h <> tid x -> armed p x (fire h s).
Proof.
  intros h ids s T [So Pe] Hne.
  destruct (find_timer h s) as [y|] eqn:E.
  2:{ unfold fire. rewrite E. split; assumption. }
  rewrite (fire_found h s y E).
  apply find_timer_in in E. destruct E as [Hy Hh]. subst h.
  pose proof (tidy_expired ids s y T Hy) as T1.
  pose proof (sole_expired s y So Hy Hne) as S1.
  destruct (quiet_run_callback (action y) (expired y s)) as [Q _].
  split.
  - eapply sole_quiet; [exact T1 | exact S1 | exact Q].
  - unfold promise_state in *. rewrite promises_run_callback.
    assert (Pe1 : option_map fst (nth_error (promises (expired y s)) p)
                  = Some Pending).
    { unfold expired. destruct (period y); exact Pe. }
    destruct (action y) as [q| |m w] eqn:Ea; try exact Pe1.
    rewrite settle_at_other; [exact Pe1|].
    intros ->. apply Hne. f_equal. apply (proj2 So); assumption.
Qed.

Lemma armed_fold_other : forall ids rest s,
  tidy_at (ids ++ rest) s -> armed p x s -> ~ In (tid x) ids ->
  armed p x (fold_left (fun s h => fire h s) ids s).
Proof.
  induction ids as [|h ids IH]; intros rest s T A Hno; simpl; [exact A|].
  apply (IH rest).
  - apply fire_tidy. exact T.
  - eapply armed_fire_other; eauto. intros ->. apply Hno. left. reflexivity.
  - intros H. apply Hno. right. exact H.
Qed.

(** [x] expires: [p] is rejected with ['Timeout'] and its listener
    removed. *)
Lemma armed_fire_self : forall ids s,
  tidy_at (tid x :: ids) s -> armed p x s ->
  promise_state (fire (tid x) s) p = Some (Rejected (Error (JStr "Timeout")))
  /\ forall t, ~ In (OnData t p) (on_message (_ws (fire (tid x) s))).
Proof.
  intros ids s T [[Hx _] Pe].
  rewrite (fire_found _ s x (find_timer_unique _ s x T Hx)).
  rewrite timeout_of_p. simpl run_callback. split.
  - unfold promise_state in *. rewrite promises_settle.
    assert (Pe1 : option_map fst (nth_error (promises (ws_off p (expired x s))) p)
                  = Some Pending).
    { unfold expired. destruct (period x); exact Pe. }
    destruct (nth_error (promises (ws_off p (expired x s))) p) as [[st k]|] eqn:E;
      [|discriminate].
    simpl in Pe1. inversion Pe1; subst.
    rewrite (settle_at_pending _ _ _ _ E). reflexivity.
  - intros t. rewrite on_message_settle. simpl. intros H.
    apply filter_In in H. destruct H as [_ H]. simpl in H.
    rewrite Nat.eqb_refl in H. discriminate.
Qed.

Lemma tick_before : forall s,
  tidy_at [] s -> armed p x s -> now (loop s) + 1 < due x -> armed p x (tick s).
Proof.
  intros s T A Hlt. unfold tick. apply (armed_fold_other _ []).
  - rewrite app_nil_r. apply advance_tidy. exact T.
  - exact A.
  - unfold due_timers. simpl. intros H. apply in_map_iff in H.
    destruct H as (y & Hy1 & Hy2). apply filter_In in Hy2.
    destruct Hy2 as [Hy2 Hy3]. apply Z.leb_le in Hy3.
    assert (y = x).
    { apply (NoDup_tid_eq (timers (loop s))); auto.
      - apply (t_nodup _ _ _ T).
      - apply A. }
    subst y. lia.
Qed.

Lemma tick_due : forall s,
  tidy_at [] s -> armed p x s -> now (loop s) + 1 = due x ->
  promise_state (tick s) p = Some (Rejected (Error (JStr "Timeout")))
  /\ forall t, ~ In (OnData t p) (on_message (_ws (tick s))).
Proof.
  intros s T A Hdue. unfold tick.
  pose proof (advance_tidy s T) as T1.
  set (s1 := with_loop advance s) in *.
  assert (Hin : In (tid x) (due_timers s1)).
  { unfold due_timers. apply in_map. apply filter_In. split; [apply A|].
    apply Z.leb_le. simpl. lia. }
  destruct (in_split _ _ Hin) as (ids1 & ids2 & Hids).
  assert (Hno : ~ In (tid x) ids1).
  { destruct (t_ids _ _ _ T1) as [N _]. rewrite Hids in N.
    apply NoDup_remove_2 in N. intros H. apply N. apply in_or_app. left. exact H. }
  rewrite Hids in *. rewrite fold_left_app. cbn [fold_left].
  set (s2 := fold_left (fun s h => fire h s) ids1 s1).
  assert (T2 : tidy_at (tid x :: ids2) s2).
  { apply fold_fire_tidy. exact T1. }
  assert (A2 : armed p x s2).
  { apply (armed_fold_other ids1 (tid x :: ids2)); auto. }
  destruct (armed_fire_self ids2 s2 T2 A2) as [R L].
  eapply settled_for_good; [apply keeps_fold_fire | exact R | discriminate | exact L].
Qed.

(** The clock reaches the due time of [x] with nothing else happening:
    [p] is pending until the last millisecond and rejected at it. *)
Lemma timeout_fires : forall n s,
  tidy_at [] s -> armed p x s -> due x - now (loop s) = Z.of_nat (S n) ->
  (forall k, (k <= n)%nat ->
     promise_state (run s (repeat Tick k)) p = Some Pending)
  /\ now (loop (run s (repeat Tick (S n)))) = due x
  /\ promise_state (run s (repeat Tick (S n))) p
     = Some (Rejected (Error (JStr "Timeout")))
  /\ forall t, ~ In (OnData t p) (on_message (_ws (run s (repeat Tick (S n))))).
Proof.
  induction n as [|n IH]; intros s T A Hd.
  - destruct (tick_due s T A) as [R L]; [lia|]. repeat split.
    + intros k Hk. assert (k = 0%nat) by lia. subst k. apply A.
    + simpl. rewrite now_tick. lia.
    + exact R.
    + exact L.
  - assert (T1 : tidy_at [] (tick s)) by (apply tick_sound; exact T).
    assert (A1 : armed p x (tick s)) by (apply tick_before; auto; lia).
    destruct (IH (tick s) T1 A1) as (P1 & N1 & R1 & L1).
    { rewrite now_tick. lia. }
    repeat split; try assumption.
    intros [|k] Hk; [apply A|]. apply (P1 k). lia.
Qed.

End Timeout.

Lemma errors_settle : forall p o s, errors (settle p o s) = errors s.
Proof.
  intros p o s. unfold settle.
  destruct (nth_error (promises s) p) as [[[| |] k]|]; try reflexivity.
  destruct k as [|q|q|q]; destruct o as [|v|e]; cbn; try reflexivity.
  - destruct (prop v "status") as [e|status]; [reflexivity|].
    destruct (truthy status); [destruct (prop v "streamSessionId")|]; reflexivity.
  - destruct (prop v "status") as [e|status]; [reflexivity|].
    destruct (prop v _) as [e|y]; [reflexivity|].
    destruct (truthy status); reflexivity.
  - unfold BaseClient_close. destruct (_pingInterval _); reflexivity.
Qed.

(** A frame that is an object raises nothing, whoever listens. *)
Lemma errors_frame : forall o s, errors (step s (frame o)) = errors s.
Proof.
  intros o s. cbn [frame step]. rewrite deliver_object.
  generalize (on_message (_ws s)). intros fs. revert s.
  induction fs as [|f fs IH]; intros s; simpl; [reflexivity|].
  rewrite IH. destruct f as [t p|].
  - rewrite react_onData. destruct (strict_eq_str _ _); [|reflexivity].
    rewrite errors_settle. reflexivity.
  - unfold react. cbn. unfold processMessage. cbn.
    destruct (channel _); reflexivity.
Qed.

Lemma ws_off_absent : forall p s,
  (forall t, ~ In (OnData t p) (on_message (_ws s))) -> ws_off p s = s.
Proof.
  intros p s H. destruct s as [? ? ? ? ? ? [st fs wi cb pg] ? ? ? ? ?].
  unfold ws_off, with_ws. simpl in *. f_equal. f_equal.
  apply forallb_filter_id. apply forallb_forall. intros f Hf.
  destruct f as [t q|]; [|reflexivity]. simpl.
  destruct (Nat.eqb q p) eqn:E; [|reflexivity].
  apply Nat.eqb_eq in E. subst q. exfalso. apply (H t). exact Hf.
Qed.

(** The timeout callback of a call that is settled and unregistered leaves
    the client exactly as it is. *)
Lemma late_timeout_is_noop : forall p s st,
  promise_state s p = Some st -> st <> Pending ->
  (forall t, ~ In (OnData t p) (on_message (_ws s))) ->
  run_callback (CbTimeout p) s = s.
Proof.
  intros p s st Hp Hst Hno. simpl. rewrite (ws_off_absent p s Hno).
  unfold settle. unfold promise_state in Hp.
  destruct (nth_error (promises s) p) as [[st' k]|]; [|reflexivity].
  simpl in Hp. inversion Hp; subst. destruct st; congruence.
Qed.

(** A frame bearing the tag of a pending call resolves it and removes its
    listener. *)
Lemma frame_resolves : forall s o t p,
  bears o t -> In (OnData t p) (on_message (_ws s)) ->
  promise_state s p = Some Pending ->
  promise_state (step s (frame o)) p = Some (Fulfilled (JObj o))
  /\ forall t', ~ In (OnData t' p) (on_message (_ws (step s (frame o)))).
Proof.
  intros s o t p Hb Hin Hp. cbn [frame step]. rewrite deliver_object. split.
  - unfold promise_state in *. rewrite promises_fold_react.
    destruct (nth_error (promises s) p) as [[st k]|] eqn:E; [|discriminate].
    simpl in Hp. inversion Hp; subst.
    rewrite (resolve_fold_hit o t _ _ p k Hb Hin E). reflexivity.
  - intros t'. rewrite on_message_fold_react.
    apply (unlisten_fold_gone o t); assumption.
Qed.

(** When the send of a correlated call completes, its timeout is armed
    from that moment. *)
Lemma timeout_armed_on_send : forall s n p timeout,
  pending_callback s n = Some (AwaitCall p timeout) ->
  timers (loop (step s (WsSent n None)))
  = timers (loop s)
    ++ [{| tid := next_timer (loop s);
           due := now (loop s) + timer_delay (nullish timeout DEFAULT_TIMEOUT);
           period := None; action := CbTimeout p |}].
Proof.
  intros s n p timeout H. cbn [step].
  destruct (on_sent_waiter n None s _ H) as (s0 & -> & _ & Hl & _).
  cbn. rewrite Hl. reflexivity.
Qed.

(** ** A socket that is not open

    [ws.send] writes on an open socket only, so as long as the socket does
    not open nothing reaches the wire, whatever the client does. *)

Lemma mute_refl : forall s, mute s s.
Proof. intros s H. auto. Qed.

Lemma mute_trans : forall s1 s2 s3, mute s1 s2 -> mute s2 s3 -> mute s1 s3.
Proof.
  intros s1 s2 s3 H12 H23 H1. destruct (H12 H1) as [H2 E2].
  destruct (H23 H2) as [H3 E3]. split; [exact H3 | congruence].
Qed.

Lemma mute_same : forall s s', _ws s' = _ws s -> mute s s'.
Proof. intros s s' E H. unfold shut. rewrite E. auto. Qed.

Lemma mute_listeners : forall s s',
  readyState (_ws s') = readyState (_ws s) -> wire (_ws s') = wire (_ws s) ->
  mute s s'.
Proof. intros s s' E1 E2 H. unfold shut in *. rewrite E1. auto. Qed.

Lemma ws_complete : forall w err s, _ws (complete w err s) = _ws s.
Proof. intros [ | |p t|q| ] [e|] s; reflexivity. Qed.

Lemma mute_sendMessage : forall data w s, mute s (sendMessage data w s).
Proof.
  intros data w s H. unfold shut in *. unfold sendMessage. cbn.
  destruct (readyState (_ws s)) eqn:E; try congruence;
    rewrite ws_complete; cbn; rewrite E; split; auto; discriminate.
Qed.

Lemma mute_sendThrottled : forall m w s, mute s (sendThrottled m w s).
Proof.
  intros m w s. unfold sendThrottled, windowedDelay.
  destruct (window _ _ _) as [delay t].
  destruct (0 <? delay); [apply mute_same; reflexivity|].
  eapply mute_trans; [|apply mute_sendMessage]. apply mute_same; reflexivity.
Qed.

Lemma mute_ping : forall w s, mute s (ping w s).
Proof.
  intros w s H. unfold shut in *. unfold ping.
  destruct (readyState (_ws s)) eqn:E; try congruence.
  - rewrite ws_complete. rewrite E. split; auto.
  - apply mute_sendThrottled. unfold shut. congruence.
  - apply mute_sendThrottled. unfold shut. congruence.
Qed.

Lemma mute_subscribeToStream : forall c a w s, mute s (subscribeToStream c a w s).
Proof.
  intros c a w s. unfold subscribeToStream.
  destruct (negb _); [apply mute_same, ws_complete | apply mute_sendThrottled].
Qed.

Lemma mute_close : forall s, mute s (BaseClient_close s).
Proof.
  intros s H. unfold shut in *. unfold BaseClient_close.
  destruct (_pingInterval s); cbn; destruct (readyState (_ws s));
    split; auto; discriminate.
Qed.

Lemma mute_run_cont : forall k o s, mute s (run_cont k o s).
Proof.
  intros [|q|q|q] [|v|e] s; cbn; try (apply mute_same; reflexivity).
  - destruct (prop v "status") as [e|status]; [apply mute_same; reflexivity|].
    destruct (truthy status); [destruct (prop v "streamSessionId")|];
      apply mute_same; reflexivity.
  - destruct (prop v "status") as [e|status]; [apply mute_same; reflexivity|].
    destruct (prop v _) as [e|x]; [apply mute_same; reflexivity|].
    destruct (truthy status); apply mute_same; reflexivity.
  - eapply mute_trans; [apply mute_close | apply mute_same; reflexivity].
Qed.

Lemma mute_settle : forall p o s, mute s (settle p o s).
Proof.
  intros p o s. unfold settle.
  destruct (nth_error (promises s) p) as [[[| |] k]|]; try apply mute_refl.
  eapply mute_trans; [|apply mute_run_cont]. apply mute_same; reflexivity.
Qed.

Lemma mute_call_listener : forall f d s, mute s (snd (call_listener f d s)).
Proof.
  intros [t p|] d s; cbn.
  - unfold onData. destruct (JSON_parse d) as [e|r]; [apply mute_refl|].
    destruct (prop r "customTag") as [e|x]; [apply mute_refl|].
    destruct (strict_eq_str x t); [|apply mute_refl].
    eapply mute_trans; [|apply mute_settle]. apply mute_listeners; reflexivity.
  - destruct (processMessage_trace d s) as [g ->]. apply mute_same; reflexivity.
Qed.

Lemma mute_deliver : forall fs d s, mute s (deliver fs d s).
Proof.
  induction fs as [|f fs IH]; intros d s; simpl; [apply mute_refl|].
  pose proof (mute_call_listener f d s) as H.
  destruct (call_listener f d s) as [[e|] s1]; cbn in H.
  - eapply mute_trans; [exact H|]. apply mute_same; reflexivity.
  - eapply mute_trans; [exact H | apply IH].
Qed.

Lemma mute_run_callback : forall cb s, mute s (run_callback cb s).
Proof.
  intros [p| |m w] s; simpl.
  - eapply mute_trans; [|apply mute_settle]. apply mute_listeners; reflexivity.
  - apply mute_ping.
  - apply mute_sendMessage.
Qed.

Lemma mute_fire : forall h s, mute s (fire h s).
Proof.
  intros h s. unfold fire. destruct (find_timer h s) as [x|]; [|apply mute_refl].
  eapply mute_trans; [|apply mute_run_callback].
  destruct (period x); apply mute_same; reflexivity.
Qed.

Lemma mute_fold_fire : forall ids s,
  mute s (fold_left (fun s h => fire h s) ids s).
Proof.
  induction ids as [|h ids IH]; intros s; simpl; [apply mute_refl|].
  eapply mute_trans; [apply mute_fire | apply IH].
Qed.

Lemma mute_tick : forall s, mute s (tick s).
Proof.
  intros s. unfold tick.
  eapply mute_trans; [|apply mute_fold_fire]. apply mute_same; reflexivity.
Qed.

Lemma mute_sendCommandAndAwaitResponse : forall data timeout rnd k s,
  mute s (snd (sendCommandAndAwaitResponse data timeout rnd k s)).
Proof.
  intros. unfold sendCommandAndAwaitResponse, new_promise. cbv beta iota zeta.
  cbn [snd]. eapply mute_trans; [|apply mute_sendThrottled].
  apply mute_listeners; reflexivity.
Qed.

Lemma mute_returning : forall f s,
  (forall w x, mute x (f w x)) -> mute s (snd (returning f s)).
Proof.
  intros f s H. unfold returning, new_returned. cbv beta iota zeta. cbn [snd].
  eapply mute_trans; [|apply H]. apply mute_same; reflexivity.
Qed.

Lemma mute_guarded_command : forall data rnd s,
  mute s (snd (guarded_command data rnd s)).
Proof.
  intros data rnd s. unfold guarded_command, new_returned. cbv beta iota zeta.
  destruct (negb _); [apply mute_same; reflexivity|].
  match goal with |- context [sendCommandAndAwaitResponse ?d ?t ?r ?k ?x] =>
    pose proof (mute_sendCommandAndAwaitResponse d t r k x) as R;
    destruct (sendCommandAndAwaitResponse d t r k x) as [p s2] end.
  cbn in *. eapply mute_trans; [|exact R]. apply mute_same; reflexivity.
Qed.

Lemma mute_logout_then : forall k rnd s, mute s (snd (logout_then k rnd s)).
Proof.
  intros k rnd s. unfold logout_then.
  match goal with |- context [sendCommandAndAwaitResponse ?d ?t ?r ?k ?x] =>
    pose proof (mute_sendCommandAndAwaitResponse d t r k x) as R;
    destruct (sendCommandAndAwaitResponse d t r k x) as [p s2] end.
  cbn in *. eapply mute_trans; [exact R|]. apply mute_same; reflexivity.
Qed.

Lemma mute_invoke : forall m rnd s, mute s (snd (invoke m rnd s)).
Proof.
  intros m rnd s.
  destruct m; cbn [invoke];
    try match goal with |- context [Bool.eqb ?a ?b] =>
      destruct (Bool.eqb a b); [|apply mute_refl] end;
    try (apply mute_returning; intros;
         first [apply mute_sendThrottled | apply mute_ping
               | apply mute_subscribeToStream]).
  - apply mute_sendCommandAndAwaitResponse.
  - destruct (_streaming s).
    + unfold new_returned. cbv beta iota zeta. cbn [snd].
      apply (mute_trans _ (with_returned (fun rs => rs ++ [Pending]) s));
        [apply mute_same; reflexivity|].
      eapply mute_trans; [apply mute_close | apply mute_same; reflexivity].
    + unfold XTBClient_close, new_returned. cbv beta iota zeta.
      match goal with |- context [logout_then ?k ?r ?x] =>
        pose proof (mute_logout_then k r x) as R;
        destruct (logout_then k r x) as [p s2] end.
      cbn in *. eapply mute_trans; [|exact R]. apply mute_same; reflexivity.
  - unfold login, new_returned. cbv beta iota zeta.
    match goal with |- context [sendCommandAndAwaitResponse ?d ?t ?r ?k ?x] =>
      pose proof (mute_sendCommandAndAwaitResponse d t r k x) as R;
      destruct (sendCommandAndAwaitResponse d t r k x) as [p s2] end.
    cbn in *. eapply mute_trans; [|exact R]. apply mute_same; reflexivity.
  - apply mute_logout_then.
  - apply mute_guarded_command.
  - apply mute_guarded_command.
  - apply mute_guarded_command.
  - apply mute_guarded_command.
Qed.

Lemma mute_step : forall e s, is_open e = false -> mute s (step s e).
Proof.
  intros [ |d|n err| |e| |m rnd] s He; try discriminate He; cbn [step].
  - apply mute_deliver.
  - unfold on_sent. destruct (find _ _) as [[n' w]|]; [|apply mute_refl].
    apply mute_listeners; rewrite ws_complete; reflexivity.
  - intros H. cbn. split; [discriminate | reflexivity].
  - apply mute_same; reflexivity.
  - apply mute_tick.
  - apply mute_invoke.
Qed.

Lemma mute_run : forall es s,
  forallb (fun e => negb (is_open e)) es = true -> mute s (run s es).
Proof.
  induction es as [|e es IH]; intros s H; [apply mute_refl|].
  simpl in H. apply andb_true_iff in H. destruct H as [H1 H2].
  unfold run in *. cbn [fold_left].
  eapply mute_trans; [apply mute_step | apply IH; exact H2].
  destruct (is_open e); [discriminate | reflexivity].
Qed.

(** ** Frames nobody waits for *)

Lemma react_unclaimed : forall o t p s,
  obj_get o "customTag" <> JStr t -> react o s (OnData t p) = s.
Proof.
  intros o t p s H. rewrite react_onData.
  destruct (strict_eq_str _ _) eqn:E; [|reflexivity].
  apply strict_eq_str_true in E. contradiction.
Qed.

Lemma fold_react_unclaimed : forall o fs s,
  calls_only fs = true ->
  (forall t p, In (OnData t p) fs -> obj_get o "customTag" <> JStr t) ->
  fold_left (react o) fs s = s.
Proof.
  intros o fs. induction fs as [|f fs IH]; intros s Hc Hu; simpl; [reflexivity|].
  simpl in Hc. apply andb_true_iff in Hc. destruct Hc as [Hf Hc].
  destruct f as [t p|]; [|discriminate].
  rewrite react_unclaimed by (apply (Hu t p); left; reflexivity).
  apply IH; [exact Hc|]. intros t' p' H. apply (Hu t' p'). right. exact H.
Qed.

(** ** The books of a session: calls, listeners and the wire *)

Lemma safe_refl : forall s, safe s s.
Proof. intros s H. exact H. Qed.

Lemma safe_trans : forall s1 s2 s3, safe s1 s2 -> safe s2 s3 -> safe s1 s3.
Proof. unfold safe. auto. Qed.

Lemma books_eq : forall s s', books s' = books s ->
  promises s' = promises s /\ on_message (_ws s') = on_message (_ws s)
  /\ wire (_ws s') = wire (_ws s)
  /\ dispatched (throttle s') = dispatched (throttle s)
  /\ callbacks (_ws s') = callbacks (_ws s).
Proof. unfold books. intros s s' H. inversion H. auto. Qed.

Lemma safe_same : forall s s', books s' = books s -> safe s s'.
Proof.
  intros s s' H. apply books_eq in H. destruct H as (H1 & H2 & H3 & H4 & H5).
  unfold safe, sound, accounted, through_governor, posted.
  rewrite H1, H2, H3, H4, H5. auto.
Qed.

Lemma books_complete : forall w err s, books (complete w err s) = books s.
Proof. intros [ | |p t|q| ] [e|] s; reflexivity. Qed.

Lemma subsequence_nil : forall (A : Type) (ys : list A), subsequence [] ys.
Proof. intros A [|y ys]; simpl; auto. Qed.

Lemma subsequence_skip : forall (A : Type) (xs ys : list A) (y : A),
  subsequence xs ys -> subsequence xs (y :: ys).
Proof. intros A [|x xs] ys y H; simpl; auto. Qed.

Lemma subsequence_cons : forall (A : Type) (xs ys : list A) (x : A),
  subsequence xs ys -> subsequence (x :: xs) (x :: ys).
Proof. intros A xs ys x H. simpl. left. auto. Qed.

Lemma safe_sendMessage : forall m w s, safe s (sendMessage m w s).
Proof.
  intros m w s (A & G & C). unfold sendMessage.
  cbn [readyState _ws with_throttle].
  assert (Skip : sound (with_throttle (log_dispatch (now (loop s)) m) s)).
  { split; [exact A|]. split; [|exact C].
    unfold through_governor in *. cbn. apply subsequence_skip. exact G. }
  destruct (readyState (_ws s)) eqn:E;
    try (apply (safe_same _ _ (books_complete _ _ _)); exact Skip).
  split; [exact A|]. split.
  - unfold through_governor in *. cbn. apply subsequence_cons. exact G.
  - unfold posted in *. cbn. intros n w' H. apply in_app_or in H.
    destruct H as [H|[H|[]]]; [apply C in H; lia|].
    inversion H; subst. lia.
Qed.

Lemma safe_sendThrottled : forall m w s, safe s (sendThrottled m w s).
Proof.
  intros m w s. unfold sendThrottled, windowedDelay.
  assert (D : dispatched (snd (window (interval s) (now (loop s)) (throttle s)))
              = dispatched (throttle s)).
  { unfold window. destruct (_ <? _); [reflexivity|].
    destruct (_ <? _); reflexivity. }
  destruct (window _ _ _) as [delay t]. cbn [snd] in D.
  destruct (0 <? delay).
  - apply safe_same. unfold books. cbn. rewrite D. reflexivity.
  - eapply safe_trans; [|apply safe_sendMessage].
    apply safe_same. unfold books. cbn. rewrite D. reflexivity.
Qed.

Lemma safe_ping : forall w s, safe s (ping w s).
Proof.
  intros w s. unfold ping.
  destruct (readyState (_ws s)).
  - apply safe_same, books_complete.
  - eapply safe_trans; [|apply safe_sendThrottled]. apply safe_same; reflexivity.
  - apply safe_sendThrottled.
  - apply safe_sendThrottled.
Qed.

Lemma safe_subscribeToStream : forall c a w s, safe s (subscribeToStream c a w s).
Proof.
  intros c a w s. unfold subscribeToStream.
  destruct (negb _); [apply safe_same, books_complete | apply safe_sendThrottled].
Qed.

Lemma books_close : forall s, books (BaseClient_close s) = books s.
Proof. intros s. unfold BaseClient_close. destruct (_pingInterval s); reflexivity. Qed.

Lemma books_run_cont : forall k o s, books (run_cont k o s) = books s.
Proof.
  intros [|q|q|q] [|v|e] s; cbn; try reflexivity.
  - destruct (prop v "status") as [e|status]; [reflexivity|].
    destruct (truthy status); [destruct (prop v "streamSessionId")|]; reflexivity.
  - destruct (prop v "status") as [e|status]; [reflexivity|].
    destruct (prop v _) as [e|x]; [reflexivity|].
    destruct (truthy status); reflexivity.
  - unfold BaseClient_close. destruct (_pingInterval s); reflexivity.
Qed.

Lemma pending_from_ge : forall ps n q, In q (pending_from n ps) -> (n <= q)%nat.
Proof.
  induction ps as [|[st k] ps IH]; intros n q H; simpl in H; [contradiction|].
  destruct st; try (apply IH in H; lia).
  destruct H as [<-|H]; [lia | apply IH in H; lia].
Qed.

Lemma filter_all : forall (A : Type) (f : A -> bool) (l : list A),
  (forall x, In x l -> f x = true) -> filter f l = l.
Proof.
  induction l as [|a l IH]; intros H; simpl; [reflexivity|].
  rewrite (H a) by (left; reflexivity). f_equal. apply IH.
  intros x Hx. apply H. right. exact Hx.
Qed.

Lemma pending_from_settle : forall ps n p k o,
  nth_error ps p = Some (Pending, k) -> o <> Pending ->
  pending_from n (settle_at p o ps)
  = filter (fun q => negb (Nat.eqb q (n + p))) (pending_from n ps).
Proof.
  induction ps as [|[st k0] ps IH]; intros n [|p] k o H Ho;
    try discriminate H.
  - simpl in H. inversion H; subst. cbn [settle_at pending_from filter].
    rewrite Nat.add_0_r, Nat.eqb_refl. cbn [negb].
    destruct o; try congruence; cbn [pending_from];
      (symmetry; apply filter_all; intros x Hx; apply pending_from_ge in Hx;
       apply negb_true_iff, Nat.eqb_neq; lia).
  - simpl in H. replace (n + S p)%nat with (S n + p)%nat by lia.
    assert (E : Nat.eqb n (S n + p) = false) by (apply Nat.eqb_neq; lia).
    destruct st; cbn [settle_at pending_from filter];
      rewrite (IH (S n) p k o H Ho), ?E; reflexivity.
Qed.

Lemma pending_from_absent : forall ps n p,
  (forall k, nth_error ps p <> Some (Pending, k)) ->
  ~ In (n + p)%nat (pending_from n ps).
Proof.
  induction ps as [|[st k0] ps IH]; intros n p H Hin; simpl in *; [exact Hin|].
  destruct p as [|p].
  - simpl in H. destruct st; try (apply pending_from_ge in Hin; lia).
    apply (H k0). reflexivity.
  - simpl in H. rewrite <- Nat.add_succ_comm in Hin.
    destruct st; try (apply (IH (S n) p H); exact Hin).
    destruct Hin as [Hin|Hin]; [lia|]. apply (IH (S n) p H). exact Hin.
Qed.

Lemma pending_from_snoc : forall ps n k,
  pending_from n (ps ++ [(Pending, k)])
  = pending_from n ps ++ [(n + List.length ps)%nat].
Proof.
  induction ps as [|[st k0] ps IH]; intros n k; simpl.
  - rewrite Nat.add_0_r. reflexivity.
  - rewrite <- Nat.add_succ_comm. destruct st; simpl; rewrite IH; reflexivity.
Qed.

Lemma listened_filter : forall p fs,
  listened (filter (fun f => negb (is_onData p f)) fs)
  = filter (fun q => negb (Nat.eqb q p)) (listened fs).
Proof.
  intros p. induction fs as [|f fs IH]; simpl; [reflexivity|].
  destruct f as [t q|]; simpl.
  - destruct (Nat.eqb q p); simpl; rewrite IH; reflexivity.
  - exact IH.
Qed.

Lemma listened_app : forall fs gs, listened (fs ++ gs) = listened fs ++ listened gs.
Proof. intros. unfold listened. apply flat_map_app. Qed.

(** A promise is settled and its listener removed. *)
Lemma safe_resolve : forall p o s,
  o <> Pending -> safe s (settle p o (ws_off p s)).
Proof.
  intros p o s Ho (A & G & C). unfold settle. cbn [promises ws_off with_ws].
  unfold accounted in A.
  assert (Gone : (forall k, nth_error (promises s) p <> Some (Pending, k)) ->
                 sound (ws_off p s)).
  { intros E. split; [|split; [exact G | exact C]].
    unfold accounted. cbn. rewrite listened_filter, A.
    apply filter_all. intros x Hx. apply negb_true_iff, Nat.eqb_neq.
    intros ->. apply (pending_from_absent (promises s) 0 p E). exact Hx. }
  destruct (nth_error (promises s) p) as [[st k]|] eqn:E;
    [destruct st|]; try (apply Gone; intros k'; discriminate).
  apply (safe_same _ _ (books_run_cont _ _ _)).
  split; [|split; [exact G | exact C]].
  unfold accounted. cbn. rewrite listened_filter, A.
  rewrite (pending_from_settle _ 0 p k o E Ho). reflexivity.
Qed.

Lemma safe_call_listener : forall f d s, safe s (snd (call_listener f d s)).
Proof.
  intros [t p|] d s; cbn.
  - unfold onData. destruct (JSON_parse d) as [e|r]; [apply safe_refl|].
    destruct (prop r "customTag") as [e|x]; [apply safe_refl|].
    destruct (strict_eq_str x t); [|apply safe_refl].
    apply safe_resolve. discriminate.
  - destruct (processMessage_trace d s) as [g ->]. apply safe_same; reflexivity.
Qed.

Lemma safe_deliver : forall fs d s, safe s (deliver fs d s).
Proof.
  induction fs as [|f fs IH]; intros d s; simpl; [apply safe_refl|].
  pose proof (safe_call_listener f d s) as H.
  destruct (call_listener f d s) as [[e|] s1]; cbn in H.
  - eapply safe_trans; [exact H|]. apply safe_same; reflexivity.
  - eapply safe_trans; [exact H | apply IH].
Qed.

Lemma safe_run_callback : forall cb s, safe s (run_callback cb s).
Proof.
  intros [p| |m w] s; simpl.
  - apply safe_resolve. discriminate.
  - apply safe_ping.
  - apply safe_sendMessage.
Qed.

Lemma safe_fire : forall h s, safe s (fire h s).
Proof.
  intros h s. unfold fire. destruct (find_timer h s) as [x|]; [|apply safe_refl].
  eapply safe_trans; [|apply safe_run_callback].
  destruct (period x); apply safe_same; reflexivity.
Qed.

Lemma safe_fold_fire : forall ids s,
  safe s (fold_left (fun s h => fire h s) ids s).
Proof.
  induction ids as [|h ids IH]; intros s; simpl; [apply safe_refl|].
  eapply safe_trans; [apply safe_fire | apply IH].
Qed.

Lemma safe_tick : forall s, safe s (tick s).
Proof.
  intros s. unfold tick.
  eapply safe_trans; [|apply safe_fold_fire]. apply safe_same; reflexivity.
Qed.

Lemma safe_sendCommandAndAwaitResponse : forall data timeout rnd k s,
  safe s (snd (sendCommandAndAwaitResponse data timeout rnd k s)).
Proof.
  intros. unfold sendCommandAndAwaitResponse, new_promise. cbv beta iota zeta.
  cbn [snd]. eapply safe_trans; [|apply safe_sendThrottled].
  intros (A & G & C). split; [|split; [exact G | exact C]].
  unfold accounted in *. cbn. rewrite listened_app, pending_from_snoc, A.
  reflexivity.
Qed.

Lemma safe_returning : forall f s,
  (forall w x, safe x (f w x)) -> safe s (snd (returning f s)).
Proof.
  intros f s H. unfold returning, new_returned. cbv beta iota zeta. cbn [snd].
  eapply safe_trans; [|apply H]. apply safe_same; reflexivity.
Qed.

Lemma safe_guarded_command : forall data rnd s,
  safe s (snd (guarded_command data rnd s)).
Proof.
  intros data rnd s. unfold guarded_command, new_returned. cbv beta iota zeta.
  destruct (negb _); [apply safe_same; reflexivity|].
  match goal with |- context [sendCommandAndAwaitResponse ?d ?t ?r ?k ?x] =>
    pose proof (safe_sendCommandAndAwaitResponse d t r k x) as R;
    destruct (sendCommandAndAwaitResponse d t r k x) as [p s2] end.
  cbn in *. eapply safe_trans; [|exact R]. apply safe_same; reflexivity.
Qed.

Lemma safe_logout_then : forall k rnd s, safe s (snd (logout_then k rnd s)).
Proof.
  intros k rnd s. unfold logout_then.
  match goal with |- context [sendCommandAndAwaitResponse ?d ?t ?r ?k ?x] =>
    pose proof (safe_sendCommandAndAwaitResponse d t r k x) as R;
    destruct (sendCommandAndAwaitResponse d t r k x) as [p s2] end.
  cbn in *. eapply safe_trans; [exact R|]. apply safe_same; reflexivity.
Qed.

Lemma safe_invoke : forall m rnd s, safe s (snd (invoke m rnd s)).
Proof.
  intros m rnd s.
  destruct m; cbn [invoke];
    try match goal with |- context [Bool.eqb ?a ?b] =>
      destruct (Bool.eqb a b); [|apply safe_refl] end;
    try (apply safe_returning; intros;
         first [apply safe_sendThrottled | apply safe_ping
               | apply safe_subscribeToStream]).
  - apply safe_sendCommandAndAwaitResponse.
  - destruct (_streaming s).
    + unfold new_returned. cbv beta iota zeta. cbn [snd].
      apply safe_same. unfold BaseClient_close. cbn.
      destruct (_pingInterval s); reflexivity.
    + unfold XTBClient_close, new_returned. cbv beta iota zeta.
      match goal with |- context [logout_then ?k ?r ?x] =>
        pose proof (safe_logout_then k r x) as R;
        destruct (logout_then k r x) as [p s2] end.
      cbn in *. eapply safe_trans; [|exact R]. apply safe_same; reflexivity.
  - unfold login, new_returned. cbv beta iota zeta.
    match goal with |- context [sendCommandAndAwaitResponse ?d ?t ?r ?k ?x] =>
      pose proof (safe_sendCommandAndAwaitResponse d t r k x) as R;
      destruct (sendCommandAndAwaitResponse d t r k x) as [p s2] end.
    cbn in *. eapply safe_trans; [|exact R]. apply safe_same; reflexivity.
  - apply safe_logout_then.
  - apply safe_guarded_command.
  - apply safe_guarded_command.
  - apply safe_guarded_command.
  - apply safe_guarded_command.
Qed.

Lemma safe_step : forall e s, safe s (step s e).
Proof.
  intros [ |d|n err| |e| |m rnd] s; cbn [step].
  - unfold on_open.
    match goal with |- safe s (if _ ?x then _ else _) =>
      assert (R : safe s x) end.
    { eapply safe_trans; [|apply safe_ping]. apply safe_same; reflexivity. }
    destruct (_streaming _); [|exact R].
    eapply safe_trans; [exact R | apply safe_subscribeToStream].
  - apply safe_deliver.
  - unfold on_sent. destruct (find _ _) as [[n' w]|]; [|apply safe_refl].
    eapply safe_trans; [|apply safe_same, books_complete].
    intros (A & G & C). split; [exact A|]. split; [exact G|].
    unfold posted in *. cbn. intros k w' H. apply filter_In in H.
    apply (C k w'). tauto.
  - apply safe_same; reflexivity.
  - apply safe_same; reflexivity.
  - apply safe_tick.
  - apply safe_invoke.
Qed.

Lemma safe_run : forall es s, safe s (run s es).
Proof.
  induction es as [|e es IH]; intros s; [apply safe_refl|].
  unfold run in *. cbn [fold_left].
  eapply safe_trans; [apply safe_step | apply IH].
Qed.

Lemma reachable_sound : forall kind mode cfg t0 es,
  sound (run (construct kind mode cfg t0) es).
Proof.
  intros kind mode cfg t0 es. apply safe_run.
  destruct kind; (split; [reflexivity|]); (split; [reflexivity|]);
    intros n w [].
Qed.

Lemma in_listened : forall fs p,
  In p (listened fs) <-> exists t, In (OnData t p) fs.
Proof.
  induction fs as [|f fs IH]; intros p; simpl.
  - split; [intros [] | intros [t []]].
  - rewrite in_app_iff, IH. split.
    + intros [H|[t H]].
      * destruct f as [t q|]; simpl in H; [|contradiction].
        destruct H as [<-|[]]. exists t. left. reflexivity.
      * exists t. right. exact H.
    + intros [t [H|H]].
      * subst f. left. left. reflexivity.
      * right. exists t. exact H.
Qed.

Lemma in_pending_from : forall ps n p,
  In p (pending_from n ps)
  <-> (n <= p)%nat /\ exists k, nth_error ps (p - n) = Some (Pending, k).
Proof.
  induction ps as [|[st k0] ps IH]; intros n p.
  - simpl. split; [intros [] | intros [_ [k H]]].
    destruct (p - n)%nat; discriminate H.
  - assert (R : In p (pending_from (S n) ps)
                <-> (n < p)%nat
                    /\ exists k, nth_error ((st, k0) :: ps) (p - n) = Some (Pending, k)).
    { rewrite IH. split.
      - intros [H [k Hk]]. split; [lia|]. exists k.
        replace (p - n)%nat with (S (p - S n)) by lia. exact Hk.
      - intros [H [k Hk]]. split; [lia|]. exists k.
        replace (p - n)%nat with (S (p - S n)) in Hk by lia. exact Hk. }
    destruct st; cbn [pending_from].
    + simpl In. rewrite R. split.
      * intros [<-|[H Hk]]; [|split; [lia | exact Hk]].
        split; [lia|]. exists k0. rewrite Nat.sub_diag. reflexivity.
      * intros [H Hk]. destruct (Nat.eq_dec n p) as [->|Hne]; [left; reflexivity|].
        right. split; [lia | exact Hk].
    + rewrite R. split; [intros [H Hk]; split; [lia | exact Hk]|].
      intros [H [k Hk]]. destruct (Nat.eq_dec n p) as [->|Hne].
      * rewrite Nat.sub_diag in Hk. discriminate Hk.
      * split; [lia | exists k; exact Hk].
    + rewrite R. split; [intros [H Hk]; split; [lia | exact Hk]|].
      intros [H [k Hk]]. destruct (Nat.eq_dec n p) as [->|Hne].
      * rewrite Nat.sub_diag in Hk. discriminate Hk.
      * split; [lia | exists k; exact Hk].
Qed.

Lemma NoDup_pending_from : forall ps n, NoDup (pending_from n ps).
Proof.
  induction ps as [|[st k] ps IH]; intros n; simpl; [constructor|].
  destruct st; try apply IH.
  constructor; [|apply IH]. intros H. apply pending_from_ge in H. lia.
Qed.

(** ** How the promise of a call changes

    One macrotask leaves an entry of the promise table as it is, rejects
    it from its timeout timer, or resolves it with a frame that bears the
    tag of one of its listeners. *)

Lemma appends_refl : forall s, appends s s.
Proof. intros s. exists []. rewrite app_nil_r. reflexivity. Qed.

Lemma appends_trans : forall s1 s2 s3,
  appends s1 s2 -> appends s2 s3 -> appends s1 s3.
Proof.
  intros s1 s2 s3 [a Ha] [b Hb]. exists (a ++ b).
  rewrite Hb, Ha, app_assoc. reflexivity.
Qed.

Lemma appends_same : forall s s', promises s' = promises s -> appends s s'.
Proof. intros s s' H. exists []. rewrite app_nil_r. exact H. Qed.

Lemma appends_core : forall s s', core s' = core s -> appends s s'.
Proof.
  intros s s' H. apply appends_same.
  destruct (core_eq _ _ H) as (_ & _ & P & _). exact P.
Qed.

Lemma appends_sendCommandAndAwaitResponse : forall data timeout rnd k s,
  appends s (snd (sendCommandAndAwaitResponse data timeout rnd k s)).
Proof.
  intros data timeout rnd k s.
  pose proof (sendCommandAndAwaitResponse_effect data timeout rnd k s) as E.
  cbv zeta in E. destruct E as (_ & E & _). eexists. exact E.
Qed.

Lemma appends_returning : forall f s,
  (forall w x, core (f w x) = core x) -> appends s (snd (returning f s)).
Proof.
  intros f s H. unfold returning, new_returned. cbv beta iota zeta. cbn [snd].
  apply appends_core. rewrite H. reflexivity.
Qed.

Lemma appends_guarded_command : forall data rnd s,
  appends s (snd (guarded_command data rnd s)).
Proof.
  intros data rnd s. unfold guarded_command, new_returned. cbv beta iota zeta.
  destruct (negb _); [apply appends_same; reflexivity|].
  match goal with |- context [sendCommandAndAwaitResponse ?d ?t ?r ?k ?x] =>
    pose proof (appends_sendCommandAndAwaitResponse d t r k x) as R;
    destruct (sendCommandAndAwaitResponse d t r k x) as [p s2] end.
  cbn in *. eapply appends_trans; [|exact R]. apply appends_same; reflexivity.
Qed.

Lemma appends_logout_then : forall k rnd s, appends s (snd (logout_then k rnd s)).
Proof.
  intros k rnd s. unfold logout_then.
  match goal with |- context [sendCommandAndAwaitResponse ?d ?t ?r ?k ?x] =>
    pose proof (appends_sendCommandAndAwaitResponse d t r k x) as R;
    destruct (sendCommandAndAwaitResponse d t r k x) as [p s2] end.
  cbn in *. eapply appends_trans; [exact R|]. apply appends_same; reflexivity.
Qed.

Lemma appends_login : forall u pw app rnd s,
  appends s (snd (login u pw app rnd s)).
Proof.
  intros. unfold login, new_returned. cbv beta iota zeta.
  match goal with |- context [sendCommandAndAwaitResponse ?d ?t ?r ?k ?x] =>
    pose proof (appends_sendCommandAndAwaitResponse d t r k x) as R;
    destruct (sendCommandAndAwaitResponse d t r k x) as [p s2] end.
  cbn in *. eapply appends_trans; [|exact R]. apply appends_same; reflexivity.
Qed.

Lemma appends_XTBClient_close : forall rnd s,
  appends s (snd (XTBClient_close rnd s)).
Proof.
  intros. unfold XTBClient_close, new_returned. cbv beta iota zeta.
  match goal with |- context [logout_then ?k ?r ?x] =>
    pose proof (appends_logout_then k r x) as R;
    destruct (logout_then k r x) as [p s2] end.
  cbn in *. eapply appends_trans; [|exact R]. apply appends_same; reflexivity.
Qed.

Lemma appends_invoke : forall m rnd s, appends s (snd (invoke m rnd s)).
Proof.
  intros m rnd s.
  destruct m; cbn [invoke];
    try match goal with |- context [Bool.eqb ?a ?b] =>
      destruct (Bool.eqb a b); [|apply appends_refl] end;
    try (apply appends_returning; intros;
         first [apply core_sendCommand | apply core_ping
               | apply core_subscribeToStream | apply core_unsubscribeFromStream]).
  - apply appends_sendCommandAndAwaitResponse.
  - destruct (_streaming s); [|apply appends_XTBClient_close].
    unfold new_returned. cbv beta iota zeta. cbn [snd].
    apply appends_same; unfold BaseClient_close; cbn;
      destruct (_pingInterval s); reflexivity.
  - apply appends_login.
  - apply appends_logout_then.
  - apply appends_guarded_command.
  - apply appends_guarded_command.
  - apply appends_guarded_command.
  - apply appends_guarded_command.
Qed.

(** Apart from the clock and the frames, a macrotask only adds promises. *)
Lemma appends_step : forall e s,
  e <> Tick -> (forall d, e <> WsMessage d) -> appends s (step s e).
Proof.
  intros [ |d|n err| |e| |m rnd] s Ht Hm; cbn [step].
  - unfold on_open.
    match goal with |- appends s (if _ ?x then _ else _) =>
      assert (R : appends s x) end.
    { eapply appends_trans; [|apply appends_core, core_ping].
      apply appends_same; reflexivity. }
    destruct (_streaming _); [|exact R].
    eapply appends_trans; [exact R|]. apply appends_core, core_subscribeToStream.
  - exfalso. apply (Hm d). reflexivity.
  - unfold on_sent. destruct (find _ _) as [[n' w]|]; [|apply appends_refl].
    apply appends_core. rewrite core_complete. reflexivity.
  - apply appends_same; reflexivity.
  - apply appends_same; reflexivity.
  - contradiction.
  - apply appends_invoke.
Qed.

(** A frame that is not an object settles nothing. *)
Lemma deliver_other : forall fs d s,
  (forall o, d <> Text (JObj o)) ->
  promises (deliver fs d s) = promises s.
Proof.
  induction fs as [|f fs IH]; intros d s H; [reflexivity|].
  destruct d as [doc|raw].
  - destruct doc as [| |b|n|str|items|o];
      try (exfalso; apply (H o); reflexivity);
      destruct f as [t p|]; cbn; try reflexivity;
      rewrite IH by exact H; reflexivity.
  - destruct f as [t p|]; reflexivity.
Qed.

Lemma entry_settle_at : forall ps p q o st k,
  nth_error ps p = Some (st, k) ->
  nth_error (settle_at q o ps) p = Some (st, k)
  \/ (st = Pending /\ q = p /\ nth_error (settle_at q o ps) p = Some (o, k)).
Proof.
  intros ps p q o st k H. destruct (Nat.eq_dec q p) as [->|Hne].
  - destruct st as [|v|e].
    + right. repeat split. apply settle_at_pending. exact H.
    + left. rewrite (settle_at_settled ps p o _ k H); [exact H | discriminate].
    + left. rewrite (settle_at_settled ps p o _ k H); [exact H | discriminate].
  - left. rewrite settle_at_other by exact Hne. exact H.
Qed.

Lemma entry_fold_resolve : forall o fs ps p st k,
  nth_error ps p = Some (st, k) ->
  nth_error (fold_left (resolve_one o) fs ps) p = Some (st, k)
  \/ (st = Pending
      /\ (exists t, In (OnData t p) fs /\ bears o t)
      /\ nth_error (fold_left (resolve_one o) fs ps) p
         = Some (Fulfilled (JObj o), k)).
Proof.
  intros o fs. induction fs as [|f fs IH]; intros ps p st k H; [left; exact H|].
  cbn [fold_left].
  assert (Hf : nth_error (resolve_one o ps f) p = Some (st, k)
               \/ (st = Pending
                   /\ (exists t, f = OnData t p /\ bears o t)
                   /\ nth_error (resolve_one o ps f) p
                      = Some (Fulfilled (JObj o), k))).
  { destruct f as [t q|]; [|left; exact H]. cbn [resolve_one].
    destruct (strict_eq_str (obj_get o "customTag") t) eqn:E; [|left; exact H].
    apply strict_eq_str_true in E.
    destruct (entry_settle_at ps p q (Fulfilled (JObj o)) st k H)
      as [K|(K1 & K2 & K3)]; [left; exact K|].
    right. subst q. split; [exact K1|]. split; [|exact K3].
    exists t. split; [reflexivity | exact E]. }
  destruct Hf as [Hf|(Hp & (t & -> & Hb) & Hf)].
  - destruct (IH _ p st k Hf) as [K|(K1 & (t & K2 & K3) & K4)]; [left; exact K|].
    right. split; [exact K1|]. split; [|exact K4].
    exists t. split; [right; exact K2 | exact K3].
  - right. split; [exact Hp|]. split.
    + exists t. split; [left; reflexivity | exact Hb].
    + destruct (IH _ p _ k Hf) as [K|(K1 & _)]; [exact K | discriminate].
Qed.

Lemma entry_fire : forall h s p st k,
  nth_error (promises s) p = Some (st, k) ->
  nth_error (promises (fire h s)) p = Some (st, k)
  \/ (st = Pending /\ nth_error (promises (fire h s)) p = Some (timed_out, k)).
Proof.
  intros h s p st k H. unfold fire.
  destruct (find_timer h s) as [y|]; [|left; exact H].
  rewrite promises_run_callback.
  assert (E : promises (match period y with
                        | Some d => with_loop (rearm h d) s
                        | None => remove_timer h s
                        end) = promises s) by (destruct (period y); reflexivity).
  rewrite E. destruct (action y) as [q| |m w]; try (left; exact H).
  destruct (entry_settle_at _ p q timed_out st k H) as [K|(K1 & _ & K3)];
    [left; exact K | right; split; assumption].
Qed.

Lemma entry_fold_fire : forall ids s p st k,
  nth_error (promises s) p = Some (st, k) ->
  nth_error (promises (fold_left (fun s h => fire h s) ids s)) p = Some (st, k)
  \/ (st = Pending
      /\ nth_error (promises (fold_left (fun s h => fire h s) ids s)) p
         = Some (timed_out, k)).
Proof.
  induction ids as [|h ids IH]; intros s p st k H; [left; exact H|].
  cbn [fold_left].
  destruct (entry_fire h s p st k H) as [K|[K1 K2]].
  - apply IH. exact K.
  - right. split; [exact K1|].
    destruct (IH (fire h s) p _ k K2) as [K|[K _]]; [exact K | discriminate].
Qed.

(** What one macrotask does to an entry of the promise table. *)
Lemma entry_step : forall e s p st k,
  nth_error (promises s) p = Some (st, k) ->
  nth_error (promises (step s e)) p = Some (st, k)
  \/ (st = Pending /\ e = Tick
      /\ nth_error (promises (step s e)) p = Some (timed_out, k))
  \/ (st = Pending
      /\ (exists o t, e = frame o /\ In (OnData t p) (on_message (_ws s))
                      /\ bears o t
                      /\ nth_error (promises (step s e)) p
                         = Some (Fulfilled (JObj o), k))).
Proof.
  intros e s p st k H.
  destruct e as [ |d|n err| |e| |m rnd].
  2:{ destruct d as [doc|raw].
      - destruct doc as [| |b|n|str|items|o].
        7:{ cbn [step]. rewrite deliver_object, promises_fold_react.
            destruct (entry_fold_resolve o (on_message (_ws s)) _ p st k H)
              as [K|(K1 & (t & K2 & K3) & K4)]; [left; exact K|].
            right. right. split; [exact K1|]. exists o, t.
            repeat split; assumption. }
        all: left; cbn [step]; rewrite deliver_other; [exact H|];
          intros o; discriminate.
      - left. cbn [step]. rewrite deliver_other; [exact H|].
        intros o; discriminate. }
  5:{ cbn [step]. unfold tick.
      match goal with |- context [fold_left ?f ?ids ?x] =>
        destruct (entry_fold_fire ids x p st k H) as [K|[K1 K2]] end.
      - left. exact K.
      - right. left. repeat split; assumption. }
  all: left;
    match goal with |- context [step ?x ?e] =>
      destruct (appends_step e x) as [extra E]; try discriminate end;
    rewrite E, nth_error_app1; [exact H|];
    apply nth_error_Some; congruence.
Qed.

(** Along a run: an entry is settled once, by its timeout or by a frame of
    the run that bears the tag of one of its listeners. *)
Lemma entry_run : forall es s p st k,
  nth_error (promises s) p = Some (st, k) ->
  nth_error (promises (run s es)) p = Some (st, k)
  \/ (st = Pending /\ nth_error (promises (run s es)) p = Some (timed_out, k))
  \/ (st = Pending
      /\ exists o t, In (frame o) es /\ In (OnData t p) (on_message (_ws s))
                     /\ bears o t
                     /\ nth_error (promises (run s es)) p
                        = Some (Fulfilled (JObj o), k)).
Proof.
  induction es as [|e es IH]; intros s p st k H; [left; exact H|].
  change (run s (e :: es)) with (run (step s e) es).
  assert (Hp : (p < List.length (promises s))%nat).
  { apply nth_error_Some. congruence. }
  destruct (entry_step e s p st k H)
    as [K|[(K1 & K2 & K3)|(K1 & o & t & K2 & K3 & K4 & K5)]].
  - destruct (IH _ p st k K) as [R|[R|(R1 & o & t & R2 & R3 & R4 & R5)]].
    + left. exact R.
    + right. left. exact R.
    + right. right. split; [exact R1|]. exists o, t.
      split; [right; exact R2|]. split; [|split; assumption].
      destruct (keeps_step e s) as (_ & _ & L & _).
      destruct (L t p R3) as [L1|L1]; [exact L1 | lia].
  - right. left. split; [exact K1|].
    destruct (IH _ p _ k K3) as [R|[[R _]|[R _]]]; [exact R | |]; discriminate.
  - right. right. split; [exact K1|]. exists o, t.
    split; [left; exact K2|]. split; [exact K3|]. split; [exact K4|].
    destruct (IH _ p _ k K5) as [R|[[R _]|[R _]]]; [exact R | |]; discriminate.
Qed.

(** A pending call has its listener. *)
Lemma pending_listened : forall s p,
  accounted s -> promise_state s p = Some Pending ->
  exists t, In (OnData t p) (on_message (_ws s)).
Proof.
  intros s p A H. apply in_listened. rewrite A. apply in_pending_from.
  split; [lia|]. rewrite Nat.sub_0_r. unfold promise_state in H.
  destruct (nth_error (promises s) p) as [[st k]|]; [|discriminate].
  simpl in H. inversion H; subst. exists k. reflexivity.
Qed.

(** The calls of a batch, later: each one that is still pending waits
    under its own tag. *)
Lemma waiting_later : forall cs mid s i c,
  listening s -> accounted (run s (map issue cs ++ mid)) ->
  nth_error cs i = Some c ->
  promise_state (run s (map issue cs ++ mid)) (List.length (promises s) + i)
  = Some Pending ->
  waiting (tag c) (List.length (promises s) + i) (run s (map issue cs ++ mid)).
Proof.
  intros cs mid s i c [_ Hwf] A Hi Hp.
  destruct (issue_all cs s) as [Ip Il].
  assert (U : forall t, In (OnData t (List.length (promises s) + i))
                           (on_message (_ws (run s (map issue cs ++ mid)))) ->
                        t = tag c).
  { intros t Ht. unfold run in Ht. rewrite fold_left_app in Ht.
    fold (run s (map issue cs)) in Ht.
    fold (run (run s (map issue cs)) mid) in Ht.
    destruct (keeps_run mid (run s (map issue cs))) as (_ & _ & L & _).
    destruct (L _ _ Ht) as [L1|L1].
    - rewrite Il in L1. apply in_app_or in L1. destruct L1 as [L1|L1].
      + apply Hwf in L1. lia.
      + apply numbered_in in L1. destruct L1 as (j & c' & Hj & Hc' & ->).
        assert (j = i) by lia. subst j. congruence.
    - rewrite Ip, length_app, length_map in L1.
      assert (i < List.length cs)%nat by (apply nth_error_Some; congruence).
      lia. }
  split; [exact Hp|]. split; [|exact U].
  destruct (pending_listened _ _ A Hp) as [t Ht].
  rewrite <- (U t Ht). exact Ht.
Qed.

Lemma fulfilled_for_good : forall es s p v,
  promise_state s p = Some (Fulfilled v) ->
  promise_state (run s es) p = Some (Fulfilled v).
Proof.
  intros es s p v H. destruct (keeps_run es s) as (K & _).
  apply K; [exact H | discriminate].
Qed.

(** ** One timeout per call *)

Lemma total_app : forall (A : Type) (f : A -> nat) l l',
  total f (l ++ l') = (total f l + total f l')%nat.
Proof.
  intros A f l l'. induction l as [|x l IH]; simpl; [reflexivity|].
  rewrite IH. lia.
Qed.

Lemma total_filter : forall (A : Type) (f : A -> nat) g l,
  (total f (filter g l) <= total f l)%nat.
Proof.
  intros A f g l. induction l as [|x l IH]; simpl; [lia|].
  destruct (g x); simpl; lia.
Qed.

Lemma total_remove : forall (A : Type) (f : A -> nat) g l x,
  In x l -> g x = false -> (total f (filter g l) + f x <= total f l)%nat.
Proof.
  intros A f g l x. induction l as [|y l IH]; intros Hin Hg; [destruct Hin|].
  simpl. destruct Hin as [->|Hin].
  - rewrite Hg. pose proof (total_filter A f g l). lia.
  - specialize (IH Hin Hg). destruct (g y); simpl; lia.
Qed.

Lemma total_map : forall (A : Type) (f : A -> nat) m l,
  (forall x, f (m x) = f x) -> total f (map m l) = total f l.
Proof.
  intros A f m l H. induction l as [|x l IH]; simpl; [reflexivity|].
  rewrite H, IH. reflexivity.
Qed.

Lemma total_two : forall (A : Type) (f : A -> nat) l x y,
  In x l -> In y l -> x <> y -> (f x + f y <= total f l)%nat.
Proof.
  intros A f l x y. induction l as [|z l IH]; intros Hx Hy Hne; [destruct Hx|].
  simpl. destruct Hx as [->|Hx]; destruct Hy as [->|Hy].
  - contradiction.
  - clear IH. induction l as [|u l IH]; [destruct Hy|].
    simpl. destruct Hy as [->|Hy]; [lia|]. specialize (IH Hy). lia.
  - clear IH. induction l as [|u l IH]; [destruct Hx|].
    simpl. destruct Hx as [->|Hx]; [lia|]. specialize (IH Hx). lia.
  - specialize (IH Hx Hy Hne). lia.
Qed.

Lemma debts_refl : forall s, debts s s.
Proof. intros s p. lia. Qed.

Lemma debts_trans : forall s1 s2 s3, debts s1 s2 -> debts s2 s3 -> debts s1 s3.
Proof. intros s1 s2 s3 H12 H23 p. specialize (H12 p). specialize (H23 p). lia. Qed.

Lemma debts_same : forall s s',
  timers (loop s') = timers (loop s) -> callbacks (_ws s') = callbacks (_ws s) ->
  debts s s'.
Proof. intros s s' H1 H2 p. unfold owed. rewrite H1, H2. lia. Qed.

Lemma debts_punctual : forall s s',
  debts s s' -> (List.length (promises s) <= List.length (promises s'))%nat ->
  punctual s -> punctual s'.
Proof.
  intros s s' D L P p. destruct (P p) as [P1 P2]. specialize (D p). split; [lia|].
  intros H. assert (owed s p = 0%nat) by (apply P2; lia). lia.
Qed.

Lemma lends_debts : forall w s s',
  (forall p timeout, w <> AwaitCall p timeout) -> lends w s s' -> debts s s'.
Proof.
  intros w s s' Hw L p. specialize (L p).
  destruct w as [ | |q t| | ]; simpl in L; try lia.
  exfalso. apply (Hw q t). reflexivity.
Qed.

Lemma lends_same : forall w s s',
  timers (loop s') = timers (loop s) -> callbacks (_ws s') = callbacks (_ws s) ->
  lends w s s'.
Proof. intros w s s' H1 H2 p. unfold owed. rewrite H1, H2. lia. Qed.

Lemma lends_trans : forall w s1 s2 s3,
  debts s1 s2 -> lends w s2 s3 -> lends w s1 s3.
Proof. intros w s1 s2 s3 D L p. specialize (D p). specialize (L p). lia. Qed.

Lemma lends_complete : forall w err s, lends w s (complete w err s).
Proof.
  intros w err s p. destruct w as [ | |q t|q| ]; destruct err as [e|];
    unfold owed; cbn; try rewrite total_app; cbn; lia.
Qed.

Lemma lends_sendMessage : forall d w s, lends w s (sendMessage d w s).
Proof.
  intros d w s. unfold sendMessage. cbn [with_throttle _ws readyState].
  destruct (readyState (_ws s)) eqn:E.
  2:{ intros p. unfold owed. cbn. rewrite total_app. cbn. lia. }
  all: eapply lends_trans; [|apply lends_complete];
    apply debts_same; reflexivity.
Qed.

Lemma lends_sendThrottled : forall m w s, lends w s (sendThrottled m w s).
Proof.
  intros m w s. unfold sendThrottled, windowedDelay.
  destruct (window _ _ _) as [delay t].
  destruct (0 <? delay).
  - intros p. unfold owed. cbn. rewrite total_app. cbn. lia.
  - eapply lends_trans; [|apply lends_sendMessage].
    apply debts_same; reflexivity.
Qed.

Lemma lends_sendCommand : forall data w s, lends w s (sendCommand data w s).
Proof. intros. apply lends_sendThrottled. Qed.

Lemma lends_ping : forall w s, lends w s (ping w s).
Proof.
  intros w s. unfold ping. destruct (readyState (_ws s)).
  - apply lends_complete.
  - eapply lends_trans; [|apply lends_sendCommand]. apply debts_same; reflexivity.
  - apply lends_sendCommand.
  - apply lends_sendCommand.
Qed.

Lemma lends_subscribeToStream : forall c a w s,
  lends w s (subscribeToStream c a w s).
Proof.
  intros c a w s. unfold subscribeToStream.
  destruct (negb _); [apply lends_complete | apply lends_sendCommand].
Qed.

Lemma lends_unsubscribeFromStream : forall c a w s,
  lends w s (unsubscribeFromStream c a w s).
Proof. intros. apply lends_sendCommand. Qed.

Lemma debts_close : forall s, debts s (BaseClient_close s).
Proof.
  intros s p. unfold BaseClient_close, owed.
  destruct (_pingInterval s) as [h|]; cbn; [|lia].
  pose proof (total_filter _ (fun x => callback_claims (action x) p)
                (fun t => negb (Nat.eqb (tid t) h)) (timers (loop s))).
  lia.
Qed.

Lemma debts_run_cont : forall k o s, debts s (run_cont k o s).
Proof.
  intros k o s. destruct k as [|q|q|q]; destruct o as [|v|e]; cbn;
    try apply debts_refl; try (apply debts_same; reflexivity).
  - destruct (prop v "status") as [e|status]; [apply debts_same; reflexivity|].
    destruct (truthy status); [destruct (prop v "streamSessionId")|];
      apply debts_same; reflexivity.
  - destruct (prop v "status") as [e|status]; [apply debts_same; reflexivity|].
    destruct (prop v _) as [e|y]; [apply debts_same; reflexivity|].
    destruct (truthy status); apply debts_same; reflexivity.
  - eapply debts_trans; [apply debts_close|]. apply debts_same; reflexivity.
Qed.

Lemma debts_settle : forall p o s, debts s (settle p o s).
Proof.
  intros p o s. unfold settle.
  destruct (nth_error (promises s) p) as [[[| |] k]|]; try apply debts_refl.
  eapply debts_trans; [|apply debts_run_cont]. apply debts_same; reflexivity.
Qed.

Lemma debts_call_listener : forall f d s, debts s (snd (call_listener f d s)).
Proof.
  intros [t p|] d s; cbn [call_listener].
  - unfold onData. destruct (JSON_parse d) as [e|r]; [apply debts_refl|].
    destruct (prop r "customTag") as [e|tag]; [apply debts_refl|].
    destruct (strict_eq_str tag t); [|apply debts_refl]. cbn [snd].
    eapply debts_trans; [|apply debts_settle]. apply debts_same; reflexivity.
  - unfold processMessage. destruct (JSON_parse d) as [e|m]; [apply debts_refl|].
    destruct (prop m "command") as [e|c]; [apply debts_refl|].
    destruct (channel c).
    + destruct (prop m "data"); [apply debts_refl|].
      apply debts_same; reflexivity.
    + apply debts_same; reflexivity.
Qed.

Lemma debts_deliver : forall fs d s, debts s (deliver fs d s).
Proof.
  induction fs as [|f fs IH]; intros d s; [apply debts_refl|].
  cbn [deliver]. pose proof (debts_call_listener f d s) as R.
  destruct (call_listener f d s) as [[e|] s1]; cbn [snd] in R.
  - eapply debts_trans; [exact R|]. apply debts_same; reflexivity.
  - eapply debts_trans; [exact R | apply IH].
Qed.

Lemma lends_run_callback : forall cb s p,
  (owed (run_callback cb s) p <= owed s p + match cb with
                                            | CbThrottle _ w => claims w p
                                            | _ => 0
                                            end)%nat.
Proof.
  intros [q| |m w] s p; cbn [run_callback].
  - pose proof (debts_settle q (Rejected (Error (JStr "Timeout"))) (ws_off q s) p) as R.
    change (owed (ws_off q s) p) with (owed s p) in R. lia.
  - pose proof (lends_ping AwaitIntervalPing s p) as R. simpl in R. lia.
  - apply lends_sendMessage.
Qed.

Lemma debts_fire : forall h ids s, tidy_at (h :: ids) s -> debts s (fire h s).
Proof.
  intros h ids s T p. unfold fire.
  destruct (find_timer h s) as [y|] eqn:E; [|lia].
  apply find_timer_in in E. destruct E as [Hy Hh].
  pose proof (lends_run_callback (action y)
                (match period y with
                 | Some d => with_loop (rearm h d) s
                 | None => remove_timer h s
                 end) p) as R.
  destruct (period y) as [d|] eqn:Ep.
  - destruct (t_shape _ _ _ T y Hy d Ep) as [_ Ha]. rewrite Ha in *.
    assert (O : owed (with_loop (rearm h d) s) p = owed s p).
    { unfold owed. cbn. rewrite total_map; [reflexivity|].
      intros x. destruct (Nat.eqb (tid x) h); reflexivity. }
    lia.
  - assert (O : (owed (remove_timer h s) p + callback_claims (action y) p
                 <= owed s p)%nat).
    { unfold owed. cbn.
      pose proof (total_remove _ (fun x => callback_claims (action x) p)
                    (fun t => negb (Nat.eqb (tid t) h)) (timers (loop s)) y Hy) as Q.
      cbn beta in Q. rewrite Hh, Nat.eqb_refl in Q. specialize (Q eq_refl). lia. }
    destruct (action y) as [q| |m w]; simpl in *; lia.
Qed.

Lemma debts_fold_fire : forall ids rest s,
  tidy_at (ids ++ rest) s -> debts s (fold_left (fun s h => fire h s) ids s).
Proof.
  induction ids as [|h ids IH]; intros rest s T; [apply debts_refl|].
  cbn [fold_left]. eapply debts_trans; [eapply debts_fire; exact T|].
  apply (IH rest). apply fire_tidy. exact T.
Qed.

Lemma debts_tick : forall s, tidy_at [] s -> debts s (tick s).
Proof.
  intros s T. unfold tick.
  eapply debts_trans; [|apply (debts_fold_fire _ []); rewrite app_nil_r;
                         apply advance_tidy; exact T].
  apply debts_same; reflexivity.
Qed.

Lemma debts_on_open : forall s, debts s (on_open s).
Proof.
  intros s. unfold on_open.
  match goal with |- debts s (if _ ?x then _ else _) =>
    assert (R : debts s x) end.
  { eapply debts_trans; [|eapply lends_debts; [|apply lends_ping]].
    - apply debts_same; reflexivity.
    - discriminate. }
  destruct (_streaming _); [|exact R].
  eapply debts_trans; [exact R|].
  eapply lends_debts; [|apply lends_subscribeToStream]. discriminate.
Qed.

Lemma debts_on_sent : forall n err s, debts s (on_sent n err s).
Proof.
  intros n err s p. unfold on_sent.
  destruct (find _ _) as [[n' w]|] eqn:E; [|lia].
  apply find_some in E. destruct E as [Hin Hn]. cbn [fst] in Hn.
  match goal with |- context [complete w err ?x] =>
    pose proof (lends_complete w err x p) as R;
    assert (O : (owed x p + claims w p <= owed s p)%nat) end.
  { unfold owed. cbn.
    pose proof (total_remove _ (fun c => claims (snd c) p)
                  (fun c => negb (Nat.eqb (fst c) n)) (callbacks (_ws s))
                  (n', w) Hin) as Q.
    cbn [fst snd] in Q. rewrite Hn in Q. specialize (Q eq_refl). lia. }
  lia.
Qed.

Lemma punctual_sendCommandAndAwaitResponse : forall data timeout rnd k s,
  punctual s -> punctual (snd (sendCommandAndAwaitResponse data timeout rnd k s)).
Proof.
  intros data timeout rnd k s P.
  pose proof (sendCommandAndAwaitResponse_effect data timeout rnd k s) as E.
  cbv zeta in E. destruct E as (_ & E & _).
  unfold sendCommandAndAwaitResponse, new_promise in *. cbv beta iota zeta in *.
  cbn [snd fst] in *.
  match goal with |- punctual (sendThrottled ?m ?w ?x) =>
    pose proof (lends_sendThrottled m w x) as L end.
  intros p. specialize (L p). destruct (P p) as [P1 P2].
  unfold punctual. rewrite E, length_app. cbn [List.length].
  match type of L with (_ <= owed ?x p + _)%nat =>
    change (owed x p) with (owed s p) in L end.
  cbn [claims] in L.
  destruct (Nat.eqb (List.length (promises s)) p) eqn:Ep.
  - apply Nat.eqb_eq in Ep. split; [|lia].
    assert (owed s p = 0%nat) by (apply P2; lia). lia.
  - apply Nat.eqb_neq in Ep. split; [lia|].
    intros H. assert (owed s p = 0%nat) by (apply P2; lia). lia.
Qed.

Lemma punctual_same : forall s s',
  timers (loop s') = timers (loop s) -> callbacks (_ws s') = callbacks (_ws s) ->
  promises s' = promises s -> punctual s -> punctual s'.
Proof.
  intros s s' H1 H2 H3 P p. unfold owed. rewrite H1, H2, H3. apply P.
Qed.

Lemma punctual_returning : forall f s,
  (forall w x, lends w x (f w x)) -> (forall w x, core (f w x) = core x) ->
  punctual s -> punctual (snd (returning f s)).
Proof.
  intros f s L C P. unfold returning, new_returned. cbv beta iota zeta. cbn [snd].
  match goal with |- punctual (f ?w ?x) =>
    apply (debts_punctual x); [eapply lends_debts; [|apply L]; discriminate | |] end.
  - destruct (core_eq _ _ (C (AwaitCaller (List.length (returned s)))
                             (with_returned (fun rs => rs ++ [Pending]) s)))
      as (_ & _ & Pr & _).
    rewrite Pr. lia.
  - eapply punctual_same; [| | |exact P]; reflexivity.
Qed.

Lemma punctual_guarded_command : forall data rnd s,
  punctual s -> punctual (snd (guarded_command data rnd s)).
Proof.
  intros data rnd s P. unfold guarded_command, new_returned. cbv beta iota zeta.
  destruct (negb _); [eapply punctual_same; [| | |exact P]; reflexivity|].
  match goal with |- context [sendCommandAndAwaitResponse ?d ?t ?r ?k ?x] =>
    pose proof (punctual_sendCommandAndAwaitResponse d t r k x) as R;
    destruct (sendCommandAndAwaitResponse d t r k x) as [p s2] end.
  cbn in *. apply R. eapply punctual_same; [| | |exact P]; reflexivity.
Qed.

Lemma punctual_logout_then : forall k rnd s,
  punctual s -> punctual (snd (logout_then k rnd s)).
Proof.
  intros k rnd s P. unfold logout_then.
  match goal with |- context [sendCommandAndAwaitResponse ?d ?t ?r ?k ?x] =>
    pose proof (punctual_sendCommandAndAwaitResponse d t r k x P) as R;
    destruct (sendCommandAndAwaitResponse d t r k x) as [p s2] end.
  cbn in *. eapply punctual_same; [| | |exact R]; reflexivity.
Qed.

Lemma punctual_login : forall u pw app rnd s,
  punctual s -> punctual (snd (login u pw app rnd s)).
Proof.
  intros u pw app rnd s P. unfold login, new_returned. cbv beta iota zeta.
  match goal with |- context [sendCommandAndAwaitResponse ?d ?t ?r ?k ?x] =>
    pose proof (punctual_sendCommandAndAwaitResponse d t r k x) as R;
    destruct (sendCommandAndAwaitResponse d t r k x) as [p s2] end.
  cbn in *. apply R. eapply punctual_same; [| | |exact P]; reflexivity.
Qed.

Lemma punctual_XTBClient_close : forall rnd s,
  punctual s -> punctual (snd (XTBClient_close rnd s)).
Proof.
  intros rnd s P. unfold XTBClient_close, new_returned. cbv beta iota zeta.
  match goal with |- context [logout_then ?k ?r ?x] =>
    pose proof (punctual_logout_then k r x) as R;
    destruct (logout_then k r x) as [p s2] end.
  cbn in *. apply R. eapply punctual_same; [| | |exact P]; reflexivity.
Qed.

Lemma punctual_invoke : forall m rnd s,
  punctual s -> punctual (snd (invoke m rnd s)).
Proof.
  intros m rnd s P.
  destruct m; cbn [invoke];
    try match goal with |- context [Bool.eqb ?a ?b] =>
      destruct (Bool.eqb a b); [|exact P] end;
    try (apply punctual_returning; [| |exact P]; intros;
         first [apply lends_sendCommand | apply lends_ping
               | apply lends_subscribeToStream | apply lends_unsubscribeFromStream
               | apply core_sendCommand | apply core_ping
               | apply core_subscribeToStream | apply core_unsubscribeFromStream]).
  - apply punctual_sendCommandAndAwaitResponse. exact P.
  - destruct (_streaming s); [|apply punctual_XTBClient_close; exact P].
    unfold new_returned. cbv beta iota zeta. cbn [snd].
    match goal with |- punctual (settle_returned _ _ (BaseClient_close ?x)) =>
      apply (debts_punctual x) end.
    + eapply debts_trans; [apply debts_close|]. apply debts_same; reflexivity.
    + unfold BaseClient_close; cbn; destruct (_pingInterval s); cbn; lia.
    + eapply punctual_same; [| | |exact P]; reflexivity.
  - apply punctual_login. exact P.
  - apply punctual_logout_then. exact P.
  - apply punctual_guarded_command. exact P.
  - apply punctual_guarded_command. exact P.
  - apply punctual_guarded_command. exact P.
  - apply punctual_guarded_command. exact P.
Qed.

Lemma punctual_step : forall e s,
  tidy_at [] s -> punctual s -> punctual (step s e).
Proof.
  intros e s T P.
  assert (L : (List.length (promises s) <= List.length (promises (step s e)))%nat).
  { destruct (keeps_step e s) as (_ & L & _). exact L. }
  destruct e as [ |d|n err| |e| |m rnd].
  7:{ apply punctual_invoke. exact P. }
  all: apply (debts_punctual s); [|exact L|exact P]; cbn [step].
  - eapply debts_trans; [|apply debts_on_open]. apply debts_same; reflexivity.
  - apply debts_deliver.
  - apply debts_on_sent.
  - apply debts_same; reflexivity.
  - apply debts_same; reflexivity.
  - apply debts_tick. exact T.
Qed.

Lemma punctual_run : forall es s,
  tidy_at [] s -> punctual s -> punctual (run s es).
Proof.
  induction es as [|e es IH]; intros s T P; [exact P|].
  change (run s (e :: es)) with (run (step s e) es).
  apply IH; [apply step_sound; exact T | apply punctual_step; assumption].
Qed.

(** In every state a session reaches, at most one timer or pending
    completion stands for the timeout of a call. *)
Lemma reachable_punctual : forall kind mode cfg t0 es,
  punctual (run (construct kind mode cfg t0) es).
Proof.
  intros kind mode cfg t0 es. apply punctual_run; [apply construct_tidy|].
  intros p. destruct kind; split; intros; reflexivity || (cbn; lia).
Qed.

(** The timeout timer of a call is the only one. *)
Lemma timeout_unique : forall ids s p x y,
  tidy_at ids s -> punctual s ->
  In x (timers (loop s)) -> In y (timers (loop s)) ->
  action x = CbTimeout p -> action y = CbTimeout p -> x = y.
Proof.
  intros ids s p x y T P Hx Hy Ax Ay.
  destruct (Nat.eq_dec (tid x) (tid y)) as [E|E].
  - apply (NoDup_tid_eq (timers (loop s))); auto. apply (t_nodup _ _ _ T).
  - exfalso. assert (Hne : x <> y) by congruence.
    pose proof (total_two _ (fun x => callback_claims (action x) p)
                  (timers (loop s)) x y Hx Hy Hne) as Q.
    cbn beta in Q. rewrite Ax, Ay in Q. cbn in Q. rewrite Nat.eqb_refl in Q.
    destruct (P p) as [P1 _]. unfold owed in P1. lia.
Qed.

(** ** The timeout of a call, whatever else happens *)

Lemma act_now : forall i g g',
  act i g g' -> now (snd (fst g')) = now (snd (fst g)).
Proof.
  intros i g g' A. induction A as [g|g1 g2 g3 _ IH1 _ IH2|m w [[t l] h]
                                   |[[t l] h]|p after t l h|after t l h];
    try reflexivity.
  - congruence.
  - cbn. destruct (window i (now l) t) as [d t1]. destruct (0 <? d); reflexivity.
  - cbn. destruct h; reflexivity.
Qed.

(** Only the keepalive interval is ever cleared. *)
Lemma act_timer_stays : forall i ids g g',
  act i g g' -> Tidy ids g ->
  forall x, In x (timers (snd (fst g))) -> action x <> CbPing ->
            In x (timers (snd (fst g'))).
Proof.
  intros i ids g g' A. induction A as [g|g1 g2 g3 A1 IH1 A2 IH2|m w [[t l] h]
                                       |[[t l] h]|p after t l h|after t l h];
    intros T x Hx Ha.
  - exact Hx.
  - apply IH2; [eapply act_tidy; eauto | apply IH1; assumption | exact Ha].
  - cbn in *. destruct (window i (now l) t) as [d t1]. destruct (0 <? d); cbn.
    + apply in_or_app. left. exact Hx.
    + exact Hx.
  - cbn in *. destruct h as [h0|]; [|exact Hx]. cbn.
    apply filter_In. split; [exact Hx|].
    apply negb_true_iff, Nat.eqb_neq. intros E.
    destruct (t_handle _ _ _ T h0 eq_refl) as [_ C].
    apply Ha. apply C; assumption.
  - cbn in *. apply in_or_app. left. exact Hx.
  - cbn in *. apply in_or_app. left. exact Hx.
Qed.

Lemma event_eq_Tick : forall e : event, e = Tick \/ e <> Tick.
Proof. intros []; (left; reflexivity) || (right; discriminate). Qed.

Lemma now_step : forall e s, e <> Tick -> now (loop (step s e)) = now (loop s).
Proof.
  intros e s H. destruct (runs_step e s H) as [_ A].
  apply (act_now _ _ _ A).
Qed.

Lemma timer_stays : forall e s x,
  e <> Tick -> tidy_at [] s -> In x (timers (loop s)) -> action x <> CbPing ->
  In x (timers (loop (step s e))).
Proof.
  intros e s x H T Hx Ha. destruct (runs_step e s H) as [_ A].
  apply (act_timer_stays _ _ _ _ A T x Hx Ha).
Qed.

Lemma now_run_le : forall es s, now (loop s) <= now (loop (run s es)).
Proof.
  induction es as [|e es IH]; intros s; [simpl; lia|].
  change (run s (e :: es)) with (run (step s e) es).
  specialize (IH (step s e)).
  assert (now (loop s) <= now (loop (step s e))).
  { destruct e; try (rewrite now_step by discriminate; lia).
    cbn [step]. rewrite now_tick. lia. }
  lia.
Qed.

Lemma armed_before_due : forall ids s x,
  tidy_at ids s -> In x (timers (loop s)) -> ~ In (tid x) ids ->
  now (loop s) < due x.
Proof.
  intros ids s x T Hx Hn. destruct (t_future _ _ _ T x Hx) as [F1 F2].
  destruct (Z.eq_dec (due x) (now (loop s))) as [E|E]; [|lia].
  apply F2 in E. contradiction.
Qed.

(** From a state in which [x] is the timeout timer of the pending call
    [p], along any run in which no frame bears a tag [p] listens for: [p]
    is pending while the clock is before the due time of [x], and rejected
    with its listener removed from then on. *)
Lemma timeout_decides : forall es s p x (tags : string -> Prop),
  tidy_at [] s -> punctual s ->
  In x (timers (loop s)) -> action x = CbTimeout p ->
  promise_state s p = Some Pending ->
  (forall t, In (OnData t p) (on_message (_ws s)) -> tags t) ->
  (forall o t, In (frame o) es -> tags t -> ~ bears o t) ->
  (now (loop (run s es)) < due x ->
   promise_state (run s es) p = Some Pending /\ In x (timers (loop (run s es))))
  /\ (due x <= now (loop (run s es)) ->
      promise_state (run s es) p = Some timed_out
      /\ forall t, ~ In (OnData t p) (on_message (_ws (run s es)))).
Proof.
  induction es as [|e es IH]; intros s p x tags T P Hx Ha Hp Ht Hf.
  - pose proof (armed_before_due [] s x T Hx ltac:(intros [])) as Hlt.
    cbn [run fold_left]. split; [intros _; split; assumption | lia].
  - change (run s (e :: es)) with (run (step s e) es).
    pose proof (armed_before_due [] s x T Hx ltac:(intros [])) as Hlt.
    assert (Hp' : (p < List.length (promises s))%nat).
    { unfold promise_state in Hp. apply nth_error_Some.
      destruct (nth_error (promises s) p); [discriminate | discriminate]. }
    assert (Ht' : forall t, In (OnData t p) (on_message (_ws (step s e))) -> tags t).
    { intros t H. destruct (keeps_step e s) as (_ & _ & L & _).
      destruct (L t p H) as [L1|L1]; [apply Ht; exact L1 | lia]. }
    assert (Hf' : forall o t, In (frame o) es -> tags t -> ~ bears o t).
    { intros o t H. apply Hf. right. exact H. }
    assert (T' : tidy_at [] (step s e)) by (apply step_sound; exact T).
    assert (P' : punctual (step s e)) by (apply punctual_step; assumption).
    assert (A : armed p x s).
    { split; [split; [exact Hx|] | exact Hp].
      intros y Hy Hay. apply (timeout_unique [] s p y x T P); assumption. }
    destruct (event_eq_Tick e) as [->|Hne].
    + cbn [step]. destruct (Z.eq_dec (now (loop s) + 1) (due x)) as [Hd|Hd].
      * destruct (tick_due p x Ha s T A Hd) as [R L].
        destruct (settled_for_good _ (run (tick s) es) p _ (keeps_run es _) R
                    ltac:(discriminate) L) as [R' L'].
        pose proof (now_run_le es (tick s)) as N. rewrite now_tick in N.
        split; [lia | intros _; split; assumption].
      * destruct (tick_before p x Ha s T A ltac:(lia)) as [[Hx1 _] Hp1].
        apply (IH (tick s) p x tags); assumption.
    + assert (Hx1 : In x (timers (loop (step s e)))).
      { apply timer_stays; auto. rewrite Ha. discriminate. }
      assert (Hp1 : promise_state (step s e) p = Some Pending).
      { unfold promise_state in *.
        destruct (nth_error (promises s) p) as [[st k]|] eqn:En; [|discriminate].
        simpl in Hp. inversion Hp; subst st.
        destruct (entry_step e s p _ _ En)
          as [R|[(_ & R & _)|(_ & o & t & R1 & R2 & R3 & _)]].
        - rewrite R. reflexivity.
        - contradiction.
        - exfalso. apply (Hf o t); [left; exact R1 | apply Ht; exact R2 | exact R3]. }
      apply (IH (step s e) p x tags); assumption.
Qed.

(** ** The reply of a login, whenever it arrives *)

Lemma credentials_run_cont : forall k o y,
  credentials (run_cont k (Fulfilled (JObj o)) y)
  = match k with
    | KLogin _ =>
        if truthy (obj_get o "status")
        then (true, obj_get o "streamSessionId") else credentials y
    | _ => credentials y
    end.
Proof.
  intros [|q|q|q] o y; cbn.
  - reflexivity.
  - destruct (truthy (obj_get o "status")); reflexivity.
  - destruct (truthy (obj_get o "status")); reflexivity.
  - unfold BaseClient_close. destruct (_pingInterval y); reflexivity.
Qed.

Lemma credentials_react : forall o x f,
  credentials (react o x f) = credentials x
  \/ (truthy (obj_get o "status") = true
      /\ credentials (react o x f) = (true, obj_get o "streamSessionId")).
Proof.
  intros o x [t p|].
  - rewrite react_onData. destruct (strict_eq_str _ _); [|left; reflexivity].
    unfold settle. cbn [promises ws_off with_ws].
    destruct (nth_error (promises x) p) as [[[| |] k]|]; try (left; reflexivity).
    rewrite credentials_run_cont. destruct k; try (left; reflexivity).
    destruct (truthy (obj_get o "status")); [right; split; reflexivity|].
    left. reflexivity.
  - rewrite react_processMessage.
    destruct (processMessage_trace (Text (JObj o)) x) as [g ->].
    left. reflexivity.
Qed.

Lemma credentials_fold_set : forall o fs x,
  credentials x = (true, obj_get o "streamSessionId") ->
  credentials (fold_left (react o) fs x) = (true, obj_get o "streamSessionId").
Proof.
  intros o fs. induction fs as [|f fs IH]; intros x H; [exact H|].
  cbn [fold_left]. apply IH.
  destruct (credentials_react o x f) as [E|[_ E]]; congruence.
Qed.

Lemma credentials_fold_keep : forall o fs x,
  truthy (obj_get o "status") = false ->
  credentials (fold_left (react o) fs x) = credentials x.
Proof.
  intros o fs. induction fs as [|f fs IH]; intros x H; [reflexivity|].
  cbn [fold_left]. rewrite IH by exact H.
  destruct (credentials_react o x f) as [E|[E _]]; congruence.
Qed.

(** A frame that bears the tag of a pending [login] and whose [status] is
    truthy logs the client in, whoever else listens. *)
Lemma credentials_fold_login : forall o fs x t p q,
  truthy (obj_get o "status") = true ->
  In (OnData t p) fs -> bears o t ->
  nth_error (promises x) p = Some (Pending, KLogin q) ->
  credentials (fold_left (react o) fs x) = (true, obj_get o "streamSessionId").
Proof.
  intros o fs. induction fs as [|f fs IH]; intros x t p q Hs Hin Hb Hp;
    [destruct Hin|].
  cbn [fold_left]. destruct f as [t' p'|].
  - rewrite react_onData.
    destruct (strict_eq_str (obj_get o "customTag") t') eqn:E.
    + destruct (Nat.eq_dec p' p) as [->|Hne].
      * apply credentials_fold_set. unfold settle. cbn [promises ws_off with_ws].
        rewrite Hp. rewrite credentials_run_cont, Hs. reflexivity.
      * apply (IH _ t p q Hs); [|exact Hb|].
        -- destruct Hin as [Hin|Hin]; [|exact Hin]. congruence.
        -- rewrite promises_settle. cbn [promises ws_off with_ws].
           rewrite settle_at_other by exact Hne. exact Hp.
    + apply (IH _ t p q Hs); [|exact Hb|exact Hp].
      destruct Hin as [Hin|Hin]; [|exact Hin].
      inversion Hin; subst. apply strict_eq_str_true in Hb. congruence.
  - rewrite react_processMessage.
    destruct (processMessage_trace (Text (JObj o)) x) as [g ->].
    apply (IH _ t p q Hs); [|exact Hb|exact Hp].
    destruct Hin as [Hin|Hin]; [discriminate | exact Hin].
Qed.

Lemma safe_login : forall u pw app rnd s, safe s (snd (login u pw app rnd s)).
Proof.
  intros. unfold login, new_returned. cbv beta iota zeta.
  match goal with |- context [sendCommandAndAwaitResponse ?d ?t ?r ?k ?x] =>
    pose proof (safe_sendCommandAndAwaitResponse d t r k x) as R;
    destruct (sendCommandAndAwaitResponse d t r k x) as [p s2] end.
  cbn in *. eapply safe_trans; [|exact R]. apply safe_same; reflexivity.
Qed.

Lemma login_effect : forall u pw app rnd s,
  let r := login u pw app rnd s in
  promises (snd r) = promises s ++ [(Pending, KLogin (fst r))]
  /\ on_message (_ws (snd r))
     = on_message (_ws s) ++ [OnData rnd (List.length (promises s))].
Proof.
  intros u pw app rnd s. unfold login, new_returned. cbv beta iota zeta.
  match goal with |- context [sendCommandAndAwaitResponse ?d ?t ?r ?k ?x] =>
    pose proof (sendCommandAndAwaitResponse_effect d t r k x) as E;
    destruct (sendCommandAndAwaitResponse d t r k x) as [p s2] end.
  cbn in *. destruct E as (E1 & E2 & E3 & _). rewrite E2, E3, E1. split; reflexivity.
Qed.

(** The reply of a [login] that is still pending, after anything else. *)
Lemma login_reply_later : forall u pw app rnd s es1 o,
  sound s -> listening s ->
  let s1 := run (snd (login u pw app rnd s)) es1 in
  promise_state s1 (List.length (promises s)) = Some Pending ->
  bears o rnd ->
  credentials (step s1 (frame o))
  = if truthy (obj_get o "status")
    then (true, obj_get o "streamSessionId") else credentials s1.
Proof.
  intros u pw app rnd s es1 o S [_ Hwf] s1 Hp Hb.
  destruct (login_effect u pw app rnd s) as [Ep El].
  set (s2 := snd (login u pw app rnd s)) in *.
  set (p := List.length (promises s)) in *.
  assert (A : accounted s1).
  { apply (safe_run es1 s2). apply safe_login. exact S. }
  destruct (pending_listened s1 p A Hp) as [t Ht].
  assert (Et : t = rnd).
  { destruct (keeps_run es1 s2) as (_ & _ & L & _).
    destruct (L t p Ht) as [L1|L1].
    - rewrite El in L1. apply in_app_or in L1. destruct L1 as [L1|[L1|[]]].
      + apply Hwf in L1. unfold p in L1. lia.
      + congruence.
    - rewrite Ep, length_app in L1. cbn in L1. unfold p in L1. lia. }
  subst t.
  assert (E0 : nth_error (promises s2) p
               = Some (Pending, KLogin (fst (login u pw app rnd s)))).
  { rewrite Ep. apply nth_error_snoc. }
  assert (E1 : exists q, nth_error (promises s1) p = Some (Pending, KLogin q)).
  { unfold promise_state in Hp.
    destruct (entry_run es1 s2 p _ _ E0) as [R|[[_ R]|(_ & o' & t' & _ & _ & _ & R)]];
      fold s1 in R; rewrite R in Hp; try discriminate.
    eexists. exact R. }
  destruct E1 as [q E1].
  cbn [frame step]. rewrite deliver_object.
  destruct (truthy (obj_get o "status")) eqn:Es.
  - apply (credentials_fold_login o _ s1 rnd p q); assumption.
  - apply credentials_fold_keep. exact Es.
Qed.

(** A frame that is an object and bears the tag of no registered call
    goes to [processMessage] alone. *)
Lemma unclaimed_frame : forall s o,
  dispatcher_installed s = true -> unclaimed o s ->
  step s (frame o)
  = if _streaming s
    then match channel (obj_get o "command") with
         | Some name => emit name (Arg (obj_get o "data")) s
         | None =>
             console_log (ConsoleWarn "Unknown message type received" (JObj o)) s
         end
    else s.
Proof.
  intros s o Hd Hu. unfold frame. cbn [step]. rewrite deliver_object.
  unfold dispatcher_installed in Hd. unfold unclaimed in Hu.
  destruct (_streaming s).
  - destruct (on_message (_ws s)) as [|[|] fs]; try discriminate Hd.
    cbn [fold_left]. rewrite fold_react_unclaimed.
    + unfold react. cbn. unfold processMessage. cbn.
      destruct (channel _); reflexivity.
    + exact Hd.
    + intros t p H. apply (Hu t p). right. exact H.
  - apply fold_react_unclaimed; assumption.
Qed.

(** * The behaviour of a session *)

(** ** Concurrent calls and their tags *)

(** C1, as the code has it.  Whatever a session has been through, let any
    calls be issued and anything happen after that: other calls, frames,
    sends that complete or fail, time passing.  Each of the calls is then
    pending, or rejected by its timeout, or resolved with a frame that
    arrived and bears its tag; nothing else settles it.  As long as it is
    pending, every macrotask but a clock tick and a frame bearing its tag
    leaves it pending, and the first frame that bears its tag resolves it
    with that frame, for good.  So when the tags of the calls differ
    pairwise and one reply per call arrives, in any order, every call that
    has not timed out is resolved with its own reply. *)
Theorem concurrent_calls_resolve_by_tag :
  forall (kind : option string) (mode : XTBMode) (cfg : ClientConfig) (t0 : Z)
         (es : list event) (cs : list call) (mid : list event)
         (os : list object),
    let s := run (construct kind mode cfg t0) es in
    let s1 := run s (map issue cs ++ mid) in
    forall i c,
      nth_error cs i = Some c ->
      let p := (List.length (promises s) + i)%nat in
      (promise_state s1 p = Some Pending
       \/ promise_state s1 p = Some (Rejected (Error (JStr "Timeout")))
       \/ exists o, In (frame o) mid /\ bears o (tag c)
                    /\ promise_state s1 p = Some (Fulfilled (JObj o)))
      /\ (promise_state s1 p = Some Pending ->
          (NoDup (map tag cs) ->
           Permutation (map customTag os) (map (fun c => JStr (tag c)) cs) ->
           forall o es2, In o os -> bears o (tag c) ->
             promise_state (run s1 (map frame os ++ es2)) p
             = Some (Fulfilled (JObj o)))
          /\ (forall o es2, bears o (tag c) ->
                promise_state (run (step s1 (frame o)) es2) p
                = Some (Fulfilled (JObj o)))
          /\ (forall e, e <> Tick ->
                (forall o, e = frame o -> ~ bears o (tag c)) ->
                promise_state (step s1 e) p = Some Pending)).
Proof.
  intros kind mode cfg t0 es cs mid os s s1 i c Hi p.
  destruct (reachable_listening kind mode cfg t0 es) as [Hl _]. fold s in Hl.
  assert (A : accounted s1).
  { unfold s1, s, run. rewrite <- fold_left_app.
    apply (reachable_sound kind mode cfg t0 (es ++ map issue cs ++ mid)). }
  destruct (issue_all cs s) as [Ip Il].
  assert (Hlt : (i < List.length cs)%nat) by (apply nth_error_Some; congruence).
  assert (E0 : nth_error (promises (run s (map issue cs))) p = Some (Pending, KNone)).
  { rewrite Ip, nth_error_app2 by (unfold p; lia).
    replace (p - List.length (promises s))%nat with i by (unfold p; lia).
    rewrite nth_error_map, Hi. reflexivity. }
  assert (E1 : s1 = run (run s (map issue cs)) mid).
  { unfold s1, run. rewrite fold_left_app. reflexivity. }
  split.
  - destruct (entry_run mid _ p _ _ E0)
      as [R|[[_ R]|(_ & o & t & R1 & R2 & R3 & R4)]];
      rewrite <- E1 in *; unfold promise_state.
    + left. rewrite R. reflexivity.
    + right. left. rewrite R. reflexivity.
    + right. right. exists o. split; [exact R1|]. split; [|rewrite R4; reflexivity].
      rewrite Il in R2. apply in_app_or in R2. destruct R2 as [R2|R2].
      * apply (proj2 Hl) in R2. unfold p in R2. lia.
      * apply numbered_in in R2. destruct R2 as (j & c' & Hj & Hc' & ->).
        assert (j = i) by (unfold p in Hj; lia). subst j.
        replace c' with c in R3 by congruence. exact R3.
  - intros Hp.
    pose proof (waiting_later cs mid s i c Hl A Hi Hp) as W. fold s1 p in W.
    split; [|split].
    + intros Hnd Hperm o es2 Ho Hb. unfold run. rewrite fold_left_app.
      apply fulfilled_for_good.
      apply (waiting_frames os (tag c)); auto.
      * intros o' Ho'.
        assert (H : In (customTag o') (map (fun c => JStr (tag c)) cs)).
        { eapply Permutation_in; [exact Hperm|]. apply in_map. exact Ho'. }
        apply in_map_iff in H. destruct H as (c' & H & _).
        exists (tag c'). unfold bears. symmetry. exact H.
      * apply (Permutation_NoDup (l := map (fun c => JStr (tag c)) cs)).
        -- symmetry. exact Hperm.
        -- rewrite <- (map_map tag JStr).
           apply Finite.Injective_map_NoDup; [|exact Hnd].
           intros x y H. inversion H. reflexivity.
    + intros o es2 Hb. apply fulfilled_for_good.
      apply (waiting_hit (tag c)); assumption.
    + intros e Ht Hf. destruct W as (W1 & W2 & W3).
      unfold promise_state in *.
      destruct (nth_error (promises s1) p) as [[st k]|] eqn:En; [|discriminate].
      simpl in W1. inversion W1; subst st.
      destruct (entry_step e s1 p _ _ En)
        as [R|[(_ & R & _)|(_ & o & t & R1 & R2 & R3 & _)]].
      * rewrite R. reflexivity.
      * contradiction.
      * exfalso. apply (Hf o R1). rewrite <- (W3 t R2). exact R3.
Qed.

Lemma concurrent_calls_resolve_by_tag_witness :
  let cs := [ask "getAllSymbols" "0.a1"; ask "getServerTime" "0.b2";
             ask "getVersion" "0.c3"] in
  let mid := wait 250 ++ [WsSent 1 None] ++ wait 250 ++ [WsSent 2 None]
             ++ wait 250 ++ [WsSent 3 None] ++ wait 100 in
  let os := [answer "0.c3" 3; answer "0.a1" 1; answer "0.b2" 2] in
  let s := run (construct None demo no_config 1700000000000)
               [WsOpen; WsSent 0 None] in
  let s1 := run s (map issue cs ++ mid) in
  map fst (wire (_ws s1))
  = [1700000000750; 1700000000500; 1700000000250; 1700000000000]
  /\ promise_state s1 (List.length (promises s) + 1) = Some Pending
  /\ promise_state (run s1 (map frame os ++ [Tick])) (List.length (promises s) + 1)
     = Some (Fulfilled (JObj (answer "0.b2" 2))).
Proof.
  cbv zeta.
  pose proof (concurrent_calls_resolve_by_tag
                None demo no_config 1700000000000 [WsOpen; WsSent 0 None]
                [ask "getAllSymbols" "0.a1"; ask "getServerTime" "0.b2";
                 ask "getVersion" "0.c3"]
                (wait 250 ++ [WsSent 1 None] ++ wait 250 ++ [WsSent 2 None]
                 ++ wait 250 ++ [WsSent 3 None] ++ wait 100)
                [answer "0.c3" 3; answer "0.a1" 1; answer "0.b2" 2]
                1%nat (ask "getServerTime" "0.b2") eq_refl) as H.
  cbv zeta in H. destruct H as [_ H].
  split; [vm_compute; reflexivity|].
  match type of H with ?P -> _ => assert (Hp : P) by (vm_compute; reflexivity) end.
  split; [exact Hp|].
  apply (proj1 (H Hp)).
  - simpl. repeat constructor; simpl; intuition discriminate.
  - exact (Permutation_cons_append [JStr "0.a1"; JStr "0.b2"] (JStr "0.c3")).
  - simpl. right. right. left. reflexivity.
  - reflexivity.
Defined.

(** C1 as stated fails in its second half: nothing compares a new tag with
    the outstanding ones.  When [Math.random] gives the same string twice,
    two calls are in flight under one tag, and the one reply that bears it
    resolves both. *)
Lemma colliding_tags_share_a_reply :
  let s := run client0 [issue (ask "getAllSymbols" "0.5xk2");
                        issue (ask "getServerTime" "0.5xk2")] in
  let s' := step s (frame (answer "0.5xk2" 1)) in
  on_message (_ws s) = [OnData "0.5xk2" 0; OnData "0.5xk2" 1]
  /\ promise_state s 0 = Some Pending
  /\ promise_state s 1 = Some Pending
  /\ promise_state s' 0 = Some (Fulfilled (JObj (answer "0.5xk2" 1)))
  /\ promise_state s' 1 = Some (Fulfilled (JObj (answer "0.5xk2" 1))).
Proof. vm_compute. repeat split. Qed.

(** ** Timeout and reply *)

(** C2, as the code has it.  The timeout of a call is armed when its send
    completes, for the configured time from that moment, and a call has at
    most one timeout timer.  From any state a session reaches in which the
    call [p] is pending and [x] is its timeout timer, whatever happens
    next (other calls, other frames, sends completing, the session being
    closed), as long as no frame arrives that bears a tag [p] listens for:
    [p] stays pending while the clock is before the due time of [x], and
    from the millisecond [x] is due it is rejected with [Error('Timeout')]
    and its listener removed; after that no event changes the outcome or
    registers the listener again, and a frame that is an object raises
    nothing.  With nothing but the clock running, that moment comes
    exactly at the due time.  If instead a frame bearing the call's tag
    arrives first, [p] is resolved with it; after that no event changes
    the outcome, and the timeout callback leaves the client exactly as it
    is. *)
Theorem timeout_and_reply_settle_once :
  forall (kind : option string) (mode : XTBMode) (cfg : ClientConfig)
         (t0 : Z) (es : list event) (p : nat),
    let s := run (construct kind mode cfg t0) es in
    (forall n timeout,
       pending_callback s n = Some (AwaitCall p timeout) ->
       timers (loop (step s (WsSent n None)))
       = timers (loop s)
         ++ [{| tid := next_timer (loop s);
                due := now (loop s)
                       + timer_delay (nullish timeout DEFAULT_TIMEOUT);
                period := None; action := CbTimeout p |}])
    /\ (forall x y,
          In x (timers (loop s)) -> In y (timers (loop s)) ->
          action x = CbTimeout p -> action y = CbTimeout p -> x = y)
    /\ (forall x,
          In x (timers (loop s)) -> action x = CbTimeout p ->
          promise_state s p = Some Pending ->
          (forall es',
             (forall o t, In (frame o) es' ->
                          In (OnData t p) (on_message (_ws s)) -> ~ bears o t) ->
             let s' := run s es' in
             if now (loop s') <? due x
             then promise_state s' p = Some Pending
             else promise_state s' p = Some (Rejected (Error (JStr "Timeout")))
                  /\ (forall t, ~ In (OnData t p) (on_message (_ws s')))
                  /\ (forall es'',
                        promise_state (run s' es'') p
                        = Some (Rejected (Error (JStr "Timeout")))
                        /\ forall t, ~ In (OnData t p)
                                          (on_message (_ws (run s' es''))))
                  /\ (forall o, errors (step s' (frame o)) = errors s'))
          /\ (exists n,
                due x - now (loop s) = Z.of_nat (S n)
                /\ (forall k, (k <= n)%nat ->
                      promise_state (run s (repeat Tick k)) p = Some Pending)
                /\ let s' := run s (repeat Tick (S n)) in
                   now (loop s') = due x
                   /\ promise_state s' p = Some (Rejected (Error (JStr "Timeout")))
                   /\ (forall es',
                         promise_state (run s' es') p
                         = Some (Rejected (Error (JStr "Timeout")))
                         /\ forall t, ~ In (OnData t p)
                                           (on_message (_ws (run s' es'))))
                   /\ (forall o, errors (step s' (frame o)) = errors s'))
          /\ (forall o t,
                bears o t -> In (OnData t p) (on_message (_ws s)) ->
                let s1 := step s (frame o) in
                promise_state s1 p = Some (Fulfilled (JObj o))
                /\ forall es',
                     promise_state (run s1 es') p = Some (Fulfilled (JObj o))
                     /\ (forall t', ~ In (OnData t' p)
                                       (on_message (_ws (run s1 es'))))
                     /\ run_callback (CbTimeout p) (run s1 es') = run s1 es')).
Proof.
  intros kind mode cfg t0 es p s.
  pose proof (reachable_tidy kind mode cfg t0 es) as T. fold s in T.
  pose proof (reachable_punctual kind mode cfg t0 es) as P. fold s in P.
  split; [|split].
  { intros n timeout H. apply timeout_armed_on_send. exact H. }
  { intros x y Hx Hy Ax Ay. apply (timeout_unique [] s p x y T P); assumption. }
  intros x Hx Ha Hp. split; [|split].
  - intros es' Hf. cbv zeta.
    destruct (timeout_decides es' s p x
                (fun t => In (OnData t p) (on_message (_ws s)))
                T P Hx Ha Hp ltac:(auto) Hf) as [B A].
    destruct (now (loop (run s es')) <? due x) eqn:E.
    + apply Z.ltb_lt in E. apply B. exact E.
    + apply Z.ltb_ge in E. destruct (A E) as [R L].
      split; [exact R|]. split; [exact L|].
      split; [|intros o; apply errors_frame].
      intros es''. eapply settled_for_good;
        [apply keeps_run | exact R | discriminate | exact L].
  - pose proof (armed_before_due [] s x T Hx ltac:(intros [])) as Hlt.
    exists (Z.to_nat (due x - now (loop s) - 1)).
    assert (Hn : due x - now (loop s)
                 = Z.of_nat (S (Z.to_nat (due x - now (loop s) - 1)))) by lia.
    split; [exact Hn|].
    assert (Hu : forall y, In y (timers (loop s)) -> action y = CbTimeout p -> y = x).
    { intros y Hy Hay. apply (timeout_unique [] s p y x T P); assumption. }
    destruct (timeout_fires p x Ha _ s T (conj (conj Hx Hu) Hp) Hn)
      as (P1 & N1 & R1 & L1).
    split; [exact P1|]. cbv zeta. split; [exact N1|]. split; [exact R1|].
    split; [|intros o; apply errors_frame].
    intros es'. eapply settled_for_good;
      [apply keeps_run | exact R1 | discriminate | exact L1].
  - intros o t Hb Hin. cbv zeta.
    destruct (frame_resolves s o t p Hb Hin Hp) as [R L].
    split; [exact R|]. intros es'.
    destruct (settled_for_good _ (run (step s (frame o)) es') p _
                (keeps_run es' _) R ltac:(discriminate) L) as [R' L'].
    split; [exact R'|]. split; [exact L'|].
    eapply late_timeout_is_noop; [exact R' | discriminate | exact L'].
Qed.

Lemma timeout_and_reply_settle_once_witness :
  In its_timeout
     (timers (loop (run (construct None demo no_config 1700000000000) one_call)))
  /\ promise_state (run (construct None demo no_config 1700000000000) one_call) 0
     = Some Pending
  /\ (exists n,
        due its_timeout
        - now (loop (run (construct None demo no_config 1700000000000) one_call))
        = Z.of_nat (S n)
        /\ promise_state
             (run (run (construct None demo no_config 1700000000000) one_call)
                  (repeat Tick (S n))) 0
           = Some (Rejected (Error (JStr "Timeout"))))
  /\ promise_state
       (run (run (construct None demo no_config 1700000000000) one_call)
            (wait 2000 ++ [issue (ask "getServerTime" "0.b2");
                           frame (answer "0.zz" 7); WsClose] ++ wait 2999)) 0
     = Some Pending.
Proof.
  assert (Et : timers (loop (run (construct None demo no_config 1700000000000)
                                 one_call))
               = [{| tid := 0; due := 1700000010000; period := Some 10000;
                     action := CbPing |}; its_timeout]).
  { vm_compute. reflexivity. }
  assert (El : on_message (_ws (run (construct None demo no_config 1700000000000)
                                    one_call))
               = [OnData "0.5xk2" 0]).
  { vm_compute. reflexivity. }
  assert (H1 : In its_timeout
                  (timers (loop (run (construct None demo no_config 1700000000000)
                                     one_call)))).
  { rewrite Et. right. left. reflexivity. }
  assert (H4 : promise_state
                 (run (construct None demo no_config 1700000000000) one_call) 0
               = Some Pending).
  { vm_compute. reflexivity. }
  split; [exact H1|]. split; [exact H4|].
  pose proof (proj2 (proj2 (timeout_and_reply_settle_once
                              None demo no_config 1700000000000 one_call 0%nat))
                its_timeout H1 eq_refl H4) as K.
  cbv zeta in K. destruct K as (G & (n & E & _ & _ & R & _) & _).
  split; [exists n; split; [exact E | exact R]|].
  specialize (G (wait 2000 ++ [issue (ask "getServerTime" "0.b2");
                               frame (answer "0.zz" 7); WsClose] ++ wait 2999)).
  match type of G with ?A -> _ => assert (Hf : A) end.
  { intros o t Ho Ht Hb. rewrite El in Ht. destruct Ht as [Ht|[]].
    injection Ht as <-.
    apply in_app_or in Ho. destruct Ho as [Ho|Ho].
    - apply repeat_spec in Ho. discriminate Ho.
    - destruct Ho as [Ho|[Ho|[Ho|Ho]]].
      + discriminate Ho.
      + injection Ho as <-. unfold bears in Hb. cbn in Hb. discriminate Hb.
      + discriminate Ho.
      + apply repeat_spec in Ho. discriminate Ho. }
  specialize (G Hf).
  match type of G with (if ?c then _ else _) =>
    assert (Ec : c = true) by (vm_compute; reflexivity) end.
  rewrite Ec in G. exact G.
Defined.

(** C2 as stated fails: the timeout does not count from the call.  Three
    calls with a timeout of 500 ms are made at the same moment; the
    governor writes the third 750 ms later and only then is its timer
    armed.  500 ms after the call, with no reply, the third call has not
    failed; it fails 1250 ms after the call. *)
Lemma timeout_counts_from_the_send :
  let impatient t :=
    issue {| payload := [("command", JStr "getAllSymbols")];
             patience := Some 500; tag := t |} in
  let slow :=
    [impatient "0.a1"; impatient "0.b2"; impatient "0.c3"]
    ++ wait 250 ++ [WsSent 1 None] ++ wait 250 ++ [WsSent 2 None] in
  let slower := slow ++ wait 250 ++ [WsSent 3 None] in
  now (loop (run client0 slow)) - now (loop client0) = 500
  /\ promise_state (run client0 slow) 2 = Some Pending
  /\ promise_state (run client0 (slower ++ wait 499)) 2 = Some Pending
  /\ promise_state (run client0 (slower ++ wait 500)) 2
     = Some (Rejected (Error (JStr "Timeout"))).
Proof. vm_compute. repeat split. Qed.

(** ** A send that fails *)

(** C3 fails on the code.  A call is made on an open client, its frame is
    written a throttle interval later, and the socket reports a write
    error.  The promise is neither rejected with that error nor ever timed
    out: a minute later it is still pending, its listener is still
    registered, and the error sits among the unhandled rejections. *)
Theorem failed_send_leaves_call_dangling :
  let s := run client0
             ([issue (ask "getAllSymbols" "0.5xk2")] ++ wait 250
              ++ [WsSent 1 (Some EPIPE)] ++ wait 60000) in
  wire (_ws s) <> []
  /\ promise_state s 0 = Some Pending
  /\ on_message (_ws s) = [OnData "0.5xk2" 0]
  /\ unhandled (trace s) = [EPIPE]
  /\ existsb (fun t => match action t with CbTimeout _ => true | _ => false end)
             (timers (loop s)) = false.
Proof. vm_compute. repeat split. discriminate. Qed.

(** ** Closing with calls pending *)

(** C4, as the code has it.  Whatever a session has been through,
    [BaseClient.close] clears the keepalive interval when its handle has
    been stored, starts closing the socket and emits ['close'].  It does
    not touch the pending calls: their promises stay as they are, their
    listeners stay registered and their timeout timers stay armed.  After
    it nothing more is written to the socket, whatever happens next (a
    socket that was closed does not open).  The rest goes on as before:
    when no handle is stored yet the timers are left as they are, and the
    first ping, once the socket confirms it, still arms the keepalive
    interval; a frame bearing the tag of a pending call still resolves it;
    and a push frame is still dispatched to its channel. *)
Theorem close_leaves_calls_pending :
  forall (kind : option string) (mode : XTBMode) (cfg : ClientConfig) (t0 : Z)
         (es : list event),
    let s := run (construct kind mode cfg t0) es in
    let s' := BaseClient_close s in
    promises s' = promises s
    /\ on_message (_ws s') = on_message (_ws s)
    /\ (forall t p, In t (timers (loop s)) -> action t = CbTimeout p ->
          In t (timers (loop s')))
    /\ (forall h, _pingInterval s = Some h -> find_timer h s' = None)
    /\ readyState (_ws s')
       = match readyState (_ws s) with CLOSED => CLOSED | _ => CLOSING end
    /\ emitted (trace s') = ("close", NoArg) :: emitted (trace s)
    /\ (forall es',
          forallb (fun e => negb (is_open e)) es' = true ->
          wire (_ws (run s' es')) = wire (_ws s'))
    /\ (_pingInterval s = None -> loop s' = loop s)
    /\ (forall n,
          pending_callback s n = Some AwaitOpenPing ->
          let s2 := step s' (WsSent n None) in
          _pingInterval s2 = Some (next_timer (loop s'))
          /\ In {| tid := next_timer (loop s');
                   due := now (loop s')
                          + timer_delay (nullish (pingInterval cfg) DEFAULT_PING);
                   period := Some (timer_delay
                                     (nullish (pingInterval cfg) DEFAULT_PING));
                   action := CbPing |} (timers (loop s2)))
    /\ (forall o t p,
          bears o t -> In (OnData t p) (on_message (_ws s)) ->
          promise_state s p = Some Pending ->
          promise_state (step s' (frame o)) p = Some (Fulfilled (JObj o)))
    /\ (forall o,
          unclaimed o s ->
          step s' (frame o)
          = match kind, channel (obj_get o "command") with
            | None, _ => s'
            | Some _, Some name => emit name (Arg (obj_get o "data")) s'
            | Some _, None =>
                console_log
                  (ConsoleWarn "Unknown message type received" (JObj o)) s'
            end).
Proof.
  intros kind mode cfg t0 es.
  pose proof (reachable_tidy kind mode cfg t0 es) as T.
  destruct (reachable_listening kind mode cfg t0 es) as [[Hd _] Hk].
  assert (Hc : config (run (construct kind mode cfg t0) es) = cfg).
  { rewrite config_run. destruct kind; reflexivity. }
  generalize dependent (run (construct kind mode cfg t0) es). intros s T Hd Hk Hc.
  cbv zeta.
  assert (W : forall es',
            forallb (fun e => negb (is_open e)) es' = true ->
            wire (_ws (run (BaseClient_close s) es'))
            = wire (_ws (BaseClient_close s))).
  { intros es' Hes. apply (mute_run es' _ Hes).
    unfold shut, BaseClient_close.
    destruct (_pingInterval s); cbn; destruct (readyState (_ws s)); discriminate. }
  assert (Ep : promises (BaseClient_close s) = promises s).
  { unfold BaseClient_close. destruct (_pingInterval s); reflexivity. }
  assert (El : on_message (_ws (BaseClient_close s)) = on_message (_ws s)).
  { unfold BaseClient_close. destruct (_pingInterval s); reflexivity. }
  split; [exact Ep|]. split; [exact El|].
  split; [|split; [|split; [|split; [|split; [exact W|]]]]].
  - unfold BaseClient_close. destruct (_pingInterval s) as [h|] eqn:E.
    + intros t p Hin Ha. cbn. apply filter_In. split; [exact Hin|].
      destruct (Nat.eqb (tid t) h) eqn:Eh; [|reflexivity].
      apply Nat.eqb_eq in Eh.
      destruct (t_handle _ _ _ T h eq_refl) as [_ C].
      rewrite (C t Hin Eh) in Ha. discriminate.
    + intros; assumption.
  - unfold BaseClient_close. destruct (_pingInterval s) as [h|] eqn:E.
    + intros h' Hh'. inversion Hh'; subst h'. apply (find_timer_removed h s).
    + discriminate.
  - unfold BaseClient_close. destruct (_pingInterval s); reflexivity.
  - unfold BaseClient_close. destruct (_pingInterval s); reflexivity.
  - split; [|split; [|split]].
    + intros E. unfold BaseClient_close. rewrite E. reflexivity.
    + intros n Hn.
      assert (Hn' : pending_callback (BaseClient_close s) n = Some AwaitOpenPing).
      { unfold pending_callback, BaseClient_close in *.
        destruct (_pingInterval s); exact Hn. }
      destruct (first_ping_arms_interval _ n Hn') as [I1 I2].
      split; [exact I1|]. rewrite I2. apply in_or_app. right. left.
      assert (Hc' : config (BaseClient_close s) = cfg).
      { unfold BaseClient_close. destruct (_pingInterval s); exact Hc. }
      rewrite Hc'. reflexivity.
    + intros o t p Hb Hin Hp.
      apply (frame_resolves _ o t p Hb).
      * rewrite El. exact Hin.
      * unfold promise_state. rewrite Ep. exact Hp.
    + intros o Hu. rewrite unclaimed_frame.
      * assert (Es : _streaming (BaseClient_close s) = _streaming s).
        { unfold BaseClient_close. destruct (_pingInterval s); reflexivity. }
        rewrite Es, Hk. destruct kind; reflexivity.
      * unfold dispatcher_installed in *.
        assert (Es : _streaming (BaseClient_close s) = _streaming s).
        { unfold BaseClient_close. destruct (_pingInterval s); reflexivity. }
        rewrite Es, El. exact Hd.
      * unfold unclaimed in *. rewrite El. exact Hu.
Qed.

Lemma close_leaves_calls_pending_witness :
  promise_state stream2 0 = Some Pending
  /\ promises (BaseClient_close stream2) = promises stream2
  /\ on_message (_ws (BaseClient_close stream2)) = on_message (_ws stream2).
Proof.
  split; [vm_compute; reflexivity|].
  destruct (close_leaves_calls_pending
              (Some "8469308861804289383") demo no_config 1700000000000
              two_calls_streaming) as (H1 & H2 & _).
  split; [exact H1 | exact H2].
Defined.

(** C4 as stated fails.  [close] on a session with two pending calls
    rejects neither; both stay pending, and five seconds later their own
    timers reject them with [Error('Timeout')].  Two calls whose frames
    were still waiting in the governor when [close] was called fare worse:
    their sends fail on the closing socket (the wire holds the first ping
    and nothing else), no timeout is ever armed, and a minute later both
    are still pending with their listeners in place.
    Dispatch goes on after [close]: a push frame is emitted as before.
    And when [close] comes before the socket has confirmed the first
    ping, the keepalive interval is armed after it and is still armed
    half a minute later. *)
Lemma close_does_not_fail_pending_calls :
  let s := step stream2 (Call close_ "") in
  let s' := run s (wait 5000) in
  let queued :=
    streaming_session
      ([WsOpen; WsSent 0 None;
        issue (ask "getServerTime" "0.a1"); issue (ask "getVersion" "0.b2");
        Call close_ ""] ++ wait 60000) in
  let early := streaming_session ([WsOpen; Call close_ ""; WsSent 0 None]
                                  ++ wait 30000) in
  (promise_state stream2 0 = Some Pending
   /\ promise_state stream2 1 = Some Pending
   /\ readyState (_ws s) = CLOSING
   /\ promise_state s 0 = Some Pending
   /\ promise_state s 1 = Some Pending
   /\ promise_state s' 0 = Some (Rejected (Error (JStr "Timeout")))
   /\ promise_state s' 1 = Some (Rejected (Error (JStr "Timeout"))))
  /\ (promise_state queued 0 = Some Pending
      /\ promise_state queued 1 = Some Pending
      /\ on_message (_ws queued)
         = [ProcessMessage; OnData "0.a1" 0; OnData "0.b2" 1]
      /\ List.length (wire (_ws queued)) = 1%nat
      /\ timers (loop queued) = []
      /\ List.length (unhandled (trace queued)) = 3%nat)
  /\ hd_error (emitted (trace (step s (frame tick_EURUSD))))
     = Some ("tickPrices", Arg (obj_get tick_EURUSD "data"))
  /\ (readyState (_ws early) = CLOSING
      /\ map action (timers (loop early)) = [CbPing]
      /\ List.length (console (trace early)) = 3%nat).
Proof. vm_compute. repeat split. Qed.

(** ** The stream session identifier on the wire *)

(** C5, as the code has it.  On a session bound to a non-empty stream
    session identifier, every subscribe method and every ping hands the
    governor a frame whose [streamSessionId] is that identifier (a ping on a
    socket that is still connecting sends nothing); every unsubscribe
    method hands it a frame with no [streamSessionId] at all. *)
Theorem streaming_frames_session_id :
  forall (s : Client) (sid symbol : string) (options : option TickOptions)
         (w : waiter),
    _streamSessionId s = JStr sid -> sid <> "" ->
    (forall f, In f (subscribe_methods symbol options) ->
       exists d, submits (f w) s d /\ carries sid d = true)
    /\ (forall f, In f (unsubscribe_methods symbol) ->
          exists d, submits (f w) s d /\ anonymous d = true)
    /\ match readyState (_ws s) with
       | CONNECTING => submitted (throttle (ping w s)) = submitted (throttle s)
       | _ => exists d, submits (ping w) s d /\ carries sid d = true
       end.
Proof.
  intros s sid symbol options w Hs Hne. split; [|split].
  - intros f Hf. eapply subscribe_carries; eauto.
  - intros f Hf. eapply unsubscribe_anonymous; eauto.
  - apply ping_carries; assumption.
Qed.

Lemma streaming_frames_session_id_witness :
  _streamSessionId stream0 = JStr "8469308861804289383"
  /\ exists d, submits (subscribeTickPrices "EURUSD" None AwaitDiscarded) stream0 d
               /\ carries "8469308861804289383" d = true.
Proof.
  split; [reflexivity|].
  apply (proj1 (streaming_frames_session_id stream0 "8469308861804289383"
                  "EURUSD" None AwaitDiscarded eq_refl
                  ltac:(discriminate))).
  simpl. do 5 right. left. reflexivity.
Defined.

(** C5 as stated fails: on a bound streaming session the frame of
    [unsubscribeBalance] reaches the governor without the identifier, so
    not every frame of the session carries it. *)
Lemma unsubscribe_frame_lacks_session_id :
  let s := step stream0 (Call unsubscribeBalance_ "") in
  _streaming s = true
  /\ _streamSessionId s = JStr "8469308861804289383"
  /\ hd_error (submitted (throttle s))
     = Some (Text (JObj [("command", JStr "stopBalance")]))
  /\ forallb (carries "8469308861804289383") (submitted (throttle s)) = false.
Proof. vm_compute. repeat split. Qed.

(** ** Tagged frames and the push dispatcher *)

(** C6, as the code has it.  A frame that is an object bearing the tag of
    a pending call resolves that call with the whole object and removes the
    call's listener.  It is not consumed: on a streaming session
    [processMessage] sees it too, emits the channel event when its
    [command] is one of the push commands and warns
    ['Unknown message type received'] otherwise; on a command session no
    dispatcher is installed and nothing is emitted or reported. *)
Theorem tagged_frame_resolves_call_and_reaches_dispatcher :
  forall (kind : option string) (mode : XTBMode) (cfg : ClientConfig) (t0 : Z)
         (es : list event) (o : object) (t : string) (p : nat),
    let s := run (construct kind mode cfg t0) es in
    bears o t ->
    In (OnData t p) (on_message (_ws s)) ->
    promise_state s p = Some Pending ->
    let s' := step s (WsMessage (Text (JObj o))) in
    promise_state s' p = Some (Fulfilled (JObj o))
    /\ (forall t', ~ In (OnData t' p) (on_message (_ws s')))
    /\ dispatch_log s'
       = match kind with
         | Some _ => dispatched_as o (dispatch_log s)
         | None => dispatch_log s
         end.
Proof.
  intros kind mode cfg t0 es o t p.
  destruct (reachable_listening kind mode cfg t0 es) as [[Hd _] Hs].
  generalize dependent (run (construct kind mode cfg t0) es).
  intros s Hd Hs. cbv zeta. intros Hb Hin Hp. cbn [step]. rewrite deliver_object.
  split; [|split].
  - unfold promise_state in *. rewrite promises_fold_react.
    destruct (nth_error (promises s) p) as [[st k]|] eqn:E; [|discriminate].
    simpl in Hp. inversion Hp; subst.
    rewrite (resolve_fold_hit o t _ _ p k Hb Hin E). reflexivity.
  - intros t'. rewrite on_message_fold_react.
    apply (unlisten_fold_gone o t); assumption.
  - unfold dispatcher_installed in Hd. rewrite Hs in Hd.
    destruct kind.
    + destruct (on_message (_ws s)) as [|[|] fs]; try discriminate.
      simpl. rewrite dispatch_log_calls_only by exact Hd.
      apply dispatch_log_react_processMessage.
    + apply dispatch_log_calls_only. exact Hd.
Qed.

Lemma tagged_frame_resolves_call_and_reaches_dispatcher_witness :
  promise_state stream1 0 = Some Pending
  /\ promise_state (step stream1 (WsMessage (Text (JObj reply_getServerTime)))) 0
     = Some (Fulfilled (JObj reply_getServerTime)).
Proof.
  split; [vm_compute; reflexivity|].
  apply (tagged_frame_resolves_call_and_reaches_dispatcher
           (Some "8469308861804289383") demo no_config 1700000000000
           one_call_streaming reply_getServerTime "0.5xk2" 0).
  - vm_compute; reflexivity.
  - vm_compute. right. left. reflexivity.
  - vm_compute; reflexivity.
Defined.

(** C6 as stated fails: on a streaming session the reply of a pending
    call resolves the call and is also reported as an unknown message. *)
Lemma tagged_reply_is_also_dispatched :
  let s' := step stream1 (WsMessage (Text (JObj reply_getServerTime))) in
  promise_state stream1 0 = Some Pending
  /\ promise_state s' 0 = Some (Fulfilled (JObj reply_getServerTime))
  /\ console (trace stream1) = []
  /\ console (trace s')
     = [ConsoleWarn "Unknown message type received" (JObj reply_getServerTime)].
Proof. vm_compute. repeat split. Qed.

(** ** The keepalive after a failed first ping *)

(** C7 fails on the code.  The socket opens, the first ping is written at
    once, and the socket reports a write error for it.  The error is not
    logged, the interval is never armed and no further ping is issued,
    however long the session stays open. *)
Theorem failed_first_ping_stops_keepalive :
  forall n : nat,
    let s := run (new_XTBClient demo no_config 1700000000000)
               ([WsOpen; WsSent 0 (Some EPIPE)] ++ repeat Tick n) in
    readyState (_ws s) = OPEN
    /\ dispatched (throttle s)
       = [(1700000000000, Text (JObj [("command", JStr "ping")]))]
    /\ _pingInterval s = None
    /\ timers (loop s) = []
    /\ console (trace s) = []
    /\ unhandled (trace s) = [EPIPE].
Proof.
  intros n. cbv zeta. unfold run. rewrite fold_left_app.
  set (s0 := fold_left step [WsOpen; WsSent 0 (Some EPIPE)]
               (new_XTBClient demo no_config 1700000000000)).
  destruct (idle_forever n s0 eq_refl) as (I1 & I2 & I3 & I4 & I5).
  unfold run in *. rewrite I1, I2, I3, I4, I5.
  vm_compute. repeat split.
Qed.

(** ** The send governor *)

(** C8, as the code has it.  In every run of a session whose throttle
    interval [i] is positive, started at a clock value above [i] (as
    [Date.now()] is), and in which no timer was asked for a delay above
    [TIMEOUT_MAX]: the times at which the governor hands frames to the
    socket are at least [i] apart (consecutive ones, hence any two), and
    the frames handed to the governor are, newest first, those still
    waiting in its timers followed by those handed to the socket, so
    frames leave in the order they were submitted.  This is about the
    frames of [_sendThrottled]; the protocol ping of [ping] goes to the
    socket without passing through the governor. *)
Theorem governor_spaces_and_orders_frames :
  forall (kind : option string) (mode : XTBMode) (cfg : ClientConfig)
         (t0 : Z) (es : list event),
    let i := nullish (commandThrottleInterval cfg) DEFAULT_THROTTLE in
    let s := run (construct kind mode cfg t0) es in
    0 < i -> i < t0 -> overlong (loop s) = false ->
    spaced i (map fst (dispatched (throttle s)))
    /\ (forall later b earlier a,
          map fst (dispatched (throttle s)) = later ++ b :: earlier ->
          In a earlier -> a + i <= b)
    /\ submitted (throttle s)
       = map snd (rev (jobs (timers (loop s))))
         ++ map snd (dispatched (throttle s)).
Proof.
  intros kind mode cfg t0 es i s H1 H2 Ho.
  destruct (run_sound es _ (construct_tidy kind mode cfg t0)) as [T G].
  specialize (G (construct_governed kind mode cfg t0 H1 H2)).
  destruct G as [Hi G]. fold s in Hi, T, G. simpl in T, G.
  assert (Ei : interval s = i).
  { unfold interval, s. rewrite config_run. destruct kind; reflexivity. }
  rewrite Ei in G. destruct G as [G|G]; [congruence|].
  destruct G as [P S W F]. unfold schedule in *.
  split; [|split].
  - rewrite map_app in S. eapply spaced_app_r. exact S.
  - intros later b earlier a E Ha. rewrite map_app, E in S.
    rewrite app_assoc in S.
    eapply spaced_later; [lia | exact S | exact Ha].
  - rewrite <- F, map_app. reflexivity.
Qed.

Lemma governor_spaces_and_orders_frames_witness :
  map fst (dispatched
             (throttle (run (construct None demo no_config 1700000000000) burst)))
  = [1700000000500; 1700000000250; 1700000000000]
  /\ spaced (nullish (commandThrottleInterval no_config) DEFAULT_THROTTLE)
       (map fst (dispatched
                   (throttle (run (construct None demo no_config 1700000000000)
                                  burst)))).
Proof.
  split; [vm_compute; reflexivity|].
  refine (proj1 (governor_spaces_and_orders_frames
                   None demo no_config 1700000000000 burst _ _ _)).
  - reflexivity.
  - reflexivity.
  - vm_compute. reflexivity.
Defined.

(** C8 as stated fails in its last part: the governor starts the next
    write one interval after the previous one, whether or not the socket
    has confirmed it.  Here the first ping is still unconfirmed when the
    next frame is written, so two frames are in flight.  And the protocol
    ping of [ping] is no frame of the governor: it went to the socket in
    the millisecond the first frame was written. *)
Lemma two_frames_in_flight :
  let s := run (construct None demo no_config 1700000000000)
             ([WsOpen; Call (sendCommand_ [("command", JStr "getAllSymbols")]) ""]
              ++ wait 250) in
  map fst (wire (_ws s)) = [1700000000250; 1700000000000]
  /\ map fst (callbacks (_ws s)) = [0%nat; 1%nat]
  /\ pings (_ws s) = [1700000000000].
Proof. vm_compute. repeat split. Qed.

(** ** The login guard *)

(** C9. On a client whose [isLoggedIn] is false, [getAllSymbols],
    [getSymbol], [startTradeTransaction] and [getTradeTransactionStatus]
    each return a promise rejected with [Error('Not logged in')], and
    nothing reaches the governor or the socket: no frame is submitted or
    written, no listener or timer is added. *)
Theorem business_commands_require_login :
  forall (s : Client) (rnd symbol : string) (transaction : json) (order : Z),
    _isLoggedIn s = false ->
    forall r,
      In r [getAllSymbols rnd s; getSymbol symbol rnd s;
            startTradeTransaction transaction rnd s;
            getTradeTransactionStatus order rnd s] ->
      returned_state (snd r) (fst r) = Some (Rejected (Error (JStr "Not logged in")))
      /\ nothing_sent s (snd r).
Proof.
  intros s rnd symbol transaction order H r Hr.
  simpl in Hr.
  destruct Hr as [<-|[<-|[<-|[<-|[]]]]];
    apply guarded_command_not_logged_in; exact H.
Qed.

Lemma business_commands_require_login_witness :
  let s := run (new_XTBClient demo no_config 1700000000000) [WsOpen] in
  _isLoggedIn s = false
  /\ returned_state (snd (getSymbol "EURUSD" "0.4fzyo82mvyr" s)) 0
     = Some (Rejected (Error (JStr "Not logged in")))
  /\ wire (_ws (snd (getSymbol "EURUSD" "0.4fzyo82mvyr" s))) = wire (_ws s).
Proof.
  split; [reflexivity|].
  destruct (business_commands_require_login
              (run (new_XTBClient demo no_config 1700000000000) [WsOpen])
              "0.4fzyo82mvyr" "EURUSD" JNull 0 eq_refl
              (getSymbol "EURUSD" "0.4fzyo82mvyr"
                 (run (new_XTBClient demo no_config 1700000000000) [WsOpen])))
    as [R [W _]].
  - simpl. right. left. reflexivity.
  - split; [exact R | rewrite W; reflexivity].
Defined.

(** ** Login and logout *)

(** C10. [logout] hands the [logout] command to the governor under the tag
    of the call and clears [isLoggedIn] in the call itself, before any
    reply, while the call is pending; nothing that happens afterwards (a
    reply reporting success or failure, no reply and a timeout, any other
    method) sets it again as long as no [login] is waiting for its reply
    and none is made.  After [login], the reply bearing its tag, whenever
    it arrives while the call is pending, sets [isLoggedIn] and stores
    [streamSessionId] when its [status] is true, and leaves both as they
    were when it is not. *)
Theorem logout_unconditional_login_on_status :
  forall (s : Client) (rnd : string),
    _isLoggedIn (snd (logout rnd s)) = false
    /\ (forall es,
          existsb pending_login (promises s) = false ->
          forallb (fun e => negb (is_login e)) es = true ->
          _isLoggedIn (run (snd (logout rnd s)) es) = false)
    /\ (forall userId password appName o,
          (forall t p, In (OnData t p) (on_message (_ws s)) -> t <> rnd) ->
          bears o rnd ->
          let s' := step (snd (login userId password appName rnd s))
                         (WsMessage (Text (JObj o))) in
          if truthy (obj_get o "status")
          then _isLoggedIn s' = true
               /\ _streamSessionId s' = obj_get o "streamSessionId"
          else _isLoggedIn s' = _isLoggedIn s
               /\ _streamSessionId s' = _streamSessionId s)
    /\ (let r := logout rnd s in
        submitted (throttle (snd r))
        = Text (JObj [("command", JStr "logout"); ("customTag", JStr rnd)])
          :: submitted (throttle s)
        /\ fst r = List.length (promises s)
        /\ promises (snd r) = promises s ++ [(Pending, KNone)]
        /\ promise_state (snd r) (fst r) = Some Pending
        /\ on_message (_ws (snd r)) = on_message (_ws s) ++ [OnData rnd (fst r)])
    /\ (forall kind mode cfg t0 es userId password appName es1 o,
          s = run (construct kind mode cfg t0) es ->
          let s1 := run (snd (login userId password appName rnd s)) es1 in
          promise_state s1 (List.length (promises s)) = Some Pending ->
          bears o rnd ->
          let s' := step s1 (frame o) in
          if truthy (obj_get o "status")
          then _isLoggedIn s' = true
               /\ _streamSessionId s' = obj_get o "streamSessionId"
          else _isLoggedIn s' = _isLoggedIn s1
               /\ _streamSessionId s' = _streamSessionId s1).
Proof.
  intros s rnd. split; [reflexivity|]. split; [|split; [|split]].
  - intros es Hs Hes.
    apply (logged_out_run es (snd (logout rnd s)) Hes).
    unfold logout, logout_then.
    pose proof (sendCommandAndAwaitResponse_effect
                  [("command", JStr "logout")] None rnd KNone s) as E.
    destruct (sendCommandAndAwaitResponse _ _ _ _ s) as [p s1].
    cbn in E. destruct E as (_ & E & _). split; [reflexivity|].
    cbn. rewrite E, existsb_app, Hs. reflexivity.
  - intros userId password appName o Hs Hb. unfold login. cbn zeta.
    destruct (new_returned s) as [q s0] eqn:Eq.
    assert (Es0 : s0 = with_returned (fun rs => rs ++ [Pending]) s).
    { unfold new_returned in Eq. inversion Eq. reflexivity. }
    match goal with |- context [sendCommandAndAwaitResponse ?d None rnd (KLogin q) s0] =>
      pose proof (sendCommandAndAwaitResponse_effect d None rnd (KLogin q) s0) as E;
      destruct (sendCommandAndAwaitResponse d None rnd (KLogin q) s0) as [p s1]
    end.
    cbn [fst snd] in E. destruct E as (Ep & Eps & El & Ef & Esid & _).
    cbn [snd step]. rewrite deliver_object, El, fold_left_app.
    assert (Hs0 : forall t p', In (OnData t p') (on_message (_ws s0)) -> t <> rnd).
    { rewrite Es0. exact Hs. }
    destruct (session_fold_other o rnd (on_message (_ws s0)) s1 Hb Hs0) as [F1 F2].
    set (s2 := fold_left (react o) (on_message (_ws s0)) s1) in *.
    unfold session in F1. inversion F1 as [[G1 G2 G3]]. clear F1.
    cbn [fold_left]. rewrite react_onData, Hb. simpl strict_eq_str.
    rewrite String.eqb_refl. unfold settle. cbn [promises ws_off with_ws].
    rewrite G3, Eps, Ep, nth_error_snoc.
    cbn. destruct (truthy (obj_get o "status")); cbn.
    + split; reflexivity.
    + rewrite G1, G2, Ef, Esid, Es0. split; reflexivity.
  - cbv zeta. unfold logout, logout_then.
    pose proof (sendCommandAndAwaitResponse_effect
                  [("command", JStr "logout")] None rnd KNone s) as E.
    cbv zeta in E. destruct E as (E1 & E2 & E3 & _).
    assert (Es : submitted (throttle (snd (sendCommandAndAwaitResponse
                   [("command", JStr "logout")] None rnd KNone s)))
                 = Text (JObj [("command", JStr "logout"); ("customTag", JStr rnd)])
                   :: submitted (throttle s)).
    { unfold sendCommandAndAwaitResponse, new_promise. cbv beta iota zeta.
      cbn [snd]. rewrite submitted_sendThrottled. reflexivity. }
    destruct (sendCommandAndAwaitResponse _ _ _ _ s) as [p s1].
    cbn [fst snd] in *. split; [exact Es|]. split; [exact E1|].
    split; [exact E2|].
    split; [|exact E3]. unfold promise_state. cbn [promises set_isLoggedIn].
    rewrite E2, E1, nth_error_snoc. reflexivity.
  - intros kind mode cfg t0 es userId password appName es1 o -> s1 Hp Hb.
    cbv zeta.
    pose proof (login_reply_later userId password appName rnd _ es1 o
                  (reachable_sound kind mode cfg t0 es)
                  (proj1 (reachable_listening kind mode cfg t0 es)) Hp Hb) as R.
    fold s1 in R. unfold credentials in R.
    destruct (truthy (obj_get o "status")); inversion R; split; reflexivity.
Qed.

Lemma logout_unconditional_login_on_status_witness :
  let s := run (new_XTBClient demo no_config 1700000000000) [WsOpen; WsSent 0 None] in
  let reply := [("status", JBool true);
                ("streamSessionId", JStr "8469308861804289383");
                ("customTag", JStr "0.9f3a")] in
  _isLoggedIn
    (run (snd (logout "0.k2j4" s))
       [WsMessage (Text (JObj [("status", JBool true); ("customTag", JStr "0.k2j4")]));
        Tick]) = false
  /\ _isLoggedIn
       (step (snd (login "11223344" "secret" None "0.9f3a" s))
          (WsMessage (Text (JObj reply)))) = true
  /\ submitted (throttle (snd (logout "0.k2j4" s)))
     = Text (JObj [("command", JStr "logout"); ("customTag", JStr "0.k2j4")])
       :: submitted (throttle s)
  /\ _isLoggedIn
       (step (run (snd (login "11223344" "secret" None "0.9f3a" s))
                  (wait 250 ++ [WsSent 1 None] ++ wait 40))
             (frame reply)) = true.
Proof.
  cbv zeta. split; [|split; [|split]].
  - apply (proj1 (proj2 (logout_unconditional_login_on_status
                           (run (new_XTBClient demo no_config 1700000000000)
                                [WsOpen; WsSent 0 None]) "0.k2j4")));
      reflexivity.
  - pose proof (proj1 (proj2 (proj2 (logout_unconditional_login_on_status
                                (run (new_XTBClient demo no_config 1700000000000)
                                     [WsOpen; WsSent 0 None]) "0.9f3a")))
                  "11223344" "secret" None
                  [("status", JBool true);
                   ("streamSessionId", JStr "8469308861804289383");
                   ("customTag", JStr "0.9f3a")]) as H.
    apply H.
    + intros t p [].
    + reflexivity.
  - apply (proj1 (proj2 (proj2 (proj2 (logout_unconditional_login_on_status
                           (run (new_XTBClient demo no_config 1700000000000)
                                [WsOpen; WsSent 0 None]) "0.k2j4"))))).
  - pose proof (proj2 (proj2 (proj2 (proj2 (logout_unconditional_login_on_status
                                (run (new_XTBClient demo no_config 1700000000000)
                                     [WsOpen; WsSent 0 None]) "0.9f3a"))))
                  None demo no_config 1700000000000 [WsOpen; WsSent 0 None]
                  "11223344" "secret" None
                  (wait 250 ++ [WsSent 1 None] ++ wait 40)
                  [("status", JBool true);
                   ("streamSessionId", JStr "8469308861804289383");
                   ("customTag", JStr "0.9f3a")] eq_refl) as H.
    cbv zeta in H.
    match type of H with ?A -> _ => assert (Hp : A) by (vm_compute; reflexivity) end.
    specialize (H Hp eq_refl).
    assert (Es : truthy (obj_get [("status", JBool true);
                                  ("streamSessionId", JStr "8469308861804289383");
                                  ("customTag", JStr "0.9f3a")] "status") = true)
      by reflexivity.
    rewrite Es in H. exact (proj1 H).
Defined.

(** * More of the client *)

(** ** Frames nobody waits for *)

Lemma channel_table : forall c name,
  channel c = Some name <-> exists cmd, c = JStr cmd /\ In (cmd, name) push_channels.
Proof.
  intros c name. split.
  - unfold channel. intros H.
    destruct c as [| |b|n|cmd|items|fields]; try discriminate H.
    exists cmd. split; [reflexivity|]. simpl in H.
    repeat match type of H with
    | (if String.eqb ?a ?b then _ else _) = _ =>
        let E := fresh "E" in
        destruct (String.eqb a b) eqn:E;
          [apply String.eqb_eq in E; subst; inversion H; subst; simpl; tauto |]
    end.
    discriminate H.
  - intros (cmd & -> & H). simpl in H.
    repeat (destruct H as [H|H]; [inversion H; subst; reflexivity|]).
    destruct H.
Qed.

(** X1. A frame that is an object and bears the tag of no registered call
    does one thing only.  On a streaming session [processMessage] emits
    the event of its [command] with its [data] when the command is one of
    the eight push commands (each under its own name, ['keepAlive'] as
    ['keepAliveFromServer']), and warns ['Unknown message type received']
    otherwise; on a command session nothing happens at all. *)
Theorem push_frame_emits_its_channel :
  forall (kind : option string) (mode : XTBMode) (cfg : ClientConfig) (t0 : Z)
         (es : list event) (o : object),
    let s := run (construct kind mode cfg t0) es in
    unclaimed o s ->
    step s (frame o)
    = match kind, channel (obj_get o "command") with
      | None, _ => s
      | Some _, Some name => emit name (Arg (obj_get o "data")) s
      | Some _, None =>
          console_log (ConsoleWarn "Unknown message type received" (JObj o)) s
      end
    /\ (forall name,
          channel (obj_get o "command") = Some name <->
          exists cmd, obj_get o "command" = JStr cmd /\ In (cmd, name) push_channels).
Proof.
  intros kind mode cfg t0 es o.
  destruct (reachable_listening kind mode cfg t0 es) as [[Hd _] Hs].
  generalize dependent (run (construct kind mode cfg t0) es).
  intros s Hd Hs. cbv zeta. intros Hu.
  split; [|intros name; apply channel_table].
  unfold frame. cbn [step]. rewrite deliver_object.
  unfold dispatcher_installed in Hd. rewrite Hs in Hd. unfold unclaimed in Hu.
  destruct kind as [sid|].
  - destruct (on_message (_ws s)) as [|[|] fs]; try discriminate Hd.
    cbn [fold_left]. rewrite fold_react_unclaimed.
    + unfold react. cbn. unfold processMessage. cbn.
      destruct (channel _); reflexivity.
    + exact Hd.
    + intros t p H. apply (Hu t p). right. exact H.
  - apply fold_react_unclaimed; assumption.
Qed.

Lemma push_frame_emits_its_channel_witness :
  step stream0 (frame tick_EURUSD)
  = emit "tickPrices" (Arg (obj_get tick_EURUSD "data")) stream0.
Proof.
  refine (proj1 (push_frame_emits_its_channel
                   (Some "8469308861804289383") demo no_config 1700000000000
                   [WsOpen; WsSent 0 None] tick_EURUSD _)).
  vm_compute. intros t p [H|[]]. discriminate H.
Defined.

(** X2. A frame that is not JSON, or that is the document [null], is read
    by the first listener only, which throws ([SyntaxError] from
    [JSON.parse], [TypeError] from the property access): the exception
    leaves the socket's emit, no other listener runs and nothing else
    changes.  With no listener registered the frame is dropped. *)
Theorem unreadable_frame_throws :
  forall (s : Client) (d : Data) (e : error),
    unreadable d = Some e ->
    step s (WsMessage d)
    = match on_message (_ws s) with
      | [] => s
      | _ :: _ => uncaught_exception e s
      end.
Proof.
  intros s d e H. cbn [step].
  destruct (on_message (_ws s)) as [|f fs]; [reflexivity|].
  destruct d as [[| | | | | |]|raw]; try discriminate H;
    inversion H; subst; destruct f; reflexivity.
Qed.

Lemma unreadable_frame_throws_witness :
  uncaught (trace (step stream0 (WsMessage (Malformed "<html>"))))
  = [SyntaxError "Unexpected token in JSON"].
Proof.
  rewrite (unreadable_frame_throws stream0 (Malformed "<html>")
             (SyntaxError "Unexpected token in JSON") eq_refl).
  reflexivity.
Defined.

(** ** Subscribing without a stream session *)

Lemma subscribe_methods_shape : forall symbol options f,
  In f (subscribe_methods symbol options) ->
  exists c a, f = subscribeToStream c a.
Proof.
  intros symbol options f H. simpl in H.
  repeat (destruct H as [<-|H]; [eexists; eexists; reflexivity|]).
  destruct H.
Qed.

(** X3. On a client whose [_streamSessionId] is empty or missing, every
    subscribe method returns a promise rejected with
    [Error('No stream session ID')] and nothing reaches the governor, the
    socket or the timers. *)
Theorem subscribe_needs_stream_session :
  forall (s : Client) (symbol : string) (options : option TickOptions),
    truthy (_streamSessionId s) = false ->
    forall f, In f (subscribe_methods symbol options) ->
      let r := returning f s in
      returned_state (snd r) (fst r)
      = Some (Rejected (Error (JStr "No stream session ID")))
      /\ nothing_sent s (snd r).
Proof.
  intros s symbol options H f Hf. cbv zeta.
  destruct (subscribe_methods_shape _ _ _ Hf) as (c & a & ->).
  unfold returning, new_returned, subscribeToStream.
  cbv beta iota zeta. cbn [snd fst _streamSessionId with_returned].
  rewrite H. cbn [negb]. cbv beta iota.
  split; [|repeat split].
  pose proof (new_returned_rejected s no_stream_session) as R.
  unfold new_returned in R. exact R.
Qed.

Lemma subscribe_needs_stream_session_witness :
  returned_state (snd (returning subscribeBalance unbound_stream))
                 (fst (returning subscribeBalance unbound_stream))
  = Some (Rejected (Error (JStr "No stream session ID"))).
Proof.
  refine (proj1 (subscribe_needs_stream_session unbound_stream "EURUSD" None
                   _ subscribeBalance _)).
  - vm_compute. reflexivity.
  - simpl. right. left. reflexivity.
Defined.

(** ** The reply of a correlated call and the code that awaits it *)

Lemma with_trace_twice : forall f g s,
  with_trace g (with_trace f s) = with_trace (fun t => g (f t)) s.
Proof. reflexivity. Qed.

(** Listeners of other calls leave the client alone; [processMessage]
    writes to the trace only. *)
Lemma fold_react_fresh : forall o rnd fs s,
  bears o rnd ->
  (forall t p, In (OnData t p) fs -> t <> rnd) ->
  exists g, fold_left (react o) fs s = with_trace g s.
Proof.
  intros o rnd fs. induction fs as [|f fs IH]; intros s Hb Hf; simpl.
  - exists (fun t => t). symmetry. apply with_trace_id.
  - assert (Hf' : forall t p, In (OnData t p) fs -> t <> rnd).
    { intros t p H. apply (Hf t p). right. exact H. }
    destruct f as [t p|].
    + rewrite (react_other_tag o rnd t p s Hb) by (apply (Hf t p); left; reflexivity).
      apply IH; assumption.
    + rewrite react_processMessage.
      destruct (processMessage_trace (Text (JObj o)) s) as [g1 ->].
      destruct (IH (with_trace g1 s) Hb Hf') as [g2 ->].
      exists (fun t => g2 (g1 t)). apply with_trace_twice.
Qed.

(** The reply that bears the tag of the newest call settles its promise
    and runs the code that awaits it; before that, other listeners may have
    written to the trace. *)
Lemma reply_of_newest_call : forall x o rnd k ps fs,
  promises x = ps ++ [(Pending, k)] ->
  on_message (_ws x) = fs ++ [OnData rnd (List.length ps)] ->
  (forall t p, In (OnData t p) fs -> t <> rnd) ->
  bears o rnd ->
  exists g,
    step x (frame o)
    = run_cont k (Fulfilled (JObj o))
        (with_promises (settle_at (List.length ps) (Fulfilled (JObj o)))
           (ws_off (List.length ps) (with_trace g x))).
Proof.
  intros x o rnd k ps fs Eps El Hf Hb.
  unfold frame. cbn [step]. rewrite deliver_object, El, fold_left_app.
  destruct (fold_react_fresh o rnd fs x Hb Hf) as [g ->].
  exists g. cbn [fold_left]. rewrite react_onData, Hb. simpl strict_eq_str.
  rewrite String.eqb_refl. unfold settle. cbn [promises ws_off with_ws with_trace].
  rewrite Eps, nth_error_snoc. reflexivity.
Qed.

Lemma reply_runs_continuation : forall data timeout rnd k s o,
  fresh_tag rnd s -> bears o rnd ->
  let r := sendCommandAndAwaitResponse data timeout rnd k s in
  exists g,
    step (snd r) (frame o)
    = run_cont k (Fulfilled (JObj o))
        (with_promises (settle_at (fst r) (Fulfilled (JObj o)))
           (ws_off (fst r) (with_trace g (snd r)))).
Proof.
  intros data timeout rnd k s o Hf Hb.
  pose proof (sendCommandAndAwaitResponse_effect data timeout rnd k s) as E.
  cbv zeta in *.
  destruct (sendCommandAndAwaitResponse data timeout rnd k s) as [p s1].
  cbn [fst snd] in *. destruct E as (Ep & Eps & El & _). rewrite Ep in *.
  apply (reply_of_newest_call s1 o rnd k (promises s) (on_message (_ws s)));
    assumption.
Qed.

Lemma returned_sendThrottled_call : forall m p timeout s,
  returned (sendThrottled m (AwaitCall p timeout) s) = returned s.
Proof.
  intros m p timeout s. unfold sendThrottled, windowedDelay.
  destruct (window _ _ _) as [delay t].
  destruct (0 <? delay); [reflexivity|].
  unfold sendMessage. cbn. destruct (readyState (_ws s)); reflexivity.
Qed.

Lemma returned_sendCommandAndAwaitResponse : forall data timeout rnd k s,
  returned (snd (sendCommandAndAwaitResponse data timeout rnd k s)) = returned s.
Proof.
  intros. unfold sendCommandAndAwaitResponse, new_promise.
  cbv beta iota zeta. cbn [snd]. rewrite returned_sendThrottled_call. reflexivity.
Qed.







(** ** Closing a command session *)




(** ** The frame of a request *)

Lemma JSON_roundtrip_object : forall o, JSON_roundtrip (JObj o) = JObj (written o).
Proof.
  intros o. reflexivity.
Qed.

Lemma obj_get_obj_set : forall o k v k',
  obj_get (obj_set o k v) k' = if String.eqb k k' then v else obj_get o k'.
Proof.
  induction o as [|[k0 v0] rest IH]; intros k v k'; simpl.
  - destruct (String.eqb k k'); reflexivity.
  - destruct (String.eqb k0 k) eqn:E0; simpl.
    + apply String.eqb_eq in E0. subst k0.
      destruct (String.eqb k k'); reflexivity.
    + rewrite IH. destruct (String.eqb k0 k') eqn:E1; [|reflexivity].
      apply String.eqb_eq in E1. subst k0. rewrite String.eqb_sym, E0. reflexivity.
Qed.

Lemma keys_obj_set : forall o k v k',
  In k' (map fst (obj_set o k v)) <-> k' = k \/ In k' (map fst o).
Proof.
  induction o as [|[k0 v0] rest IH]; intros k v k'; simpl.
  - intuition.
  - destruct (String.eqb k0 k) eqn:E0; simpl.
    + apply String.eqb_eq in E0. subst k0. intuition.
    + rewrite IH. intuition.
Qed.

Lemma NoDup_obj_set : forall o k v,
  NoDup (map fst o) -> NoDup (map fst (obj_set o k v)).
Proof.
  induction o as [|[k0 v0] rest IH]; intros k v H; simpl.
  - constructor; [intros [] | constructor].
  - inversion H as [|x l Hx Hl]; subst.
    destruct (String.eqb k0 k) eqn:E0; simpl.
    + constructor; assumption.
    + constructor; [|apply IH; exact Hl].
      rewrite keys_obj_set. intros [->|Hin]; [|contradiction].
      rewrite String.eqb_refl in E0. discriminate.
Qed.

Lemma obj_get_absent : forall o k, ~ In k (map fst o) -> obj_get o k = JUndefined.
Proof.
  induction o as [|[k0 v0] rest IH]; intros k H; simpl; [reflexivity|].
  destruct (String.eqb k0 k) eqn:E.
  - apply String.eqb_eq in E. subst. exfalso. apply H. left. reflexivity.
  - apply IH. intros Hin. apply H. right. exact Hin.
Qed.

Lemma keys_written : forall o k, In k (map fst (written o)) -> In k (map fst o).
Proof.
  induction o as [|[k0 v0] rest IH]; intros k H; simpl in *; [exact H|].
  destruct v0; simpl in H; try (destruct H as [H|H]; [left; exact H|]);
    right; apply IH; exact H.
Qed.

Lemma obj_get_written : forall o k,
  NoDup (map fst o) -> obj_get (written o) k = JSON_roundtrip (obj_get o k).
Proof.
  induction o as [|[k0 v0] rest IH]; intros k H; [reflexivity|].
  inversion H as [|x l Hx Hl]; subst.
  cbn [obj_get]. destruct (String.eqb k0 k) eqn:E.
  - apply String.eqb_eq in E. subst k0.
    destruct v0; cbn [written obj_get]; rewrite ?String.eqb_refl; try reflexivity.
    apply obj_get_absent. intros Hin. apply Hx. apply keys_written. exact Hin.
  - destruct v0; cbn [written obj_get]; rewrite ?E; apply IH; exact Hl.
Qed.

(** X7. The frame of a correlated call is the payload with [customTag] set
    to the tag of the call, even when the payload has a [customTag] of its
    own: every other property is written as the payload has it, and the
    listener registered for the call waits for that same tag. *)
Theorem request_frame_is_payload_with_tag :
  forall (data : object) (timeout : option Z) (rnd : string) (k : cont)
         (s : Client),
    NoDup (map fst data) ->
    let r := sendCommandAndAwaitResponse data timeout rnd k s in
    exists o,
      submitted (throttle (snd r)) = Text (JObj o) :: submitted (throttle s)
      /\ bears o rnd
      /\ (forall key, key <> "customTag" ->
            obj_get o key = JSON_roundtrip (obj_get data key))
      /\ on_message (_ws (snd r)) = on_message (_ws s) ++ [OnData rnd (fst r)]
      /\ promise_state (snd r) (fst r) = Some Pending.
Proof.
  intros data timeout rnd k s Hnd. cbv zeta.
  pose proof (sendCommandAndAwaitResponse_effect data timeout rnd k s) as E.
  cbv zeta in E. destruct E as (Ep & Eps & El & _).
  exists (written (obj_set data "customTag" (JStr rnd))).
  split; [|split; [|split; [|split]]].
  - unfold sendCommandAndAwaitResponse, new_promise. cbv beta iota zeta.
    cbn [snd]. rewrite submitted_sendThrottled.
    unfold JSON_stringify. rewrite JSON_roundtrip_object. reflexivity.
  - unfold bears. rewrite obj_get_written by (apply NoDup_obj_set; exact Hnd).
    rewrite obj_get_obj_set, String.eqb_refl. reflexivity.
  - intros key Hk. rewrite obj_get_written by (apply NoDup_obj_set; exact Hnd).
    rewrite obj_get_obj_set.
    destruct (String.eqb "customTag" key) eqn:Ek; [|reflexivity].
    apply String.eqb_eq in Ek. congruence.
  - exact El.
  - unfold promise_state. rewrite Eps, Ep, nth_error_snoc. reflexivity.
Qed.

Lemma request_frame_is_payload_with_tag_witness :
  exists o,
    submitted (throttle (snd (sendCommandAndAwaitResponse
                                [("command", JStr "getServerTime");
                                 ("customTag", JStr "mine")]
                                None "0.5xk2" KNone client0)))
    = Text (JObj o) :: submitted (throttle client0)
    /\ bears o "0.5xk2".
Proof.
  destruct (request_frame_is_payload_with_tag
              [("command", JStr "getServerTime"); ("customTag", JStr "mine")]
              None "0.5xk2" KNone client0) as (o & A & B & _).
  - repeat constructor; simpl; intuition discriminate.
  - exists o. split; [exact A | exact B].
Defined.

(** ** Calls that need no login *)

(** X8. [getAPIVersion] needs no login.  It sends [getAPIVersion] with
    the tag of the call, and the reply that bears the tag settles its
    promise: with [returnData.version] when [status] is truthy (a
    [TypeError] when [returnData] is missing), with [Error(errorDescr)]
    when it is not. *)
Theorem getAPIVersion_reads_the_version :
  forall (s : Client) (rnd : string) (o : object),
    fresh_tag rnd s -> bears o rnd ->
    let r := getAPIVersion rnd s in
    submitted (throttle (snd r))
    = Text (JObj [("command", JStr "getAPIVersion"); ("customTag", JStr rnd)])
      :: submitted (throttle s)
    /\ getAPIVersion_result (fst r) (snd r) = Some Pending
    /\ getAPIVersion_result (fst r) (step (snd r) (frame o))
       = Some (if truthy (obj_get o "status")
               then match obj_get o "returnData" with
                    | JObj returnData => Fulfilled (obj_get returnData "version")
                    | JUndefined =>
                        Rejected (TypeError "Cannot read properties of undefined")
                    | JNull => Rejected (TypeError "Cannot read properties of null")
                    | _ => Fulfilled JUndefined
                    end
               else Rejected (Error (obj_get o "errorDescr"))).
Proof.
  intros s rnd o Hf Hb. unfold getAPIVersion.
  set (data := [("command", JStr "getAPIVersion")]).
  pose proof (reply_runs_continuation data None rnd KNone s o Hf Hb) as R.
  pose proof (sendCommandAndAwaitResponse_effect data None rnd KNone s) as E.
  assert (Es : submitted (throttle (snd (sendCommandAndAwaitResponse
                                          data None rnd KNone s)))
               = JSON_stringify (spread data [("customTag", JStr rnd)])
                 :: submitted (throttle s)).
  { unfold sendCommandAndAwaitResponse, new_promise. cbv beta iota zeta.
    cbn [snd]. rewrite submitted_sendThrottled. reflexivity. }
  cbv zeta in *.
  destruct (sendCommandAndAwaitResponse data None rnd KNone s) as [p s1].
  cbn [fst snd] in *. destruct R as [g R]. destruct E as (Ep & Eps & El & _).
  split; [exact Es|]. split.
  - unfold getAPIVersion_result, promise_state.
    rewrite Eps, Ep, nth_error_snoc. reflexivity.
  - rewrite R. unfold getAPIVersion_result, promise_state. cbn.
    rewrite Eps, Ep, settle_at_pending with (k := KNone) by apply nth_error_snoc.
    cbn. destruct (truthy (obj_get o "status")); [|reflexivity].
    destruct (obj_get o "returnData"); reflexivity.
Qed.

Lemma getAPIVersion_reads_the_version_witness :
  getAPIVersion_result
    (fst (getAPIVersion "0.v1" client0))
    (step (snd (getAPIVersion "0.v1" client0))
          (frame [("status", JBool true);
                  ("returnData", JObj [("version", JStr "2.5.0")]);
                  ("customTag", JStr "0.v1")]))
  = Some (Fulfilled (JStr "2.5.0")).
Proof.
  refine (proj2 (proj2 (getAPIVersion_reads_the_version client0 "0.v1"
                          [("status", JBool true);
                           ("returnData", JObj [("version", JStr "2.5.0")]);
                           ("customTag", JStr "0.v1")] _ _))).
  - vm_compute. intros t p [].
  - reflexivity.
Defined.

(** ** A streaming client from a command session *)




(** ** Before the socket opens *)

(** X11. Until the socket opens the client is not healthy and nothing is
    written to the socket, whatever is called on it and however long it
    takes. *)
Theorem nothing_is_written_before_open :
  forall (kind : option string) (mode : XTBMode) (cfg : ClientConfig) (t0 : Z)
         (es : list event),
    forallb (fun e => negb (is_open e)) es = true ->
    isHealthy (run (construct kind mode cfg t0) es) = false
    /\ wire (_ws (run (construct kind mode cfg t0) es)) = [].
Proof.
  intros kind mode cfg t0 es H.
  assert (S0 : shut (construct kind mode cfg t0))
    by (destruct kind; discriminate).
  destruct (mute_run es _ H S0) as [S1 W]. split.
  - unfold isHealthy. unfold shut in S1.
    destruct (readyState _); [reflexivity | contradiction | reflexivity | reflexivity].
  - rewrite W. destruct kind; reflexivity.
Qed.

Lemma nothing_is_written_before_open_witness :
  isHealthy (run (construct None demo no_config 1700000000000) before_open) = false
  /\ wire (_ws (run (construct None demo no_config 1700000000000) before_open)) = [].
Proof.
  apply (nothing_is_written_before_open None demo no_config 1700000000000
           before_open).
  reflexivity.
Defined.

(** ** The socket opens *)

(** The two ways of [_sendThrottled]: the window is over and the frame
    goes out now, or the window is taken and a timer is armed for the
    start of the next one. *)
Lemma sendThrottled_idle : forall m w s,
  (interval s <? now (loop s) - currentTick (throttle s)) = true ->
  sendThrottled m w s
  = sendMessage m w
      (with_throttle
         (fun t => {| currentTick := now (loop s); activeCount := 1;
                      submitted := m :: submitted t;
                      dispatched := dispatched t |}) s).
Proof.
  intros m w s H. unfold sendThrottled, windowedDelay, window.
  rewrite H. reflexivity.
Qed.

Lemma sendThrottled_busy : forall m w s,
  (interval s <? now (loop s) - currentTick (throttle s)) = false ->
  activeCount (throttle s) = 1 ->
  (0 <? currentTick (throttle s) + interval s - now (loop s)) = true ->
  sendThrottled m w s
  = setTimeout (CbThrottle m w)
      (currentTick (throttle s) + interval s - now (loop s))
      (with_throttle
         (fun t => {| currentTick := currentTick t + interval s; activeCount := 1;
                      submitted := m :: submitted t;
                      dispatched := dispatched t |}) s).
Proof.
  intros m w s H1 H2 H3. unfold sendThrottled, windowedDelay, window.
  rewrite H1, H2. change (1 <? 1) with false. cbv beta iota zeta.
  rewrite H3. reflexivity.
Qed.

Lemma sendMessage_open : forall m w s,
  readyState (_ws s) = OPEN ->
  sendMessage m w s
  = with_ws (fun x =>
      {| readyState := readyState x; on_message := on_message x;
         wire := (now (loop s), m) :: wire x;
         callbacks := callbacks x ++ [(List.length (wire x), w)];
         pings := pings x |})
      (with_throttle (log_dispatch (now (loop s)) m) s).
Proof.
  intros m w s H. unfold sendMessage. cbn [readyState _ws with_throttle].
  rewrite H. reflexivity.
Qed.

Lemma ping_open : forall w s,
  readyState (_ws s) = OPEN ->
  ping w s
  = sendThrottled (JSON_stringify (ping_frame s)) w
      (with_ws (fun x =>
         {| readyState := readyState x; on_message := on_message x;
            wire := wire x; callbacks := callbacks x;
            pings := now (loop s) :: pings x |}) s).
Proof. intros w s H. unfold ping. rewrite H. reflexivity. Qed.

Lemma ping_frame_bound : forall s sid,
  _streamSessionId s = JStr sid -> sid <> "" ->
  JSON_stringify (ping_frame s)
  = Text (JObj [("command", JStr "ping"); ("streamSessionId", JStr sid)]).
Proof.
  intros s sid H Hne. unfold ping_frame. rewrite H. simpl truthy.
  apply String.eqb_neq in Hne. rewrite Hne. reflexivity.
Qed.

Lemma subscribeToStream_bound : forall c w s sid,
  _streamSessionId s = JStr sid -> sid <> "" ->
  subscribeToStream c [] w s
  = sendThrottled (Text (JObj [("command", JStr c); ("streamSessionId", JStr sid)]))
      w s.
Proof.
  intros c w s sid H Hne. unfold subscribeToStream. rewrite H. simpl truthy.
  apply String.eqb_neq in Hne. rewrite Hne. reflexivity.
Qed.

(** X12. When the socket of a new client opens, ['open'] is emitted, the
    protocol ping and the first [ping] command are written at once, and on
    a streaming session [getKeepAlive] is handed to the governor behind it,
    all bearing the stream session identifier.  The keepalive interval is
    not armed yet: it waits for the first ping to complete. *)
Theorem open_sends_the_first_ping :
  forall (kind : option string) (mode : XTBMode) (cfg : ClientConfig) (t0 : Z),
    let i := nullish (commandThrottleInterval cfg) DEFAULT_THROTTLE in
    0 < i -> i < t0 -> kind <> Some "" ->
    let s := step (construct kind mode cfg t0) WsOpen in
    let session := match kind with
                   | Some sid => [("streamSessionId", JStr sid)]
                   | None => []
                   end in
    let ping_command := Text (JObj (("command", JStr "ping") :: session)) in
    emitted (trace s) = [("open", NoArg)]
    /\ pings (_ws s) = [t0]
    /\ wire (_ws s) = [(t0, ping_command)]
    /\ callbacks (_ws s) = [(0%nat, AwaitOpenPing)]
    /\ submitted (throttle s)
       = match kind with
         | Some _ =>
             [Text (JObj (("command", JStr "getKeepAlive") :: session));
              ping_command]
         | None => [ping_command]
         end
    /\ _pingInterval s = None
    /\ errors s = ([], []).
Proof.
  intros kind mode cfg t0 i Hi Ht Hk. cbv zeta.
  assert (E1 : (i <? t0 - 0) = true) by (apply Z.ltb_lt; lia).
  assert (E2 : (i <? t0 - t0) = false) by (apply Z.ltb_ge; lia).
  assert (E3 : (0 <? t0 + i - t0) = true) by (apply Z.ltb_lt; lia).
  cbn [step]. unfold on_open.
  rewrite ping_open by (destruct kind; reflexivity).
  rewrite sendThrottled_idle by (destruct kind; exact E1).
  rewrite sendMessage_open by (destruct kind; reflexivity).
  destruct kind as [sid|].
  - assert (Hne : sid <> "") by (intros ->; apply Hk; reflexivity).
    rewrite ping_frame_bound with (sid := sid) by (reflexivity || exact Hne).
    change (_streaming _) with true. cbv iota.
    unfold subscribeKeepAlive.
    rewrite subscribeToStream_bound with (sid := sid)
      by (reflexivity || exact Hne).
    rewrite sendThrottled_busy; [repeat split | exact E2 | reflexivity | exact E3].
  - change (_streaming _) with false. cbv iota. repeat split.
Qed.

Lemma open_sends_the_first_ping_witness :
  submitted (throttle (step (construct (Some "8469308861804289383") real
                               no_config 1700000000000) WsOpen))
  = [Text (JObj [("command", JStr "getKeepAlive");
                 ("streamSessionId", JStr "8469308861804289383")]);
     Text (JObj [("command", JStr "ping");
                 ("streamSessionId", JStr "8469308861804289383")])].
Proof.
  refine (proj1 (proj2 (proj2 (proj2 (proj2
            (open_sends_the_first_ping (Some "8469308861804289383") real
               no_config 1700000000000 _ _ _)))))).
  - reflexivity.
  - reflexivity.
  - discriminate.
Defined.

(** ** The keepalive interval *)

Lemma find_timer_rearm : forall h d s x,
  find_timer h s = Some x ->
  find_timer h (with_loop (rearm h d) s)
  = Some {| tid := h; due := now (loop s) + d; period := Some d;
            action := action x |}.
Proof.
  intros h d s x. unfold find_timer. cbn.
  induction (timers (loop s)) as [|t ts IH]; simpl; [discriminate|].
  destruct (Nat.eqb (tid t) h) eqn:E; simpl.
  - intros H. inversion H; subst. rewrite Nat.eqb_refl. reflexivity.
  - rewrite E. exact IH.
Qed.

Lemma find_app_found : forall (A : Type) (f : A -> bool) (l l' : list A) (x : A),
  find f l = Some x -> find f (l ++ l') = Some x.
Proof.
  induction l as [|a l IH]; intros l' x H; simpl in *; [discriminate|].
  destruct (f a); [exact H | apply IH; exact H].
Qed.

Lemma interval_ping_sendThrottled : forall m s h x,
  find_timer h s = Some x ->
  let s' := sendThrottled m AwaitIntervalPing s in
  find_timer h s' = Some x
  /\ errors s' = errors s /\ returned s' = returned s
  /\ pings (_ws s') = pings (_ws s).
Proof.
  intros m s h x H. cbv zeta. unfold sendThrottled, windowedDelay.
  destruct (window _ _ _) as [delay t].
  destruct (0 <? delay).
  - repeat split. unfold find_timer in *. cbn.
    apply find_app_found. exact H.
  - unfold sendMessage. cbn. destruct (readyState (_ws s)); repeat split; exact H.
Qed.

(** X13. Each time the keepalive interval fires on a socket that has
    opened, one [ping] command is handed to the governor (with the stream
    session identifier when the session has one), a protocol ping is sent
    when the socket is open, and the interval is due again one period
    later.  Nothing is thrown and no rejection is left unhandled, whether
    or not the send succeeds, and no call is touched. *)
Theorem keepalive_interval_fires :
  forall (s : Client) (h : nat) (x : timer) (d : Z),
    find_timer h s = Some x -> period x = Some d -> action x = CbPing ->
    readyState (_ws s) <> CONNECTING ->
    let s' := fire h s in
    submitted (throttle s') = JSON_stringify (ping_frame s) :: submitted (throttle s)
    /\ pings (_ws s')
       = (if isHealthy s then [now (loop s)] else []) ++ pings (_ws s)
    /\ find_timer h s'
       = Some {| tid := h; due := now (loop s) + d; period := Some d;
                 action := CbPing |}
    /\ errors s' = errors s
    /\ promises s' = promises s
    /\ returned s' = returned s.
Proof.
  intros s h x d Hx Hp Ha Hr. cbv zeta. unfold fire. rewrite Hx, Hp, Ha.
  cbn [run_callback].
  pose proof (find_timer_rearm h d s x Hx) as F. rewrite Ha in F.
  set (s1 := with_loop (rearm h d) s) in *.
  assert (P : promises (ping AwaitIntervalPing s1) = promises s).
  { pose proof (core_eq _ _ (core_ping AwaitIntervalPing s1)) as C.
    destruct C as (_ & _ & C & _). exact C. }
  unfold isHealthy.
  destruct (readyState (_ws s)) eqn:E; [contradiction| | |].
  - rewrite ping_open in * by exact E.
    match goal with |- context [sendThrottled ?m _ ?y] =>
      destruct (interval_ping_sendThrottled m y h _ F) as (F1 & F2 & F3 & F4);
      pose proof (submitted_sendThrottled m AwaitIntervalPing y) as F5 end.
    cbv zeta in *. rewrite F1, F2, F3, F4, F5. repeat split. exact P.
  - unfold ping in *. change (readyState (_ws s1)) with (readyState (_ws s)) in *.
    rewrite E in *. unfold sendCommand in *.
    match goal with |- context [sendThrottled ?m _ ?y] =>
      destruct (interval_ping_sendThrottled m y h _ F) as (F1 & F2 & F3 & F4);
      pose proof (submitted_sendThrottled m AwaitIntervalPing y) as F5 end.
    cbv zeta in *. rewrite F1, F2, F3, F4, F5. repeat split. exact P.
  - unfold ping in *. change (readyState (_ws s1)) with (readyState (_ws s)) in *.
    rewrite E in *. unfold sendCommand in *.
    match goal with |- context [sendThrottled ?m _ ?y] =>
      destruct (interval_ping_sendThrottled m y h _ F) as (F1 & F2 & F3 & F4);
      pose proof (submitted_sendThrottled m AwaitIntervalPing y) as F5 end.
    cbv zeta in *. rewrite F1, F2, F3, F4, F5. repeat split. exact P.
Qed.

Lemma keepalive_interval_fires_witness :
  submitted (throttle (fire 0 client0))
  = JSON_stringify (ping_frame client0) :: submitted (throttle client0).
Proof.
  refine (proj1 (keepalive_interval_fires client0 0
                   {| tid := 0; due := 1700000010000; period := Some 10000;
                      action := CbPing |} 10000 _ _ _ _)).
  - vm_compute. reflexivity.
  - reflexivity.
  - reflexivity.
  - vm_compute. discriminate.
Defined.

(** ** The governor wastes no time *)

Lemma schedule_submit : forall i ids t l h m w,
  0 < i -> tidy ids l h -> governed i t l ->
  let '(t', l', _) := submit_gov i m w (t, l, h) in
  overlong l' = false ->
  schedule t' l'
  = (match schedule t l with
     | [] => now l
     | x :: _ => Z.max (now l) (fst x + i)
     end, m) :: schedule t l.
Proof.
  intros i ids t l h m w Hi T G. unfold submit_gov, window.
  pose proof (g_window _ _ _ G) as W.
  assert (Hj : (schedule t l = [] \/ currentTick t + i <= now l) ->
               jobs (timers l) = []).
  { intros Hc. destruct (jobs (timers l)) as [|j js] eqn:Ej; [reflexivity|].
    exfalso. destruct (schedule t l) as [|x rest] eqn:Es.
    - unfold schedule in Es. rewrite Ej in Es. simpl in Es.
      destruct (rev js); discriminate.
    - destruct (schedule_head_job t l x rest Es) as (y & Hy & Hd).
      { rewrite Ej. discriminate. }
      destruct W as [W _]. destruct (t_future _ _ _ T y Hy) as [Hf _].
      destruct Hc as [Hc|Hc]; [discriminate | lia]. }
  destruct (i <? now l - currentTick t) eqn:E1.
  - apply Z.ltb_lt in E1. change (0 <? 0) with false. cbv beta iota zeta.
    intros _. unfold schedule. simpl.
    assert (J : jobs (timers l) = []).
    { apply Hj. destruct (schedule t l) as [|x rest]; [left; reflexivity|].
      right. lia. }
    rewrite J. simpl. f_equal. f_equal.
    unfold schedule in W. rewrite J in W. simpl in W.
    destruct (dispatched t) as [|x rest]; [reflexivity|].
    destruct W as [W _]. lia.
  - apply Z.ltb_ge in E1.
    destruct (schedule t l) as [|x rest] eqn:Es; [lia|].
    destruct W as [W1 W2]. rewrite W2. change (1 <? 1) with false.
    cbv beta iota.
    destruct (0 <? currentTick t + i - now l) eqn:E2.
    + apply Z.ltb_lt in E2. cbv beta iota zeta. simpl overlong.
      intros Ho. apply orb_false_iff in Ho. destruct Ho as [_ Ho].
      unfold schedule in *. simpl. rewrite jobs_app, rev_app_distr. simpl.
      rewrite timer_delay_exact by (lia || exact Ho).
      rewrite Es. f_equal. f_equal. lia.
    + apply Z.ltb_ge in E2. cbv beta iota zeta. intros _.
      assert (J : jobs (timers l) = []) by (apply Hj; right; lia).
      unfold schedule in *. simpl. rewrite J in *. simpl in *.
      rewrite Es. f_equal. f_equal. lia.
Qed.

(** X14. The governor plans every frame as early as the rate limit
    allows.  Its schedule holds the frames it handed to [sendMessage],
    with the time it did, and the frames waiting in its timers, with the
    time they are due.  In any state a session reaches, a frame handed to
    [_sendThrottled] enters the schedule at the current time when the
    schedule is empty, and otherwise at the later of the current time and
    exactly one interval after the newest entry.  The statement is about
    the plan: a waiting frame is written when its timer fires. *)
Theorem governor_sends_as_early_as_allowed :
  forall (kind : option string) (mode : XTBMode) (cfg : ClientConfig) (t0 : Z)
         (es : list event) (m : Data) (w : waiter),
    let i := nullish (commandThrottleInterval cfg) DEFAULT_THROTTLE in
    let s := run (construct kind mode cfg t0) es in
    let s' := sendThrottled m w s in
    0 < i -> i < t0 -> overlong (loop s') = false ->
    schedule (throttle s') (loop s')
    = (match schedule (throttle s) (loop s) with
       | [] => now (loop s)
       | x :: _ => Z.max (now (loop s)) (fst x + i)
       end, m) :: schedule (throttle s) (loop s).
Proof.
  intros kind mode cfg t0 es m w i s s' H1 H2 Ho.
  destruct (run_sound es _ (construct_tidy kind mode cfg t0)) as [T G].
  specialize (G (construct_governed kind mode cfg t0 H1 H2)).
  destruct G as [Hi G]. fold s in Hi, T, G.
  assert (Ei : interval s = i).
  { unfold interval, s. rewrite config_run. destruct kind; reflexivity. }
  rewrite Ei in G.
  pose proof (gov_sendThrottled m w s) as Eg. fold s' in Eg. rewrite Ei in Eg.
  unfold tidy_at, Tidy, gov in T. unfold Governed, gov in G.
  assert (Ho0 : overlong (loop s) = false).
  { destruct (overlong (loop s)) eqn:E; [|reflexivity].
    pose proof (overlong_submit i (throttle s) (loop s) (_pingInterval s) m w E) as O.
    unfold gov in Eg. rewrite <- Eg in O. congruence. }
  destruct G as [G|G]; [congruence|].
  pose proof (schedule_submit i [] (throttle s) (loop s) (_pingInterval s) m w
                H1 T G) as S.
  unfold gov in Eg. rewrite <- Eg in S. apply S. exact Ho.
Qed.

Lemma governor_sends_as_early_as_allowed_witness :
  map fst
    (schedule
       (throttle (sendThrottled (Text (JObj [("command", JStr "getServerTime")]))
                    AwaitDiscarded
                    (run (construct None demo no_config 1700000000000) [WsOpen])))
       (loop (sendThrottled (Text (JObj [("command", JStr "getServerTime")]))
                AwaitDiscarded
                (run (construct None demo no_config 1700000000000) [WsOpen]))))
  = [1700000000250; 1700000000000].
Proof.
  pose proof (governor_sends_as_early_as_allowed
                None demo no_config 1700000000000 [WsOpen]
                (Text (JObj [("command", JStr "getServerTime")])) AwaitDiscarded)
    as H.
  cbv zeta in H. rewrite H.
  - vm_compute. reflexivity.
  - reflexivity.
  - reflexivity.
  - vm_compute. reflexivity.
Defined.

(** ** Listeners and pending calls *)

(** X15. In every state a session reaches, the [onData] listeners on the
    socket are exactly the calls that are pending, one each and in the
    order the calls were made: a call that was resolved or timed out has
    left no listener behind, and a listener never outlives its call. *)
Theorem listeners_are_the_pending_calls :
  forall (kind : option string) (mode : XTBMode) (cfg : ClientConfig) (t0 : Z)
         (es : list event),
    let s := run (construct kind mode cfg t0) es in
    listened (on_message (_ws s)) = pending_from 0 (promises s)
    /\ NoDup (listened (on_message (_ws s)))
    /\ forall p, (exists t, In (OnData t p) (on_message (_ws s)))
                 <-> promise_state s p = Some Pending.
Proof.
  intros kind mode cfg t0 es s.
  destruct (reachable_sound kind mode cfg t0 es) as (A & _ & _). fold s in A.
  unfold accounted in A. split; [exact A|]. split.
  - rewrite A. apply NoDup_pending_from.
  - intros p. rewrite <- in_listened, A, in_pending_from, Nat.sub_0_r.
    unfold promise_state. split.
    + intros [_ [k ->]]. reflexivity.
    + intros H. split; [lia|].
      destruct (nth_error (promises s) p) as [[st k]|]; [|discriminate].
      simpl in H. inversion H; subst. exists k. reflexivity.
Qed.

(** ** What reaches the wire *)

Lemma subsequence_In : forall (A : Type) (ys xs : list A) (a : A),
  subsequence xs ys -> In a xs -> In a ys.
Proof.
  induction ys as [|y ys IH]; intros xs a H Ha; simpl in H.
  - subst xs. exact Ha.
  - destruct xs as [|x xs]; [contradiction|].
    destruct H as [[-> H]|H].
    + destruct Ha as [<-|Ha]; [left; reflexivity | right; eapply IH; eauto].
    + right. eapply IH; eauto.
Qed.

Lemma subsequence_split : forall (A : Type) (ys xs l e : list A) (a b : A),
  subsequence xs ys -> xs = l ++ b :: e -> In a e ->
  exists l' e', ys = l' ++ b :: e' /\ In a e'.
Proof.
  induction ys as [|y ys IH]; intros xs l e a b H E Ha; simpl in H.
  - subst xs. destruct l; discriminate.
  - destruct xs as [|x xs]; [destruct l; discriminate|].
    destruct H as [[-> H]|H].
    + destruct l as [|x0 l].
      * simpl in E. inversion E; subst. exists [], ys. split; [reflexivity|].
        eapply subsequence_In; eauto.
      * simpl in E. inversion E; subst.
        destruct (IH _ l e a b H eq_refl Ha) as (l' & e' & -> & Ha').
        exists (x0 :: l'), e'. split; [reflexivity | exact Ha'].
    + destruct (IH _ l e a b H E Ha) as (l' & e' & -> & Ha').
      exists (y :: l'), e'. split; [reflexivity | exact Ha'].
Qed.

Lemma subsequence_map : forall (A B : Type) (f : A -> B) (ys xs : list A),
  subsequence xs ys -> subsequence (map f xs) (map f ys).
Proof.
  induction ys as [|y ys IH]; intros xs H; simpl in *.
  - subst xs. reflexivity.
  - destruct xs as [|x xs]; simpl; [exact I|].
    destruct H as [[-> H]|H]; [left; split; [reflexivity | apply IH; exact H]|].
    right. apply (IH (x :: xs)). exact H.
Qed.

(** X16. Every frame written with [ws.send] was handed to the socket by
    the governor, at the time the wire shows, and so the rate limit holds
    for these frames on the socket itself: in every run of a session whose
    throttle interval [i] is positive, started at a clock value above [i]
    and in which no timer was asked for a delay above [TIMEOUT_MAX], any
    two of them are at least [i] apart.  The protocol pings of [ws.ping()]
    are not among them: they are written outside the governor. *)
Theorem wire_is_rate_limited :
  forall (kind : option string) (mode : XTBMode) (cfg : ClientConfig) (t0 : Z)
         (es : list event),
    let i := nullish (commandThrottleInterval cfg) DEFAULT_THROTTLE in
    let s := run (construct kind mode cfg t0) es in
    0 < i -> i < t0 -> overlong (loop s) = false ->
    subsequence (wire (_ws s)) (dispatched (throttle s))
    /\ forall later b earlier a,
         map fst (wire (_ws s)) = later ++ b :: earlier ->
         In a earlier -> a + i <= b.
Proof.
  intros kind mode cfg t0 es i s H1 H2 Ho.
  destruct (reachable_sound kind mode cfg t0 es) as (_ & W & _). fold s in W.
  unfold through_governor in W. split; [exact W|].
  destruct (run_sound es _ (construct_tidy kind mode cfg t0)) as [T G].
  specialize (G (construct_governed kind mode cfg t0 H1 H2)).
  destruct G as [Hi G]. fold s in Hi, T, G. simpl in T, G.
  assert (Ei : interval s = i).
  { unfold interval, s. rewrite config_run. destruct kind; reflexivity. }
  rewrite Ei in G. destruct G as [G|G]; [congruence|].
  destruct G as [P S _ _]. unfold schedule in S. rewrite map_app in S.
  apply spaced_app_r in S.
  intros later b earlier a E Ha.
  destruct (subsequence_split _ _ _ later earlier a b
              (subsequence_map _ _ fst _ _ W) E Ha) as (l' & e' & E' & Ha').
  rewrite E' in S.
  apply (spaced_later i l' b e' a); [lia | exact S | exact Ha'].
Qed.

Lemma wire_is_rate_limited_witness :
  subsequence
    (wire (_ws (run (construct None demo no_config 1700000000000) burst)))
    (dispatched (throttle (run (construct None demo no_config 1700000000000) burst))).
Proof.
  refine (proj1 (wire_is_rate_limited None demo no_config 1700000000000 burst
                   _ _ _)).
  - reflexivity.
  - reflexivity.
  - vm_compute. reflexivity.
Defined.

(** ** The promise of [sendCommand] *)

Lemma find_snoc_fresh : forall (A : Type) (f : A -> bool) (l : list A) (x : A),
  (forall c, In c l -> f c = false) -> f x = true ->
  find f (l ++ [x]) = Some x.
Proof.
  induction l as [|a l IH]; intros x H Hx; simpl.
  - rewrite Hx. reflexivity.
  - rewrite (H a) by (left; reflexivity). apply IH; [|exact Hx].
    intros c Hc. apply H. right. exact Hc.
Qed.

(** X17. [sendCommand] on a governor whose window is over hands the frame
    to the socket at once, and its promise follows the write: on an open
    socket it is pending until the socket calls back, then resolved when
    the write succeeded and rejected with the socket's error when it did
    not; on a socket that is not open it is rejected at once with
    ['WebSocket is not open'] and nothing is written. *)
Theorem sendCommand_follows_the_write :
  forall (kind : option string) (mode : XTBMode) (cfg : ClientConfig) (t0 : Z)
         (es : list event) (data : object),
    let s := run (construct kind mode cfg t0) es in
    let r := returning (sendCommand data) s in
    (interval s <? now (loop s) - currentTick (throttle s)) = true ->
    match readyState (_ws s) with
    | OPEN =>
        wire (_ws (snd r)) = (now (loop s), JSON_stringify data) :: wire (_ws s)
        /\ returned_state (snd r) (fst r) = Some Pending
        /\ forall err,
             returned_state
               (step (snd r) (WsSent (List.length (wire (_ws s))) err)) (fst r)
             = Some (match err with
                     | None => Fulfilled JUndefined
                     | Some e => Rejected e
                     end)
    | st =>
        wire (_ws (snd r)) = wire (_ws s)
        /\ returned_state (snd r) (fst r) = Some (Rejected (not_open st))
    end.
Proof.
  intros kind mode cfg t0 es data s r Hw.
  destruct (reachable_sound kind mode cfg t0 es) as (_ & _ & C). fold s in C.
  subst r. unfold returning, new_returned, sendCommand. cbv beta iota zeta.
  cbn [fst snd].
  set (q := List.length (returned s)).
  set (s1 := with_returned (fun rs => rs ++ [Pending]) s).
  assert (Hq : nth_error (returned s1) q = Some Pending)
    by (unfold s1, q; cbn; apply nth_error_snoc).
  rewrite sendThrottled_idle by exact Hw.
  destruct (readyState (_ws s)) eqn:E.
  - unfold sendMessage. cbn [readyState _ws with_throttle]. fold s1.
    change (readyState (_ws s1)) with (readyState (_ws s)). rewrite E.
    split; [reflexivity|]. unfold returned_state. cbn.
    apply settle_returned_at_pending. exact Hq.
  - rewrite sendMessage_open by exact E. split; [reflexivity|].
    split; [exact Hq|]. intros err. cbn [step]. unfold on_sent.
    cbn [callbacks _ws with_ws with_throttle wire].
    rewrite find_snoc_fresh.
    + unfold returned_state. destruct err as [e|]; cbn;
        apply settle_returned_at_pending; exact Hq.
    + intros [n w] Hc. cbn. apply Nat.eqb_neq. apply C in Hc.
      change (wire (_ws s1)) with (wire (_ws s)). lia.
    + cbn. apply Nat.eqb_refl.
  - unfold sendMessage. cbn [readyState _ws with_throttle]. fold s1.
    change (readyState (_ws s1)) with (readyState (_ws s)). rewrite E.
    split; [reflexivity|]. unfold returned_state. cbn.
    apply settle_returned_at_pending. exact Hq.
  - unfold sendMessage. cbn [readyState _ws with_throttle]. fold s1.
    change (readyState (_ws s1)) with (readyState (_ws s)). rewrite E.
    split; [reflexivity|]. unfold returned_state. cbn.
    apply settle_returned_at_pending. exact Hq.
Qed.

Lemma sendCommand_follows_the_write_witness :
  returned_state
    (step (snd (returning (sendCommand [("command", JStr "getServerTime")])
                  (run (construct None demo no_config 1700000000000) idle_open)))
          (WsSent (List.length
                     (wire (_ws (run (construct None demo no_config 1700000000000)
                                     idle_open))))
                  (Some EPIPE)))
    (fst (returning (sendCommand [("command", JStr "getServerTime")])
            (run (construct None demo no_config 1700000000000) idle_open)))
  = Some (Rejected EPIPE).
Proof.
  pose proof (sendCommand_follows_the_write None demo no_config 1700000000000
                idle_open [("command", JStr "getServerTime")]) as H.
  cbv zeta in H.
  assert (E : readyState (_ws (run (construct None demo no_config 1700000000000)
                                   idle_open)) = OPEN)
    by (vm_compute; reflexivity).
  rewrite E in H. apply H. vm_compute. reflexivity.
Defined.

(** ** A ping before the socket has opened *)

(** X18. [ping] on a socket that is still connecting is rejected with
    ['WebSocket is not open: readyState 0 (CONNECTING)'], the error of the
    protocol ping, and the [ping] command is not sent. *)
Theorem ping_needs_an_open_socket :
  forall s : Client,
    readyState (_ws s) = CONNECTING ->
    let r := returning ping s in
    returned_state (snd r) (fst r)
    = Some (Rejected
              (Error (JStr "WebSocket is not open: readyState 0 (CONNECTING)")))
    /\ nothing_sent s (snd r)
    /\ trace (snd r) = trace s.
Proof.
  intros s H. cbv zeta. unfold returning, new_returned, ping.
  cbv beta iota zeta. cbn [fst snd readyState _ws with_returned].
  rewrite H. cbn [complete].
  split; [|split; [repeat split | reflexivity]].
  pose proof (new_returned_rejected s (not_open CONNECTING)) as R.
  unfold new_returned in R. exact R.
Qed.

Lemma ping_needs_an_open_socket_witness :
  returned_state
    (snd (returning ping (construct None demo no_config 1700000000000)))
    (fst (returning ping (construct None demo no_config 1700000000000)))
  = Some (Rejected
            (Error (JStr "WebSocket is not open: readyState 0 (CONNECTING)"))).
Proof.
  apply (ping_needs_an_open_socket (construct None demo no_config 1700000000000)).
  reflexivity.
Defined.

(** ** Closing twice *)

Lemma filter_twice : forall (A : Type) (f : A -> bool) (l : list A),
  filter f (filter f l) = filter f l.
Proof.
  induction l as [|a l IH]; simpl; [reflexivity|].
  destruct (f a) eqn:E; simpl; rewrite ?E, IH; reflexivity.
Qed.

Lemma remove_timer_twice : forall h s,
  remove_timer h (remove_timer h s) = remove_timer h s.
Proof.
  intros h s. unfold remove_timer, with_loop. cbn [loop _mode _streaming config
    _isLoggedIn _streamSessionId _pingInterval _ws throttle promises returned trace].
  assert (E : disarm h (disarm h (loop s)) = disarm h (loop s)).
  { unfold disarm. cbn [now timers next_timer overlong].
    rewrite filter_twice. reflexivity. }
  rewrite E. reflexivity.
Qed.

Lemma ws_close_twice : forall s, ws_close (ws_close s) = ws_close s.
Proof.
  intros s. unfold ws_close, with_ws. cbn [loop _mode _streaming config
    _isLoggedIn _streamSessionId _pingInterval _ws throttle promises returned trace
    readyState on_message wire callbacks pings].
  destruct (readyState (_ws s)); reflexivity.
Qed.

Lemma close_cleared : forall h s,
  _pingInterval s = Some h ->
  BaseClient_close s = emit "close" NoArg (ws_close (remove_timer h s)).
Proof. intros h s H. unfold BaseClient_close. rewrite H. reflexivity. Qed.

Lemma close_plain : forall s,
  _pingInterval s = None ->
  BaseClient_close s = emit "close" NoArg (ws_close s).
Proof. intros s H. unfold BaseClient_close. rewrite H. reflexivity. Qed.

(** X19. [BaseClient.close] may be called again: the second call finds the
    interval cleared and the socket closing, and only emits ['close'] once
    more. *)
Theorem close_twice_only_emits_again :
  forall s : Client,
    BaseClient_close (BaseClient_close s)
    = emit "close" NoArg (BaseClient_close s).
Proof.
  intros s. destruct (_pingInterval s) as [h|] eqn:E.
  - rewrite (close_cleared h s E).
    rewrite (close_cleared h (emit "close" NoArg (ws_close (remove_timer h s))) E).
    change (remove_timer h (emit "close" NoArg (ws_close (remove_timer h s))))
      with (emit "close" NoArg (ws_close (remove_timer h (remove_timer h s)))).
    rewrite remove_timer_twice.
    change (ws_close (emit "close" NoArg (ws_close (remove_timer h s))))
      with (emit "close" NoArg (ws_close (ws_close (remove_timer h s)))).
    rewrite ws_close_twice. reflexivity.
  - rewrite (close_plain s E).
    rewrite (close_plain (emit "close" NoArg (ws_close s)) E).
    change (ws_close (emit "close" NoArg (ws_close s)))
      with (emit "close" NoArg (ws_close (ws_close s))).
    rewrite ws_close_twice. reflexivity.
Qed.

(** ** A method whose call times out *)

Lemma timeout_reaches_the_caller : forall data timeout rnd k q s,
  In k [KLogin q; KReturnData q] ->
  nth_error (returned s) q = Some Pending ->
  let r := sendCommandAndAwaitResponse data timeout rnd k s in
  let s' := run_callback (CbTimeout (fst r)) (snd r) in
  returned_state s' q = Some (Rejected (Error (JStr "Timeout")))
  /\ promise_state s' (fst r) = Some (Rejected (Error (JStr "Timeout")))
  /\ forall t, ~ In (OnData t (fst r)) (on_message (_ws s')).
Proof.
  intros data timeout rnd k q s Hk Hq.
  pose proof (sendCommandAndAwaitResponse_effect data timeout rnd k s) as E.
  pose proof (returned_sendCommandAndAwaitResponse data timeout rnd k s) as Er.
  cbv zeta in *.
  destruct (sendCommandAndAwaitResponse data timeout rnd k s) as [p s1].
  cbn [fst snd] in *. destruct E as (Ep & Eps & El & _).
  unfold run_callback, settle. cbn [promises ws_off with_ws].
  rewrite Eps, Ep, nth_error_snoc.
  assert (Hp : nth_error (settle_at (List.length (promises s))
                            (Rejected (Error (JStr "Timeout")))
                            (promises s ++ [(Pending, k)]))
                         (List.length (promises s))
               = Some (Rejected (Error (JStr "Timeout")), k))
    by (apply settle_at_pending, nth_error_snoc).
  assert (Hl : forall t, ~ In (OnData t (List.length (promises s)))
                 (filter (fun f => negb (is_onData (List.length (promises s)) f))
                         (on_message (_ws s1)))).
  { intros t H. apply filter_In in H. destruct H as [_ H].
    simpl in H. rewrite Nat.eqb_refl in H. discriminate. }
  destruct Hk as [<-|[<-|[]]]; cbn; unfold returned_state, promise_state; cbn;
    rewrite Eps, Hp, Er;
    (split; [apply settle_returned_at_pending; exact Hq | split; [reflexivity | exact Hl]]).
Qed.

(** X20. When the call behind [login] or a business command times out,
    the promise the method returned is rejected with [Error('Timeout')]
    and the listener of the call is removed. *)
Theorem method_fails_when_its_call_times_out :
  forall (s : Client) (userId password : string) (appName : option string)
         (rnd symbol : string) (transaction : json) (order : Z),
    _isLoggedIn s = true ->
    forall r,
      In r [login userId password appName rnd s; getAllSymbols rnd s;
            getSymbol symbol rnd s; startTradeTransaction transaction rnd s;
            getTradeTransactionStatus order rnd s] ->
      let s' := run_callback (CbTimeout (List.length (promises s))) (snd r) in
      returned_state (snd r) (fst r) = Some Pending
      /\ returned_state s' (fst r) = Some (Rejected (Error (JStr "Timeout")))
      /\ forall t, ~ In (OnData t (List.length (promises s))) (on_message (_ws s')).
Proof.
  intros s userId password appName rnd symbol transaction order Hl r Hr.
  assert (G : forall data k,
            In k [KLogin (List.length (returned s));
                  KReturnData (List.length (returned s))] ->
            let s0 := with_returned (fun rs => rs ++ [Pending]) s in
            let c := sendCommandAndAwaitResponse data None rnd k s0 in
            let s' := run_callback (CbTimeout (List.length (promises s))) (snd c) in
            returned_state (snd c) (List.length (returned s)) = Some Pending
            /\ returned_state s' (List.length (returned s))
               = Some (Rejected (Error (JStr "Timeout")))
            /\ forall t, ~ In (OnData t (List.length (promises s)))
                           (on_message (_ws s'))).
  { intros data k Hk. cbv zeta.
    set (s0 := with_returned (fun rs => rs ++ [Pending]) s).
    assert (Hq : nth_error (returned s0) (List.length (returned s)) = Some Pending)
      by (unfold s0; cbn; apply nth_error_snoc).
    pose proof (timeout_reaches_the_caller data None rnd k _ s0 Hk Hq) as T.
    pose proof (sendCommandAndAwaitResponse_effect data None rnd k s0) as E.
    pose proof (returned_sendCommandAndAwaitResponse data None rnd k s0) as Er.
    cbv zeta in *.
    destruct (sendCommandAndAwaitResponse data None rnd k s0) as [p s1].
    cbn [fst snd] in *. destruct E as (Ep & _). subst p.
    change (promises s0) with (promises s) in T.
    destruct T as (T1 & _ & T3).
    split; [unfold returned_state; rewrite Er; exact Hq|].
    split; [exact T1 | exact T3]. }
  simpl in Hr.
  destruct Hr as [<-|Hr].
  { unfold login, new_returned. cbv beta iota zeta.
    match goal with |- context [sendCommandAndAwaitResponse ?d None rnd ?k _] =>
      pose proof (G d k (or_introl eq_refl)) as R;
      cbv zeta in R;
      destruct (sendCommandAndAwaitResponse d None rnd k
                  (with_returned (fun rs => rs ++ [Pending]) s)) as [p s1]
    end.
    exact R. }
  assert (Q : forall data,
            let r := guarded_command data rnd s in
            let s' := run_callback (CbTimeout (List.length (promises s))) (snd r) in
            returned_state (snd r) (fst r) = Some Pending
            /\ returned_state s' (fst r) = Some (Rejected (Error (JStr "Timeout")))
            /\ forall t, ~ In (OnData t (List.length (promises s)))
                           (on_message (_ws s'))).
  { intros data. unfold guarded_command, new_returned. cbv beta iota zeta.
    cbn [_isLoggedIn with_returned]. rewrite Hl. cbn [negb].
    match goal with |- context [sendCommandAndAwaitResponse ?d None rnd ?k _] =>
      pose proof (G d k (or_intror (or_introl eq_refl))) as R;
      cbv zeta in R;
      destruct (sendCommandAndAwaitResponse d None rnd k
                  (with_returned (fun rs => rs ++ [Pending]) s)) as [p s1]
    end.
    exact R. }
  destruct Hr as [<-|[<-|[<-|[<-|[]]]]]; apply Q.
Qed.

Lemma method_fails_when_its_call_times_out_witness :
  returned_state
    (run_callback (CbTimeout (List.length (promises logged_in)))
       (snd (getAllSymbols "0.7c1d" logged_in)))
    (fst (getAllSymbols "0.7c1d" logged_in))
  = Some (Rejected (Error (JStr "Timeout"))).
Proof.
  refine (proj1 (proj2 (method_fails_when_its_call_times_out
                          logged_in "11223344" "secret" None "0.7c1d" "EURUSD"
                          JNull 0 _ (getAllSymbols "0.7c1d" logged_in) _))).
  - vm_compute. reflexivity.
  - simpl. right. left. reflexivity.
Defined.

(** ** Login, logout and the business commands *)



(** ** The keepalive over time *)

Lemma station_core : forall s s', core s' = core s -> station s' = station s.
Proof.
  intros s s' H. destruct (core_eq _ _ H) as (_ & A & _ & _ & _ & _ & B).
  unfold station. rewrite A, B. reflexivity.
Qed.

Lemma reject_plain : forall p e s,
  loop (settle p (Rejected e) s) = loop s
  /\ throttle (settle p (Rejected e) s) = throttle s
  /\ station (settle p (Rejected e) s) = station s.
Proof.
  intros p e s. unfold settle.
  destruct (nth_error (promises s) p) as [[[| |] k]|];
    try (repeat split; reflexivity).
  destruct k; repeat split; reflexivity.
Qed.

Lemma calm_submit : forall i m w s s',
  gov s' = submit_gov i m w (gov s) -> calm (loop s) (loop s').
Proof.
  intros i m w s s' H. unfold gov, submit_gov in H.
  destruct (window i (now (loop s)) (throttle s)) as [d t1].
  destruct (0 <? d).
  - right. exists m, w, d. congruence.
  - left. congruence.
Qed.

Lemma calm_run_callback : forall cb s,
  calm (loop s) (loop (run_callback cb s))
  /\ station (run_callback cb s) = station s.
Proof.
  intros [p| |m w] s; simpl.
  - destruct (reject_plain p (Error (JStr "Timeout")) (ws_off p s)) as (L & _ & S).
    rewrite L, S. split; [left|]; reflexivity.
  - split; [|apply station_core, core_ping].
    unfold ping. destruct (readyState (_ws s)).
    + rewrite (f_equal (fun g => snd (fst g)) (gov_complete_failed _ _ s) : loop _ = _).
      left. reflexivity.
    + match goal with |- context [sendCommand ?d ?w ?x] =>
        apply (calm_submit (interval x) (JSON_stringify d) w x) end.
      apply gov_sendThrottled.
    + eapply calm_submit. apply gov_sendThrottled.
    + eapply calm_submit. apply gov_sendThrottled.
  - split; [|apply station_core, core_sendMessage].
    rewrite (f_equal (fun g => snd (fst g)) (gov_sendMessage m w s) : loop _ = _).
    left. reflexivity.
Qed.

Lemma submitted_run_callback : forall cb s,
  cb <> CbPing ->
  submitted (throttle (run_callback cb s)) = submitted (throttle s).
Proof.
  intros [p| |m w] s H; simpl.
  - destruct (reject_plain p (Error (JStr "Timeout")) (ws_off p s)) as (_ & T & _).
    rewrite T. reflexivity.
  - contradiction.
  - apply submitted_sendMessage.
Qed.

Lemma submitted_ping : forall w s,
  readyState (_ws s) <> CONNECTING ->
  submitted (throttle (ping w s))
  = JSON_stringify (ping_frame s) :: submitted (throttle s).
Proof.
  intros w s H. unfold ping.
  destruct (readyState (_ws s)) eqn:E; [contradiction| | |];
    unfold sendCommand; rewrite submitted_sendThrottled; reflexivity.
Qed.

Lemma ping_frame_station : forall s s',
  station s' = station s -> ping_frame s' = ping_frame s.
Proof.
  intros s s' H. unfold station in H. inversion H as [[A B]].
  unfold ping_frame. rewrite B. reflexivity.
Qed.

Lemma keepalive_calm : forall x l l',
  keepalive x l -> calm l l' -> keepalive x l'.
Proof.
  intros x l l' [Hx Hu] [->|(m & w & d & ->)]; [split; assumption|].
  simpl. split; [apply in_or_app; left; exact Hx|].
  intros y Hy Ha. apply in_app_or in Hy. destruct Hy as [Hy|[<-|[]]].
  - apply Hu; assumption.
  - simpl in Ha. discriminate.
Qed.

Lemma keepalive_expired : forall x s y,
  keepalive x (loop s) -> In y (timers (loop s)) -> tid y <> tid x ->
  keepalive x (loop (expired y s)).
Proof.
  intros x s y [Hx Hu] Hy Hne. unfold expired.
  destruct (period y) as [d|]; simpl; split.
  - apply in_map_iff. exists x. split; [|exact Hx].
    destruct (Nat.eqb (tid x) (tid y)) eqn:E; [|reflexivity].
    apply Nat.eqb_eq in E. congruence.
  - intros z Hz Ha. apply in_map_iff in Hz. destruct Hz as (z0 & <- & Hz0).
    destruct (Nat.eqb (tid z0) (tid y)) eqn:E.
    + simpl in Ha. apply Nat.eqb_eq in E.
      rewrite (Hu z0 Hz0 Ha) in E. congruence.
    + apply Hu; assumption.
  - apply filter_In. split; [exact Hx|].
    apply negb_true_iff, Nat.eqb_neq. congruence.
  - intros z Hz. apply filter_In in Hz. apply Hu. tauto.
Qed.

(** Another timer expires: the interval stays armed and no ping is
    handed over. *)
Lemma keepalive_fire_other : forall x h ids s,
  tidy_at (h :: ids) s -> keepalive x (loop s) -> h <> tid x ->
  keepalive x (loop (fire h s))
  /\ submitted (throttle (fire h s)) = submitted (throttle s)
  /\ station (fire h s) = station s.
Proof.
  intros x h ids s T K Hne.
  destruct (find_timer h s) as [y|] eqn:E.
  2:{ unfold fire. rewrite E. split; [exact K | split; reflexivity]. }
  rewrite (fire_found h s y E).
  apply find_timer_in in E. destruct E as [Hy Hh]. subst h.
  pose proof (keepalive_expired x s y K Hy Hne) as K1.
  destruct (calm_run_callback (action y) (expired y s)) as [Q S].
  split; [|split].
  - eapply keepalive_calm; [exact K1 | exact Q].
  - rewrite submitted_run_callback.
    + unfold expired. destruct (period y); reflexivity.
    + intros Ha. apply Hne. f_equal. apply (proj2 K); assumption.
  - rewrite S. unfold expired. destruct (period y); reflexivity.
Qed.

Lemma keepalive_fold_other : forall x ids rest s,
  tidy_at (ids ++ rest) s -> keepalive x (loop s) -> ~ In (tid x) ids ->
  keepalive x (loop (fold_left (fun s h => fire h s) ids s))
  /\ submitted (throttle (fold_left (fun s h => fire h s) ids s))
     = submitted (throttle s)
  /\ station (fold_left (fun s h => fire h s) ids s) = station s.
Proof.
  intros x. induction ids as [|h ids IH]; intros rest s T K Hno; simpl;
    [split; [exact K | split; reflexivity]|].
  destruct (keepalive_fire_other x h (ids ++ rest) s T K) as (K1 & S1 & C1).
  { intros ->. apply Hno. left. reflexivity. }
  destruct (IH rest (fire h s)) as (K2 & S2 & C2).
  - apply fire_tidy. exact T.
  - exact K1.
  - intros H. apply Hno. right. exact H.
  - split; [exact K2 | split; congruence].
Qed.

(** The interval expires: one ping is handed over and the interval is due
    one period later. *)
Lemma keepalive_fire_self : forall x d ids s,
  action x = CbPing -> period x = Some d ->
  tidy_at (tid x :: ids) s -> keepalive x (loop s) ->
  readyState (_ws s) <> CONNECTING ->
  keepalive {| tid := tid x; due := now (loop s) + d; period := Some d;
               action := CbPing |} (loop (fire (tid x) s))
  /\ submitted (throttle (fire (tid x) s))
     = JSON_stringify (ping_frame s) :: submitted (throttle s)
  /\ station (fire (tid x) s) = station s.
Proof.
  intros x d ids s Ha Hp T [Hx Hu] Hr.
  rewrite (fire_found _ s x (find_timer_unique _ s x T Hx)).
  rewrite Ha. unfold expired. rewrite Hp.
  set (s1 := with_loop (rearm (tid x) d) s).
  destruct (calm_run_callback CbPing s1) as [Q S].
  split; [|split].
  - apply (keepalive_calm _ (loop s1)); [|exact Q].
    unfold s1. simpl. split.
    + apply in_map_iff. exists x. split; [|exact Hx].
      rewrite Nat.eqb_refl, Ha. reflexivity.
    + intros z Hz Hz'. apply in_map_iff in Hz. destruct Hz as (z0 & <- & Hz0).
      destruct (Nat.eqb (tid z0) (tid x)) eqn:E.
      * simpl in Hz'. rewrite Hz'. reflexivity.
      * rewrite (Hu z0 Hz0 Hz'), Nat.eqb_refl in E. discriminate.
  - simpl run_callback. rewrite submitted_ping by exact Hr. reflexivity.
  - rewrite S. reflexivity.
Qed.

Lemma keepalive_tick_before : forall x s,
  tidy_at [] s -> keepalive x (loop s) -> now (loop s) + 1 < due x ->
  keepalive x (loop (tick s))
  /\ submitted (throttle (tick s)) = submitted (throttle s)
  /\ station (tick s) = station s.
Proof.
  intros x s T K Hlt. unfold tick.
  apply (keepalive_fold_other x _ [] (with_loop advance s)).
  - rewrite app_nil_r. apply advance_tidy. exact T.
  - exact K.
  - unfold due_timers. simpl. intros H. apply in_map_iff in H.
    destruct H as (y & Hy1 & Hy2). apply filter_In in Hy2.
    destruct Hy2 as [Hy2 Hy3]. apply Z.leb_le in Hy3.
    assert (y = x).
    { apply (NoDup_tid_eq (timers (loop s))); auto.
      - apply (t_nodup _ _ _ T).
      - apply K. }
    subst y. lia.
Qed.

Lemma keepalive_tick_due : forall x d s,
  action x = CbPing -> period x = Some d ->
  tidy_at [] s -> keepalive x (loop s) ->
  readyState (_ws s) <> CONNECTING ->
  now (loop s) + 1 = due x ->
  keepalive (later x 1 d) (loop (tick s))
  /\ submitted (throttle (tick s))
     = JSON_stringify (ping_frame s) :: submitted (throttle s)
  /\ station (tick s) = station s.
Proof.
  intros x d s Ha Hp T K Hr Hdue. unfold tick.
  pose proof (advance_tidy s T) as T1.
  set (s1 := with_loop advance s) in *.
  assert (K1 : keepalive x (loop s1)) by exact K.
  assert (Hin : In (tid x) (due_timers s1)).
  { unfold due_timers. apply in_map. apply filter_In. split; [apply K|].
    apply Z.leb_le. simpl. lia. }
  destruct (in_split _ _ Hin) as (ids1 & ids2 & Hids).
  destruct (t_ids _ _ _ T1) as [N _]. rewrite Hids in N.
  apply NoDup_remove_2 in N.
  rewrite Hids in *. rewrite fold_left_app. cbn [fold_left].
  destruct (keepalive_fold_other x ids1 (tid x :: ids2) s1 T1 K1)
    as (K2 & S2 & C2).
  { intros H. apply N. apply in_or_app. left. exact H. }
  pose proof (fold_fire_tidy ids1 (tid x :: ids2) s1 T1) as T2.
  pose proof (now_fold_fire ids1 s1) as N2.
  set (s2 := fold_left (fun s h => fire h s) ids1 s1) in *.
  assert (R2 : readyState (_ws s2) <> CONNECTING).
  { unfold station in C2. inversion C2 as [[A B]]. rewrite A. exact Hr. }
  destruct (keepalive_fire_self x d ids2 s2 Ha Hp T2 K2 R2) as (K3 & S3 & C3).
  pose proof (fire_tidy _ _ _ T2) as T3.
  set (s3 := fire (tid x) s2) in *.
  assert (E : {| tid := tid x; due := now (loop s2) + d; period := Some d;
                 action := CbPing |} = later x 1 d).
  { unfold later. rewrite Ha, Hp, N2.
    change (now (loop s1)) with (now (loop s) + 1). f_equal. lia. }
  rewrite E in K3.
  destruct (keepalive_fold_other (later x 1 d) ids2 [] s3) as (K4 & S4 & C4).
  - rewrite app_nil_r. exact T3.
  - exact K3.
  - simpl. intros H. apply N. apply in_or_app. right. exact H.
  - split; [exact K4 | split].
    + rewrite S4, S3, S2. rewrite (ping_frame_station _ _ C2). reflexivity.
    + rewrite C4, C3, C2. reflexivity.
Qed.

Lemma later_0 : forall x d, later x 0 d = x.
Proof.
  intros [h t p a] d. unfold later. cbn [tid due period action].
  f_equal. lia.
Qed.

Lemma later_later : forall x c d, later (later x 1 d) c d = later x (S c) d.
Proof.
  intros x c d. unfold later. cbn [tid due period action].
  f_equal. lia.
Qed.

Lemma beats_wait : forall r d n,
  1 < r -> 0 <= n -> beats r d (n + 1) = beats (r - 1) d n.
Proof.
  intros r d n Hr Hn. unfold beats.
  destruct (n + 1 <? r) eqn:E1; destruct (n <? r - 1) eqn:E2;
    try reflexivity;
    try (apply Z.ltb_lt in E1); try (apply Z.ltb_ge in E1);
    try (apply Z.ltb_lt in E2); try (apply Z.ltb_ge in E2); try lia.
  do 3 f_equal. lia.
Qed.

Lemma beats_due : forall d n,
  1 <= d -> 0 <= n -> beats 1 d (n + 1) = S (beats d d n).
Proof.
  intros d n Hd Hn. unfold beats.
  destruct (n + 1 <? 1) eqn:E1; [apply Z.ltb_lt in E1; lia|].
  f_equal. replace (n + 1 - 1) with n by lia.
  destruct (n <? d) eqn:E2.
  - apply Z.ltb_lt in E2. rewrite Z.div_small by lia. reflexivity.
  - apply Z.ltb_ge in E2.
    replace n with ((n - d) + 1 * d) at 1 by lia.
    rewrite Z.div_add by lia.
    rewrite Z2Nat.inj_add by (try lia; apply Z.div_pos; lia).
    simpl. lia.
Qed.

Lemma repeat_snoc : forall (A : Type) (a : A) n l,
  repeat a n ++ a :: l = a :: repeat a n ++ l.
Proof.
  intros A a n l. induction n as [|n IH]; simpl; [reflexivity|].
  rewrite IH. reflexivity.
Qed.

(** Only the clock runs: the pings handed to the governor are the
    expirations of the interval. *)
Lemma keepalive_run : forall n x d s,
  action x = CbPing -> period x = Some d ->
  tidy_at [] s -> keepalive x (loop s) ->
  readyState (_ws s) <> CONNECTING ->
  let c := beats (due x - now (loop s)) d (Z.of_nat n) in
  submitted (throttle (run s (repeat Tick n)))
  = repeat (JSON_stringify (ping_frame s)) c ++ submitted (throttle s)
  /\ keepalive (later x c d) (loop (run s (repeat Tick n))).
Proof.
  induction n as [|n IH]; intros x d s Ha Hp T K Hr; cbv zeta.
  - destruct (t_future _ _ _ T x (proj1 K)) as [F1 F2].
    assert (now (loop s) < due x).
    { destruct (Z.eq_dec (due x) (now (loop s))) as [E|E]; [|lia].
      apply F2 in E. destruct E. }
    unfold beats. simpl Z.of_nat.
    destruct (0 <? due x - now (loop s)) eqn:E; [|apply Z.ltb_ge in E; lia].
    simpl. rewrite later_0. split; [reflexivity | exact K].
  - destruct (t_future _ _ _ T x (proj1 K)) as [F1 F2].
    assert (Hlt : now (loop s) < due x).
    { destruct (Z.eq_dec (due x) (now (loop s))) as [E|E]; [|lia].
      apply F2 in E. destruct E. }
    assert (T1 : tidy_at [] (tick s)) by (apply tick_sound; exact T).
    change (run s (repeat Tick (S n))) with (run (tick s) (repeat Tick n)).
    replace (Z.of_nat (S n)) with (Z.of_nat n + 1) by lia.
    destruct (Z.eq_dec (now (loop s) + 1) (due x)) as [Hd|Hd].
    + destruct (keepalive_tick_due x d s Ha Hp T K Hr Hd) as (K1 & S1 & C1).
      assert (R1 : readyState (_ws (tick s)) <> CONNECTING).
      { unfold station in C1. inversion C1 as [[A B]]. rewrite A. exact Hr. }
      assert (Hd1 : 1 <= d).
      { apply (t_shape _ _ _ T x (proj1 K) d Hp). }
      destruct (IH (later x 1 d) d (tick s)) as [S2 K2]; auto.
      rewrite later_later in K2.
      replace (due (later x 1 d) - now (loop (tick s))) with d in *
        by (rewrite now_tick; unfold later; cbn [due]; lia).
      replace (due x - now (loop s)) with 1 by lia.
      rewrite beats_due by lia. split; [|exact K2].
      rewrite S2, S1, (ping_frame_station _ _ C1). simpl.
      rewrite repeat_snoc. reflexivity.
    + destruct (keepalive_tick_before x s T K) as (K1 & S1 & C1); [lia|].
      assert (R1 : readyState (_ws (tick s)) <> CONNECTING).
      { unfold station in C1. inversion C1 as [[A B]]. rewrite A. exact Hr. }
      destruct (IH x d (tick s) Ha Hp T1 K1 R1) as [S2 K2].
      rewrite now_tick in *.
      rewrite beats_wait by lia.
      replace (due x - now (loop s) - 1) with (due x - (now (loop s) + 1)) by lia.
      split; [|exact K2].
      rewrite S2, S1, (ping_frame_station _ _ C1). reflexivity.
Qed.

(** X22. The keepalive beats once per period.  In a state a session
    reaches on a socket that has opened, with one keepalive interval armed
    and nothing but time passing for [n] milliseconds, the frames handed to
    the governor in that time are [ping] commands and nothing else: none
    before the interval is due, one when it is due and one every period
    after that, whatever other timers expire in between.  The interval
    stays armed, due one period after its last expiration. *)
Theorem keepalive_beats_every_period :
  forall (kind : option string) (mode : XTBMode) (cfg : ClientConfig) (t0 : Z)
         (es : list event) (x : timer) (d : Z) (n : nat),
    let s := run (construct kind mode cfg t0) es in
    In x (timers (loop s)) -> action x = CbPing -> period x = Some d ->
    (forall y, In y (timers (loop s)) -> action y = CbPing -> y = x) ->
    readyState (_ws s) <> CONNECTING ->
    let s' := run s (repeat Tick n) in
    let c := beats (due x - now (loop s)) d (Z.of_nat n) in
    submitted (throttle s')
    = repeat (JSON_stringify (ping_frame s)) c ++ submitted (throttle s)
    /\ In (later x c d) (timers (loop s'))
    /\ now (loop s) < due x.
Proof.
  intros kind mode cfg t0 es x d n s Hx Ha Hp Hu Hr. cbv zeta.
  pose proof (reachable_tidy kind mode cfg t0 es) as T. fold s in T.
  destruct (keepalive_run n x d s Ha Hp T (conj Hx Hu) Hr) as [S K].
  split; [exact S|]. split; [apply K|].
  destruct (t_future _ _ _ T x Hx) as [F1 F2].
  destruct (Z.eq_dec (due x) (now (loop s))) as [E|E]; [|lia].
  apply F2 in E. destruct E.
Qed.

Lemma keepalive_beats_every_period_witness :
  let s := run (construct None demo no_config 1700000000000)
               [WsOpen; WsSent 0 None] in
  let x := {| tid := 0; due := 1700000010000; period := Some 10000;
              action := CbPing |} in
  let s' := run s (repeat Tick (Z.to_nat 25000)) in
  let c := beats (due x - now (loop s)) 10000 (Z.of_nat (Z.to_nat 25000)) in
  c = 2%nat
  /\ submitted (throttle s')
     = repeat (JSON_stringify (ping_frame s)) c ++ submitted (throttle s)
  /\ In (later x c 10000) (timers (loop s')).
Proof.
  cbv zeta. split; [vm_compute; reflexivity|].
  assert (E : timers (loop (run (construct None demo no_config 1700000000000)
                                [WsOpen; WsSent 0 None]))
              = [{| tid := 0%nat; due := 1700000010000; period := Some 10000;
                    action := CbPing |}]) by (vm_compute; reflexivity).
  refine ((fun H => conj (proj1 H) (proj1 (proj2 H)))
            (keepalive_beats_every_period None demo no_config 1700000000000
               [WsOpen; WsSent 0 None]
               {| tid := 0; due := 1700000010000; period := Some 10000;
                  action := CbPing |} 10000 (Z.to_nat 25000) _ _ _ _ _)).
  - rewrite E. left. reflexivity.
  - reflexivity.
  - reflexivity.
  - rewrite E. intros y [<-|[]] _. reflexivity.
  - vm_compute. discriminate.
Defined.
